(** * Trap delivery core of the RISC-V hart model (riscvExceptions.c)

    A shallow embedding of the exception, interrupt, CLIC and Debug-Mode
    machinery of [riscv-ovpsim/source/riscvExceptions.c], followed by the
    properties established about it.

    Conventions of the embedding:
    - every C integer is a [Z]; wrap-around of [Uns8], [Uns32] and [Uns64]
      arithmetic is written out with [wrap8], [wrap32] and [wrap64];
    - a control and status register is one [Z] backing store, its bit fields
      are read and written with [getField] and [setField] (a write truncates
      the value to the width of the field, as a C bit field does);
    - the hart is a record that is threaded through every function (explicit
      state passing); calls into the host simulator ([vmirt...]) and into
      observers ([extCBs]) append to the [events] trace of the hart;
    - the cluster modelled has one hart, which is its own [smpRoot]. *)

From Stdlib Require Import ZArith List Bool Lia.
Import ListNotations.

Local Open Scope Z_scope.

(* ------------------------------------------------------------------ *)
(** ** Machine integers and bit fields *)

Module Bits.

Definition wrap8  (x : Z) : Z := Z.land x (Z.ones 8).
Definition wrap32 (x : Z) : Z := Z.land x (Z.ones 32).
Definition wrap64 (x : Z) : Z := Z.land x (Z.ones 64).

(** C truth value of an integer. *)
Definition truthy (x : Z) : bool := negb (x =? 0).

Definition b2z (b : bool) : Z := if b then 1 else 0.

(** Field of [w] bits whose least significant bit is bit [lo]. *)
Definition getField (lo w r : Z) : Z := Z.land (Z.shiftr r lo) (Z.ones w).

Definition setField (lo w r v : Z) : Z :=
  Z.lor (Z.land r (Z.lnot (Z.shiftl (Z.ones w) lo)))
        (Z.shiftl (Z.land v (Z.ones w)) lo).

Definition inField (lo w n : Z) : bool := (lo <=? n) && (n <? lo + w).

Lemma testbit_ones_nonneg w n :
  0 <= w -> 0 <= n -> Z.testbit (Z.ones w) n = (n <? w).
Proof.
  intros Hw Hn. destruct (Z.ltb_spec n w).
  - apply Z.ones_spec_low; lia.
  - apply Z.ones_spec_high; lia.
Qed.

Lemma testbit_getField lo w r n :
  0 <= lo -> 0 <= w -> 0 <= n ->
  Z.testbit (getField lo w r) n = Z.testbit r (n + lo) && (n <? w).
Proof.
  intros Hlo Hw Hn. unfold getField.
  rewrite Z.land_spec, Z.shiftr_spec by lia.
  now rewrite testbit_ones_nonneg by lia.
Qed.

Lemma testbit_setField lo w r v n :
  0 <= lo -> 0 <= w -> 0 <= n ->
  Z.testbit (setField lo w r v) n =
  if inField lo w n then Z.testbit v (n - lo) else Z.testbit r n.
Proof.
  intros Hlo Hw Hn. unfold setField, inField.
  rewrite Z.lor_spec, Z.land_spec, Z.lnot_spec by lia.
  rewrite !Z.shiftl_spec by lia.
  destruct (Z.leb_spec lo n) as [Hle | Hlt]; simpl.
  - rewrite Z.land_spec, !testbit_ones_nonneg by lia.
    replace (n <? lo + w) with (n - lo <? w)
      by (destruct (Z.ltb_spec (n - lo) w), (Z.ltb_spec n (lo + w)); lia).
    destruct (n - lo <? w); simpl.
    + now rewrite andb_false_r, andb_true_r.
    + now rewrite andb_true_r, andb_false_r, orb_false_r.
  - rewrite (Z.testbit_neg_r _ (n - lo)) by lia.
    rewrite (Z.testbit_neg_r (Z.land v (Z.ones w)) (n - lo)) by lia.
    simpl. now rewrite andb_true_r, orb_false_r.
Qed.

Lemma getField_setField_same lo w r v :
  0 <= lo -> 0 <= w ->
  getField lo w (setField lo w r v) = Z.land v (Z.ones w).
Proof.
  intros Hlo Hw. apply Z.bits_inj'. intros n Hn.
  rewrite testbit_getField, testbit_setField by lia.
  rewrite Z.land_spec, testbit_ones_nonneg by lia.
  unfold inField.
  destruct (Z.ltb_spec n w).
  - replace (lo <=? n + lo) with true by (symmetry; apply Z.leb_le; lia).
    replace (n + lo <? lo + w) with true by (symmetry; apply Z.ltb_lt; lia).
    simpl. now replace (n + lo - lo) with n by lia.
  - now rewrite !andb_false_r.
Qed.

Lemma getField_setField_other lo w lo' w' r v :
  0 <= lo -> 0 <= w -> 0 <= lo' -> 0 <= w' ->
  lo' + w' <= lo \/ lo + w <= lo' ->
  getField lo' w' (setField lo w r v) = getField lo' w' r.
Proof.
  intros Hlo Hw Hlo' Hw' Hdis. apply Z.bits_inj'. intros n Hn.
  rewrite !testbit_getField, testbit_setField by lia.
  destruct (Z.ltb_spec n w') as [Hlt | Hge].
  - unfold inField.
    destruct (Z.leb_spec lo (n + lo')), (Z.ltb_spec (n + lo') (lo + w));
      simpl; try reflexivity; lia.
  - now rewrite !andb_false_r.
Qed.

Lemma getField_range lo w r : 0 <= w -> 0 <= getField lo w r < 2 ^ w.
Proof.
  intros Hw. unfold getField. rewrite Z.land_ones by lia.
  apply Z.mod_pos_bound. apply Z.pow_pos_nonneg; lia.
Qed.

Lemma land_ones_small w v : 0 <= w -> 0 <= v < 2 ^ w -> Z.land v (Z.ones w) = v.
Proof.
  intros Hw Hv. rewrite Z.land_ones by lia. apply Z.mod_small; lia.
Qed.

Lemma getField_bit lo r : 0 <= lo -> getField lo 1 r = b2z (Z.testbit r lo).
Proof.
  intros Hlo. unfold getField. rewrite Z.land_ones by lia.
  change (2 ^ 1) with 2. rewrite <- Z.bit0_mod, Z.shiftr_spec by lia.
  reflexivity.
Qed.

End Bits.
Import Bits.

(* ------------------------------------------------------------------ *)
(** ** Constants of the model headers

    The headers that declare these enumerations ([riscvMode.h],
    [riscvExceptionTypes.h], [riscvTypes.h], [riscvCSR.h]) are not part of
    the sources at hand; the values follow the RISC-V privileged
    architecture and the description of the data model. *)

(** Modelled from the spec: privilege modes [{U=0, S=1, reserved=2, M=3}]
    (enumeration [riscvMode]). *)
Definition RISCV_MODE_USER       : Z := 0.
Definition RISCV_MODE_SUPERVISOR : Z := 1.
Definition RISCV_MODE_HYPERVISOR : Z := 2.
Definition RISCV_MODE_MACHINE    : Z := 3.

(** Modelled from the spec: an exception code is a 12-bit value tagged by a
    one-bit is-interrupt flag (enumeration [riscvException]). *)
Definition riscv_E_Interrupt : Z := 4096.

Definition riscv_E_InstructionAddressMisaligned : Z := 0.
Definition riscv_E_InstructionAccessFault       : Z := 1.
Definition riscv_E_IllegalInstruction           : Z := 2.
Definition riscv_E_Breakpoint                   : Z := 3.
Definition riscv_E_LoadAddressMisaligned        : Z := 4.
Definition riscv_E_LoadAccessFault              : Z := 5.
Definition riscv_E_StoreAMOAddressMisaligned    : Z := 6.
Definition riscv_E_StoreAMOAccessFault          : Z := 7.
Definition riscv_E_EnvironmentCallFromUMode     : Z := 8.
Definition riscv_E_EnvironmentCallFromSMode     : Z := 9.
Definition riscv_E_EnvironmentCallFromHMode     : Z := 10.
Definition riscv_E_EnvironmentCallFromMMode     : Z := 11.
Definition riscv_E_InstructionPageFault         : Z := 12.
Definition riscv_E_LoadPageFault                : Z := 13.
Definition riscv_E_StoreAMOPageFault            : Z := 15.

Definition riscv_E_SW       : Z := 0.
Definition riscv_E_Timer    : Z := 4.
Definition riscv_E_External : Z := 8.
Definition riscv_E_Local    : Z := 16.

Definition riscv_E_ExternalInterrupt : Z := riscv_E_Interrupt + riscv_E_External.
Definition riscv_E_LocalInterrupt    : Z := riscv_E_Interrupt + riscv_E_Local.

Definition riscv_E_USWInterrupt       : Z := riscv_E_Interrupt + 0.
Definition riscv_E_SSWInterrupt       : Z := riscv_E_Interrupt + 1.
Definition riscv_E_MSWInterrupt       : Z := riscv_E_Interrupt + 3.
Definition riscv_E_UTimerInterrupt    : Z := riscv_E_Interrupt + 4.
Definition riscv_E_STimerInterrupt    : Z := riscv_E_Interrupt + 5.
Definition riscv_E_MTimerInterrupt    : Z := riscv_E_Interrupt + 7.
Definition riscv_E_UExternalInterrupt : Z := riscv_E_Interrupt + 8.
Definition riscv_E_SExternalInterrupt : Z := riscv_E_Interrupt + 9.
Definition riscv_E_MExternalInterrupt : Z := riscv_E_Interrupt + 11.
Definition riscv_E_CSIP               : Z := riscv_E_Interrupt + 12.

(** No interrupt selected. *)
Definition RV_NO_INT : Z := -1.

(** No exclusive reservation. *)
Definition RISCV_NO_TAG : Z := -1.

(** Interrupt controller modes ([riscvICMode], the MODE field of xtvec). *)
Definition riscv_int_Direct   : Z := 0.
Definition riscv_int_Vectored : Z := 1.
Definition riscv_int_CLIC     : Z := 3.

(** Privileged specification versions ([riscvPrivVer]), in release order. *)
Definition RVPV_1_10     : Z := 0.
Definition RVPV_20190405 : Z := 1.
Definition RVPV_1_11     : Z := RVPV_20190405.
Definition RVPV_1_12     : Z := 2.

(** Architecture feature bits: bit [letter - 'A'] of the ISA word. *)
Definition ISA_A : Z := Z.shiftl 1 0.
Definition ISA_C : Z := Z.shiftl 1 2.
Definition ISA_N : Z := Z.shiftl 1 13.
Definition ISA_S : Z := Z.shiftl 1 18.
Definition ISA_U : Z := Z.shiftl 1 20.

(** Reasons for which a hart is halted ([riscvDisableReason]). *)
Definition RVD_WFI   : Z := 1.
Definition RVD_RESET : Z := 2.
Definition RVD_DEBUG : Z := 4.
Definition RVD_RESTART_WFI   : Z := RVD_WFI.
Definition RVD_RESTART_NMI   : Z := RVD_WFI.
Definition RVD_RESTART_RESET : Z := Z.lor RVD_WFI RVD_RESET.

Inductive riscvDMMode : Type := RVDM_NONE | RVDM_INTERRUPT | RVDM_VECTOR | RVDM_HALT.

Inductive dmCause : Type :=
  DMC_NONE | DMC_EBREAK | DMC_TRIGGER | DMC_HALTREQ | DMC_STEP | DMC_RESETHALTREQ.

Definition dmCauseCode (c : dmCause) : Z :=
  match c with
  | DMC_NONE => 0 | DMC_EBREAK => 1 | DMC_TRIGGER => 2
  | DMC_HALTREQ => 3 | DMC_STEP => 4 | DMC_RESETHALTREQ => 5
  end.

Inductive riscvAccessFault : Type := riscv_AFault_None | riscv_AFault_Device.

Inductive vmiSaveRestorePhase : Type := SRT_BEGIN | SRT_BEGIN_CORE | SRT_END_CORE | SRT_END.

(** Width of the integer registers. *)
Inductive XLEN : Type := XLEN32 | XLEN64.

Definition xlenBits (x : XLEN) : Z := match x with XLEN32 => 32 | XLEN64 => 64 end.

(* ------------------------------------------------------------------ *)
(** ** Control and status registers *)

Inductive CSR : Type :=
  | mstatus | mcause | scause | ucause | mepc | sepc | uepc
  | mtval | stval | utval | mtvec | stvec | utvec | mtvt | stvt | utvt
  | mintstatus | mintthresh | sintthresh | uintthresh
  | mideleg | sideleg | medeleg | sedeleg | mip | mie
  | dcsr | dpc | mcountinhibit | vstart | vl.

Definition CSR_index (c : CSR) : Z :=
  match c with
  | mstatus => 0 | mcause => 1 | scause => 2 | ucause => 3 | mepc => 4
  | sepc => 5 | uepc => 6 | mtval => 7 | stval => 8 | utval => 9
  | mtvec => 10 | stvec => 11 | utvec => 12 | mtvt => 13 | stvt => 14
  | utvt => 15 | mintstatus => 16 | mintthresh => 17 | sintthresh => 18
  | uintthresh => 19 | mideleg => 20 | sideleg => 21 | medeleg => 22
  | sedeleg => 23 | mip => 24 | mie => 25 | dcsr => 26 | dpc => 27
  | mcountinhibit => 28 | vstart => 29 | vl => 30
  end.

Definition CSR_eqb (a b : CSR) : bool := CSR_index a =? CSR_index b.

(** A bit field of a register: position of its least significant bit and
    its width. *)
Record field : Type := mkField { f_lo : Z; f_width : Z }.

Module F.
(** mstatus *)
Definition UIE  := mkField 0 1.
Definition SIE  := mkField 1 1.
Definition MIE  := mkField 3 1.
Definition UPIE := mkField 4 1.
Definition SPIE := mkField 5 1.
Definition MPIE := mkField 7 1.
Definition SPP  := mkField 8 1.
Definition MPP  := mkField 11 2.
Definition MPRV := mkField 17 1.
(** xcause; the Interrupt flag is the most significant bit of the register *)
Definition ExceptionCode := mkField 0 12.
Definition pil  := mkField 16 8.
Definition inhv := mkField 30 1.
Definition Interrupt (x : XLEN) := mkField (xlenBits x - 1) 1.
(** xtvec *)
Definition MODE := mkField 0 2.
Definition BASE (x : XLEN) := mkField 2 (xlenBits x - 2).
(** mintstatus *)
Definition uil := mkField 0 8.
Definition sil := mkField 8 8.
Definition mil := mkField 24 8.
(** xintthresh *)
Definition th := mkField 0 8.
(** dcsr *)
Definition prv       := mkField 0 2.
Definition step      := mkField 2 1.
Definition nmip      := mkField 3 1.
Definition cause     := mkField 6 3.
(** mcountinhibit *)
Definition IR := mkField 2 1.
(** clicintattr (one byte) *)
Definition attr_shv  := mkField 0 1.
Definition attr_trig := mkField 1 2.
Definition attr_u1   := mkField 3 3.
Definition attr_mode := mkField 6 2.
(** cliccfg (one byte) *)
Definition nvbits := mkField 0 1.
Definition nlbits := mkField 1 4.
Definition nmbits := mkField 5 2.
Definition cfg_u1 := mkField 7 1.
(** clicinfo *)
Definition num_interrupt  := mkField 0 13.
Definition version        := mkField 13 8.
Definition CLICINTCTLBITS := mkField 21 4.
End F.

Definition rdField (f : field) (r : Z) : Z := getField (f_lo f) (f_width f) r.
Definition wrField (f : field) (r v : Z) : Z := setField (f_lo f) (f_width f) r v.

(* ------------------------------------------------------------------ *)
(** ** Hart state *)

Record riscvConfig : Type := mkConfig {
  arch : Z;
  xlen : XLEN;
  priv_version : Z;
  tval_zero : bool;
  xret_preserves_lr : bool;
  ecode_nmi : Z;
  reset_address : Z;
  nmi_address : Z;
  debug_address : Z;
  dexc_address : Z;
  debug_mode : riscvDMMode;
  local_int_num : Z;
  unimp_int_mask : Z;
  CLICLEVELS : Z;
  CLICANDBASIC : bool;
  CLICCFGMBITS : Z;
  CLICSELHVEC : bool;
  CLICINTCTLBITS : Z;
  mepcMask : Z;
  sepcMask : Z;
  uepcMask : Z;
  vstartMask : Z;
  debugExcept : bool;
  verbose : bool
}.

(** Selected pending-and-enabled interrupt ([riscv->pendEnab]). *)
Record riscvPendEnab : Type := mkPendEnab {
  pe_id : Z; pe_priv : Z; pe_level : Z; pe_isCLIC : bool
}.

(** Interrupt presented by the CLIC ([riscv->clic.sel]). *)
Record riscvCLICSel : Type := mkCLICSel {
  sel_id : Z; sel_priv : Z; sel_level : Z; sel_shv : bool
}.

(** The four byte-sized control fields of one CLIC interrupt. *)
Record riscvCLICIntState : Type := mkCLICIntState {
  clicintip : Z; clicintie : Z; clicintattr : Z; clicintctl : Z
}.

(** Factors contributing to the basic interrupt state (reported on a
    change when exception tracing is enabled). *)
Record riscvBasicIntState : Type := mkBasicIntState {
  bis_pendingEnabled : Z; bis_pending : Z; bis_pendingExternal : Z;
  bis_pendingInternal : Z; bis_mideleg : Z; bis_sideleg : Z;
  bis_mie : Z; bis_sie : Z; bis_uie : Z
}.

(** Latched net inputs. *)
Record riscvNetValue : Type := mkNetValue {
  nv_reset : bool; nv_nmi : bool; nv_haltreq : bool;
  nv_resethaltreq : bool; nv_resethaltreqS : bool; nv_deferint : bool
}.

(** An observer registered by a derived model: which notifiers it
    installs, and its client data. *)
Record riscvExtCB : Type := mkExtCB {
  clientData : Z;
  haltRestartNotifier : bool;
  trapNotifier : bool;
  ERETNotifier : bool;
  resetNotifier : bool
}.

(** Ways in which a read of the data domain can fail; each one is the
    name of the callback the simulator then invokes. *)
Inductive readFault : Type := RdAbort | RdDevice | RdAlign.

(** Calls into the host simulator and into observers, in program order
    (most recent first). *)
Inductive hostEvent : Type :=
  | EvAbortRepeat
  | EvInterrupt
  | EvHalt
  | EvRestartNext
  | EvDoSynchronousInterrupt
  | EvWriteNetPortDM (v : bool)
  | EvHaltRestartNotify (client : Z)
  | EvTrapNotify (client : Z) (m : Z)
  | EvERETNotify (client : Z) (m : Z)
  | EvResetNotify (client : Z)
  | EvMessage (code : Z).

Record riscv : Type := mkRiscv {
  configInfo : riscvConfig;
  mode : Z;
  DM : bool;
  DMStall : bool;
  disable : Z;
  PC : Z;
  dsOffset : Z;
  jumpBase : Z;
  currentArch : Z;
  csr : CSR -> Z;
  exclusiveTag : Z;
  baseInstructions : Z;
  baseCycles : Z;
  AFErrorIn : riscvAccessFault;
  AFErrorOut : riscvAccessFault;
  exception : Z;
  vFirstFault : bool;
  PTWActive : bool;
  PTWBadAddr : bool;
  pendEnab : riscvPendEnab;
  clic_sel : riscvCLICSel;
  clic_intState : list riscvCLICIntState;
  clic_ipe : list Z;
  clic_cliccfg : Z;
  clic_clicinfo : Z;
  clicState : riscvCLICSel;
  intState : riscvBasicIntState;
  ipDWords : Z;
  ip : list Z;
  swip : Z;
  extInt : list Z;
  netValue : riscvNetValue;
  MIMode : Z;
  SIMode : Z;
  UIMode : Z;
  extCBs : list riscvExtCB;
  dataDomain : Z -> Z -> Z * option readFault;
  events : list hostEvent
}.

Definition set_mode (v : Z) (r : riscv) : riscv :=
  mkRiscv (configInfo r) v (DM r) (DMStall r) (disable r) (PC r)
    (dsOffset r) (jumpBase r) (currentArch r) (csr r) (exclusiveTag r)
    (baseInstructions r) (baseCycles r) (AFErrorIn r) (AFErrorOut r)
    (exception r) (vFirstFault r) (PTWActive r) (PTWBadAddr r) (pendEnab r)
    (clic_sel r) (clic_intState r) (clic_ipe r) (clic_cliccfg r)
    (clic_clicinfo r) (clicState r) (intState r) (ipDWords r) (ip r)
    (swip r) (extInt r) (netValue r) (MIMode r) (SIMode r) (UIMode r)
    (extCBs r) (dataDomain r) (events r).

Definition set_DM (v : bool) (r : riscv) : riscv :=
  mkRiscv (configInfo r) (mode r) v (DMStall r) (disable r) (PC r)
    (dsOffset r) (jumpBase r) (currentArch r) (csr r) (exclusiveTag r)
    (baseInstructions r) (baseCycles r) (AFErrorIn r) (AFErrorOut r)
    (exception r) (vFirstFault r) (PTWActive r) (PTWBadAddr r) (pendEnab r)
    (clic_sel r) (clic_intState r) (clic_ipe r) (clic_cliccfg r)
    (clic_clicinfo r) (clicState r) (intState r) (ipDWords r) (ip r)
    (swip r) (extInt r) (netValue r) (MIMode r) (SIMode r) (UIMode r)
    (extCBs r) (dataDomain r) (events r).

Definition set_DMStall (v : bool) (r : riscv) : riscv :=
  mkRiscv (configInfo r) (mode r) (DM r) v (disable r) (PC r) (dsOffset r)
    (jumpBase r) (currentArch r) (csr r) (exclusiveTag r)
    (baseInstructions r) (baseCycles r) (AFErrorIn r) (AFErrorOut r)
    (exception r) (vFirstFault r) (PTWActive r) (PTWBadAddr r) (pendEnab r)
    (clic_sel r) (clic_intState r) (clic_ipe r) (clic_cliccfg r)
    (clic_clicinfo r) (clicState r) (intState r) (ipDWords r) (ip r)
    (swip r) (extInt r) (netValue r) (MIMode r) (SIMode r) (UIMode r)
    (extCBs r) (dataDomain r) (events r).

Definition set_disable (v : Z) (r : riscv) : riscv :=
  mkRiscv (configInfo r) (mode r) (DM r) (DMStall r) v (PC r) (dsOffset r)
    (jumpBase r) (currentArch r) (csr r) (exclusiveTag r)
    (baseInstructions r) (baseCycles r) (AFErrorIn r) (AFErrorOut r)
    (exception r) (vFirstFault r) (PTWActive r) (PTWBadAddr r) (pendEnab r)
    (clic_sel r) (clic_intState r) (clic_ipe r) (clic_cliccfg r)
    (clic_clicinfo r) (clicState r) (intState r) (ipDWords r) (ip r)
    (swip r) (extInt r) (netValue r) (MIMode r) (SIMode r) (UIMode r)
    (extCBs r) (dataDomain r) (events r).

Definition set_PC (v : Z) (r : riscv) : riscv :=
  mkRiscv (configInfo r) (mode r) (DM r) (DMStall r) (disable r) v
    (dsOffset r) (jumpBase r) (currentArch r) (csr r) (exclusiveTag r)
    (baseInstructions r) (baseCycles r) (AFErrorIn r) (AFErrorOut r)
    (exception r) (vFirstFault r) (PTWActive r) (PTWBadAddr r) (pendEnab r)
    (clic_sel r) (clic_intState r) (clic_ipe r) (clic_cliccfg r)
    (clic_clicinfo r) (clicState r) (intState r) (ipDWords r) (ip r)
    (swip r) (extInt r) (netValue r) (MIMode r) (SIMode r) (UIMode r)
    (extCBs r) (dataDomain r) (events r).

Definition set_csr (v : CSR -> Z) (r : riscv) : riscv :=
  mkRiscv (configInfo r) (mode r) (DM r) (DMStall r) (disable r) (PC r)
    (dsOffset r) (jumpBase r) (currentArch r) v (exclusiveTag r)
    (baseInstructions r) (baseCycles r) (AFErrorIn r) (AFErrorOut r)
    (exception r) (vFirstFault r) (PTWActive r) (PTWBadAddr r) (pendEnab r)
    (clic_sel r) (clic_intState r) (clic_ipe r) (clic_cliccfg r)
    (clic_clicinfo r) (clicState r) (intState r) (ipDWords r) (ip r)
    (swip r) (extInt r) (netValue r) (MIMode r) (SIMode r) (UIMode r)
    (extCBs r) (dataDomain r) (events r).

Definition set_exclusiveTag (v : Z) (r : riscv) : riscv :=
  mkRiscv (configInfo r) (mode r) (DM r) (DMStall r) (disable r) (PC r)
    (dsOffset r) (jumpBase r) (currentArch r) (csr r) v (baseInstructions r)
    (baseCycles r) (AFErrorIn r) (AFErrorOut r) (exception r)
    (vFirstFault r) (PTWActive r) (PTWBadAddr r) (pendEnab r) (clic_sel r)
    (clic_intState r) (clic_ipe r) (clic_cliccfg r) (clic_clicinfo r)
    (clicState r) (intState r) (ipDWords r) (ip r) (swip r) (extInt r)
    (netValue r) (MIMode r) (SIMode r) (UIMode r) (extCBs r) (dataDomain r)
    (events r).

Definition set_baseInstructions (v : Z) (r : riscv) : riscv :=
  mkRiscv (configInfo r) (mode r) (DM r) (DMStall r) (disable r) (PC r)
    (dsOffset r) (jumpBase r) (currentArch r) (csr r) (exclusiveTag r) v
    (baseCycles r) (AFErrorIn r) (AFErrorOut r) (exception r)
    (vFirstFault r) (PTWActive r) (PTWBadAddr r) (pendEnab r) (clic_sel r)
    (clic_intState r) (clic_ipe r) (clic_cliccfg r) (clic_clicinfo r)
    (clicState r) (intState r) (ipDWords r) (ip r) (swip r) (extInt r)
    (netValue r) (MIMode r) (SIMode r) (UIMode r) (extCBs r) (dataDomain r)
    (events r).

Definition set_baseCycles (v : Z) (r : riscv) : riscv :=
  mkRiscv (configInfo r) (mode r) (DM r) (DMStall r) (disable r) (PC r)
    (dsOffset r) (jumpBase r) (currentArch r) (csr r) (exclusiveTag r)
    (baseInstructions r) v (AFErrorIn r) (AFErrorOut r) (exception r)
    (vFirstFault r) (PTWActive r) (PTWBadAddr r) (pendEnab r) (clic_sel r)
    (clic_intState r) (clic_ipe r) (clic_cliccfg r) (clic_clicinfo r)
    (clicState r) (intState r) (ipDWords r) (ip r) (swip r) (extInt r)
    (netValue r) (MIMode r) (SIMode r) (UIMode r) (extCBs r) (dataDomain r)
    (events r).

Definition set_AFErrorIn (v : riscvAccessFault) (r : riscv) : riscv :=
  mkRiscv (configInfo r) (mode r) (DM r) (DMStall r) (disable r) (PC r)
    (dsOffset r) (jumpBase r) (currentArch r) (csr r) (exclusiveTag r)
    (baseInstructions r) (baseCycles r) v (AFErrorOut r) (exception r)
    (vFirstFault r) (PTWActive r) (PTWBadAddr r) (pendEnab r) (clic_sel r)
    (clic_intState r) (clic_ipe r) (clic_cliccfg r) (clic_clicinfo r)
    (clicState r) (intState r) (ipDWords r) (ip r) (swip r) (extInt r)
    (netValue r) (MIMode r) (SIMode r) (UIMode r) (extCBs r) (dataDomain r)
    (events r).

Definition set_AFErrorOut (v : riscvAccessFault) (r : riscv) : riscv :=
  mkRiscv (configInfo r) (mode r) (DM r) (DMStall r) (disable r) (PC r)
    (dsOffset r) (jumpBase r) (currentArch r) (csr r) (exclusiveTag r)
    (baseInstructions r) (baseCycles r) (AFErrorIn r) v (exception r)
    (vFirstFault r) (PTWActive r) (PTWBadAddr r) (pendEnab r) (clic_sel r)
    (clic_intState r) (clic_ipe r) (clic_cliccfg r) (clic_clicinfo r)
    (clicState r) (intState r) (ipDWords r) (ip r) (swip r) (extInt r)
    (netValue r) (MIMode r) (SIMode r) (UIMode r) (extCBs r) (dataDomain r)
    (events r).

Definition set_exception (v : Z) (r : riscv) : riscv :=
  mkRiscv (configInfo r) (mode r) (DM r) (DMStall r) (disable r) (PC r)
    (dsOffset r) (jumpBase r) (currentArch r) (csr r) (exclusiveTag r)
    (baseInstructions r) (baseCycles r) (AFErrorIn r) (AFErrorOut r) v
    (vFirstFault r) (PTWActive r) (PTWBadAddr r) (pendEnab r) (clic_sel r)
    (clic_intState r) (clic_ipe r) (clic_cliccfg r) (clic_clicinfo r)
    (clicState r) (intState r) (ipDWords r) (ip r) (swip r) (extInt r)
    (netValue r) (MIMode r) (SIMode r) (UIMode r) (extCBs r) (dataDomain r)
    (events r).

Definition set_vFirstFault (v : bool) (r : riscv) : riscv :=
  mkRiscv (configInfo r) (mode r) (DM r) (DMStall r) (disable r) (PC r)
    (dsOffset r) (jumpBase r) (currentArch r) (csr r) (exclusiveTag r)
    (baseInstructions r) (baseCycles r) (AFErrorIn r) (AFErrorOut r)
    (exception r) v (PTWActive r) (PTWBadAddr r) (pendEnab r) (clic_sel r)
    (clic_intState r) (clic_ipe r) (clic_cliccfg r) (clic_clicinfo r)
    (clicState r) (intState r) (ipDWords r) (ip r) (swip r) (extInt r)
    (netValue r) (MIMode r) (SIMode r) (UIMode r) (extCBs r) (dataDomain r)
    (events r).

Definition set_PTWBadAddr (v : bool) (r : riscv) : riscv :=
  mkRiscv (configInfo r) (mode r) (DM r) (DMStall r) (disable r) (PC r)
    (dsOffset r) (jumpBase r) (currentArch r) (csr r) (exclusiveTag r)
    (baseInstructions r) (baseCycles r) (AFErrorIn r) (AFErrorOut r)
    (exception r) (vFirstFault r) (PTWActive r) v (pendEnab r) (clic_sel r)
    (clic_intState r) (clic_ipe r) (clic_cliccfg r) (clic_clicinfo r)
    (clicState r) (intState r) (ipDWords r) (ip r) (swip r) (extInt r)
    (netValue r) (MIMode r) (SIMode r) (UIMode r) (extCBs r) (dataDomain r)
    (events r).

Definition set_pendEnab (v : riscvPendEnab) (r : riscv) : riscv :=
  mkRiscv (configInfo r) (mode r) (DM r) (DMStall r) (disable r) (PC r)
    (dsOffset r) (jumpBase r) (currentArch r) (csr r) (exclusiveTag r)
    (baseInstructions r) (baseCycles r) (AFErrorIn r) (AFErrorOut r)
    (exception r) (vFirstFault r) (PTWActive r) (PTWBadAddr r) v
    (clic_sel r) (clic_intState r) (clic_ipe r) (clic_cliccfg r)
    (clic_clicinfo r) (clicState r) (intState r) (ipDWords r) (ip r)
    (swip r) (extInt r) (netValue r) (MIMode r) (SIMode r) (UIMode r)
    (extCBs r) (dataDomain r) (events r).

Definition set_clic_sel (v : riscvCLICSel) (r : riscv) : riscv :=
  mkRiscv (configInfo r) (mode r) (DM r) (DMStall r) (disable r) (PC r)
    (dsOffset r) (jumpBase r) (currentArch r) (csr r) (exclusiveTag r)
    (baseInstructions r) (baseCycles r) (AFErrorIn r) (AFErrorOut r)
    (exception r) (vFirstFault r) (PTWActive r) (PTWBadAddr r) (pendEnab r)
    v (clic_intState r) (clic_ipe r) (clic_cliccfg r) (clic_clicinfo r)
    (clicState r) (intState r) (ipDWords r) (ip r) (swip r) (extInt r)
    (netValue r) (MIMode r) (SIMode r) (UIMode r) (extCBs r) (dataDomain r)
    (events r).

Definition set_clic_intState (v : list riscvCLICIntState) (r : riscv) : riscv :=
  mkRiscv (configInfo r) (mode r) (DM r) (DMStall r) (disable r) (PC r)
    (dsOffset r) (jumpBase r) (currentArch r) (csr r) (exclusiveTag r)
    (baseInstructions r) (baseCycles r) (AFErrorIn r) (AFErrorOut r)
    (exception r) (vFirstFault r) (PTWActive r) (PTWBadAddr r) (pendEnab r)
    (clic_sel r) v (clic_ipe r) (clic_cliccfg r) (clic_clicinfo r)
    (clicState r) (intState r) (ipDWords r) (ip r) (swip r) (extInt r)
    (netValue r) (MIMode r) (SIMode r) (UIMode r) (extCBs r) (dataDomain r)
    (events r).

Definition set_clic_ipe (v : list Z) (r : riscv) : riscv :=
  mkRiscv (configInfo r) (mode r) (DM r) (DMStall r) (disable r) (PC r)
    (dsOffset r) (jumpBase r) (currentArch r) (csr r) (exclusiveTag r)
    (baseInstructions r) (baseCycles r) (AFErrorIn r) (AFErrorOut r)
    (exception r) (vFirstFault r) (PTWActive r) (PTWBadAddr r) (pendEnab r)
    (clic_sel r) (clic_intState r) v (clic_cliccfg r) (clic_clicinfo r)
    (clicState r) (intState r) (ipDWords r) (ip r) (swip r) (extInt r)
    (netValue r) (MIMode r) (SIMode r) (UIMode r) (extCBs r) (dataDomain r)
    (events r).

Definition set_clic_cliccfg (v : Z) (r : riscv) : riscv :=
  mkRiscv (configInfo r) (mode r) (DM r) (DMStall r) (disable r) (PC r)
    (dsOffset r) (jumpBase r) (currentArch r) (csr r) (exclusiveTag r)
    (baseInstructions r) (baseCycles r) (AFErrorIn r) (AFErrorOut r)
    (exception r) (vFirstFault r) (PTWActive r) (PTWBadAddr r) (pendEnab r)
    (clic_sel r) (clic_intState r) (clic_ipe r) v (clic_clicinfo r)
    (clicState r) (intState r) (ipDWords r) (ip r) (swip r) (extInt r)
    (netValue r) (MIMode r) (SIMode r) (UIMode r) (extCBs r) (dataDomain r)
    (events r).

Definition set_clicState (v : riscvCLICSel) (r : riscv) : riscv :=
  mkRiscv (configInfo r) (mode r) (DM r) (DMStall r) (disable r) (PC r)
    (dsOffset r) (jumpBase r) (currentArch r) (csr r) (exclusiveTag r)
    (baseInstructions r) (baseCycles r) (AFErrorIn r) (AFErrorOut r)
    (exception r) (vFirstFault r) (PTWActive r) (PTWBadAddr r) (pendEnab r)
    (clic_sel r) (clic_intState r) (clic_ipe r) (clic_cliccfg r)
    (clic_clicinfo r) v (intState r) (ipDWords r) (ip r) (swip r) (extInt r)
    (netValue r) (MIMode r) (SIMode r) (UIMode r) (extCBs r) (dataDomain r)
    (events r).

Definition set_intState (v : riscvBasicIntState) (r : riscv) : riscv :=
  mkRiscv (configInfo r) (mode r) (DM r) (DMStall r) (disable r) (PC r)
    (dsOffset r) (jumpBase r) (currentArch r) (csr r) (exclusiveTag r)
    (baseInstructions r) (baseCycles r) (AFErrorIn r) (AFErrorOut r)
    (exception r) (vFirstFault r) (PTWActive r) (PTWBadAddr r) (pendEnab r)
    (clic_sel r) (clic_intState r) (clic_ipe r) (clic_cliccfg r)
    (clic_clicinfo r) (clicState r) v (ipDWords r) (ip r) (swip r)
    (extInt r) (netValue r) (MIMode r) (SIMode r) (UIMode r) (extCBs r)
    (dataDomain r) (events r).

Definition set_ip (v : list Z) (r : riscv) : riscv :=
  mkRiscv (configInfo r) (mode r) (DM r) (DMStall r) (disable r) (PC r)
    (dsOffset r) (jumpBase r) (currentArch r) (csr r) (exclusiveTag r)
    (baseInstructions r) (baseCycles r) (AFErrorIn r) (AFErrorOut r)
    (exception r) (vFirstFault r) (PTWActive r) (PTWBadAddr r) (pendEnab r)
    (clic_sel r) (clic_intState r) (clic_ipe r) (clic_cliccfg r)
    (clic_clicinfo r) (clicState r) (intState r) (ipDWords r) v (swip r)
    (extInt r) (netValue r) (MIMode r) (SIMode r) (UIMode r) (extCBs r)
    (dataDomain r) (events r).

Definition set_swip (v : Z) (r : riscv) : riscv :=
  mkRiscv (configInfo r) (mode r) (DM r) (DMStall r) (disable r) (PC r)
    (dsOffset r) (jumpBase r) (currentArch r) (csr r) (exclusiveTag r)
    (baseInstructions r) (baseCycles r) (AFErrorIn r) (AFErrorOut r)
    (exception r) (vFirstFault r) (PTWActive r) (PTWBadAddr r) (pendEnab r)
    (clic_sel r) (clic_intState r) (clic_ipe r) (clic_cliccfg r)
    (clic_clicinfo r) (clicState r) (intState r) (ipDWords r) (ip r) v
    (extInt r) (netValue r) (MIMode r) (SIMode r) (UIMode r) (extCBs r)
    (dataDomain r) (events r).

Definition set_extInt (v : list Z) (r : riscv) : riscv :=
  mkRiscv (configInfo r) (mode r) (DM r) (DMStall r) (disable r) (PC r)
    (dsOffset r) (jumpBase r) (currentArch r) (csr r) (exclusiveTag r)
    (baseInstructions r) (baseCycles r) (AFErrorIn r) (AFErrorOut r)
    (exception r) (vFirstFault r) (PTWActive r) (PTWBadAddr r) (pendEnab r)
    (clic_sel r) (clic_intState r) (clic_ipe r) (clic_cliccfg r)
    (clic_clicinfo r) (clicState r) (intState r) (ipDWords r) (ip r)
    (swip r) v (netValue r) (MIMode r) (SIMode r) (UIMode r) (extCBs r)
    (dataDomain r) (events r).

Definition set_netValue (v : riscvNetValue) (r : riscv) : riscv :=
  mkRiscv (configInfo r) (mode r) (DM r) (DMStall r) (disable r) (PC r)
    (dsOffset r) (jumpBase r) (currentArch r) (csr r) (exclusiveTag r)
    (baseInstructions r) (baseCycles r) (AFErrorIn r) (AFErrorOut r)
    (exception r) (vFirstFault r) (PTWActive r) (PTWBadAddr r) (pendEnab r)
    (clic_sel r) (clic_intState r) (clic_ipe r) (clic_cliccfg r)
    (clic_clicinfo r) (clicState r) (intState r) (ipDWords r) (ip r)
    (swip r) (extInt r) v (MIMode r) (SIMode r) (UIMode r) (extCBs r)
    (dataDomain r) (events r).

Definition set_events (v : list hostEvent) (r : riscv) : riscv :=
  mkRiscv (configInfo r) (mode r) (DM r) (DMStall r) (disable r) (PC r)
    (dsOffset r) (jumpBase r) (currentArch r) (csr r) (exclusiveTag r)
    (baseInstructions r) (baseCycles r) (AFErrorIn r) (AFErrorOut r)
    (exception r) (vFirstFault r) (PTWActive r) (PTWBadAddr r) (pendEnab r)
    (clic_sel r) (clic_intState r) (clic_ipe r) (clic_cliccfg r)
    (clic_clicinfo r) (clicState r) (intState r) (ipDWords r) (ip r)
    (swip r) (extInt r) (netValue r) (MIMode r) (SIMode r) (UIMode r)
    (extCBs r) (dataDomain r) v.

(* ------------------------------------------------------------------ *)
(** ** Arrays

    C arrays are lists indexed by a [Z].  An access past the end, which C
    leaves undefined, reads the default element and writes nothing. *)

Definition getAt {A : Type} (d : A) (l : list A) (i : Z) : A := nth (Z.to_nat i) l d.

Fixpoint updNat {A : Type} (l : list A) (n : nat) (v : A) : list A :=
  match l, n with
  | [], _ => []
  | _ :: t, O => v :: t
  | x :: t, S k => x :: updNat t k v
  end.

Definition setAt {A : Type} (l : list A) (i : Z) (v : A) : list A :=
  updNat l (Z.to_nat i) v.

(* ------------------------------------------------------------------ *)
(** ** Register access (macros of riscvCSR.h) *)

Definition RD_CSR (r : riscv) (c : CSR) : Z := csr r c.

(** [WR_CSR] stores the value that it is given.  A register is XLEN bits
    wide: where the source hands the macro a 64-bit quantity that need not
    fit, the truncation is written out with [xlenView], in the same way as
    the wrap-around of the integer types. *)
Definition WR_CSR (c : CSR) (v : Z) (r : riscv) : riscv :=
  set_csr (fun c' => if CSR_eqb c c' then v else csr r c') r.

(** Modelled from the spec: a register has XLEN bits; the macro [WR_CSR]
    (riscvCSR.h, not part of the sources at hand) stores a value through
    the 32-bit or the 64-bit view of the register, which keeps the low XLEN
    bits of the value. *)
Definition xlenView (r : riscv) (v : Z) : Z :=
  Z.land v (Z.ones (xlenBits (xlen (configInfo r)))).

Definition RD_CSR_FIELD (r : riscv) (c : CSR) (f : field) : Z := rdField f (csr r c).

Definition WR_CSR_FIELD (c : CSR) (f : field) (v : Z) (r : riscv) : riscv :=
  WR_CSR c (wrField f (csr r c) v) r.

(** Record a call into the host simulator or into an observer. *)
Definition emit (e : hostEvent) (r : riscv) : riscv := set_events (e :: events r) r.

(* ------------------------------------------------------------------ *)
(** ** Helpers of riscvStructure.h, riscvUtils.h and riscvExceptions.h *)

Definition getCurrentMode (r : riscv) : Z := mode r.

Definition inDebugMode (r : riscv) : bool := DM r.

(** Modelled from the spec: [riscvSetMode] (riscvUtils.c, not part of the
    sources at hand) switches the privilege of the hart to the given mode. *)
Definition riscvSetMode (m : Z) (r : riscv) : riscv := set_mode m r.

Definition riscvGetXlenArch (r : riscv) : Z := xlenBits (xlen (configInfo r)).

Definition RISCV_PRIV_VERSION (r : riscv) : Z := priv_version (configInfo r).

(** Modelled from the spec: an exception is an interrupt when its
    is-interrupt flag is set; the numeric code is the rest. *)
Definition isInterrupt (e : Z) : bool := truthy (Z.land e riscv_E_Interrupt).
Definition getExceptionCode (e : Z) : Z := Z.land e (Z.lnot riscv_E_Interrupt).
Definition exceptionToInt (e : Z) : Z := getExceptionCode e.
Definition intToException (i : Z) : Z := Z.lor i riscv_E_Interrupt.

(** Modelled from the spec: a mode operates in CLIC mode when the MODE
    field of its trap vector register selects the CLIC. *)
Definition useCLICM (r : riscv) : bool := RD_CSR_FIELD r mtvec F.MODE =? riscv_int_CLIC.
Definition useCLICS (r : riscv) : bool := RD_CSR_FIELD r stvec F.MODE =? riscv_int_CLIC.
Definition useCLICU (r : riscv) : bool := RD_CSR_FIELD r utvec F.MODE =? riscv_int_CLIC.

(** Modelled from the spec: the CLIC is present when configured with
    interrupt levels, the basic interrupt controller when the CLIC is
    absent or configured alongside it. *)
Definition CLICPresent (r : riscv) : bool := truthy (CLICLEVELS (configInfo r)).
Definition basicICPresent (r : riscv) : bool :=
  negb (CLICPresent r) || CLICANDBASIC (configInfo r).

(** Modelled from the spec: counting of retired instructions and of cycles
    is inhibited by mcountinhibit.IR (bit 2) and mcountinhibit.CY (bit 0). *)
Definition riscvInhibitInstret (r : riscv) : bool :=
  truthy (RD_CSR_FIELD r mcountinhibit F.IR).

(** Modelled from the spec: M is always implemented, S and U when the
    architecture has them; the minimum mode is the lowest implemented. *)
Definition riscvHasMode (r : riscv) (m : Z) : bool :=
  if m =? RISCV_MODE_MACHINE then true
  else if m =? RISCV_MODE_SUPERVISOR then truthy (Z.land (arch (configInfo r)) ISA_S)
  else if m =? RISCV_MODE_USER then truthy (Z.land (arch (configInfo r)) ISA_U)
  else false.

Definition riscvGetMinMode (r : riscv) : Z :=
  if riscvHasMode r RISCV_MODE_USER then RISCV_MODE_USER
  else if riscvHasMode r RISCV_MODE_SUPERVISOR then RISCV_MODE_SUPERVISOR
  else RISCV_MODE_MACHINE.

Definition RD_CSR_MASK_epc (r : riscv) (c : CSR) : Z :=
  match c with
  | mepc => mepcMask (configInfo r)
  | sepc => sepcMask (configInfo r)
  | _ => uepcMask (configInfo r)
  end.

(* ------------------------------------------------------------------ *)
(** ** Utilities *)


Definition vmirtSetPC (newPC : Z) (r : riscv) : riscv := set_PC newPC r.

Definition vmirtSetPCException (newPC : Z) (r : riscv) : riscv := set_PC newPC r.

Definition setPCxRET (newPC : Z) (r : riscv) : riscv :=
  let newPC := if negb (truthy (Z.land (currentArch r) ISA_C))
               then Z.land newPC (-4) else newPC in
  vmirtSetPC newPC r.

Definition clearEA (r : riscv) : riscv := set_exclusiveTag RISCV_NO_TAG r.

Definition clearEAxRET (r : riscv) : riscv :=
  if negb (xret_preserves_lr (configInfo r)) then clearEA r else r.

(** [riscvSetVL] and [riscvRefreshVectorPMKey] belong to the vector unit;
    here the clamped vector length is written to [vl]. *)
Definition riscvSetVL (v : Z) (r : riscv) : riscv := WR_CSR vl v r.

Definition handleFF (r : riscv) : bool * riscv :=
  if vFirstFault r then
    let r := set_vFirstFault false r in
    if truthy (RD_CSR r vstart)
    then (true, riscvSetVL (RD_CSR r vstart) r)
    else (false, r)
  else (false, r).

Definition notifyHaltRestart (r : riscv) : riscv :=
  fold_left
    (fun r cb => if haltRestartNotifier cb
                 then emit (EvHaltRestartNotify (clientData cb)) r else r)
    (extCBs r) r.

Definition haltProcessor (reason : Z) (r : riscv) : riscv :=
  let disabled := truthy (disable r) in
  let r := set_disable (Z.lor (disable r) reason) r in
  if negb disabled then notifyHaltRestart (emit EvHalt r) else r.

Definition restartProcessor (reason : Z) (r : riscv) : riscv :=
  let r := set_disable (Z.land (disable r) (Z.lnot reason)) r in
  if negb (truthy (disable r)) then notifyHaltRestart (emit EvRestartNext r) else r.

(* ------------------------------------------------------------------ *)
(** ** Taking exceptions: target mode *)

Definition getEPC (r : riscv) : Z :=
  if truthy (dsOffset r) then jumpBase r else PC r.

(** The delegation masks are passed as [Uns32]; the test shifts the [int]
    constant 1 by the code. *)
Definition getModeX (r : riscv) (mMask sMask ecode : Z) : Z :=
  let mMask := wrap32 mMask in
  let sMask := wrap32 sMask in
  let modeY := getCurrentMode r in
  let modeX :=
    if negb (truthy (Z.land mMask (Z.shiftl 1 ecode))) then RISCV_MODE_MACHINE
    else if negb (truthy (Z.land sMask (Z.shiftl 1 ecode))) then RISCV_MODE_SUPERVISOR
    else RISCV_MODE_USER in
  if modeX >? modeY then modeX else modeY.

Definition getInterruptModeX (r : riscv) (ecode : Z) : Z :=
  getModeX r (RD_CSR r mideleg) (RD_CSR r sideleg) ecode.

Definition getExceptionModeX (r : riscv) (ecode : Z) : Z :=
  getModeX r (RD_CSR r medeleg) (RD_CSR r sedeleg) ecode.

Definition getIMode (customMode tvecMode : Z) : Z :=
  if truthy tvecMode then tvecMode else customMode.

(* ------------------------------------------------------------------ *)
(** ** Basic interrupt controller *)

Definition getIE (r : riscv) (IE : bool) (modeIE : Z) (useCLIC : bool) : bool :=
  let mode := getCurrentMode r in
  if useCLIC then false
  else if mode <? modeIE then true
  else if mode >? modeIE then false
  else IE.

Definition getPendingBasic (r : riscv) : Z := Z.land (RD_CSR r mie) (RD_CSR r mip).

Definition getPendingCLIC (r : riscv) : bool := negb (sel_id (clic_sel r) =? RV_NO_INT).

Definition getPending (r : riscv) : bool :=
  truthy (getPendingBasic r) || getPendingCLIC r.

(** Static table of priority mappings, indexed by interrupt number; the
    entries that the source does not name are zero, as is the priority of
    an interrupt past the end of the table. *)
Definition INT_INDEX_Last : Z := 16.

Definition intPri : list Z := [2; 5; 0; 8; 1; 4; 0; 7; 3; 6; 0; 9; 0; 0; 0; 0].

Definition getIntPri (intNum : Z) : Z :=
  if intNum >=? INT_INDEX_Last then 0 else getAt 0 intPri intNum.

Definition basicIntState_eqb (a b : riscvBasicIntState) : bool :=
  (bis_pendingEnabled a =? bis_pendingEnabled b) &&
  (bis_pending a =? bis_pending b) &&
  (bis_pendingExternal a =? bis_pendingExternal b) &&
  (bis_pendingInternal a =? bis_pendingInternal b) &&
  (bis_mideleg a =? bis_mideleg b) &&
  (bis_sideleg a =? bis_sideleg b) &&
  (bis_mie a =? bis_mie b) && (bis_sie a =? bis_sie b) &&
  (bis_uie a =? bis_uie b).

(** Message codes of the diagnostics. *)
Definition MSG_IS  : Z := 1.
Definition MSG_ISC : Z := 2.
Definition MSG_IMA : Z := 3.
Definition MSG_ABORT : Z := 4.

(** Interrupt masks applied in [refreshPendingAndEnabledBasic]. *)
Definition maskPendingBasic (r : riscv) (pendingEnabled : Z) : Z :=
  if truthy pendingEnabled then
    let MIE := truthy (RD_CSR_FIELD r mstatus F.MIE) in
    let SIE := truthy (RD_CSR_FIELD r mstatus F.SIE) in
    let UIE := truthy (RD_CSR_FIELD r mstatus F.UIE) in
    let MIE := getIE r MIE RISCV_MODE_MACHINE    (useCLICM r) in
    let SIE := getIE r SIE RISCV_MODE_SUPERVISOR (useCLICS r) in
    let UIE := getIE r UIE RISCV_MODE_USER       (useCLICU r) in
    let mideleg := RD_CSR r mideleg in
    let sideleg := Z.land (RD_CSR r sideleg) mideleg in
    let mMask := wrap64 (Z.lnot mideleg) in
    let sMask := Z.land mideleg (wrap64 (Z.lnot sideleg)) in
    let uMask := sideleg in
    let pe := pendingEnabled in
    let pe := if negb MIE then Z.land pe (wrap64 (Z.lnot mMask)) else pe in
    let pe := if negb SIE then Z.land pe (wrap64 (Z.lnot sMask)) else pe in
    let pe := if negb UIE then Z.land pe (wrap64 (Z.lnot uMask)) else pe in
    pe
  else pendingEnabled.

(** One candidate of the selection loop. *)
Definition tryBasic (r : riscv) (id : Z) (selected : riscvPendEnab) : riscvPendEnab :=
  let try := mkPendEnab id (getInterruptModeX r id) 0 false in
  if pe_id selected =? RV_NO_INT then try
  else if pe_priv selected <? pe_priv try then try
  else if pe_priv selected >? pe_priv try then selected
  else if getIntPri (pe_id selected) <=? getIntPri (pe_id try) then try
  else selected.

(** The [do ... while(pendingEnabled)] loop; a 64-bit mask is exhausted
    after at most 64 shifts. *)
Fixpoint selectBasic (fuel : nat) (r : riscv) (pendingEnabled id : Z)
    (selected : riscvPendEnab) : riscvPendEnab :=
  match fuel with
  | O => selected
  | S fuel' =>
      let selected :=
        if truthy (Z.land pendingEnabled 1) then tryBasic r id selected
        else selected in
      let pendingEnabled := Z.shiftr pendingEnabled 1 in
      let id := id + 1 in
      if truthy pendingEnabled then selectBasic fuel' r pendingEnabled id selected
      else selected
  end.

Definition refreshPendingAndEnabledBasic (r : riscv) : riscv :=
  let pendingEnabled := maskPendingBasic r (getPendingBasic r) in
  let r :=
    if debugExcept (configInfo r) then
      let intState' := mkBasicIntState
        pendingEnabled (RD_CSR r mip) (getAt 0 (ip r) 0) (swip r)
        (RD_CSR r mideleg) (RD_CSR r sideleg)
        (RD_CSR_FIELD r mstatus F.MIE) (RD_CSR_FIELD r mstatus F.SIE)
        (RD_CSR_FIELD r mstatus F.UIE) in
      if negb (basicIntState_eqb (intState r) intState')
      then set_intState intState' (emit (EvMessage MSG_IS) r)
      else r
    else r in
  if truthy pendingEnabled
  then set_pendEnab (selectBasic 64 r pendingEnabled 0 (pendEnab r)) r
  else r.

(* ------------------------------------------------------------------ *)
(** ** CLIC: per-interrupt state *)

Inductive CLICIntFieldType : Type :=
  CIT_clicintip | CIT_clicintie | CIT_clicintattr | CIT_clicintctl.

Definition noIntState : riscvCLICIntState := mkCLICIntState 0 0 0 0.

Definition intStateField (s : riscvCLICIntState) (t : CLICIntFieldType) : Z :=
  match t with
  | CIT_clicintip => clicintip s
  | CIT_clicintie => clicintie s
  | CIT_clicintattr => clicintattr s
  | CIT_clicintctl => clicintctl s
  end.

Definition setIntStateField (s : riscvCLICIntState) (t : CLICIntFieldType) (v : Z)
    : riscvCLICIntState :=
  match t with
  | CIT_clicintip => mkCLICIntState v (clicintie s) (clicintattr s) (clicintctl s)
  | CIT_clicintie => mkCLICIntState (clicintip s) v (clicintattr s) (clicintctl s)
  | CIT_clicintattr => mkCLICIntState (clicintip s) (clicintie s) v (clicintctl s)
  | CIT_clicintctl => mkCLICIntState (clicintip s) (clicintie s) (clicintattr s) v
  end.

Definition getIntNum (r : riscv) : Z := local_int_num (configInfo r) + riscv_E_Local.

Definition getCLICIntCtl1Bits (hart : riscv) : Z :=
  let CLICINTCTLBITS := rdField F.CLICINTCTLBITS (clic_clicinfo hart) in
  Z.shiftl 1 (8 - CLICINTCTLBITS) - 1.

Definition getCLICInterruptField (hart : riscv) (intIndex : Z) (t : CLICIntFieldType) : Z :=
  intStateField (getAt noIntState (clic_intState hart) intIndex) t.

Definition setCLICInterruptField (intIndex : Z) (t : CLICIntFieldType) (newValue : Z)
    (hart : riscv) : riscv :=
  set_clic_intState
    (setAt (clic_intState hart) intIndex
       (setIntStateField (getAt noIntState (clic_intState hart) intIndex) t newValue))
    hart.

Definition getCLICInterruptPending (hart : riscv) (intIndex : Z) : bool :=
  truthy (getCLICInterruptField hart intIndex CIT_clicintip).

Definition getCLICInterruptEnable (hart : riscv) (intIndex : Z) : bool :=
  truthy (getCLICInterruptField hart intIndex CIT_clicintie).

Definition getCLICInterruptAttr (hart : riscv) (intIndex : Z) : Z :=
  getCLICInterruptField hart intIndex CIT_clicintattr.

Definition getCLICInterruptMode (hart : riscv) (intIndex : Z) : Z :=
  let attr := getCLICInterruptAttr hart intIndex in
  let attr_mode := rdField F.attr_mode attr in
  let nmbits := rdField F.nmbits (clic_cliccfg hart) in
  if nmbits =? 0 then RISCV_MODE_MACHINE
  else if CLICCFGMBITS (configInfo hart) =? 1 then
    if truthy (Z.land attr_mode 2) then RISCV_MODE_MACHINE else RISCV_MODE_USER
  else Z.lor attr_mode (b2z (nmbits =? 1)).

(* ------------------------------------------------------------------ *)
(** ** CLIC: arbitration *)

Definition PRESENT_INT_CLIC (hart : riscv) (useCLIC : bool) (IE : field) (il : field)
    (thresh : CSR) (modeX level mode : Z) : bool :=
  useCLIC &&
  truthy (RD_CSR_FIELD hart mstatus IE) &&
  ((mode <? modeX) ||
   ((level >? RD_CSR_FIELD hart mintstatus il) &&
    (level >? RD_CSR_FIELD hart thresh F.th))).

(** Candidate at bit [i] of word [wordIndex]: the running maximum
    [(maxRank, id)] is replaced when the rank is not smaller. *)
Definition tryCLIC (hart : riscv) (wordIndex i : Z) (best : Z * Z) : Z * Z :=
  let '(maxRank, id) := best in
  let intIndex := wordIndex * 64 + i in
  let clicintctl := getCLICInterruptField hart intIndex CIT_clicintctl in
  let mode := getCLICInterruptMode hart intIndex in
  let rank := Z.lor (Z.shiftl mode 8) clicintctl in
  if maxRank <=? rank then (rank, intIndex) else best.

Fixpoint scanCLICWord (fuel : nat) (hart : riscv) (wordIndex pendingEnabled i : Z)
    (best : Z * Z) : Z * Z :=
  match fuel with
  | O => best
  | S fuel' =>
      let best :=
        if truthy (Z.land pendingEnabled 1) then tryCLIC hart wordIndex i best
        else best in
      let pendingEnabled := Z.shiftr pendingEnabled 1 in
      let i := i + 1 in
      if truthy pendingEnabled then scanCLICWord fuel' hart wordIndex pendingEnabled i best
      else best
  end.

(** The [for] loop over the words of [ipe]. *)
Definition scanCLIC (hart : riscv) : Z * Z :=
  fold_left
    (fun best w =>
       let wordIndex := Z.of_nat w in
       let pendingEnabled := getAt 0 (clic_ipe hart) wordIndex in
       if truthy pendingEnabled
       then scanCLICWord 64 hart wordIndex pendingEnabled 0 best
       else best)
    (seq 0 (Z.to_nat (ipDWords hart))) (0, RV_NO_INT).

Definition CLICSel_eqb (a b : riscvCLICSel) : bool :=
  (sel_id a =? sel_id b) && (sel_priv a =? sel_priv b) &&
  (sel_level a =? sel_level b) && Bool.eqb (sel_shv a) (sel_shv b).

(** Level of an interrupt: [clicintctl] with the bits below the [nlbits]
    most significant ones set. *)
Definition CLICLevel (nlbits clicintctl : Z) : Z :=
  let nlbitsMask := wrap8 (Z.lnot (Z.shiftl 1 (8 - nlbits) - 1)) in
  wrap8 (Z.lor (Z.land clicintctl nlbitsMask) (Z.lnot nlbitsMask)).

Definition refreshPendingAndEnabledCLIC (hart : riscv) : riscv :=
  let hart := set_clic_sel (mkCLICSel RV_NO_INT 0 0 false) hart in
  let id := snd (scanCLIC hart) in
  let hart :=
    if negb (id =? RV_NO_INT) then
      let attr := getCLICInterruptAttr hart id in
      let clicintctl := getCLICInterruptField hart id CIT_clicintctl in
      let nlbits := rdField F.nlbits (clic_cliccfg hart) in
      let priv := getCLICInterruptMode hart id in
      let level := CLICLevel nlbits clicintctl in
      let hart :=
        set_clic_sel (mkCLICSel id priv level (truthy (rdField F.attr_shv attr))) hart in
      let mode := getCurrentMode hart in
      let '(enable, hart) :=
        if pe_priv (pendEnab hart) >? priv then (false, hart)
        else if mode >? priv then (false, hart)
        else if priv =? RISCV_MODE_MACHINE then
          (PRESENT_INT_CLIC hart (useCLICM hart) F.MIE F.mil mintthresh
             RISCV_MODE_MACHINE level mode, hart)
        else if priv =? RISCV_MODE_SUPERVISOR then
          (PRESENT_INT_CLIC hart (useCLICS hart) F.SIE F.sil sintthresh
             RISCV_MODE_SUPERVISOR level mode, hart)
        else if priv =? RISCV_MODE_USER then
          (PRESENT_INT_CLIC hart (useCLICU hart) F.UIE F.uil uintthresh
             RISCV_MODE_USER level mode, hart)
        else (false, emit (EvMessage MSG_ABORT) hart) in
      if enable then set_pendEnab (mkPendEnab id priv level true) hart else hart
    else hart in
  if debugExcept (configInfo hart) then
    if negb (CLICSel_eqb (clicState hart) (clic_sel hart))
    then set_clicState (clic_sel hart) (emit (EvMessage MSG_ISC) hart)
    else hart
  else hart.

Definition refreshPendingAndEnabled (r : riscv) : riscv :=
  let r := set_pendEnab (mkPendEnab RV_NO_INT 0 0 false) r in
  let r := if basicICPresent r then refreshPendingAndEnabledBasic r else r in
  if CLICPresent r then refreshPendingAndEnabledCLIC r else r.

Definition getPendingAndEnabled (r : riscv) : bool :=
  negb (pe_id (pendEnab r) =? RV_NO_INT) &&
  negb (inDebugMode r) &&
  negb (nv_deferint (netValue r)).

Definition handlePendingAndEnabled (r : riscv) : riscv :=
  if getPendingAndEnabled r then emit EvDoSynchronousInterrupt r else r.

Definition riscvTestInterrupt (r : riscv) : riscv :=
  let r := refreshPendingAndEnabled r in
  let r := if getPending r then restartProcessor RVD_RESTART_WFI r else r in
  handlePendingAndEnabled r.

(* ------------------------------------------------------------------ *)
(** ** CLIC: register writes *)

Definition updateCLICInterruptField (intIndex : Z) (t : CLICIntFieldType) (newValue : Z)
    (hart : riscv) : riscv :=
  if negb (getCLICInterruptField hart intIndex t =? newValue)
  then riscvTestInterrupt (setCLICInterruptField intIndex t newValue hart)
  else hart.

Definition updateCLICPendingEnable (intIndex : Z) (newIPE : bool) (hart : riscv) : riscv :=
  let wordIndex := intIndex / 64 in
  let bitIndex := intIndex mod 64 in
  let mask := Z.shiftl 1 bitIndex in
  let word := getAt 0 (clic_ipe hart) wordIndex in
  let word := if newIPE then Z.lor word mask else Z.land word (wrap64 (Z.lnot mask)) in
  riscvTestInterrupt (set_clic_ipe (setAt (clic_ipe hart) wordIndex word) hart).

Definition writeCLICInterruptPending (intIndex newValue : Z) (hart : riscv) : riscv :=
  let oldIE := getCLICInterruptEnable hart intIndex in
  let newIP := truthy (Z.land newValue 1) in
  let oldIPE := oldIE && getCLICInterruptPending hart intIndex in
  let hart := setCLICInterruptField intIndex CIT_clicintip (b2z newIP) hart in
  let newIPE := oldIE && newIP in
  if negb (Bool.eqb oldIPE newIPE)
  then updateCLICPendingEnable intIndex newIPE hart
  else hart.

Definition writeCLICInterruptEnable (intIndex newValue : Z) (hart : riscv) : riscv :=
  let oldIP := getCLICInterruptPending hart intIndex in
  let newIE := truthy (Z.land newValue 1) in
  let oldIPE := oldIP && getCLICInterruptEnable hart intIndex in
  let hart := setCLICInterruptField intIndex CIT_clicintie (b2z newIE) hart in
  let newIPE := oldIP && newIE in
  if negb (Bool.eqb oldIPE newIPE)
  then updateCLICPendingEnable intIndex newIPE hart
  else hart.

(** Attribute byte that [writeCLICInterruptAttr] stores for a written
    value. *)
Definition legalCLICInterruptAttr (hart : riscv) (newValue pageMode : Z) : Z :=
  let attr := wrap8 newValue in
  let CLICCFGMBITS := CLICCFGMBITS (configInfo hart) in
  let intMode := rdField F.attr_mode attr in
  let attr := wrField F.attr_u1 attr 0 in
  let attr :=
    if negb (truthy (rdField F.nvbits (clic_cliccfg hart)))
    then wrField F.attr_shv attr 0 else attr in
  let intMode :=
    if (intMode >? pageMode) ||
       (CLICCFGMBITS =? 0) ||
       (intMode =? RISCV_MODE_HYPERVISOR) ||
       ((CLICCFGMBITS <? 2) && (intMode =? RISCV_MODE_SUPERVISOR)) ||
       ((intMode =? RISCV_MODE_USER) &&
        negb (truthy (Z.land (arch (configInfo hart)) ISA_N)))
    then pageMode else intMode in
  wrField F.attr_mode attr intMode.

Definition writeCLICInterruptAttr (intIndex newValue pageMode : Z) (hart : riscv) : riscv :=
  updateCLICInterruptField intIndex CIT_clicintattr
    (legalCLICInterruptAttr hart newValue pageMode) hart.

Definition writeCLICInterruptCtl (intIndex newValue : Z) (hart : riscv) : riscv :=
  let newValue := wrap8 (Z.lor newValue (getCLICIntCtl1Bits hart)) in
  updateCLICInterruptField intIndex CIT_clicintctl newValue hart.

(** Refresh of the pending+enabled mask after a restore. *)
Definition clearIPE (hart : riscv) : riscv :=
  fold_left
    (fun h i => set_clic_ipe (setAt (clic_ipe h) (Z.of_nat i) 0) h)
    (seq 0 (Z.to_nat (ipDWords hart))) hart.

Definition reinstateIPE (i : Z) (hart : riscv) : riscv :=
  if getCLICInterruptPending hart i && getCLICInterruptEnable hart i then
    let wordIndex := i / 64 in
    let bitIndex := i mod 64 in
    let mask := Z.shiftl 1 bitIndex in
    set_clic_ipe
      (setAt (clic_ipe hart) wordIndex (Z.lor (getAt 0 (clic_ipe hart) wordIndex) mask))
      hart
  else hart.

Definition refreshCLICIPE (hart : riscv) : riscv :=
  let intNum := getIntNum hart in
  let hart := clearIPE hart in
  fold_left (fun h i => reinstateIPE (Z.of_nat i) h) (seq 0 (Z.to_nat intNum)) hart.

Definition riscvAcknowledgeCLICInt (intIndex : Z) (hart : riscv) : riscv :=
  let attr := getCLICInterruptAttr hart intIndex in
  let isEdge := truthy (Z.land (rdField F.attr_trig attr) 1) in
  if isEdge then writeCLICInterruptPending intIndex 0 hart
  else refreshPendingAndEnabled hart.

Definition updateCLICInput (intIndex : Z) (newValue : bool) (hart : riscv) : riscv :=
  let attr := getCLICInterruptAttr hart intIndex in
  let isEdge := truthy (Z.land (rdField F.attr_trig attr) 1) in
  let activeLow := truthy (Z.land (rdField F.attr_trig attr) 2) in
  let newValue := xorb newValue activeLow in
  if negb isEdge || newValue
  then writeCLICInterruptPending intIndex (b2z newValue) hart
  else hart.

(* ------------------------------------------------------------------ *)
(** ** Debug mode entry *)

Definition updateDMStall (DMStall : bool) (r : riscv) : riscv :=
  match debug_mode (configInfo r) with
  | RVDM_HALT =>
      let r := set_DMStall DMStall r in
      if DMStall then haltProcessor RVD_DEBUG r else restartProcessor RVD_DEBUG r
  | _ => r
  end.

Definition setDM (DM : bool) (r : riscv) : riscv :=
  emit (EvWriteNetPortDM DM) (set_DM DM r).

(** Modelled from the spec: [riscvPreInhibit] and [riscvPostInhibit]
    (riscvCSR.c, not part of the sources at hand) save and refresh the
    state of the counters around a possible change of their inhibit; with
    the inhibit of [riscvInhibitInstret] above nothing changes. *)
Definition riscvPostInhibit (r : riscv) : riscv := r.

Definition enterDM (cause : dmCause) (r : riscv) : riscv :=
  let DM := inDebugMode r in
  let r :=
    if negb DM then
      let r := setDM true r in
      let r := WR_CSR_FIELD dcsr F.prv (getCurrentMode r) r in
      let r := WR_CSR_FIELD dcsr F.cause (dmCauseCode cause) r in
      let r := WR_CSR dpc (getEPC r) r in
      let r := riscvSetMode RISCV_MODE_MACHINE r in
      riscvPostInhibit r
    else r in
  match debug_mode (configInfo r) with
  | RVDM_INTERRUPT => emit EvInterrupt r
  | RVDM_VECTOR =>
      let address := if DM then dexc_address (configInfo r)
                     else debug_address (configInfo r) in
      vmirtSetPCException address r
  | _ => updateDMStall true r
  end.

(* ------------------------------------------------------------------ *)
(** ** Taking exceptions *)

(** Result of the macro [TARGET_MODE_X]: the updated hart, the base
    address of the handler and the interrupt mode. *)
Definition TARGET_MODE_X (IE PIE il : field) (xcause xepc xtval xtvec : CSR)
    (XIMode : Z) (isInt : bool) (ecode EPC tval level : Z) (r : riscv)
    : riscv * Z * Z :=
  let x := xlen (configInfo r) in
  let _IE := RD_CSR_FIELD r mstatus IE in
  let _IL := RD_CSR_FIELD r mintstatus il in
  let r := WR_CSR_FIELD mstatus PIE _IE r in
  let r := WR_CSR_FIELD mstatus IE 0 r in
  let r := if negb (useCLICM r) then WR_CSR xcause 0 r else r in
  let r := WR_CSR_FIELD xcause F.ExceptionCode ecode r in
  let r := WR_CSR_FIELD xcause (F.Interrupt x) (b2z isInt) r in
  let r := WR_CSR_FIELD xcause F.pil _IL r in
  let epcMask := RD_CSR_MASK_epc r xepc in
  let r := WR_CSR xepc (Z.land EPC epcMask) r in
  let r := WR_CSR xtval tval r in
  let base := wrap64 (Z.shiftl (RD_CSR_FIELD r xtvec (F.BASE x)) 2) in
  let mode := getIMode XIMode (RD_CSR_FIELD r xtvec F.MODE) in
  let r := if level >=? 0 then WR_CSR_FIELD mintstatus il level r else r in
  (r, base, mode).

Definition retiredCode (r : riscv) (exception : Z) : bool :=
  if (exception =? riscv_E_Breakpoint) ||
     (exception =? riscv_E_EnvironmentCallFromUMode) ||
     (exception =? riscv_E_EnvironmentCallFromSMode) ||
     (exception =? riscv_E_EnvironmentCallFromHMode) ||
     (exception =? riscv_E_EnvironmentCallFromMMode)
  then RISCV_PRIV_VERSION r <? RVPV_1_12
  else false.

Definition accessFaultCode (exception : Z) : bool :=
  (exception =? riscv_E_InstructionAccessFault) ||
  (exception =? riscv_E_LoadAccessFault) ||
  (exception =? riscv_E_StoreAMOAccessFault).

Definition isExternalInterrupt (exception : Z) : bool :=
  (exception >=? riscv_E_UExternalInterrupt) &&
  (exception <=? riscv_E_MExternalInterrupt).

Definition notifyTrap (modeX : Z) (r : riscv) : riscv :=
  fold_left
    (fun r cb => if trapNotifier cb
                 then emit (EvTrapNotify (clientData cb) modeX) r else r)
    (extCBs r) r.

Definition reportMemoryException (r : riscv) : riscv :=
  if verbose (configInfo r) then emit (EvMessage MSG_IMA) r else r.

Section TakeException.

(** The exception entry point that a fault raised by the read of the CLIC
    vector table re-enters. *)
Variable take : Z -> Z -> riscv -> riscv.

Definition riscvTakeMemoryExceptionWith (exception tval : Z) (r : riscv) : riscv :=
  let r := WR_CSR vstart (Z.land (RD_CSR r vstart) (vstartMask (configInfo r))) r in
  let '(suppress, r) := handleFF r in
  if negb suppress then take exception tval (reportMemoryException r) else r.

Definition riscvRdAlignExceptWith (address : Z) (r : riscv) : riscv :=
  riscvTakeMemoryExceptionWith riscv_E_LoadAddressMisaligned address r.

Definition riscvRdAbortExceptWith (address : Z) (r : riscv) : riscv :=
  if PTWActive r then set_PTWBadAddr true r
  else riscvTakeMemoryExceptionWith riscv_E_LoadAccessFault address r.

Definition riscvRdDeviceExceptWith (address : Z) (r : riscv) : riscv :=
  let r := set_AFErrorIn riscv_AFault_Device r in
  riscvTakeMemoryExceptionWith riscv_E_LoadAccessFault address r.

(** A read of the data domain: the value read, and the hart after any
    callback that the simulator invoked for a failing access. *)
Definition vmirtReadDomain (address bytes : Z) (r : riscv) : Z * riscv :=
  let '(value, fault) := dataDomain r address bytes in
  match fault with
  | None => (value, r)
  | Some RdAbort => (value, riscvRdAbortExceptWith address r)
  | Some RdDevice => (value, riscvRdDeviceExceptWith address r)
  | Some RdAlign => (value, riscvRdAlignExceptWith address r)
  end.

(** Returns the hart, the handler address and whether no nested
    exception was taken. *)
Definition readCLICVectorTableEntry (intNum mode TBASE : Z) (r : riscv)
    : riscv * Z * bool :=
  let ptrBytes := riscvGetXlenArch r / 8 in
  let address := wrap64 (TBASE + wrap32 (ptrBytes * intNum)) in
  let '(handlerPC, r) :=
    if ptrBytes =? 4 then vmirtReadDomain address 4 r
    else vmirtReadDomain address 8 r in
  (r, Z.land handlerPC (-2), isInterrupt (exception r)).

(** The macro [GET_CLIC_VECTORED_HANDLER_PC]; [None] is its early
    [return]. *)
Definition GET_CLIC_VECTORED_HANDLER_PC (xcause xtvt : CSR) (intNum mode : Z)
    (r : riscv) : riscv * option Z :=
  let TBASE := RD_CSR r xtvt in
  let r := WR_CSR_FIELD xcause F.inhv 1 r in
  let '(r, handlerPC, ok) := readCLICVectorTableEntry intNum mode TBASE r in
  if negb ok then (r, None)
  else (WR_CSR_FIELD xcause F.inhv 0 r, Some handlerPC).

Definition riscvTakeExceptionWith (exception tval : Z) (riscv0 : riscv) : riscv :=
  let r := riscv0 in
  if inDebugMode r then
    enterDM DMC_NONE (emit EvAbortRepeat r)
  else
    let shv := sel_shv (clic_sel r) in
    let isInt := isInterrupt exception in
    let ecode := getExceptionCode exception in
    let EPC := getEPC r in
    let modeY := getCurrentMode r in
    let r :=
      if negb (retiredCode r exception) && negb (riscvInhibitInstret r)
      then set_baseInstructions (wrap64 (baseInstructions r + 1)) r else r in
    let r :=
      if accessFaultCode exception then set_AFErrorOut (AFErrorIn r) r
      else set_AFErrorOut riscv_AFault_None r in
    let r := clearEA r in
    let modeX :=
      if negb isInt then getExceptionModeX r ecode
      else if pe_isCLIC (pendEnab r) then pe_priv (pendEnab r)
      else getInterruptModeX r ecode in
    let ecodeMod :=
      if isExternalInterrupt exception then
        let offset := exception - riscv_E_ExternalInterrupt in
        if truthy (getAt 0 (extInt r) offset) then getAt 0 (extInt r) offset else ecode
      else ecode in
    let level :=
      if isInt then pe_level (pendEnab r)
      else if negb (modeX =? modeY) then 0
      else -1 in
    let tval := if tval_zero (configInfo r) then 0 else tval in
    let '(r, base, mode) :=
      if modeX =? RISCV_MODE_USER then
        TARGET_MODE_X F.UIE F.UPIE F.uil ucause uepc utval utvec (UIMode r)
          isInt ecodeMod EPC tval level r
      else if modeX =? RISCV_MODE_SUPERVISOR then
        let '(r, base, mode) :=
          TARGET_MODE_X F.SIE F.SPIE F.sil scause sepc stval stvec (SIMode r)
            isInt ecodeMod EPC tval level r in
        (WR_CSR_FIELD mstatus F.SPP modeY r, base, mode)
      else
        let '(r, base, mode) :=
          TARGET_MODE_X F.MIE F.MPIE F.mil mcause mepc mtval mtvec (MIMode r)
            isInt ecodeMod EPC tval level r in
        (WR_CSR_FIELD mstatus F.MPP modeY r, base, mode) in
    let r := riscvSetMode modeX r in
    let r := set_exception exception r in
    let '(r, handlerPC) :=
      if (mode =? riscv_int_Direct) || negb isInt then (r, Some base)
      else if negb (mode =? riscv_int_CLIC) then
        (r, Some (wrap64 (base + wrap32 (4 * ecode))))
      else if negb shv then (r, Some (Z.land base (-64)))
      else
        let r := riscvAcknowledgeCLICInt ecode r in
        if modeX =? RISCV_MODE_USER then
          GET_CLIC_VECTORED_HANDLER_PC ucause utvt ecodeMod modeX r
        else if modeX =? RISCV_MODE_SUPERVISOR then
          GET_CLIC_VECTORED_HANDLER_PC scause stvt ecodeMod modeX r
        else
          GET_CLIC_VECTORED_HANDLER_PC mcause mtvt ecodeMod modeX r in
    match handlerPC with
    | None => r
    | Some handlerPC => notifyTrap modeX (vmirtSetPCException handlerPC r)
    end.

End TakeException.

(** The only re-entry of [riscvTakeException] is from the read of the
    CLIC vector table, and the exception taken there is synchronous, so
    that it does not read the table again: two levels exhaust the
    recursion (see [riscvTakeException_depth]). *)
Fixpoint riscvTakeExceptionN (depth : nat) (exception tval : Z) (r : riscv) : riscv :=
  match depth with
  | O => r
  | S depth' => riscvTakeExceptionWith (riscvTakeExceptionN depth') exception tval r
  end.

Definition riscvTakeException (exception tval : Z) (r : riscv) : riscv :=
  riscvTakeExceptionN 2 exception tval r.

Definition riscvTakeMemoryException (exception tval : Z) (r : riscv) : riscv :=
  riscvTakeMemoryExceptionWith riscvTakeException exception tval r.

Definition riscvECALL (r : riscv) : riscv :=
  let mode := getCurrentMode r in
  riscvTakeException (riscv_E_EnvironmentCallFromUMode + mode) 0 r.

(* ------------------------------------------------------------------ *)
(** ** Exception return *)

Definition getERETMode (r : riscv) (newMode minMode : Z) : Z :=
  if riscvHasMode r newMode then newMode else minMode.

Definition clearMPRV (newMode : Z) (r : riscv) : riscv :=
  if (RISCV_PRIV_VERSION r >? RVPV_20190405) && negb (newMode =? RISCV_MODE_MACHINE)
  then WR_CSR_FIELD mstatus F.MPRV 0 r else r.

Definition notifyERETDerived (mode : Z) (r : riscv) : riscv :=
  fold_left
    (fun r cb => if ERETNotifier cb
                 then emit (EvERETNotify (clientData cb) mode) r else r)
    (extCBs r) r.

Definition doERETCommon (retMode newMode epc : Z) (r : riscv) : riscv :=
  let r := riscvSetMode newMode r in
  let r := setPCxRET epc r in
  let r := notifyERETDerived retMode r in
  riscvTestInterrupt r.

Definition riscvMRET (r : riscv) : riscv :=
  if negb (inDebugMode r) then
    let MPP := RD_CSR_FIELD r mstatus F.MPP in
    let minMode := riscvGetMinMode r in
    let newMode := getERETMode r MPP minMode in
    let retMode := RISCV_MODE_MACHINE in
    let r := clearEAxRET r in
    let r := if useCLICM r
             then WR_CSR_FIELD mintstatus F.mil (RD_CSR_FIELD r mcause F.pil) r
             else r in
    let r := WR_CSR_FIELD mstatus F.MIE (RD_CSR_FIELD r mstatus F.MPIE) r in
    let r := WR_CSR_FIELD mstatus F.MPIE 1 r in
    let r := WR_CSR_FIELD mstatus F.MPP minMode r in
    let r := clearMPRV newMode r in
    doERETCommon retMode newMode (RD_CSR r mepc) r
  else r.

Definition riscvSRET (r : riscv) : riscv :=
  if negb (inDebugMode r) then
    let SPP := RD_CSR_FIELD r mstatus F.SPP in
    let minMode := riscvGetMinMode r in
    let newMode := getERETMode r SPP minMode in
    let retMode := RISCV_MODE_SUPERVISOR in
    let r := clearEAxRET r in
    let r := if useCLICS r
             then WR_CSR_FIELD mintstatus F.sil (RD_CSR_FIELD r scause F.pil) r
             else r in
    let r := WR_CSR_FIELD mstatus F.SIE (RD_CSR_FIELD r mstatus F.SPIE) r in
    let r := WR_CSR_FIELD mstatus F.SPIE 1 r in
    let r := WR_CSR_FIELD mstatus F.SPP minMode r in
    let r := clearMPRV newMode r in
    doERETCommon retMode newMode (RD_CSR r sepc) r
  else r.

Definition riscvURET (r : riscv) : riscv :=
  if negb (inDebugMode r) then
    let newMode := RISCV_MODE_USER in
    let retMode := RISCV_MODE_USER in
    let r := clearEAxRET r in
    let r := if useCLICU r
             then WR_CSR_FIELD mintstatus F.uil (RD_CSR_FIELD r ucause F.pil) r
             else r in
    let r := WR_CSR_FIELD mstatus F.UIE (RD_CSR_FIELD r mstatus F.UPIE) r in
    let r := WR_CSR_FIELD mstatus F.UPIE 1 r in
    doERETCommon retMode newMode (RD_CSR r uepc) r
  else r.

(* ------------------------------------------------------------------ *)
(** ** Leaving Debug mode *)

Definition leaveDM (r : riscv) : riscv :=
  let newMode := RD_CSR_FIELD r dcsr F.prv in
  let retMode := RISCV_MODE_MACHINE in
  let r := setDM false r in
  let r := clearMPRV newMode r in
  let r := doERETCommon retMode newMode (RD_CSR r dpc) r in
  let r := riscvPostInhibit r in
  updateDMStall false r.

(* ------------------------------------------------------------------ *)
(** ** Fetch gate *)

Definition doInterrupt (r : riscv) : riscv :=
  let id := pe_id (pendEnab r) in
  let r := set_pendEnab
    (mkPendEnab RV_NO_INT (pe_priv (pendEnab r)) (pe_level (pendEnab r))
       (pe_isCLIC (pendEnab r))) r in
  if id =? RV_NO_INT then emit (EvMessage MSG_ABORT) r
  else riscvTakeException (intToException id) 0 r.

Inductive vmiFetchAction : Type :=
  VMI_FETCH_NONE | VMI_FETCH_EXCEPTION_COMPLETE | VMI_FETCH_EXCEPTION_PENDING.

Section FetchGate.

(** Collaborators of the fetch gate that live in the simulator and in the
    virtual memory unit. *)
Variable vmirtIsExecutable : riscv -> Z -> bool.
Variable riscvVMMiss : Z -> bool -> riscv -> bool * riscv.
Variable riscvGetInstructionSize : riscv -> Z -> Z.

Definition validateFetchAddressInt (thisPC : Z) (complete : bool) (r : riscv)
    : bool * riscv :=
  if vmirtIsExecutable r thisPC then (true, r)
  else
    let '(miss, r) := riscvVMMiss thisPC complete r in
    if miss then (false, r)
    else if negb (vmirtIsExecutable r thisPC) then
      (false, if complete
              then riscvTakeException riscv_E_InstructionAccessFault thisPC r
              else r)
    else (true, r).

Definition validateFetchAddress (thisPC : Z) (complete : bool) (r : riscv)
    : bool * riscv :=
  let '(ok, r) := validateFetchAddressInt thisPC complete r in
  if negb ok then (false, r)
  else if riscvGetInstructionSize r thisPC <=? 2 then (true, r)
  else
    let '(ok, r) := validateFetchAddressInt (wrap64 (thisPC + 2)) complete r in
    if negb ok then (false, r) else (true, r).

Definition riscvIFetchExcept (address : Z) (complete : bool) (r : riscv)
    : vmiFetchAction * riscv :=
  let thisPC := address in
  let '(fetchOK, r) :=
    if nv_resethaltreqS (netValue r) then
      (false,
       if complete then
         let nv := netValue r in
         let r := set_netValue
           (mkNetValue (nv_reset nv) (nv_nmi nv) (nv_haltreq nv)
              (nv_resethaltreq nv) false (nv_deferint nv)) r in
         enterDM DMC_RESETHALTREQ r
       else r)
    else if nv_haltreq (netValue r) && negb (inDebugMode r) then
      (false, if complete then enterDM DMC_HALTREQ r else r)
    else if getPendingAndEnabled r then
      (false, if complete then doInterrupt r else r)
    else
      let '(ok, r) := validateFetchAddress thisPC complete r in
      if negb ok then (false, r) else (true, r) in
  if fetchOK then (VMI_FETCH_NONE, r)
  else if complete then (VMI_FETCH_EXCEPTION_COMPLETE, r)
  else (VMI_FETCH_EXCEPTION_PENDING, r).

End FetchGate.

(* ------------------------------------------------------------------ *)
(** ** External interrupt interface *)

Definition posedge (old new : bool) : bool := negb old && new.
Definition negedge (old new : bool) : bool := old && negb new.

Definition doNMI (r : riscv) : riscv :=
  let r := restartProcessor RVD_RESTART_NMI r in
  let r := riscvSetMode RISCV_MODE_MACHINE r in
  let r := WR_CSR mcause (ecode_nmi (configInfo r)) r in
  let r := WR_CSR mepc (getEPC r) r in
  let r := set_exception 0 r in
  vmirtSetPCException (nmi_address (configInfo r)) r.

Definition riscvUpdatePending (r : riscv) : riscv :=
  let oldValue := RD_CSR r mip in
  let newValue := Z.lor (getAt 0 (ip r) 0) (swip r) in
  if negb (oldValue =? newValue)
  then riscvTestInterrupt (WR_CSR mip (xlenView r newValue) r)
  else r.

Definition nmiPortCB (newValue : bool) (r : riscv) : riscv :=
  let oldValue := nv_nmi (netValue r) in
  let r := if negb (inDebugMode r) && posedge oldValue newValue then doNMI r else r in
  let r := WR_CSR_FIELD dcsr F.nmip (b2z newValue) r in
  let nv := netValue r in
  set_netValue
    (mkNetValue (nv_reset nv) newValue (nv_haltreq nv) (nv_resethaltreq nv)
       (nv_resethaltreqS nv) (nv_deferint nv)) r.


Definition interruptPortCB (index : Z) (newValue : bool) (r : riscv) : riscv :=
  let offset := index / 64 in
  let mask := Z.shiftl 1 (Z.land index 63) in
  let maxNum := getIntNum r in
  if negb (index <? maxNum) then emit (EvMessage MSG_ABORT) r
  else
    let word := getAt 0 (ip r) offset in
    let word := if newValue then Z.lor word mask
                else Z.land word (wrap64 (Z.lnot mask)) in
    let r := set_ip (setAt (ip r) offset word) r in
    let r := if CLICPresent r then updateCLICInput index newValue r else r in
    if basicICPresent r then riscvUpdatePending r else r.


Definition deferintPortCB (newValue : bool) (r : riscv) : riscv :=
  let oldValue := nv_deferint (netValue r) in
  let nv := netValue r in
  let r := set_netValue
    (mkNetValue (nv_reset nv) (nv_nmi nv) (nv_haltreq nv) (nv_resethaltreq nv)
       (nv_resethaltreqS nv) newValue) r in
  if negedge oldValue newValue then handlePendingAndEnabled r else r.

(* ------------------------------------------------------------------ *)
(** ** Implemented exceptions and interrupts *)

(** The table [exceptions]: the code of each descriptor with the
    architecture feature that it requires. *)
Definition exceptions : list (Z * Z) :=
  [ (riscv_E_InstructionAddressMisaligned, 0);
    (riscv_E_InstructionAccessFault, 0);
    (riscv_E_IllegalInstruction, 0);
    (riscv_E_Breakpoint, 0);
    (riscv_E_LoadAddressMisaligned, 0);
    (riscv_E_LoadAccessFault, 0);
    (riscv_E_StoreAMOAddressMisaligned, 0);
    (riscv_E_StoreAMOAccessFault, 0);
    (riscv_E_EnvironmentCallFromUMode, ISA_U);
    (riscv_E_EnvironmentCallFromSMode, ISA_S);
    (riscv_E_EnvironmentCallFromMMode, 0);
    (riscv_E_InstructionPageFault, 0);
    (riscv_E_LoadPageFault, 0);
    (riscv_E_StoreAMOPageFault, 0);
    (riscv_E_USWInterrupt, ISA_N);
    (riscv_E_SSWInterrupt, ISA_S);
    (riscv_E_MSWInterrupt, 0);
    (riscv_E_UTimerInterrupt, ISA_N);
    (riscv_E_STimerInterrupt, ISA_S);
    (riscv_E_MTimerInterrupt, 0);
    (riscv_E_UExternalInterrupt, ISA_N);
    (riscv_E_SExternalInterrupt, ISA_S);
    (riscv_E_MExternalInterrupt, 0);
    (riscv_E_CSIP, 0) ].

(** The hart modelled is a leaf of the cluster. *)
Definition getLocalIntNum (r : riscv) : Z := local_int_num (configInfo r).

Definition riscvGetLocalIntMask (r : riscv) : Z :=
  let localIntNum := getLocalIntNum r in
  let localShift := if localIntNum <? 48 then localIntNum else 48 in
  let local_int_mask := Z.shiftl 1 localShift - 1 in
  wrap64 (Z.shiftl local_int_mask riscv_E_Local).

(** The masks that [riscvSetExceptionMask] composes from the
    configuration: implemented exceptions, implemented interrupts. *)
Definition riscvSetExceptionMask (r : riscv) : Z * Z :=
  let arch := arch (configInfo r) in
  let '(exceptionMask, interruptMask) :=
    fold_left
      (fun masks desc =>
         let '(exceptionMask, interruptMask) := masks in
         let '(code, darch) := desc in
         if code =? riscv_E_CSIP then masks
         else if negb (Z.land arch darch =? darch) then masks
         else if negb (isInterrupt code)
              then (Z.lor exceptionMask (Z.shiftl 1 code), interruptMask)
              else (exceptionMask, Z.lor interruptMask (Z.shiftl 1 (exceptionToInt code))))
      exceptions (0, 0) in
  (exceptionMask,
   Z.land (Z.lor interruptMask (riscvGetLocalIntMask r))
          (wrap64 (Z.lnot (unimp_int_mask (configInfo r))))).

Definition exceptionMask (r : riscv) : Z := fst (riscvSetExceptionMask r).
Definition interruptMask (r : riscv) : Z := snd (riscvSetExceptionMask r).

Definition hasException (r : riscv) (code : Z) : bool :=
  if code =? riscv_E_CSIP then CLICPresent r
  else if negb (isInterrupt code)
       then truthy (Z.land (exceptionMask r) (Z.shiftl 1 code))
       else truthy (Z.land (interruptMask r) (Z.shiftl 1 (exceptionToInt code))).

(* ------------------------------------------------------------------ *)
(** ** CLIC: memory-mapped window *)

Inductive CLICPageType : Type := CPT_C | CPT_M | CPT_S | CPT_U.

(** One hart context in the cluster. *)
Definition getNumHarts (root : riscv) : Z := 1.

Definition getCLICPage (offset : Z) : Z := offset / 4096.
Definition getCLICPageWord (offset : Z) : Z := (offset mod 4096) / 4.
Definition getCLICIntIndex (offset : Z) : Z := (wrap32 (offset - 4096) / 4) mod 4096.
Definition getCLICWordByte (offset : Z) : Z := offset mod 4.
Definition get4kIntPage (page : Z) : Z := wrap32 (page - 1) / 4.

Definition getCLICIntFieldType (offset : Z) : CLICIntFieldType :=
  let b := getCLICWordByte offset in
  if b =? 0 then CIT_clicintip
  else if b =? 1 then CIT_clicintie
  else if b =? 2 then CIT_clicintattr
  else CIT_clicintctl.

(** [None] is the failure of the sanity check on the page type. *)
Definition getCLICPageType (root : riscv) (offset : Z) : option CLICPageType :=
  let page := getCLICPage offset in
  if truthy page then
    let type := 1 + get4kIntPage page / getNumHarts root in
    if type =? 1 then Some CPT_M
    else if type =? 2 then Some CPT_S
    else if type =? 3 then Some CPT_U
    else None
  else Some CPT_C.

Definition getCLICPageMode (root : riscv) (offset : Z) : option Z :=
  match getCLICPageType root offset with
  | Some CPT_M => Some RISCV_MODE_MACHINE
  | Some CPT_S => Some RISCV_MODE_SUPERVISOR
  | Some CPT_U => Some RISCV_MODE_USER
  | _ => None
  end.

Definition getCLICHartIndex (root : riscv) (offset : Z) : Z :=
  let page := getCLICPage offset in
  if truthy page then get4kIntPage page mod getNumHarts root else -1.

Definition accessCLICInterrupt (root : riscv) (offset : Z) : bool :=
  let hart := root in
  let intIndex := getCLICIntIndex offset in
  let intCode := intToException intIndex in
  if (intIndex <? riscv_E_Local) && negb (hasException hart intCode) then false
  else if intIndex <? getIntNum hart then
    match getCLICPageMode root offset with
    | Some pageMode => getCLICInterruptMode hart intIndex <=? pageMode
    | None => false
    end
  else false.

Definition getCLICInterruptValue (hart : riscv) (index : Z) : Z :=
  let s := getAt noIntState (clic_intState hart) index in
  Z.lor (Z.lor (clicintip s) (Z.shiftl (clicintie s) 8))
        (Z.lor (Z.shiftl (clicintattr s) 16) (Z.shiftl (clicintctl s) 24)).

Definition readCLICInterrupt (root : riscv) (offset : Z) : Z :=
  if accessCLICInterrupt root offset
  then getCLICInterruptValue root (getCLICIntIndex offset)
  else 0.

Definition writeCLICInterrupt (offset newValue : Z) (root : riscv) : riscv :=
  if accessCLICInterrupt root offset then
    let hart := root in
    let intIndex := getCLICIntIndex offset in
    match getCLICIntFieldType offset with
    | CIT_clicintip => writeCLICInterruptPending intIndex newValue hart
    | CIT_clicintie => writeCLICInterruptEnable intIndex newValue hart
    | CIT_clicintattr =>
        match getCLICPageMode root offset with
        | Some pageMode => writeCLICInterruptAttr intIndex newValue pageMode hart
        | None => emit (EvMessage MSG_ABORT) hart
        end
    | CIT_clicintctl => writeCLICInterruptCtl intIndex newValue hart
    end
  else root.

Definition cliccfgW (newValue : Z) (root : riscv) : riscv :=
  let cliccfg := wrap8 newValue in
  let cliccfg := wrField F.cfg_u1 cliccfg 0 in
  let cliccfg :=
    if rdField F.nmbits cliccfg >? CLICCFGMBITS (configInfo root)
    then wrField F.nmbits cliccfg (CLICCFGMBITS (configInfo root)) else cliccfg in
  let cliccfg :=
    if rdField F.nlbits cliccfg >? 8 then wrField F.nlbits cliccfg 8 else cliccfg in
  let cliccfg := wrField F.nvbits cliccfg (b2z (CLICSELHVEC (configInfo root))) in
  if negb (clic_cliccfg root =? cliccfg)
  then riscvTestInterrupt (set_clic_cliccfg cliccfg root)
  else root.

Definition readCLICInt (root : riscv) (offset : Z) : Z :=
  let word := getCLICPageWord offset in
  let byte := getCLICWordByte offset in
  let result :=
    if truthy (getCLICPage offset) then readCLICInterrupt root offset
    else if word =? 0 then clic_cliccfg root
    else if word =? 1 then clic_clicinfo root
    else 0 in
  wrap8 (Z.shiftr result (byte * 8)).

Definition writeCLICInt (offset newValue : Z) (root : riscv) : riscv :=
  if truthy (getCLICPage offset) then writeCLICInterrupt offset newValue root
  else if offset =? 0 then cliccfgW newValue root
  else root.

(* ------------------------------------------------------------------ *)
(** ** Save and restore *)

(** What [riscvNetSave] writes to the save context. *)
Record savedNet : Type := mkSavedNet {
  sv_ip : list Z;
  sv_netValue : riscvNetValue;
  sv_intState : option riscvBasicIntState;
  sv_cliccfg : option Z;
  sv_clic_intState : option (list riscvCLICIntState)
}.

(** [vmirtRestore] of [n] elements into an array. *)
Definition restoreArray {A : Type} (n : Z) (saved current : list A) : list A :=
  firstn (Z.to_nat n) saved ++ skipn (Z.to_nat n) current.

Definition riscvNetSave (r : riscv) (phase : vmiSaveRestorePhase) : option savedNet :=
  match phase with
  | SRT_END_CORE =>
      Some (mkSavedNet
        (firstn (Z.to_nat (ipDWords r)) (ip r))
        (netValue r)
        (if basicICPresent r then Some (intState r) else None)
        (if CLICPresent r then Some (clic_cliccfg r) else None)
        (if CLICPresent r
         then Some (firstn (Z.to_nat (getIntNum r)) (clic_intState r))
         else None))
  | _ => None
  end.

Definition riscvNetRestore (cxt : savedNet) (phase : vmiSaveRestorePhase) (r : riscv)
    : riscv :=
  match phase with
  | SRT_END_CORE =>
      let r := set_ip (restoreArray (ipDWords r) (sv_ip cxt) (ip r)) r in
      let r := set_netValue (sv_netValue cxt) r in
      let r :=
        if basicICPresent r then
          match sv_intState cxt with
          | Some s => set_intState s r
          | None => r
          end
        else r in
      let r :=
        if CLICPresent r then
          let r := match sv_cliccfg cxt with
                   | Some c => set_clic_cliccfg c r
                   | None => r
                   end in
          let r := match sv_clic_intState cxt with
                   | Some l =>
                       set_clic_intState
                         (restoreArray (getIntNum r) l (clic_intState r)) r
                   | None => r
                   end in
          refreshCLICIPE r
        else r in
      riscvTestInterrupt r
  | _ => r
  end.

(* ------------------------------------------------------------------ *)
(** ** A reference hart

    A 32-bit hart with M, S and U modes, the N and C extensions, a basic
    interrupt controller and a CLIC with 48 local interrupts, out of reset:
    machine mode, all registers zero, every CLIC interrupt targeting M. *)

Definition config0 : riscvConfig :=
  {| arch := Z.lor (Z.lor ISA_S ISA_U) (Z.lor ISA_N ISA_C);
     xlen := XLEN32;
     priv_version := RVPV_1_11;
     tval_zero := false;
     xret_preserves_lr := false;
     ecode_nmi := 0;
     reset_address := 0;
     nmi_address := 256;
     debug_address := 2048;
     dexc_address := 2056;
     debug_mode := RVDM_VECTOR;
     local_int_num := 48;
     unimp_int_mask := 0;
     CLICLEVELS := 256;
     CLICANDBASIC := true;
     CLICCFGMBITS := 2;
     CLICSELHVEC := true;
     CLICINTCTLBITS := 8;
     mepcMask := Z.ones 32 - 1;
     sepcMask := Z.ones 32 - 1;
     uepcMask := Z.ones 32 - 1;
     vstartMask := 0;
     debugExcept := false;
     verbose := false |}.

Definition hart0 : riscv :=
  {| configInfo := config0;
     mode := RISCV_MODE_MACHINE;
     DM := false;
     DMStall := false;
     disable := 0;
     PC := 4096;
     dsOffset := 0;
     jumpBase := 0;
     currentArch := arch config0;
     csr := fun _ => 0;
     exclusiveTag := RISCV_NO_TAG;
     baseInstructions := 0;
     baseCycles := 0;
     AFErrorIn := riscv_AFault_None;
     AFErrorOut := riscv_AFault_None;
     exception := 0;
     vFirstFault := false;
     PTWActive := false;
     PTWBadAddr := false;
     pendEnab := mkPendEnab RV_NO_INT 0 0 false;
     clic_sel := mkCLICSel RV_NO_INT 0 0 false;
     clic_intState := repeat (mkCLICIntState 0 0 192 0) 64;
     clic_ipe := [0];
     clic_cliccfg := 1;
     clic_clicinfo := Z.lor 64 (Z.shiftl 8 21);
     clicState := mkCLICSel RV_NO_INT 0 0 false;
     intState := mkBasicIntState 0 0 0 0 0 0 0 0 0;
     ipDWords := 1;
     ip := [0];
     swip := 0;
     extInt := [0; 0; 0; 0];
     netValue := mkNetValue false false false false false false;
     MIMode := 0;
     SIMode := 0;
     UIMode := 0;
     extCBs := [mkExtCB 7 true true true true];
     dataDomain := fun _ _ => (0, Some RdAbort);
     events := [] |}.

(** The reference hart halted in Debug mode. *)
Definition hartDM : riscv := set_DM true hart0.

(* ------------------------------------------------------------------ *)
(** * Properties *)

Arguments getField : simpl never.
Arguments setField : simpl never.
Arguments wrap8 : simpl never.
Arguments wrap32 : simpl never.
Arguments wrap64 : simpl never.

(** Reduction of the projections of the hart over its setters. *)
Ltac hart_simpl :=
  cbn [configInfo mode DM DMStall disable PC dsOffset jumpBase currentArch
    csr exclusiveTag baseInstructions baseCycles AFErrorIn AFErrorOut
    exception vFirstFault PTWActive PTWBadAddr pendEnab clic_sel
    clic_intState clic_ipe clic_cliccfg clic_clicinfo clicState intState
    ipDWords ip swip extInt netValue MIMode SIMode UIMode extCBs dataDomain
    events set_mode set_DM set_DMStall set_disable set_PC set_csr
    set_exclusiveTag set_baseInstructions set_baseCycles set_AFErrorIn
    set_AFErrorOut set_exception set_vFirstFault set_PTWBadAddr set_pendEnab
    set_clic_sel set_clic_intState set_clic_ipe set_clic_cliccfg
    set_clicState set_intState set_ip set_swip set_extInt set_netValue
    set_events RD_CSR WR_CSR RD_CSR_FIELD WR_CSR_FIELD emit riscvSetMode
    vmirtSetPC vmirtSetPCException clearEA getCurrentMode inDebugMode
    riscvPostInhibit setDM].

Ltac hart_simpl_in H :=
  cbn [configInfo mode DM DMStall disable PC dsOffset jumpBase currentArch
    csr exclusiveTag baseInstructions baseCycles AFErrorIn AFErrorOut
    exception vFirstFault PTWActive PTWBadAddr pendEnab clic_sel
    clic_intState clic_ipe clic_cliccfg clic_clicinfo clicState intState
    ipDWords ip swip extInt netValue MIMode SIMode UIMode extCBs dataDomain
    events set_mode set_DM set_DMStall set_disable set_PC set_csr
    set_exclusiveTag set_baseInstructions set_baseCycles set_AFErrorIn
    set_AFErrorOut set_exception set_vFirstFault set_PTWBadAddr set_pendEnab
    set_clic_sel set_clic_intState set_clic_ipe set_clic_cliccfg
    set_clicState set_intState set_ip set_swip set_extInt set_netValue
    set_events RD_CSR WR_CSR RD_CSR_FIELD WR_CSR_FIELD emit riscvSetMode
    vmirtSetPC vmirtSetPCException clearEA getCurrentMode inDebugMode
    riscvPostInhibit setDM] in H.

(** Decides the comparisons of named registers. *)
Ltac csr_eqb_eval :=
  repeat match goal with
         | |- context [CSR_eqb ?a ?b] =>
             let v := eval vm_compute in (CSR_eqb a b) in
             match v with
             | true => change (CSR_eqb a b) with true
             | false => change (CSR_eqb a b) with false
             end
         end;
  cbv iota.

Ltac csr_simpl := hart_simpl; csr_eqb_eval.

(** ** Registers *)

Lemma CSR_eqb_refl c : CSR_eqb c c = true.
Proof. unfold CSR_eqb. apply Z.eqb_refl. Qed.

Lemma CSR_eqb_eq a b : CSR_eqb a b = true -> a = b.
Proof.
  unfold CSR_eqb. intros H. apply Z.eqb_eq in H.
  destruct a, b; simpl in H; try reflexivity; discriminate H.
Qed.

Lemma CSR_eqb_neq a b : a <> b -> CSR_eqb a b = false.
Proof.
  intros Hne. destruct (CSR_eqb a b) eqn:E; [|reflexivity].
  apply CSR_eqb_eq in E. contradiction.
Qed.

Lemma RD_WR_CSR_same c v r : RD_CSR (WR_CSR c v r) c = v.
Proof. unfold RD_CSR, WR_CSR. simpl. now rewrite CSR_eqb_refl. Qed.

Lemma RD_WR_CSR_other c c' v r : c <> c' -> RD_CSR (WR_CSR c v r) c' = RD_CSR r c'.
Proof. intros H. unfold RD_CSR, WR_CSR. simpl. now rewrite CSR_eqb_neq. Qed.

Lemma fields_wf_bit lo : 0 <= lo -> 0 <= f_lo (mkField lo 1) /\ 0 <= f_width (mkField lo 1).
Proof. simpl. lia. Qed.

Lemma rd_wr_same f r v :
  0 <= f_lo f -> 0 <= f_width f ->
  rdField f (wrField f r v) = Z.land v (Z.ones (f_width f)).
Proof. intros. unfold rdField, wrField. now apply getField_setField_same. Qed.

Lemma rd_wr_other f g r v :
  0 <= f_lo f -> 0 <= f_width f -> 0 <= f_lo g -> 0 <= f_width g ->
  f_lo g + f_width g <= f_lo f \/ f_lo f + f_width f <= f_lo g ->
  rdField g (wrField f r v) = rdField g r.
Proof. intros. unfold rdField, wrField. now apply getField_setField_other. Qed.

Lemma xlenBits_cases x : xlenBits x = 32 \/ xlenBits x = 64.
Proof. destruct x; simpl; auto. Qed.

(** ** State left alone by interrupt arbitration

    [eraseArb] forgets the parts of the hart that re-arbitration may
    write: the selected interrupts, their diagnostic shadow copies, the
    halt reasons and the event trace.  [eraseCLIC] forgets in addition the
    per-interrupt state of the CLIC. *)

Definition eraseArb (r : riscv) : riscv :=
  set_pendEnab (mkPendEnab 0 0 0 false)
    (set_clic_sel (mkCLICSel 0 0 0 false)
       (set_clicState (mkCLICSel 0 0 0 false)
          (set_intState (mkBasicIntState 0 0 0 0 0 0 0 0 0)
             (set_disable 0 (set_events [] r))))).

Definition eraseCLIC (r : riscv) : riscv :=
  set_clic_intState [] (set_clic_ipe [] (eraseArb r)).

Lemma eraseArb_eraseCLIC r r' : eraseArb r' = eraseArb r -> eraseCLIC r' = eraseCLIC r.
Proof. unfold eraseCLIC. now intros ->. Qed.

Lemma eraseArb_emit e r : eraseArb (emit e r) = eraseArb r.
Proof. reflexivity. Qed.

Lemma eraseArb_fold_emit (A : Type) (p : A -> bool) (ev : A -> hostEvent) l r :
  eraseArb (fold_left (fun r cb => if p cb then emit (ev cb) r else r) l r) = eraseArb r.
Proof.
  revert r. induction l as [|a l IH]; intros r; simpl; [reflexivity|].
  rewrite IH. now destruct (p a).
Qed.

Lemma eraseArb_notifyHaltRestart r : eraseArb (notifyHaltRestart r) = eraseArb r.
Proof. unfold notifyHaltRestart. apply eraseArb_fold_emit. Qed.

Lemma eraseArb_restartProcessor reason r : eraseArb (restartProcessor reason r) = eraseArb r.
Proof.
  unfold restartProcessor.
  destruct (negb _); [rewrite eraseArb_notifyHaltRestart|]; reflexivity.
Qed.

Lemma eraseArb_haltProcessor reason r : eraseArb (haltProcessor reason r) = eraseArb r.
Proof.
  unfold haltProcessor.
  destruct (negb _); [rewrite eraseArb_notifyHaltRestart|]; reflexivity.
Qed.

Lemma eraseArb_refreshBasic r : eraseArb (refreshPendingAndEnabledBasic r) = eraseArb r.
Proof.
  unfold refreshPendingAndEnabledBasic.
  destruct (debugExcept _); [destruct (negb _)|]; destruct (truthy _); reflexivity.
Qed.

Lemma eraseArb_refreshCLIC r : eraseArb (refreshPendingAndEnabledCLIC r) = eraseArb r.
Proof.
  unfold refreshPendingAndEnabledCLIC.
  repeat match goal with
         | |- context [if ?b then _ else _] => destruct b
         | |- context [let '(_, _) := ?p in _] => destruct p
         end; reflexivity.
Qed.

Lemma eraseArb_refresh r : eraseArb (refreshPendingAndEnabled r) = eraseArb r.
Proof.
  unfold refreshPendingAndEnabled.
  destruct (CLICPresent _); [rewrite eraseArb_refreshCLIC|];
    (destruct (basicICPresent _); [rewrite eraseArb_refreshBasic|]); reflexivity.
Qed.

Lemma eraseArb_handlePE r : eraseArb (handlePendingAndEnabled r) = eraseArb r.
Proof. unfold handlePendingAndEnabled. now destruct (getPendingAndEnabled r). Qed.

Lemma eraseArb_testInterrupt r : eraseArb (riscvTestInterrupt r) = eraseArb r.
Proof.
  unfold riscvTestInterrupt. rewrite eraseArb_handlePE.
  destruct (getPending _); [rewrite eraseArb_restartProcessor|]; apply eraseArb_refresh.
Qed.

Lemma eraseCLIC_testInterrupt r : eraseCLIC (riscvTestInterrupt r) = eraseCLIC r.
Proof. apply eraseArb_eraseCLIC, eraseArb_testInterrupt. Qed.

Lemma eraseCLIC_updatePendingEnable i b r :
  eraseCLIC (updateCLICPendingEnable i b r) = eraseCLIC r.
Proof. unfold updateCLICPendingEnable. now rewrite eraseCLIC_testInterrupt. Qed.

Lemma eraseCLIC_writePending i v r :
  eraseCLIC (writeCLICInterruptPending i v r) = eraseCLIC r.
Proof.
  unfold writeCLICInterruptPending.
  destruct (negb _); [rewrite eraseCLIC_updatePendingEnable|]; reflexivity.
Qed.

Lemma eraseCLIC_acknowledge i r : eraseCLIC (riscvAcknowledgeCLICInt i r) = eraseCLIC r.
Proof.
  unfold riscvAcknowledgeCLICInt. destruct (truthy _).
  - apply eraseCLIC_writePending.
  - apply eraseArb_eraseCLIC, eraseArb_refresh.
Qed.

Lemma eraseCLIC_updateInput i v r : eraseCLIC (updateCLICInput i v r) = eraseCLIC r.
Proof.
  unfold updateCLICInput.
  destruct (_ || _); [apply eraseCLIC_writePending|reflexivity].
Qed.

(** Projections that survive the erasures. *)
Lemma eraseCLIC_proj (A : Type) (p : riscv -> A) r r' :
  (forall x, p (eraseCLIC x) = p x) -> eraseCLIC r' = eraseCLIC r -> p r' = p r.
Proof. intros Hp H. rewrite <- (Hp r'), <- (Hp r). now rewrite H. Qed.

Ltac keep_by H :=
  match goal with
  | |- ?p ?r' = ?p ?r => apply (eraseCLIC_proj _ p r r' (fun _ => eq_refl) H)
  end.

(** ** Return instructions in Debug mode *)

(** C9: executed while the Debug-Mode flag is set, mret, sret and uret
    leave the whole hart as it was: every field of the state, the trace of
    notifications and re-arbitrations included, is unchanged. *)
Theorem xRET_in_debug_mode_is_nop (r : riscv) :
  inDebugMode r = true ->
  riscvMRET r = r /\ riscvSRET r = r /\ riscvURET r = r.
Proof.
  intros HDM. unfold riscvMRET, riscvSRET, riscvURET.
  rewrite HDM. simpl. auto.
Qed.

Lemma xRET_in_debug_mode_is_nop_witness :
  inDebugMode hartDM = true /\
  riscvMRET hartDM = hartDM /\ riscvSRET hartDM = hartDM /\ riscvURET hartDM = hartDM.
Proof.
  split; [reflexivity|].
  apply (xRET_in_debug_mode_is_nop hartDM). reflexivity.
Defined.

(** Outside Debug mode the return is not a no-op: on the reference hart
    mret sets MPIE. *)
Example mret_outside_debug_mode :
  RD_CSR_FIELD (riscvMRET hart0) mstatus F.MPIE = 1 /\
  RD_CSR_FIELD hart0 mstatus F.MPIE = 0.
Proof. split; vm_compute; reflexivity. Qed.

(** ** Debug mode holds off interrupts *)

(** Number of synchronous interrupts that were requested from the
    simulator (each one leads the fetch gate to deliver an interrupt). *)
Definition isSyncRequest (e : hostEvent) : bool :=
  match e with EvDoSynchronousInterrupt => true | _ => false end.

Definition syncRequests (r : riscv) : nat := length (filter isSyncRequest (events r)).

Lemma syncRequests_fold_emit (A : Type) (p : A -> bool) (ev : A -> hostEvent) l r :
  (forall a, isSyncRequest (ev a) = false) ->
  syncRequests (fold_left (fun r cb => if p cb then emit (ev cb) r else r) l r)
  = syncRequests r.
Proof.
  intros Hev. revert r. induction l as [|a l IH]; intros r; simpl; [reflexivity|].
  rewrite IH. destruct (p a); [|reflexivity].
  unfold syncRequests, emit. simpl. now rewrite Hev.
Qed.

Lemma syncRequests_restartProcessor reason r :
  syncRequests (restartProcessor reason r) = syncRequests r.
Proof.
  unfold restartProcessor, notifyHaltRestart.
  destruct (negb _); [|reflexivity].
  now rewrite syncRequests_fold_emit.
Qed.

Lemma syncRequests_haltProcessor reason r :
  syncRequests (haltProcessor reason r) = syncRequests r.
Proof.
  unfold haltProcessor, notifyHaltRestart.
  destruct (negb _); [|reflexivity].
  now rewrite syncRequests_fold_emit.
Qed.

Lemma syncRequests_refreshBasic r :
  syncRequests (refreshPendingAndEnabledBasic r) = syncRequests r.
Proof.
  unfold refreshPendingAndEnabledBasic.
  destruct (debugExcept _); [destruct (negb _)|]; destruct (truthy _); reflexivity.
Qed.

Lemma syncRequests_refreshCLIC r :
  syncRequests (refreshPendingAndEnabledCLIC r) = syncRequests r.
Proof.
  unfold refreshPendingAndEnabledCLIC.
  repeat match goal with
         | |- context [if ?b then _ else _] => destruct b
         | |- context [let '(_, _) := ?p in _] => destruct p
         end; reflexivity.
Qed.

Lemma syncRequests_refresh r :
  syncRequests (refreshPendingAndEnabled r) = syncRequests r.
Proof.
  unfold refreshPendingAndEnabled.
  destruct (CLICPresent _); [rewrite syncRequests_refreshCLIC|];
    (destruct (basicICPresent _); [rewrite syncRequests_refreshBasic|]); reflexivity.
Qed.

Lemma DM_testInterrupt r : DM (riscvTestInterrupt r) = DM r.
Proof. keep_by (eraseCLIC_testInterrupt r). Qed.

Lemma getPendingAndEnabled_debug r :
  inDebugMode r = true -> getPendingAndEnabled r = false.
Proof.
  intros H. unfold getPendingAndEnabled. rewrite H. simpl.
  now rewrite andb_false_r.
Qed.

Lemma syncRequests_testInterrupt r :
  inDebugMode r = true -> syncRequests (riscvTestInterrupt r) = syncRequests r.
Proof.
  intros HDM. unfold riscvTestInterrupt, handlePendingAndEnabled.
  rewrite getPendingAndEnabled_debug.
  - destruct (getPending _); [rewrite syncRequests_restartProcessor|];
      apply syncRequests_refresh.
  - unfold inDebugMode in *. rewrite <- HDM.
    destruct (getPending _).
    + transitivity (DM (refreshPendingAndEnabled r)).
      * keep_by (eraseArb_eraseCLIC _ _ (eraseArb_restartProcessor RVD_RESTART_WFI
                                            (refreshPendingAndEnabled r))).
      * keep_by (eraseArb_eraseCLIC _ _ (eraseArb_refresh r)).
    + keep_by (eraseArb_eraseCLIC _ _ (eraseArb_refresh r)).
Qed.

Lemma syncRequests_writePending i v r :
  inDebugMode r = true ->
  syncRequests (writeCLICInterruptPending i v r) = syncRequests r.
Proof.
  intros HDM. unfold writeCLICInterruptPending, updateCLICPendingEnable.
  destruct (negb _); [|reflexivity].
  now rewrite syncRequests_testInterrupt.
Qed.

Lemma syncRequests_updateInput i v r :
  inDebugMode r = true -> syncRequests (updateCLICInput i v r) = syncRequests r.
Proof.
  intros HDM. unfold updateCLICInput.
  destruct (_ || _); [now apply syncRequests_writePending|reflexivity].
Qed.

(** What a change of an interrupt input leaves alone. *)
Lemma interruptPortCB_frame index v r :
  let r' := interruptPortCB index v r in
  DM r' = DM r /\ mode r' = mode r /\ PC r' = PC r /\ exception r' = exception r /\
  (forall c, c <> mip -> RD_CSR r' c = RD_CSR r c).
Proof.
  unfold interruptPortCB.
  destruct (negb (index <? getIntNum r)); [simpl; repeat split; reflexivity|].
  set (r1 := set_ip _ r).
  assert (H2 : eraseCLIC (if CLICPresent r1 then updateCLICInput index v r1 else r1)
               = eraseCLIC r1) by
    (destruct (CLICPresent r1); [rewrite eraseCLIC_updateInput|]; reflexivity).
  set (r2 := if CLICPresent r1 then _ else r1) in *.
  assert (F2 : DM r2 = DM r1 /\ mode r2 = mode r1 /\ PC r2 = PC r1 /\
               exception r2 = exception r1 /\ csr r2 = csr r1)
    by (repeat split; keep_by H2).
  destruct F2 as (Ha & Hb & Hc & Hd & He).
  change (DM r1) with (DM r) in Ha. change (mode r1) with (mode r) in Hb.
  change (PC r1) with (PC r) in Hc. change (exception r1) with (exception r) in Hd.
  change (csr r1) with (csr r) in He.
  cbv zeta. destruct (basicICPresent r2).
  - unfold riscvUpdatePending. destruct (negb _).
    + set (r3 := WR_CSR mip _ r2).
      pose proof (eraseCLIC_testInterrupt r3) as H3.
      repeat split.
      * rewrite <- Ha. transitivity (DM r3); [keep_by H3|reflexivity].
      * rewrite <- Hb. transitivity (mode r3); [keep_by H3|reflexivity].
      * rewrite <- Hc. transitivity (PC r3); [keep_by H3|reflexivity].
      * rewrite <- Hd. transitivity (exception r3); [keep_by H3|reflexivity].
      * intros c Hc'. unfold RD_CSR.
        transitivity (csr r3 c).
        { apply (f_equal (fun f => f c)). keep_by H3. }
        unfold r3, WR_CSR. simpl. rewrite CSR_eqb_neq by congruence.
        now rewrite He.
    + repeat split; try assumption. intros c _. unfold RD_CSR. now rewrite He.
  - repeat split; try assumption. intros c _. unfold RD_CSR. now rewrite He.
Qed.

Lemma interruptPortCB_syncRequests index v r :
  inDebugMode r = true ->
  syncRequests (interruptPortCB index v r) = syncRequests r.
Proof.
  intros HDM. unfold interruptPortCB.
  destruct (negb (index <? getIntNum r)); [reflexivity|].
  set (r1 := set_ip _ r).
  assert (HDM1 : inDebugMode r1 = true) by exact HDM.
  assert (H2 : syncRequests (if CLICPresent r1 then updateCLICInput index v r1 else r1)
               = syncRequests r) by
    (destruct (CLICPresent r1); [rewrite syncRequests_updateInput|]; auto).
  assert (D2 : inDebugMode (if CLICPresent r1 then updateCLICInput index v r1 else r1)
               = true).
  { unfold inDebugMode in *. rewrite <- HDM.
    destruct (CLICPresent r1); [|reflexivity].
    transitivity (DM r1); [keep_by (eraseCLIC_updateInput index v r1)|reflexivity]. }
  set (r2 := if CLICPresent r1 then _ else r1) in *.
  cbv zeta. destruct (basicICPresent r2); [|exact H2].
  unfold riscvUpdatePending. destruct (negb _); [|exact H2].
  rewrite syncRequests_testInterrupt; [exact H2|exact D2].
Qed.

Lemma enterDM_in_debug_mode cause r :
  inDebugMode r = true ->
  let r' := enterDM cause r in
  inDebugMode r' = true /\ csr r' = csr r /\ mode r' = mode r.
Proof.
  intros HDM. unfold enterDM. rewrite HDM. simpl negb. cbv iota.
  unfold inDebugMode in *.
  destruct (debug_mode (configInfo r)) eqn:E; cbv zeta;
    try (unfold updateDMStall; rewrite E);
    try (repeat split; (exact HDM || reflexivity)).
  set (r1 := set_DMStall true r).
  pose proof (eraseArb_eraseCLIC _ _ (eraseArb_haltProcessor RVD_DEBUG r1)) as H.
  repeat split.
  - rewrite <- HDM. transitivity (DM r1); [keep_by H|reflexivity].
  - transitivity (csr r1); [keep_by H|reflexivity].
  - transitivity (mode r1); [keep_by H|reflexivity].
Qed.

(** C7: with the Debug-Mode flag set, the pending-and-enabled predicate
    consulted by the fetch gate is false; a change of any interrupt input
    keeps it false, requests no interrupt from the simulator and leaves the
    mode, the PC and mcause, mepc and mtval alone; the fetch gate goes on to
    validate the fetch address instead of delivering an interrupt; and
    taking an exception stays in Debug mode without writing any control and
    status register (mcause, mepc and mtval among them). *)
Theorem debug_mode_blocks_interrupts (r : riscv) :
  inDebugMode r = true ->
  getPendingAndEnabled r = false /\
  (forall index v,
     let r' := interruptPortCB index v r in
     inDebugMode r' = true /\ getPendingAndEnabled r' = false /\
     syncRequests r' = syncRequests r /\
     mode r' = mode r /\ PC r' = PC r /\
     RD_CSR r' mcause = RD_CSR r mcause /\
     RD_CSR r' mepc = RD_CSR r mepc /\
     RD_CSR r' mtval = RD_CSR r mtval) /\
  (forall isExec vmMiss size address complete,
     nv_resethaltreqS (netValue r) = false ->
     riscvIFetchExcept isExec vmMiss size address complete r =
     let '(ok, r') := validateFetchAddress isExec vmMiss size address complete r in
     (if ok then VMI_FETCH_NONE
      else if complete then VMI_FETCH_EXCEPTION_COMPLETE
      else VMI_FETCH_EXCEPTION_PENDING, r')) /\
  (forall exception tval,
     let r' := riscvTakeException exception tval r in
     inDebugMode r' = true /\ mode r' = mode r /\
     (forall c, RD_CSR r' c = RD_CSR r c)).
Proof.
  intros HDM. split; [now apply getPendingAndEnabled_debug|]. split; [|split].
  - intros index v r'.
    destruct (interruptPortCB_frame index v r) as (Ha & Hb & Hc & _ & He).
    fold r' in Ha, Hb, Hc, He.
    assert (HDM' : inDebugMode r' = true) by (unfold inDebugMode in *; congruence).
    split; [exact HDM'|]. split; [now apply getPendingAndEnabled_debug|].
    split; [now apply interruptPortCB_syncRequests|].
    repeat split; try assumption; apply He; discriminate.
  - intros isExec vmMiss size address complete Hrh.
    unfold riscvIFetchExcept. rewrite Hrh, HDM.
    rewrite (getPendingAndEnabled_debug r HDM), andb_false_r.
    destruct (validateFetchAddress _ _ _ _ _ _) as [ok r1].
    destruct ok, complete; reflexivity.
  - intros e tval r'.
    unfold r', riscvTakeException, riscvTakeExceptionN, riscvTakeExceptionWith.
    rewrite HDM.
    destruct (enterDM_in_debug_mode DMC_NONE (emit EvAbortRepeat r) HDM)
      as (Ha & Hb & Hc).
    repeat split; try assumption.
    intros c. unfold RD_CSR. now rewrite Hb.
Qed.

Lemma debug_mode_blocks_interrupts_witness :
  inDebugMode hartDM = true /\
  RD_CSR (riscvTakeException riscv_E_IllegalInstruction 0 hartDM) mcause
  = RD_CSR hartDM mcause.
Proof.
  split; [reflexivity|].
  apply (debug_mode_blocks_interrupts hartDM); reflexivity.
Defined.

(** The same input outside Debug mode is delivered: machine external
    interrupt 11, enabled in mie and mstatus, raised on its port. *)
Definition hartMEI : riscv :=
  WR_CSR mie (Z.shiftl 1 11) (WR_CSR mstatus (Z.shiftl 1 3) hart0).

Example interrupt_outside_debug_mode :
  getPendingAndEnabled (interruptPortCB 11 true hartMEI) = true /\
  getPendingAndEnabled (interruptPortCB 11 true (set_DM true hartMEI)) = false.
Proof. split; vm_compute; reflexivity. Qed.

(** ** Non-maskable interrupt *)







(** Without a rising edge (the wire was already high) nothing but the
    mirror of the wire is written. *)
Example nmi_level_is_not_an_edge :
  let r := nmiPortCB true hart0 in
  PC (nmiPortCB true r) = PC r /\ PC r = 256 /\ PC hart0 = 4096.
Proof. cbv zeta. split; [|split]; vm_compute; reflexivity. Qed.

(** ** Phases of [riscvTakeException]

    The body of [riscvTakeExceptionWith] outside Debug mode, cut at the
    points where the source function passes from one block to the next:
    bookkeeping, choice of the target mode, update of the registers of the
    target mode, and choice of the handler. *)

Definition trapPrologue (exception : Z) (r : riscv) : riscv :=
  let r :=
    if negb (retiredCode r exception) && negb (riscvInhibitInstret r)
    then set_baseInstructions (wrap64 (baseInstructions r + 1)) r else r in
  let r :=
    if accessFaultCode exception then set_AFErrorOut (AFErrorIn r) r
    else set_AFErrorOut riscv_AFault_None r in
  clearEA r.

Definition trapModeX (exception : Z) (r : riscv) : Z :=
  if negb (isInterrupt exception) then getExceptionModeX r (getExceptionCode exception)
  else if pe_isCLIC (pendEnab r) then pe_priv (pendEnab r)
  else getInterruptModeX r (getExceptionCode exception).

Definition trapEcodeMod (exception : Z) (r : riscv) : Z :=
  if isExternalInterrupt exception then
    let offset := exception - riscv_E_ExternalInterrupt in
    if truthy (getAt 0 (extInt r) offset) then getAt 0 (extInt r) offset
    else getExceptionCode exception
  else getExceptionCode exception.

Definition trapLevel (exception modeX modeY : Z) (r : riscv) : Z :=
  if isInterrupt exception then pe_level (pendEnab r)
  else if negb (modeX =? modeY) then 0
  else -1.

Definition trapTarget (modeX modeY : Z) (isInt : bool) (ecodeMod EPC tval level : Z)
    (r : riscv) : riscv * Z * Z :=
  if modeX =? RISCV_MODE_USER then
    TARGET_MODE_X F.UIE F.UPIE F.uil ucause uepc utval utvec (UIMode r)
      isInt ecodeMod EPC tval level r
  else if modeX =? RISCV_MODE_SUPERVISOR then
    let '(r, base, mode) :=
      TARGET_MODE_X F.SIE F.SPIE F.sil scause sepc stval stvec (SIMode r)
        isInt ecodeMod EPC tval level r in
    (WR_CSR_FIELD mstatus F.SPP modeY r, base, mode)
  else
    let '(r, base, mode) :=
      TARGET_MODE_X F.MIE F.MPIE F.mil mcause mepc mtval mtvec (MIMode r)
        isInt ecodeMod EPC tval level r in
    (WR_CSR_FIELD mstatus F.MPP modeY r, base, mode).

Definition trapVectorSHV (take : Z -> Z -> riscv -> riscv) (ecode ecodeMod modeX : Z)
    (r : riscv) : riscv * option Z :=
  let r := riscvAcknowledgeCLICInt ecode r in
  if modeX =? RISCV_MODE_USER then
    GET_CLIC_VECTORED_HANDLER_PC take ucause utvt ecodeMod modeX r
  else if modeX =? RISCV_MODE_SUPERVISOR then
    GET_CLIC_VECTORED_HANDLER_PC take scause stvt ecodeMod modeX r
  else
    GET_CLIC_VECTORED_HANDLER_PC take mcause mtvt ecodeMod modeX r.

Definition trapVector (take : Z -> Z -> riscv -> riscv)
    (exception ecodeMod modeX : Z) (shv : bool) (base mode : Z) (r : riscv) : riscv :=
  let isInt := isInterrupt exception in
  let ecode := getExceptionCode exception in
  let r := riscvSetMode modeX r in
  let r := set_exception exception r in
  let '(r, handlerPC) :=
    if (mode =? riscv_int_Direct) || negb isInt then (r, Some base)
    else if negb (mode =? riscv_int_CLIC) then
      (r, Some (wrap64 (base + wrap32 (4 * ecode))))
    else if negb shv then (r, Some (Z.land base (-64)))
    else trapVectorSHV take ecode ecodeMod modeX r in
  match handlerPC with
  | None => r
  | Some handlerPC => notifyTrap modeX (vmirtSetPCException handlerPC r)
  end.

Lemma riscvTakeExceptionWith_eq take exception tval r :
  inDebugMode r = false ->
  riscvTakeExceptionWith take exception tval r =
  let r1 := trapPrologue exception r in
  let modeX := trapModeX exception r1 in
  let '(r2, base, mode) :=
    trapTarget modeX (getCurrentMode r) (isInterrupt exception)
      (trapEcodeMod exception r1) (getEPC r)
      (if tval_zero (configInfo r1) then 0 else tval)
      (trapLevel exception modeX (getCurrentMode r) r1) r1 in
  trapVector take exception (trapEcodeMod exception r1) modeX
    (sel_shv (clic_sel r)) base mode r2.
Proof.
  intros HDM. unfold riscvTakeExceptionWith. rewrite HDM.
  reflexivity.
Qed.

(** ** Registers of the target mode *)

(** The registers and mstatus fields that [TARGET_MODE_X] is instantiated
    with for a target mode. *)
Record trapRegs : Type := mkTrapRegs {
  tIE : field; tPIE : field; til : field;
  tcause : CSR; tepc : CSR; ttval : CSR; ttvec : CSR; ttvt : CSR
}.

Definition regsU : trapRegs := mkTrapRegs F.UIE F.UPIE F.uil ucause uepc utval utvec utvt.
Definition regsS : trapRegs := mkTrapRegs F.SIE F.SPIE F.sil scause sepc stval stvec stvt.
Definition regsM : trapRegs := mkTrapRegs F.MIE F.MPIE F.mil mcause mepc mtval mtvec mtvt.

Definition regsOf (modeX : Z) : trapRegs :=
  if modeX =? RISCV_MODE_USER then regsU
  else if modeX =? RISCV_MODE_SUPERVISOR then regsS
  else regsM.

Definition XIModeOf (modeX : Z) (r : riscv) : Z :=
  if modeX =? RISCV_MODE_USER then UIMode r
  else if modeX =? RISCV_MODE_SUPERVISOR then SIMode r
  else MIMode r.

Definition regs_wf (t : trapRegs) : Prop :=
  (t = regsU \/ t = regsS \/ t = regsM).

Lemma regsOf_wf modeX : regs_wf (regsOf modeX).
Proof.
  unfold regsOf, regs_wf.
  destruct (modeX =? RISCV_MODE_USER); [auto|].
  destruct (modeX =? RISCV_MODE_SUPERVISOR); auto.
Qed.

Definition targetOf (t : trapRegs) (XIMode : Z) (isInt : bool)
    (ecode EPC tval level : Z) (r : riscv) : riscv * Z * Z :=
  TARGET_MODE_X (tIE t) (tPIE t) (til t) (tcause t) (tepc t) (ttval t) (ttvec t)
    XIMode isInt ecode EPC tval level r.

(** Forgets the register file. *)
Definition eraseCSR (r : riscv) : riscv := set_csr (fun _ => 0) r.

Lemma useCLICM_WR_mstatus f v r :
  useCLICM (WR_CSR_FIELD mstatus f v r) = useCLICM r.
Proof. reflexivity. Qed.

Lemma TARGET_MODE_X_spec t XIMode isInt ecode EPC tval level r :
  regs_wf t ->
  let res := targetOf t XIMode isInt ecode EPC tval level r in
  let r' := fst (fst res) in
  eraseCSR r' = eraseCSR r /\
  snd (fst res) = wrap64 (Z.shiftl (RD_CSR_FIELD r (ttvec t) (F.BASE (xlen (configInfo r)))) 2) /\
  snd res = getIMode XIMode (RD_CSR_FIELD r (ttvec t) F.MODE) /\
  RD_CSR r' mstatus =
    wrField (tIE t)
      (wrField (tPIE t) (RD_CSR r mstatus) (rdField (tIE t) (RD_CSR r mstatus))) 0 /\
  RD_CSR r' (tcause t) =
    wrField F.pil
      (wrField (F.Interrupt (xlen (configInfo r)))
         (wrField F.ExceptionCode
            (if useCLICM r then RD_CSR r (tcause t) else 0) ecode)
         (b2z isInt))
      (rdField (til t) (RD_CSR r mintstatus)) /\
  RD_CSR r' (tepc t) = Z.land EPC (RD_CSR_MASK_epc r (tepc t)) /\
  RD_CSR r' (ttval t) = tval /\
  RD_CSR r' mintstatus =
    (if level >=? 0 then wrField (til t) (RD_CSR r mintstatus) level
     else RD_CSR r mintstatus) /\
  (forall c, c <> mstatus -> c <> mintstatus -> c <> tcause t -> c <> tepc t ->
             c <> ttval t -> RD_CSR r' c = RD_CSR r c).
Proof.
  intros Hwf res r'. unfold r', res, targetOf, TARGET_MODE_X.
  rewrite !useCLICM_WR_mstatus.
  destruct Hwf as [-> | [-> | ->]];
    destruct (useCLICM r), (level >=? 0);
    cbn [fst snd negb regsU regsS regsM tIE tPIE til tcause tepc ttval ttvec ttvt];
    unfold RD_CSR_MASK_epc; csr_simpl;
    (repeat (split; [reflexivity|]));
    intros c H1 H2 H3 H4 H5;
    rewrite ?CSR_eqb_neq by congruence; reflexivity.
Qed.

Lemma trapTarget_eq modeX modeY isInt ecodeMod EPC tval level r :
  trapTarget modeX modeY isInt ecodeMod EPC tval level r =
  let res := targetOf (regsOf modeX) (XIModeOf modeX r) isInt ecodeMod EPC tval level r in
  (if modeX =? RISCV_MODE_USER then fst (fst res)
   else if modeX =? RISCV_MODE_SUPERVISOR
        then WR_CSR_FIELD mstatus F.SPP modeY (fst (fst res))
        else WR_CSR_FIELD mstatus F.MPP modeY (fst (fst res)),
   snd (fst res), snd res).
Proof.
  unfold trapTarget, regsOf, XIModeOf, targetOf.
  destruct (modeX =? RISCV_MODE_USER).
  - cbn [regsU tIE tPIE til tcause tepc ttval ttvec].
    now destruct (TARGET_MODE_X _ _ _ _ _ _ _ _ _ _ _ _ _ _) as [[? ?] ?].
  - destruct (modeX =? RISCV_MODE_SUPERVISOR).
    + cbn [regsS tIE tPIE til tcause tepc ttval ttvec].
      now destruct (TARGET_MODE_X _ _ _ _ _ _ _ _ _ _ _ _ _ _) as [[? ?] ?].
    + cbn [regsM tIE tPIE til tcause tepc ttval ttvec].
      now destruct (TARGET_MODE_X _ _ _ _ _ _ _ _ _ _ _ _ _ _) as [[? ?] ?].
Qed.

Lemma b2z_bit b : Z.land (b2z b) (Z.ones 1) = b2z b.
Proof. now destruct b. Qed.

Lemma rdField_land f r : 0 <= f_width f -> Z.land (rdField f r) (Z.ones (f_width f)) = rdField f r.
Proof.
  intros Hw. apply land_ones_small; [assumption|].
  unfold rdField. now apply getField_range.
Qed.

Lemma Interrupt_wf x : 31 <= f_lo (F.Interrupt x) /\ f_width (F.Interrupt x) = 1.
Proof. destruct x; simpl; lia. Qed.

(** Registers of the target mode after [TARGET_MODE_X] and the write of
    the previous privilege. *)
Lemma trapTarget_spec modeX modeY isInt ecodeMod EPC tval level r :
  let t := regsOf modeX in
  let res := trapTarget modeX modeY isInt ecodeMod EPC tval level r in
  let r' := fst (fst res) in
  eraseCSR r' = eraseCSR r /\
  snd (fst res) =
    wrap64 (Z.shiftl (RD_CSR_FIELD r (ttvec t) (F.BASE (xlen (configInfo r)))) 2) /\
  snd res = getIMode (XIModeOf modeX r) (RD_CSR_FIELD r (ttvec t) F.MODE) /\
  RD_CSR_FIELD r' mstatus (tIE t) = 0 /\
  RD_CSR_FIELD r' mstatus (tPIE t) = RD_CSR_FIELD r mstatus (tIE t) /\
  RD_CSR_FIELD r' (tcause t) F.ExceptionCode = Z.land ecodeMod (Z.ones 12) /\
  RD_CSR_FIELD r' (tcause t) (F.Interrupt (xlen (configInfo r))) = b2z isInt /\
  RD_CSR_FIELD r' (tcause t) F.pil = RD_CSR_FIELD r mintstatus (til t) /\
  RD_CSR r' (tepc t) = Z.land EPC (RD_CSR_MASK_epc r (tepc t)) /\
  RD_CSR r' (ttval t) = tval /\
  (forall c, c <> mstatus -> c <> mintstatus -> c <> tcause t -> c <> tepc t ->
             c <> ttval t -> RD_CSR r' c = RD_CSR r c).
Proof.
  intros t res r'. unfold r', res. rewrite trapTarget_eq. cbv zeta.
  destruct (TARGET_MODE_X_spec (regsOf modeX) (XIModeOf modeX r) isInt ecodeMod EPC
              tval level r (regsOf_wf modeX))
    as (He & Hb & Hm & Hms & Hc & Hepc & Htv & _ & Hf).
  fold t in He, Hb, Hm, Hms, Hc, Hepc, Htv, Hf |- *.
  revert He Hb Hm Hms Hc Hepc Htv Hf.
  generalize (targetOf t (XIModeOf modeX r) isInt ecodeMod EPC tval level r).
  intros [[x base] mode]. cbn [fst snd]. intros He Hb Hm Hms Hc Hepc Htv Hf.
  destruct (Interrupt_wf (xlen (configInfo r))) as [Hilo Hiw].
  assert (Hcases : t = regsU /\ (modeX =? RISCV_MODE_USER) = true \/
                   t = regsS /\ (modeX =? RISCV_MODE_USER) = false /\
                     (modeX =? RISCV_MODE_SUPERVISOR) = true \/
                   t = regsM /\ (modeX =? RISCV_MODE_USER) = false /\
                     (modeX =? RISCV_MODE_SUPERVISOR) = false).
  { unfold t, regsOf. destruct (modeX =? RISCV_MODE_USER); [auto|].
    destruct (modeX =? RISCV_MODE_SUPERVISOR); auto. }
  clearbody t.
  assert (Hcause : forall y, RD_CSR y (tcause t) = RD_CSR x (tcause t) ->
            RD_CSR_FIELD y (tcause t) F.ExceptionCode = Z.land ecodeMod (Z.ones 12) /\
            RD_CSR_FIELD y (tcause t) (F.Interrupt (xlen (configInfo r))) = b2z isInt /\
            RD_CSR_FIELD y (tcause t) F.pil = RD_CSR_FIELD r mintstatus (til t)).
  { intros y Hy. unfold RD_CSR_FIELD. unfold RD_CSR in *. rewrite Hy, Hc.
    assert (Hil : 0 <= f_lo (til t) /\ f_width (til t) = 8)
      by (destruct Hcases as [[-> _] | [[-> _] | [-> _]]]; simpl; lia).
    split; [|split].
    - rewrite rd_wr_other by (simpl; lia).
      rewrite rd_wr_other by (simpl in *; lia).
      now rewrite rd_wr_same by (simpl; lia).
    - rewrite rd_wr_other by (simpl in *; lia).
      rewrite rd_wr_same by lia. rewrite Hiw. apply b2z_bit.
    - rewrite rd_wr_same by (simpl; lia).
      change (f_width F.pil) with 8. replace 8 with (f_width (til t)) by lia.
      apply rdField_land. lia. }
  destruct Hcases as [[-> ->] | [[-> [-> ->]] | [-> [-> ->]]]].
  - split; [exact He|]. split; [exact Hb|]. split; [exact Hm|].
    unfold RD_CSR_FIELD. unfold RD_CSR in Hms |- *. rewrite Hms.
    split; [now rewrite rd_wr_same by (simpl; lia)|].
    split.
    { rewrite rd_wr_other by (simpl; lia). rewrite rd_wr_same by (simpl; lia).
      apply (rdField_land F.UIE). simpl; lia. }
    destruct (Hcause x eq_refl) as (Ha & Hb' & Hc').
    repeat (split; [assumption|]). exact Hf.
  - assert (He' : eraseCSR (WR_CSR_FIELD mstatus F.SPP modeY x) = eraseCSR r)
      by (rewrite <- He; reflexivity).
    split; [exact He'|]. split; [exact Hb|]. split; [exact Hm|].
    assert (Hsame : forall c, c <> mstatus ->
              RD_CSR (WR_CSR_FIELD mstatus F.SPP modeY x) c = RD_CSR x c)
      by (intros c Hc0; unfold WR_CSR_FIELD; apply RD_WR_CSR_other; congruence).
    assert (Hst : RD_CSR (WR_CSR_FIELD mstatus F.SPP modeY x) mstatus
                  = wrField F.SPP (RD_CSR x mstatus) modeY)
      by (unfold WR_CSR_FIELD; apply RD_WR_CSR_same).
    revert He' Hsame Hst. generalize (WR_CSR_FIELD mstatus F.SPP modeY x).
    intros y _ Hsame Hst.
    unfold RD_CSR_FIELD at 1 2. unfold RD_CSR in Hst, Hms. unfold RD_CSR at 1 2.
    rewrite Hst, Hms.
    split.
    { rewrite rd_wr_other by (simpl; lia). now rewrite rd_wr_same by (simpl; lia). }
    split.
    { rewrite rd_wr_other by (simpl; lia). rewrite rd_wr_other by (simpl; lia).
      rewrite rd_wr_same by (simpl; lia). apply (rdField_land F.SIE). simpl; lia. }
    destruct (Hcause y (Hsame scause ltac:(discriminate))) as (Ha & Hb' & Hc').
    split; [assumption|]. split; [assumption|]. split; [assumption|].
    split; [rewrite Hsame by discriminate; exact Hepc|].
    split; [rewrite Hsame by discriminate; exact Htv|].
    intros c H1 H2 H3 H4 H5. rewrite Hsame by assumption. now apply Hf.
  - assert (He' : eraseCSR (WR_CSR_FIELD mstatus F.MPP modeY x) = eraseCSR r)
      by (rewrite <- He; reflexivity).
    split; [exact He'|]. split; [exact Hb|]. split; [exact Hm|].
    assert (Hsame : forall c, c <> mstatus ->
              RD_CSR (WR_CSR_FIELD mstatus F.MPP modeY x) c = RD_CSR x c)
      by (intros c Hc0; unfold WR_CSR_FIELD; apply RD_WR_CSR_other; congruence).
    assert (Hst : RD_CSR (WR_CSR_FIELD mstatus F.MPP modeY x) mstatus
                  = wrField F.MPP (RD_CSR x mstatus) modeY)
      by (unfold WR_CSR_FIELD; apply RD_WR_CSR_same).
    revert He' Hsame Hst. generalize (WR_CSR_FIELD mstatus F.MPP modeY x).
    intros y _ Hsame Hst.
    unfold RD_CSR_FIELD at 1 2. unfold RD_CSR in Hst, Hms. unfold RD_CSR at 1 2.
    rewrite Hst, Hms.
    split.
    { rewrite rd_wr_other by (simpl; lia). now rewrite rd_wr_same by (simpl; lia). }
    split.
    { rewrite rd_wr_other by (simpl; lia). rewrite rd_wr_other by (simpl; lia).
      rewrite rd_wr_same by (simpl; lia). apply (rdField_land F.MIE). simpl; lia. }
    destruct (Hcause y (Hsame mcause ltac:(discriminate))) as (Ha & Hb' & Hc').
    split; [assumption|]. split; [assumption|]. split; [assumption|].
    split; [rewrite Hsame by discriminate; exact Hepc|].
    split; [rewrite Hsame by discriminate; exact Htv|].
    intros c H1 H2 H3 H4 H5. rewrite Hsame by assumption. now apply Hf.
Qed.

(** ** Choice of the handler *)

Lemma eraseArb_notifyTrap modeX r : eraseArb (notifyTrap modeX r) = eraseArb r.
Proof. unfold notifyTrap. apply eraseArb_fold_emit. Qed.

(** Projections that survive [eraseArb]. *)
Lemma eraseArb_proj (A : Type) (p : riscv -> A) r r' :
  (forall x, p (eraseArb x) = p x) -> eraseArb r' = eraseArb r -> p r' = p r.
Proof. intros Hp H. rewrite <- (Hp r'), <- (Hp r). now rewrite H. Qed.

Ltac keep_arb H :=
  match goal with
  | |- ?p ?r' = ?p ?r => apply (eraseArb_proj _ p r r' (fun _ => eq_refl) H)
  end.

(** Projections that survive [eraseCSR]. *)
Lemma eraseCSR_proj (A : Type) (p : riscv -> A) r r' :
  (forall x, p (eraseCSR x) = p x) -> eraseCSR r' = eraseCSR r -> p r' = p r.
Proof. intros Hp H. rewrite <- (Hp r'), <- (Hp r). now rewrite H. Qed.

Ltac keep_csr H :=
  match goal with
  | |- ?p ?r' = ?p ?r => apply (eraseCSR_proj _ p r r' (fun _ => eq_refl) H)
  end.

(** The hart once the handler address is known. *)
Definition enterHandler (modeX handlerPC : Z) (r : riscv) : riscv :=
  notifyTrap modeX (vmirtSetPCException handlerPC r).

Lemma enterHandler_spec modeX h r :
  let r' := enterHandler modeX h r in
  PC r' = h /\ mode r' = mode r /\ exception r' = exception r /\ DM r' = DM r /\
  csr r' = csr r /\ baseInstructions r' = baseInstructions r /\
  configInfo r' = configInfo r.
Proof.
  unfold enterHandler.
  pose proof (eraseArb_notifyTrap modeX (vmirtSetPCException h r)) as H.
  revert H. generalize (notifyTrap modeX (vmirtSetPCException h r)). intros y H.
  cbv zeta.
  split; [transitivity (PC (vmirtSetPCException h r)); [keep_arb H|reflexivity]|].
  split; [transitivity (mode (vmirtSetPCException h r)); [keep_arb H|reflexivity]|].
  split; [transitivity (exception (vmirtSetPCException h r)); [keep_arb H|reflexivity]|].
  split; [transitivity (DM (vmirtSetPCException h r)); [keep_arb H|reflexivity]|].
  split; [transitivity (csr (vmirtSetPCException h r)); [keep_arb H|reflexivity]|].
  split; [transitivity (baseInstructions (vmirtSetPCException h r));
          [keep_arb H|reflexivity]|].
  transitivity (configInfo (vmirtSetPCException h r)); [keep_arb H|reflexivity].
Qed.

(** Handler of a trap that does not fetch its vector from the CLIC
    table. *)
Definition plainHandler (exception : Z) (shv : bool) (base mode : Z) : option Z :=
  if (mode =? riscv_int_Direct) || negb (isInterrupt exception) then Some base
  else if negb (mode =? riscv_int_CLIC)
       then Some (wrap64 (base + wrap32 (4 * getExceptionCode exception)))
  else if negb shv then Some (Z.land base (-64))
  else None.

Lemma trapVector_plain take exception ecodeMod modeX shv base mode r h :
  plainHandler exception shv base mode = Some h ->
  trapVector take exception ecodeMod modeX shv base mode r =
  enterHandler modeX h (set_exception exception (riscvSetMode modeX r)).
Proof.
  unfold plainHandler, trapVector, enterHandler.
  destruct ((mode =? riscv_int_Direct) || negb (isInterrupt exception)).
  - now intros [= <-].
  - destruct (negb (mode =? riscv_int_CLIC)); [now intros [= <-]|].
    destruct (negb shv); [now intros [= <-]|discriminate].
Qed.

Lemma trapVector_shv take exception ecodeMod modeX shv base mode r :
  plainHandler exception shv base mode = None ->
  trapVector take exception ecodeMod modeX shv base mode r =
  let '(r', handlerPC) :=
    trapVectorSHV take (getExceptionCode exception) ecodeMod modeX
      (set_exception exception (riscvSetMode modeX r)) in
  match handlerPC with
  | None => r'
  | Some h => enterHandler modeX h r'
  end.
Proof.
  unfold plainHandler, trapVector, enterHandler.
  destruct ((mode =? riscv_int_Direct) || negb (isInterrupt exception));
    [discriminate|].
  destruct (negb (mode =? riscv_int_CLIC)); [discriminate|].
  destruct (negb shv); [discriminate|]. reflexivity.
Qed.

Lemma plainHandler_sync exception shv base mode :
  isInterrupt exception = false -> plainHandler exception shv base mode = Some base.
Proof.
  intros H. unfold plainHandler. rewrite H. now rewrite orb_true_r.
Qed.

Lemma plainHandler_None exception shv base mode :
  plainHandler exception shv base mode = None ->
  isInterrupt exception = true /\ mode = riscv_int_CLIC /\ shv = true.
Proof.
  unfold plainHandler.
  destruct (isInterrupt exception); [|now rewrite orb_true_r].
  rewrite orb_false_r. destruct (mode =? riscv_int_Direct); [discriminate|].
  destruct (Z.eqb_spec mode riscv_int_CLIC); [|discriminate].
  destruct shv; [auto|discriminate].
Qed.

(** Frame of the bookkeeping that opens the delivery. *)
Definition erasePrologue (r : riscv) : riscv :=
  set_baseInstructions 0 (set_AFErrorOut riscv_AFault_None (set_exclusiveTag 0 r)).

Lemma erasePrologue_trapPrologue exception r :
  erasePrologue (trapPrologue exception r) = erasePrologue r.
Proof.
  unfold trapPrologue.
  destruct (negb _ && negb _), (accessFaultCode exception); reflexivity.
Qed.

Lemma erasePrologue_proj (A : Type) (p : riscv -> A) r r' :
  (forall x, p (erasePrologue x) = p x) -> erasePrologue r' = erasePrologue r ->
  p r' = p r.
Proof. intros Hp H. rewrite <- (Hp r'), <- (Hp r). now rewrite H. Qed.

Ltac keep_pro H :=
  match goal with
  | |- ?p ?r' = ?p ?r => apply (erasePrologue_proj _ p r r' (fun _ => eq_refl) H)
  end.

Lemma trapPrologue_count exception r :
  baseInstructions (trapPrologue exception r) =
  if negb (retiredCode r exception) && negb (riscvInhibitInstret r)
  then wrap64 (baseInstructions r + 1) else baseInstructions r.
Proof.
  unfold trapPrologue.
  destruct (negb _ && negb _), (accessFaultCode exception); reflexivity.
Qed.

Lemma trapModeX_prologue exception r :
  trapModeX exception (trapPrologue exception r) = trapModeX exception r.
Proof.
  pose proof (erasePrologue_trapPrologue exception r) as H.
  revert H. generalize (trapPrologue exception r). intros x H.
  unfold trapModeX, getExceptionModeX, getInterruptModeX, getModeX, RD_CSR,
    getCurrentMode.
  replace (pendEnab x) with (pendEnab r) by (symmetry; keep_pro H).
  replace (csr x) with (csr r) by (symmetry; keep_pro H).
  replace (mode x) with (mode r) by (symmetry; keep_pro H).
  reflexivity.
Qed.

Lemma trapEcodeMod_prologue exception r :
  trapEcodeMod exception (trapPrologue exception r) = trapEcodeMod exception r.
Proof.
  pose proof (erasePrologue_trapPrologue exception r) as H.
  revert H. generalize (trapPrologue exception r). intros x H.
  unfold trapEcodeMod.
  replace (extInt x) with (extInt r) by (symmetry; keep_pro H).
  reflexivity.
Qed.

(** ** The hart on entry to the handler choice *)

Definition trapTval (tval : Z) (r : riscv) : Z :=
  if tval_zero (configInfo r) then 0 else tval.

(** The hart after the registers of the target mode are written, the
    privilege is switched and the exception is recorded; with it, the base
    address and the interrupt mode of the target mode. *)
Definition trapEntry (exception tval : Z) (r : riscv) : riscv * Z * Z :=
  let modeX := trapModeX exception r in
  let res :=
    trapTarget modeX (getCurrentMode r) (isInterrupt exception)
      (trapEcodeMod exception r) (getEPC r) (trapTval tval r)
      (trapLevel exception modeX (getCurrentMode r) r) (trapPrologue exception r) in
  (set_exception exception (riscvSetMode modeX (fst (fst res))), snd (fst res), snd res).

Lemma trapLevel_prologue exception modeX modeY r :
  trapLevel exception modeX modeY (trapPrologue exception r)
  = trapLevel exception modeX modeY r.
Proof.
  pose proof (erasePrologue_trapPrologue exception r) as H.
  revert H. generalize (trapPrologue exception r). intros x H.
  unfold trapLevel.
  replace (pendEnab x) with (pendEnab r) by (symmetry; keep_pro H).
  reflexivity.
Qed.

Lemma configInfo_prologue exception r :
  configInfo (trapPrologue exception r) = configInfo r.
Proof. keep_pro (erasePrologue_trapPrologue exception r). Qed.

Lemma riscvTakeExceptionWith_entry take exception tval r :
  inDebugMode r = false ->
  riscvTakeExceptionWith take exception tval r =
  let modeX := trapModeX exception r in
  let ent := trapEntry exception tval r in
  match plainHandler exception (sel_shv (clic_sel r)) (snd (fst ent)) (snd ent) with
  | Some h => enterHandler modeX h (fst (fst ent))
  | None =>
      let '(r', handlerPC) :=
        trapVectorSHV take (getExceptionCode exception) (trapEcodeMod exception r)
          modeX (fst (fst ent)) in
      match handlerPC with
      | None => r'
      | Some h => enterHandler modeX h r'
      end
  end.
Proof.
  intros HDM. rewrite riscvTakeExceptionWith_eq by assumption. cbv zeta.
  rewrite trapModeX_prologue, trapEcodeMod_prologue, trapLevel_prologue,
    configInfo_prologue.
  unfold trapEntry. cbv zeta. fold (trapTval tval r).
  generalize (trapTarget (trapModeX exception r) (getCurrentMode r)
                (isInterrupt exception) (trapEcodeMod exception r) (getEPC r)
                (trapTval tval r)
                (trapLevel exception (trapModeX exception r) (getCurrentMode r) r)
                (trapPrologue exception r)).
  intros [[r2 base] mode]. cbn [fst snd].
  destruct (plainHandler exception (sel_shv (clic_sel r)) base mode) as [h|] eqn:E.
  - now apply trapVector_plain.
  - now apply trapVector_shv.
Qed.

Lemma trapEntry_spec e tval r :
  let X := trapModeX e r in
  let t := regsOf X in
  let ent := trapEntry e tval r in
  let r' := fst (fst ent) in
  mode r' = X /\ exception r' = e /\ DM r' = DM r /\
  configInfo r' = configInfo r /\
  baseInstructions r' =
    (if negb (retiredCode r e) && negb (riscvInhibitInstret r)
     then wrap64 (baseInstructions r + 1) else baseInstructions r) /\
  snd (fst ent) =
    wrap64 (Z.shiftl (RD_CSR_FIELD r (ttvec t) (F.BASE (xlen (configInfo r)))) 2) /\
  snd ent = getIMode (XIModeOf X r) (RD_CSR_FIELD r (ttvec t) F.MODE) /\
  RD_CSR_FIELD r' mstatus (tIE t) = 0 /\
  RD_CSR_FIELD r' mstatus (tPIE t) = RD_CSR_FIELD r mstatus (tIE t) /\
  RD_CSR_FIELD r' (tcause t) F.ExceptionCode
    = Z.land (trapEcodeMod e r) (Z.ones 12) /\
  RD_CSR_FIELD r' (tcause t) (F.Interrupt (xlen (configInfo r)))
    = b2z (isInterrupt e) /\
  RD_CSR r' (tepc t) = Z.land (getEPC r) (RD_CSR_MASK_epc r (tepc t)) /\
  RD_CSR r' (ttval t) = trapTval tval r /\
  (forall c, c <> mstatus -> c <> mintstatus -> c <> tcause t -> c <> tepc t ->
             c <> ttval t -> RD_CSR r' c = RD_CSR r c).
Proof.
  intros X t ent r'. unfold r', ent, trapEntry. cbv zeta. fold X.
  pose proof (erasePrologue_trapPrologue e r) as Hp.
  pose proof (trapPrologue_count e r) as Hcount.
  destruct (trapTarget_spec X (getCurrentMode r) (isInterrupt e)
              (trapEcodeMod e r) (getEPC r) (trapTval tval r)
              (trapLevel e X (getCurrentMode r) r) (trapPrologue e r))
    as (He & Hb & Hm & H1 & H2 & H3 & H4 & _ & H6 & H7 & H8).
  fold t in Hb, Hm, H1, H2, H3, H4, H6, H7, H8.
  revert He Hb Hm H1 H2 H3 H4 H6 H7 H8.
  generalize (trapTarget X (getCurrentMode r) (isInterrupt e)
                (trapEcodeMod e r) (getEPC r) (trapTval tval r)
                (trapLevel e X (getCurrentMode r) r)
                (trapPrologue e r)).
  revert Hp Hcount. generalize (trapPrologue e r). intros r1 Hp Hcount.
  intros [[r2 base] mode]. cbn [fst snd]. intros He Hb Hm H1 H2 H3 H4 H6 H7 H8.
  assert (Hcfg : configInfo r1 = configInfo r) by keep_pro Hp.
  assert (Hcsr : csr r1 = csr r) by keep_pro Hp.
  assert (HXI : XIModeOf X r1 = XIModeOf X r).
  { unfold XIModeOf.
    replace (UIMode r1) with (UIMode r) by (symmetry; keep_pro Hp).
    replace (SIMode r1) with (SIMode r) by (symmetry; keep_pro Hp).
    replace (MIMode r1) with (MIMode r) by (symmetry; keep_pro Hp).
    reflexivity. }
  unfold RD_CSR_FIELD, RD_CSR, RD_CSR_MASK_epc in *.
  rewrite Hcfg, Hcsr, ?HXI in *.
  change (csr (set_exception e (riscvSetMode X r2))) with (csr r2).
  split; [reflexivity|]. split; [reflexivity|].
  split.
  { change (DM r2 = DM r). transitivity (DM r1); [keep_csr He|keep_pro Hp]. }
  split.
  { change (configInfo r2 = configInfo r). rewrite <- Hcfg. keep_csr He. }
  split.
  { transitivity (baseInstructions r1); [|exact Hcount].
    change (baseInstructions r2 = baseInstructions r1). keep_csr He. }
  repeat (split; [assumption|]). exact H8.
Qed.

(** ** Fetch of the handler from the CLIC vector table *)

Definition ptrBytesOf (r : riscv) : Z := riscvGetXlenArch r / 8.

Definition vectorAddress (xtvt : CSR) (intNum : Z) (r : riscv) : Z :=
  wrap64 (RD_CSR r xtvt + wrap32 (ptrBytesOf r * intNum)).

Lemma GET_CLIC_VECTORED_HANDLER_PC_eq take xcause xtvt intNum modeArg r :
  GET_CLIC_VECTORED_HANDLER_PC take xcause xtvt intNum modeArg r =
  let rd := vmirtReadDomain take (vectorAddress xtvt intNum r) (ptrBytesOf r)
              (WR_CSR_FIELD xcause F.inhv 1 r) in
  if isInterrupt (exception (snd rd))
  then (WR_CSR_FIELD xcause F.inhv 0 (snd rd), Some (Z.land (fst rd) (-2)))
  else (snd rd, None).
Proof.
  unfold GET_CLIC_VECTORED_HANDLER_PC, readCLICVectorTableEntry, vectorAddress,
    ptrBytesOf, riscvGetXlenArch.
  change (configInfo (WR_CSR_FIELD xcause F.inhv 1 r)) with (configInfo r).
  destruct (xlen (configInfo r)); cbn [xlenBits];
    [change (32 / 8) with 4 | change (64 / 8) with 8];
    cbn [Z.eqb Pos.eqb]; cbv zeta;
    destruct (vmirtReadDomain _ _ _ _) as [v r6]; cbn [fst snd];
    now destruct (isInterrupt (exception r6)).
Qed.

Lemma trapVectorSHV_eq take ecode ecodeMod modeX r :
  trapVectorSHV take ecode ecodeMod modeX r =
  GET_CLIC_VECTORED_HANDLER_PC take (tcause (regsOf modeX)) (ttvt (regsOf modeX))
    ecodeMod modeX (riscvAcknowledgeCLICInt ecode r).
Proof.
  unfold trapVectorSHV, regsOf.
  destruct (modeX =? RISCV_MODE_USER); [reflexivity|].
  destruct (modeX =? RISCV_MODE_SUPERVISOR); reflexivity.
Qed.

(** State that a failing read of the data domain may write before any
    exception is taken: the page table walker flag, the latched device
    fault and the first-fault flag of the vector unit, with the registers
    vstart and vl. *)
Definition eraseRead (r : riscv) : riscv :=
  set_PTWBadAddr false
    (set_AFErrorIn riscv_AFault_None
       (set_vFirstFault false (set_events [] (set_csr (fun _ => 0) r)))).

Lemma eraseRead_proj (A : Type) (p : riscv -> A) r r' :
  (forall x, p (eraseRead x) = p x) -> eraseRead r' = eraseRead r -> p r' = p r.
Proof. intros Hp H. rewrite <- (Hp r'), <- (Hp r). now rewrite H. Qed.

Ltac keep_read H :=
  match goal with
  | |- ?p ?r' = ?p ?r => apply (eraseRead_proj _ p r r' (fun _ => eq_refl) H)
  end.

(** The read touched nothing but that state. *)
Definition quietRead (r r' : riscv) : Prop :=
  eraseRead r' = eraseRead r /\
  (forall c, c <> vstart -> c <> vl -> RD_CSR r' c = RD_CSR r c).

Lemma quietRead_refl r : quietRead r r.
Proof. split; [reflexivity|auto]. Qed.

Lemma quietRead_trans a b c : quietRead a b -> quietRead b c -> quietRead a c.
Proof.
  intros [H1 F1] [H2 F2]. split; [congruence|].
  intros x Hx Hy. rewrite F2, F1; auto.
Qed.

Lemma handleFF_quiet r : quietRead r (snd (handleFF r)).
Proof.
  unfold handleFF. destruct (vFirstFault r); [|apply quietRead_refl].
  destruct (truthy _); cbn [snd].
  - split; [reflexivity|]. intros c H1 H2. unfold riscvSetVL.
    rewrite RD_WR_CSR_other by congruence. reflexivity.
  - split; [reflexivity|]. intros c H1 H2. reflexivity.
Qed.

Section ReadOutcome.

Variable take : Z -> Z -> riscv -> riscv.

(** Either the read stayed quiet, or it ended in a synchronous memory
    exception taken from a hart that differs from the reading one by that
    state only. *)
Definition readOutcome (address : Z) (r r' : riscv) : Prop :=
  quietRead r r' \/
  exists e x, quietRead r x /\
    (e = riscv_E_LoadAccessFault \/ e = riscv_E_LoadAddressMisaligned) /\
    r' = take e address x.

Lemma riscvTakeMemoryExceptionWith_outcome e address r :
  e = riscv_E_LoadAccessFault \/ e = riscv_E_LoadAddressMisaligned ->
  readOutcome address r (riscvTakeMemoryExceptionWith take e address r).
Proof.
  intros He. unfold riscvTakeMemoryExceptionWith.
  set (r1 := WR_CSR vstart _ r).
  assert (H1 : quietRead r r1).
  { split; [reflexivity|]. intros c Hc _. unfold r1.
    now rewrite RD_WR_CSR_other by congruence. }
  pose proof (handleFF_quiet r1) as H2. clearbody r1.
  destruct (handleFF r1) as [suppress r2]. cbn [snd] in H2.
  pose proof (quietRead_trans _ _ _ H1 H2) as H3.
  destruct suppress; cbn [negb].
  - now left.
  - right. exists e, (reportMemoryException r2). split; [|auto].
    apply (quietRead_trans _ _ _ H3). unfold reportMemoryException.
    destruct (verbose _); [|apply quietRead_refl].
    split; [reflexivity|]. intros; reflexivity.
Qed.

Lemma vmirtReadDomain_outcome address bytes r :
  readOutcome address r (snd (vmirtReadDomain take address bytes r)) /\
  fst (vmirtReadDomain take address bytes r) = fst (dataDomain r address bytes) /\
  (snd (dataDomain r address bytes) = None ->
   snd (vmirtReadDomain take address bytes r) = r).
Proof.
  unfold vmirtReadDomain.
  destruct (dataDomain r address bytes) as [v [[| |]|]]; cbn [fst snd].
  - split; [|split; [reflexivity|discriminate]].
    unfold riscvRdAbortExceptWith. destruct (PTWActive r).
    + left. split; [reflexivity|]. intros; reflexivity.
    + apply riscvTakeMemoryExceptionWith_outcome. auto.
  - split; [|split; [reflexivity|discriminate]].
    unfold riscvRdDeviceExceptWith.
    set (r1 := set_AFErrorIn riscv_AFault_Device r).
    assert (H1 : quietRead r r1) by (split; [reflexivity|intros; reflexivity]).
    clearbody r1.
    destruct (riscvTakeMemoryExceptionWith_outcome riscv_E_LoadAccessFault address r1)
      as [H | (e & x & Hq & He & Hx)]; [auto| |].
    + left. eapply quietRead_trans; eassumption.
    + right. exists e, x. split; [eapply quietRead_trans; eassumption|auto].
  - split; [|split; [reflexivity|discriminate]].
    unfold riscvRdAlignExceptWith.
    apply riscvTakeMemoryExceptionWith_outcome. auto.
  - split; [left; apply quietRead_refl|auto].
Qed.

End ReadOutcome.

(** ** Depth of the recursion *)

Lemma riscvTakeExceptionWith_debug take e tval r :
  inDebugMode r = true ->
  riscvTakeExceptionWith take e tval r = enterDM DMC_NONE (emit EvAbortRepeat r).
Proof. intros H. unfold riscvTakeExceptionWith. now rewrite H. Qed.

(** A synchronous exception never reads the vector table. *)
Lemma riscvTakeExceptionWith_sync take e tval r :
  inDebugMode r = false -> isInterrupt e = false ->
  riscvTakeExceptionWith take e tval r =
  enterHandler (trapModeX e r) (snd (fst (trapEntry e tval r)))
    (fst (fst (trapEntry e tval r))).
Proof.
  intros HDM He. rewrite riscvTakeExceptionWith_entry by assumption. cbv zeta.
  now rewrite plainHandler_sync.
Qed.

Lemma riscvTakeExceptionWith_sync_any f g e tval r :
  isInterrupt e = false ->
  riscvTakeExceptionWith f e tval r = riscvTakeExceptionWith g e tval r.
Proof.
  intros He. destruct (inDebugMode r) eqn:HDM.
  - now rewrite !riscvTakeExceptionWith_debug.
  - now rewrite !riscvTakeExceptionWith_sync.
Qed.

Section TakeExt.

Variables f g : Z -> Z -> riscv -> riscv.
Hypothesis fg : forall e t x, isInterrupt e = false -> f e t x = g e t x.

Lemma riscvTakeMemoryExceptionWith_ext e t r :
  isInterrupt e = false ->
  riscvTakeMemoryExceptionWith f e t r = riscvTakeMemoryExceptionWith g e t r.
Proof.
  intros He. unfold riscvTakeMemoryExceptionWith.
  destruct (handleFF _) as [s x]. destruct (negb s); [now apply fg|reflexivity].
Qed.

Lemma vmirtReadDomain_ext address bytes r :
  vmirtReadDomain f address bytes r = vmirtReadDomain g address bytes r.
Proof.
  unfold vmirtReadDomain, riscvRdAbortExceptWith, riscvRdDeviceExceptWith,
    riscvRdAlignExceptWith.
  destruct (dataDomain r address bytes) as [v [[| |]|]]; try reflexivity.
  - destruct (PTWActive r); [reflexivity|].
    now rewrite riscvTakeMemoryExceptionWith_ext.
  - now rewrite riscvTakeMemoryExceptionWith_ext.
  - now rewrite riscvTakeMemoryExceptionWith_ext.
Qed.

Lemma riscvTakeExceptionWith_ext e t r :
  riscvTakeExceptionWith f e t r = riscvTakeExceptionWith g e t r.
Proof.
  destruct (inDebugMode r) eqn:HDM.
  - now rewrite !riscvTakeExceptionWith_debug.
  - rewrite !riscvTakeExceptionWith_entry by assumption. cbv zeta.
    destruct (plainHandler _ _ _ _); [reflexivity|].
    rewrite !trapVectorSHV_eq, !GET_CLIC_VECTORED_HANDLER_PC_eq. cbv zeta.
    now rewrite vmirtReadDomain_ext.
Qed.

End TakeExt.

Lemma riscvTakeExceptionN_sync n e t x :
  isInterrupt e = false ->
  riscvTakeExceptionN (S n) e t x = riscvTakeExceptionN 1 e t x.
Proof. intros He. cbn [riscvTakeExceptionN]. now apply riscvTakeExceptionWith_sync_any. Qed.

(** Two levels exhaust the recursion: any larger bound gives the result
    of [riscvTakeException]. *)
Lemma riscvTakeException_depth n e t r :
  riscvTakeExceptionN (S (S n)) e t r = riscvTakeException e t r.
Proof.
  unfold riscvTakeException.
  change (riscvTakeExceptionWith (riscvTakeExceptionN (S n)) e t r
          = riscvTakeExceptionWith (riscvTakeExceptionN 1) e t r).
  apply riscvTakeExceptionWith_ext. intros e' t' x He'.
  now apply riscvTakeExceptionN_sync.
Qed.

(** What a synchronous exception taken at the innermost level leaves. *)
Lemma nested_exception_spec e t x :
  inDebugMode x = false -> isInterrupt e = false ->
  let r' := riscvTakeExceptionN 1 e t x in
  exception r' = e /\ DM r' = false /\
  PC r' = snd (fst (trapEntry e t x)) /\
  baseInstructions r' =
    (if negb (retiredCode x e) && negb (riscvInhibitInstret x)
     then wrap64 (baseInstructions x + 1) else baseInstructions x).
Proof.
  intros HDM He. cbn [riscvTakeExceptionN].
  rewrite riscvTakeExceptionWith_sync by assumption. cbv zeta.
  destruct (trapEntry_spec e t x) as (_ & H2 & H3 & _ & H5 & _).
  revert H2 H3 H5. generalize (trapEntry e t x). intros [[y base] mode].
  cbn [fst snd]. intros H2 H3 H5.
  destruct (enterHandler_spec (trapModeX e x) base y) as (Ha & _ & Hc & Hd & _ & Hf & _).
  unfold inDebugMode in HDM.
  rewrite Hc, Hd, Ha, Hf. repeat split; congruence.
Qed.

(** ** Delivery through the CLIC vector table *)

(** The hart at the moment the vector table is read: the interrupt is
    acknowledged and xcause.inhv is set. *)
Definition shvBeforeRead (e tval : Z) (r : riscv) : riscv :=
  let X := trapModeX e r in
  WR_CSR_FIELD (tcause (regsOf X)) F.inhv 1
    (riscvAcknowledgeCLICInt (getExceptionCode e) (fst (fst (trapEntry e tval r)))).

(** Address of the table entry. *)
Definition shvAddress (e tval : Z) (r : riscv) : Z :=
  let X := trapModeX e r in
  vectorAddress (ttvt (regsOf X)) (trapEcodeMod e r)
    (riscvAcknowledgeCLICInt (getExceptionCode e) (fst (fst (trapEntry e tval r)))).

(** The read itself: the word read and the hart it leaves. *)
Definition shvRead (e tval : Z) (r : riscv) : Z * riscv :=
  vmirtReadDomain (riscvTakeExceptionN 1) (shvAddress e tval r)
    (ptrBytesOf r) (shvBeforeRead e tval r).

Lemma ptrBytesOf_config r r' : configInfo r' = configInfo r -> ptrBytesOf r' = ptrBytesOf r.
Proof. unfold ptrBytesOf, riscvGetXlenArch. now intros ->. Qed.

Lemma riscvTakeException_plain e tval r h :
  inDebugMode r = false ->
  plainHandler e (sel_shv (clic_sel r)) (snd (fst (trapEntry e tval r)))
    (snd (trapEntry e tval r)) = Some h ->
  riscvTakeException e tval r =
  enterHandler (trapModeX e r) h (fst (fst (trapEntry e tval r))).
Proof.
  intros HDM Hp. unfold riscvTakeException. cbn [riscvTakeExceptionN].
  rewrite riscvTakeExceptionWith_entry by assumption. cbv zeta. now rewrite Hp.
Qed.

Lemma riscvTakeException_shv e tval r :
  inDebugMode r = false ->
  plainHandler e (sel_shv (clic_sel r)) (snd (fst (trapEntry e tval r)))
    (snd (trapEntry e tval r)) = None ->
  riscvTakeException e tval r =
  if isInterrupt (exception (snd (shvRead e tval r)))
  then enterHandler (trapModeX e r) (Z.land (fst (shvRead e tval r)) (-2))
         (WR_CSR_FIELD (tcause (regsOf (trapModeX e r))) F.inhv 0
            (snd (shvRead e tval r)))
  else snd (shvRead e tval r).
Proof.
  intros HDM Hp. unfold riscvTakeException.
  change (riscvTakeExceptionN 2 e tval r)
    with (riscvTakeExceptionWith (riscvTakeExceptionN 1) e tval r).
  rewrite riscvTakeExceptionWith_entry by assumption. cbv zeta. rewrite Hp.
  rewrite trapVectorSHV_eq, GET_CLIC_VECTORED_HANDLER_PC_eq. cbv zeta.
  unfold shvRead, shvAddress, shvBeforeRead. cbv zeta.
  destruct (trapEntry_spec e tval r) as (_ & _ & _ & Hcfg & _).
  revert Hcfg. generalize (fst (fst (trapEntry e tval r))). intros r3 Hcfg.
  pose proof (eraseCLIC_acknowledge (getExceptionCode e) r3) as Hack.
  revert Hack. generalize (riscvAcknowledgeCLICInt (getExceptionCode e) r3).
  intros r4 Hack.
  assert (Hcfg4 : configInfo r4 = configInfo r)
    by (rewrite <- Hcfg; keep_by Hack).
  rewrite (ptrBytesOf_config r r4 Hcfg4).
  destruct (vmirtReadDomain _ _ _ _) as [v r6]. cbn [fst snd].
  now destruct (isInterrupt (exception r6)).
Qed.

(** The hart at the moment of the read carries the registers written for
    the interrupt, with xcause.inhv set. *)
Lemma shvBeforeRead_spec e tval r :
  let t := regsOf (trapModeX e r) in
  let r3 := fst (fst (trapEntry e tval r)) in
  let r5 := shvBeforeRead e tval r in
  RD_CSR_FIELD r5 (tcause t) F.inhv = 1 /\
  exception r5 = exception r3 /\ DM r5 = DM r3 /\ mode r5 = mode r3 /\
  baseInstructions r5 = baseInstructions r3 /\
  configInfo r5 = configInfo r3 /\
  dataDomain r5 = dataDomain r3 /\
  RD_CSR r5 (tcause t) = wrField F.inhv (RD_CSR r3 (tcause t)) 1 /\
  (forall c, c <> tcause t -> RD_CSR r5 c = RD_CSR r3 c).
Proof.
  intros t r3 r5. unfold r5, shvBeforeRead. cbv zeta. fold t. fold r3.
  pose proof (eraseCLIC_acknowledge (getExceptionCode e) r3) as Hack.
  revert Hack. generalize (riscvAcknowledgeCLICInt (getExceptionCode e) r3).
  generalize r3. clear r3 r5. intros r3 r4 Hack.
  assert (Hcsr : csr r4 = csr r3) by keep_by Hack.
  unfold RD_CSR_FIELD, WR_CSR_FIELD.
  rewrite RD_WR_CSR_same.
  split; [rewrite rd_wr_same by (simpl; lia); reflexivity|].
  split; [change (exception r4 = exception r3); keep_by Hack|].
  split; [change (DM r4 = DM r3); keep_by Hack|].
  split; [change (mode r4 = mode r3); keep_by Hack|].
  split; [change (baseInstructions r4 = baseInstructions r3); keep_by Hack|].
  split; [change (configInfo r4 = configInfo r3); keep_by Hack|].
  split; [change (dataDomain r4 = dataDomain r3); keep_by Hack|].
  split; [rewrite RD_WR_CSR_same; unfold RD_CSR; now rewrite Hcsr|].
  intros c Hc. rewrite RD_WR_CSR_other by congruence. unfold RD_CSR. now rewrite Hcsr.
Qed.

Lemma sync_memory_exception e :
  e = riscv_E_LoadAccessFault \/ e = riscv_E_LoadAddressMisaligned ->
  isInterrupt e = false.
Proof. intros [-> | ->]; reflexivity. Qed.

Lemma tcause_cases t :
  regs_wf t -> tcause t <> vstart /\ tcause t <> vl /\ tcause t <> mstatus /\
  tepc t <> vstart /\ tepc t <> vl /\ tepc t <> tcause t /\
  ttval t <> vstart /\ ttval t <> vl /\ ttval t <> tcause t.
Proof. intros [-> | [-> | ->]]; repeat split; discriminate. Qed.

(** A delivery is superseded when the read of the vector table raised a
    trap of its own; the hart then records that trap, not the interrupt.
    Otherwise the hart that enters the handler differs from the hart on
    entry to the handler choice by xcause.inhv, by the state a quiet read may
    write, by the CLIC acknowledge and by the PC. *)
Lemma delivery_not_superseded e tval r :
  inDebugMode r = false ->
  let t := regsOf (trapModeX e r) in
  let r3 := fst (fst (trapEntry e tval r)) in
  let r' := riscvTakeException e tval r in
  exception r' = e ->
  mode r' = mode r3 /\ baseInstructions r' = baseInstructions r3 /\
  (forall c, c <> vstart -> c <> vl -> c <> tcause t -> RD_CSR r' c = RD_CSR r3 c) /\
  (RD_CSR r' (tcause t) = RD_CSR r3 (tcause t) \/
   RD_CSR r' (tcause t) = wrField F.inhv (wrField F.inhv (RD_CSR r3 (tcause t)) 1) 0).
Proof.
  intros HDM t r3 r'. unfold r'.
  destruct (trapEntry_spec e tval r) as (_ & Hexc & HDM3 & _).
  fold r3 in Hexc, HDM3.
  destruct (plainHandler e (sel_shv (clic_sel r)) (snd (fst (trapEntry e tval r)))
              (snd (trapEntry e tval r))) as [h|] eqn:Hp.
  - rewrite (riscvTakeException_plain e tval r h HDM Hp). fold r3. intros _.
    destruct (enterHandler_spec (trapModeX e r) h r3) as (_ & Hm & _ & _ & Hc & Hb & _).
    split; [exact Hm|]. split; [exact Hb|].
    unfold RD_CSR. rewrite Hc. split; [auto|now left].
  - rewrite (riscvTakeException_shv e tval r HDM Hp). fold t.
    destruct (plainHandler_None _ _ _ _ Hp) as (Hint & _ & _).
    destruct (shvBeforeRead_spec e tval r)
      as (_ & Hx5 & Hd5 & Hm5 & Hb5 & _ & _ & Hc5 & Hf5).
    fold t in Hc5, Hf5. fold r3 in Hx5, Hd5, Hm5, Hb5, Hc5, Hf5.
    unfold shvRead.
    destruct (vmirtReadDomain_outcome (riscvTakeExceptionN 1) (shvAddress e tval r)
                (ptrBytesOf r) (shvBeforeRead e tval r)) as (Hout & _ & _).
    revert Hout Hx5 Hd5 Hm5 Hb5 Hc5 Hf5.
    generalize (shvBeforeRead e tval r). intros r5.
    generalize (vmirtReadDomain (riscvTakeExceptionN 1) (shvAddress e tval r)
                  (ptrBytesOf r) r5).
    intros [v r6]. cbn [fst snd]. intros Hout Hx5 Hd5 Hm5 Hb5 Hc5 Hf5.
    destruct (tcause_cases t (regsOf_wf _)) as (Hn1 & Hn2 & _).
    destruct Hout as [[Hq Hqf] | (e' & x & [Hq Hqf] & He' & Hx)].
    + assert (Hx6 : exception r6 = e)
        by (rewrite <- Hexc, <- Hx5; keep_read Hq).
      rewrite Hx6, Hint. intros _.
      destruct (enterHandler_spec (trapModeX e r) (Z.land v (-2))
                  (WR_CSR_FIELD (tcause t) F.inhv 0 r6))
        as (_ & Hm & _ & _ & Hc & Hb & _).
      split.
      { rewrite Hm, <- Hm5. change (mode r6 = mode r5). keep_read Hq. }
      split.
      { rewrite Hb, <- Hb5. change (baseInstructions r6 = baseInstructions r5).
        keep_read Hq. }
      assert (Hall : forall c,
                RD_CSR (enterHandler (trapModeX e r) (Z.land v (-2))
                          (WR_CSR_FIELD (tcause t) F.inhv 0 r6)) c
                = RD_CSR (WR_CSR_FIELD (tcause t) F.inhv 0 r6) c)
        by (intros c; unfold RD_CSR; now rewrite Hc).
      split.
      * intros c H1 H2 H3. rewrite Hall.
        unfold WR_CSR_FIELD. rewrite RD_WR_CSR_other by congruence.
        rewrite Hqf by assumption. now apply Hf5.
      * right. rewrite Hall.
        unfold WR_CSR_FIELD. rewrite RD_WR_CSR_same.
        change (csr r6 (tcause t)) with (RD_CSR r6 (tcause t)).
        rewrite Hqf by assumption. now rewrite Hc5.
    + assert (HDMx : inDebugMode x = false).
      { unfold inDebugMode in *. rewrite <- HDM, <- HDM3, <- Hd5. keep_read Hq. }
      pose proof (sync_memory_exception e' He') as Hsync.
      destruct (nested_exception_spec e' (shvAddress e tval r) x HDMx Hsync)
        as (Hex & _).
      rewrite <- Hx in Hex. rewrite Hex, Hsync. intros Habs.
      rewrite Habs in Hex. rewrite <- Hex in Hsync. congruence.
Qed.

(** ** Registers of the target mode after a trap *)

(** A machine-mode CLIC interrupt, number 40 at level 200, selectively
    hardware vectored, pending on the reference hart with machine
    interrupts enabled and mtvt = 0x4000.  Every read of the data domain
    fails with a bus error. *)
Definition hartSHV : riscv :=
  set_pendEnab (mkPendEnab 40 RISCV_MODE_MACHINE 200 true)
    (set_clic_sel (mkCLICSel 40 RISCV_MODE_MACHINE 200 true)
       (set_clic_ipe [Z.shiftl 1 40]
          (set_clic_intState
             (setAt (clic_intState hart0) 40 (mkCLICIntState 1 1 193 200))
             (WR_CSR mtvt 16384
                (WR_CSR mtvec riscv_int_CLIC
                   (WR_CSR mstatus (Z.shiftl 1 3) hart0)))))).

(** The same hart, with the word 0x80001235 at 0x40A0. *)
Definition hartSHVmem : riscv :=
  mkRiscv (configInfo hartSHV) (mode hartSHV) (DM hartSHV) (DMStall hartSHV)
    (disable hartSHV) (PC hartSHV) (dsOffset hartSHV) (jumpBase hartSHV)
    (currentArch hartSHV) (csr hartSHV) (exclusiveTag hartSHV)
    (baseInstructions hartSHV) (baseCycles hartSHV) (AFErrorIn hartSHV)
    (AFErrorOut hartSHV) (exception hartSHV) (vFirstFault hartSHV)
    (PTWActive hartSHV) (PTWBadAddr hartSHV) (pendEnab hartSHV) (clic_sel hartSHV)
    (clic_intState hartSHV) (clic_ipe hartSHV) (clic_cliccfg hartSHV)
    (clic_clicinfo hartSHV) (clicState hartSHV) (intState hartSHV)
    (ipDWords hartSHV) (ip hartSHV) (swip hartSHV) (extInt hartSHV)
    (netValue hartSHV) (MIMode hartSHV) (SIMode hartSHV) (UIMode hartSHV)
    (extCBs hartSHV)
    (fun address bytes =>
       if (address =? 16544) && (bytes =? 4) then (2147488309, None)
       else (0, Some RdAbort))
    (events hartSHV).

Definition int40 : Z := intToException 40.





Example shv_scenario :
  let r' := riscvTakeException int40 0 hartSHVmem in
  PC r' = 2147488308 /\ RD_CSR_FIELD r' mcause F.inhv = 0 /\
  RD_CSR_FIELD r' mintstatus F.mil = 200 /\
  RD_CSR_FIELD r' mcause F.ExceptionCode = 40 /\
  RD_CSR_FIELD r' mcause (F.Interrupt XLEN32) = 1.
Proof. cbv zeta. repeat (split; [vm_compute; reflexivity|]). vm_compute; reflexivity. Qed.

(** ** Retired instructions *)

(** The delivery of a trap writes [baseInstructions], the number of
    instructions that the hart subtracts from the instruction count of the
    simulator: adding one to it takes the trapping instruction out of the
    retired count (compare [riscvEBREAK], which does so in order not to
    count the ebreak). *)

Definition isECALL (e : Z) : bool :=
  (e =? riscv_E_EnvironmentCallFromUMode) || (e =? riscv_E_EnvironmentCallFromSMode) ||
  (e =? riscv_E_EnvironmentCallFromHMode) || (e =? riscv_E_EnvironmentCallFromMMode).

(** The reference hart in user mode, under privileged version 1.11 and
    under 1.12. *)
Definition hartU : riscv := set_mode RISCV_MODE_USER hart0.

Definition config12 : riscvConfig :=
  mkConfig (arch config0) (xlen config0) RVPV_1_12 (tval_zero config0)
    (xret_preserves_lr config0) (ecode_nmi config0) (reset_address config0)
    (nmi_address config0) (debug_address config0) (dexc_address config0)
    (debug_mode config0) (local_int_num config0) (unimp_int_mask config0)
    (CLICLEVELS config0)
    (CLICANDBASIC config0) (CLICCFGMBITS config0) (CLICSELHVEC config0)
    (CLICINTCTLBITS config0) (mepcMask config0) (sepcMask config0)
    (uepcMask config0) (vstartMask config0) (debugExcept config0) (verbose config0).

Definition hartU12 : riscv :=
  mkRiscv config12 (mode hartU) (DM hartU) (DMStall hartU)
    (disable hartU) (PC hartU) (dsOffset hartU) (jumpBase hartU)
    (currentArch hartU) (csr hartU) (exclusiveTag hartU)
    (baseInstructions hartU) (baseCycles hartU) (AFErrorIn hartU)
    (AFErrorOut hartU) (exception hartU) (vFirstFault hartU)
    (PTWActive hartU) (PTWBadAddr hartU) (pendEnab hartU) (clic_sel hartU)
    (clic_intState hartU) (clic_ipe hartU) (clic_cliccfg hartU)
    (clic_clicinfo hartU) (clicState hartU) (intState hartU)
    (ipDWords hartU) (ip hartU) (swip hartU) (extInt hartU)
    (netValue hartU) (MIMode hartU) (SIMode hartU) (UIMode hartU)
    (extCBs hartU) (dataDomain hartU) (events hartU).

(** For ECALL from U with mcountinhibit.IR clear the delivery leaves
    [baseInstructions] alone under privileged version 1.11 and adds one to
    it under 1.12. *)
Example baseInstructions_on_ecall :
  inDebugMode hartU = false /\ riscvInhibitInstret hartU = false /\
  RISCV_PRIV_VERSION hartU = RVPV_1_11 /\ RISCV_PRIV_VERSION hartU12 = RVPV_1_12 /\
  baseInstructions hartU = 0 /\ baseInstructions hartU12 = 0 /\
  baseInstructions (riscvECALL hartU) = 0 /\
  baseInstructions (riscvECALL hartU12) = 1.
Proof. repeat (split; [vm_compute; reflexivity|]). vm_compute; reflexivity. Qed.

Lemma retiredCode_iff r e :
  retiredCode r e = true <->
  (e = riscv_E_Breakpoint \/ isECALL e = true) /\ RISCV_PRIV_VERSION r < RVPV_1_12.
Proof.
  unfold retiredCode, isECALL.
  destruct (Z.eqb_spec e riscv_E_Breakpoint) as [->|Hb]; cbn [orb].
  - rewrite Z.ltb_lt. intuition.
  - destruct (_ || _ || _ || _).
    + rewrite Z.ltb_lt. intuition.
    + split; [discriminate|]. intros [[? | ?] _]; [contradiction|discriminate].
Qed.

(** The delivery of a trap outside Debug mode (one that is not superseded
    by a trap of the CLIC vector read) adds one to [baseInstructions]
    unless mcountinhibit.IR is set or the code is one that the privileged
    version classifies as retired, which are Breakpoint and the ECALLs
    before version 1.12 and none from 1.12. *)
Lemma baseInstructions_on_trap (r : riscv) (e tval : Z) :
  inDebugMode r = false ->
  let r' := riscvTakeException e tval r in
  exception r' = e ->
  baseInstructions r' =
    (if negb (retiredCode r e) && negb (riscvInhibitInstret r)
     then wrap64 (baseInstructions r + 1) else baseInstructions r) /\
  (retiredCode r e = true <->
   (e = riscv_E_Breakpoint \/ isECALL e = true) /\ RISCV_PRIV_VERSION r < RVPV_1_12) /\
  riscvInhibitInstret r = truthy (RD_CSR_FIELD r mcountinhibit F.IR) /\
  (isECALL e = true ->
   (RISCV_PRIV_VERSION r < RVPV_1_12 -> baseInstructions r' = baseInstructions r) /\
   (RVPV_1_12 <= RISCV_PRIV_VERSION r -> riscvInhibitInstret r = false ->
    baseInstructions r' = wrap64 (baseInstructions r + 1))).
Proof.
  intros HDM r' Hexc.
  destruct (delivery_not_superseded e tval r HDM Hexc) as (_ & Hb & _).
  destruct (trapEntry_spec e tval r) as (_ & _ & _ & _ & Hcount & _).
  fold r' in Hb. rewrite Hcount in Hb. clear Hcount.
  split; [exact Hb|]. split; [apply retiredCode_iff|]. split; [reflexivity|].
  intros Hec. rewrite Hb. split.
  - intros Hv.
    assert (Hr : retiredCode r e = true) by (apply retiredCode_iff; auto).
    now rewrite Hr.
  - intros Hv Hinh.
    assert (Hr : retiredCode r e = false).
    { destruct (retiredCode r e) eqn:E; [|reflexivity].
      apply retiredCode_iff in E. lia. }
    now rewrite Hr, Hinh.
Qed.

(** A synchronous exception is never superseded. *)
Lemma sync_exception_recorded e tval r :
  inDebugMode r = false -> isInterrupt e = false ->
  exception (riscvTakeException e tval r) = e.
Proof.
  intros HDM He. unfold riscvTakeException.
  rewrite (riscvTakeExceptionN_sync 1 e tval r He).
  now destruct (nested_exception_spec e tval r HDM He).
Qed.

(** ** Handler address *)

Lemma trapEntry_frame e tval r :
  let r3 := fst (fst (trapEntry e tval r)) in
  dataDomain r3 = dataDomain r /\ clic_intState r3 = clic_intState r /\
  pendEnab r3 = pendEnab r /\ clic_sel r3 = clic_sel r.
Proof.
  unfold trapEntry. cbv zeta. cbn [fst snd].
  pose proof (erasePrologue_trapPrologue e r) as Hp.
  destruct (trapTarget_spec (trapModeX e r) (getCurrentMode r) (isInterrupt e)
              (trapEcodeMod e r) (getEPC r) (trapTval tval r)
              (trapLevel e (trapModeX e r) (getCurrentMode r) r) (trapPrologue e r))
    as (He & _).
  revert He.
  generalize (trapTarget (trapModeX e r) (getCurrentMode r) (isInterrupt e)
                (trapEcodeMod e r) (getEPC r) (trapTval tval r)
                (trapLevel e (trapModeX e r) (getCurrentMode r) r) (trapPrologue e r)).
  revert Hp. generalize (trapPrologue e r). intros r1 Hp [[r2 b] m]. cbn [fst snd].
  intros He.
  split; [change (dataDomain r2 = dataDomain r);
          transitivity (dataDomain r1); [keep_csr He|keep_pro Hp]|].
  split; [change (clic_intState r2 = clic_intState r);
          transitivity (clic_intState r1); [keep_csr He|keep_pro Hp]|].
  split; [change (pendEnab r2 = pendEnab r);
          transitivity (pendEnab r1); [keep_csr He|keep_pro Hp]|].
  change (clic_sel r2 = clic_sel r).
  transitivity (clic_sel r1); [keep_csr He|keep_pro Hp].
Qed.

Lemma ttvt_cases t :
  regs_wf t -> ttvt t <> mstatus /\ ttvt t <> mintstatus /\ ttvt t <> tcause t /\
  ttvt t <> tepc t /\ ttvt t <> ttval t.
Proof. intros [-> | [-> | ->]]; repeat split; discriminate. Qed.

Lemma shvAddress_eq e tval r :
  shvAddress e tval r =
  wrap64 (RD_CSR r (ttvt (regsOf (trapModeX e r)))
          + wrap32 (ptrBytesOf r * trapEcodeMod e r)).
Proof.
  unfold shvAddress, vectorAddress. cbv zeta.
  destruct (trapEntry_spec e tval r)
    as (_ & _ & _ & Hcfg & _ & _ & _ & _ & _ & _ & _ & _ & _ & Hf).
  revert Hcfg Hf. generalize (fst (fst (trapEntry e tval r))). intros r3 Hcfg Hf.
  pose proof (eraseCLIC_acknowledge (getExceptionCode e) r3) as Hack.
  revert Hack. generalize (riscvAcknowledgeCLICInt (getExceptionCode e) r3).
  intros r4 Hack.
  assert (Hcfg4 : configInfo r4 = configInfo r) by (rewrite <- Hcfg; keep_by Hack).
  assert (Hcsr : csr r4 = csr r3) by keep_by Hack.
  rewrite (ptrBytesOf_config r r4 Hcfg4).
  destruct (ttvt_cases _ (regsOf_wf (trapModeX e r))) as (N1 & N2 & N3 & N4 & N5).
  rewrite <- (Hf _ N1 N2 N3 N4 N5). unfold RD_CSR. now rewrite Hcsr.
Qed.

(** The two ways in which a delivery through the vector table ends. *)
Lemma shv_delivery e tval r :
  inDebugMode r = false ->
  plainHandler e (sel_shv (clic_sel r)) (snd (fst (trapEntry e tval r)))
    (snd (trapEntry e tval r)) = None ->
  let X := trapModeX e r in
  let t := regsOf X in
  let r5 := shvBeforeRead e tval r in
  let rd := shvRead e tval r in
  let r' := riscvTakeException e tval r in
  (quietRead r5 (snd rd) /\ exception r' = e /\
   r' = enterHandler X (Z.land (fst rd) (-2)) (WR_CSR_FIELD (tcause t) F.inhv 0 (snd rd)))
  \/
  (exists e' x,
     (e' = riscv_E_LoadAccessFault \/ e' = riscv_E_LoadAddressMisaligned) /\
     quietRead r5 x /\ inDebugMode x = false /\
     r' = riscvTakeExceptionN 1 e' (shvAddress e tval r) x /\
     exception r' = e' /\ e' <> e /\ r' = snd rd).
Proof.
  intros HDM Hp X t r5 rd r'. unfold r', rd, r5.
  rewrite (riscvTakeException_shv e tval r HDM Hp). fold X. fold t.
  destruct (plainHandler_None _ _ _ _ Hp) as (Hint & _ & _).
  destruct (trapEntry_spec e tval r) as (_ & Hexc & HDM3 & _).
  destruct (shvBeforeRead_spec e tval r) as (_ & Hx5 & Hd5 & _).
  rewrite Hexc in Hx5. rewrite HDM3 in Hd5. unfold shvRead.
  destruct (vmirtReadDomain_outcome (riscvTakeExceptionN 1) (shvAddress e tval r)
              (ptrBytesOf r) (shvBeforeRead e tval r)) as (Hout & _ & _).
  revert Hout Hx5 Hd5. generalize (shvBeforeRead e tval r). intros x5.
  generalize (vmirtReadDomain (riscvTakeExceptionN 1) (shvAddress e tval r)
                (ptrBytesOf r) x5).
  intros [v r6]. cbn [fst snd]. intros Hout Hx5 Hd5.
  destruct Hout as [[Hq Hqf] | (e' & x & [Hq Hqf] & He' & Hx)].
  - left. assert (Hx6 : exception r6 = e) by (rewrite <- Hx5; keep_read Hq).
    rewrite Hx6, Hint. split; [split; assumption|]. split; [|reflexivity].
    destruct (enterHandler_spec X (Z.land v (-2)) (WR_CSR_FIELD (tcause t) F.inhv 0 r6))
      as (_ & _ & Hc & _).
    rewrite Hc. exact Hx6.
  - right. exists e', x.
    assert (HDMx : inDebugMode x = false).
    { unfold inDebugMode in *. rewrite <- HDM, <- Hd5. keep_read Hq. }
    pose proof (sync_memory_exception e' He') as Hsync.
    destruct (nested_exception_spec e' (shvAddress e tval r) x HDMx Hsync) as (Hex & _).
    rewrite <- Hx in Hex. rewrite Hex, Hsync.
    split; [assumption|]. split; [split; assumption|]. split; [assumption|].
    split; [assumption|]. split; [assumption|]. split; [congruence|reflexivity].
Qed.

(** C2: outside Debug mode the handler is entered at the base of xtvec
    (BASE shifted left by two) for every synchronous exception and for every
    interrupt in Direct mode; at base + 4*ecode for an interrupt in a
    vectored mode other than CLIC; at the base with its low six bits clear
    for a CLIC interrupt without SHV.  For a CLIC interrupt with SHV the
    entry of the vector table at xtvt + ptr_bytes*intNum is read from the
    data domain by a hart that has xcause.inhv = 1; when the read raises no
    trap (as when the access succeeds) the handler is the word read with
    its low bit clear and xcause.inhv is 0 again; when the read raises a
    trap, the hart is the one left by that synchronous exception, taken from
    a hart that still has xcause.inhv = 1: the exception supersedes the
    interrupt. *)
Theorem handler_address (r : riscv) (e tval : Z) :
  inDebugMode r = false ->
  let r' := riscvTakeException e tval r in
  let X := trapModeX e r in
  let t := regsOf X in
  let base :=
    wrap64 (Z.shiftl (RD_CSR_FIELD r (ttvec t) (F.BASE (xlen (configInfo r)))) 2) in
  let imode := getIMode (XIModeOf X r) (RD_CSR_FIELD r (ttvec t) F.MODE) in
  let shv := sel_shv (clic_sel r) in
  (isInterrupt e = false \/ imode = riscv_int_Direct -> PC r' = base) /\
  (isInterrupt e = true -> imode <> riscv_int_Direct -> imode <> riscv_int_CLIC ->
   PC r' = wrap64 (base + wrap32 (4 * getExceptionCode e))) /\
  (isInterrupt e = true -> imode = riscv_int_CLIC -> shv = false ->
   PC r' = Z.land base (-64)) /\
  (isInterrupt e = true -> imode = riscv_int_CLIC -> shv = true ->
   let address :=
     wrap64 (RD_CSR r (ttvt t) + wrap32 (ptrBytesOf r * trapEcodeMod e r)) in
   let rd := dataDomain r address (ptrBytesOf r) in
   let r5 := shvBeforeRead e tval r in
   RD_CSR_FIELD r5 (tcause t) F.inhv = 1 /\
   shvRead e tval r
   = vmirtReadDomain (riscvTakeExceptionN 1) address (ptrBytesOf r) r5 /\
   (snd rd = None -> exception r' = e) /\
   (exception r' = e ->
    PC r' = Z.land (fst rd) (-2) /\ RD_CSR_FIELD r' (tcause t) F.inhv = 0) /\
   (exception r' <> e ->
    exists e' x,
      (e' = riscv_E_LoadAccessFault \/ e' = riscv_E_LoadAddressMisaligned) /\
      quietRead r5 x /\ RD_CSR_FIELD x (tcause t) F.inhv = 1 /\
      r' = riscvTakeExceptionN 1 e' address x /\ exception r' = e')).
Proof.
  intros HDM r' X t base imode shv.
  destruct (trapEntry_spec e tval r) as (_ & _ & _ & _ & _ & Hb & Hm & _).
  fold X in Hb, Hm. fold t in Hb, Hm. fold base in Hb. fold imode in Hm.
  assert (Hplain : forall h,
            plainHandler e shv base imode = Some h -> PC r' = h).
  { intros h Hp. unfold r'. rewrite <- Hb, <- Hm in Hp.
    rewrite (riscvTakeException_plain e tval r h HDM Hp).
    now destruct (enterHandler_spec (trapModeX e r) h (fst (fst (trapEntry e tval r)))). }
  split; [|split; [|split]].
  - intros H. apply Hplain. unfold plainHandler.
    destruct H as [-> | ->]; [now rewrite orb_true_r|reflexivity].
  - intros Hi H1 H2. apply Hplain. unfold plainHandler. rewrite Hi.
    destruct (Z.eqb_spec imode riscv_int_Direct); [contradiction|].
    destruct (Z.eqb_spec imode riscv_int_CLIC); [contradiction|]. reflexivity.
  - intros Hi H1 H2. apply Hplain. unfold plainHandler. now rewrite Hi, H1, H2.
  - intros Hi H1 H2 address rd r5.
    assert (Hp : plainHandler e (sel_shv (clic_sel r)) (snd (fst (trapEntry e tval r)))
                   (snd (trapEntry e tval r)) = None).
    { rewrite Hb, Hm. unfold plainHandler. fold shv. now rewrite Hi, H1, H2. }
    assert (Haddr : shvAddress e tval r = address) by apply shvAddress_eq.
    destruct (shvBeforeRead_spec e tval r) as (Hinhv & _ & _ & _ & _ & _ & Hdd & _).
    destruct (trapEntry_frame e tval r) as (Hdd3 & _).
    rewrite Hdd3 in Hdd. fold t in Hinhv. fold r5 in Hinhv, Hdd.
    assert (Hrd : shvRead e tval r
                  = vmirtReadDomain (riscvTakeExceptionN 1) address (ptrBytesOf r) r5)
      by (unfold shvRead; now rewrite Haddr).
    destruct (vmirtReadDomain_outcome (riscvTakeExceptionN 1) address (ptrBytesOf r) r5)
      as (_ & Hfst & Hnone).
    rewrite Hdd in Hfst, Hnone. fold rd in Hfst, Hnone. rewrite <- Hrd in Hfst, Hnone.
    destruct (tcause_cases t (regsOf_wf X)) as (N1 & N2 & _).
    assert (Hquiet : forall x, quietRead r5 x -> RD_CSR_FIELD x (tcause t) F.inhv = 1).
    { intros x [_ Hqf]. unfold RD_CSR_FIELD.
      change (csr x (tcause t)) with (RD_CSR x (tcause t)).
      rewrite Hqf by assumption. exact Hinhv. }
    split; [exact Hinhv|]. split; [exact Hrd|].
    destruct (shv_delivery e tval r HDM Hp)
      as [(Hq & Hexc & Hr') | (e' & x & He' & Hq & _ & Hr' & Hexc & Hne & Hsnd)];
      fold X in Hr'; fold t in Hr'; fold r5 in Hq; fold r' in Hexc, Hr'.
    + split; [auto|]. split; [|intros Habs; contradiction].
      intros _. rewrite Hr', Hfst.
      destruct (enterHandler_spec X (Z.land (fst rd) (-2))
                  (WR_CSR_FIELD (tcause t) F.inhv 0 (snd (shvRead e tval r))))
        as (Hpc & _ & _ & _ & Hc & _).
      split; [exact Hpc|].
      unfold RD_CSR_FIELD. rewrite Hc.
      change (rdField F.inhv
                (RD_CSR (WR_CSR_FIELD (tcause t) F.inhv 0 (snd (shvRead e tval r)))
                   (tcause t)) = 0).
      unfold WR_CSR_FIELD. rewrite RD_WR_CSR_same.
      now rewrite rd_wr_same by (simpl; lia).
    + fold r' in Hsnd. split.
      { intros Hn. specialize (Hnone Hn). rewrite <- Hsnd in Hnone.
        destruct (shvBeforeRead_spec e tval r) as (_ & Hx5 & _).
        destruct (trapEntry_spec e tval r) as (_ & Hx3 & _).
        fold r5 in Hx5. rewrite Hx3, <- Hnone in Hx5. congruence. }
      split; [intros Habs; congruence|].
      intros _. exists e', x. rewrite <- Haddr.
      split; [assumption|]. split; [assumption|]. split; [now apply Hquiet|].
      split; assumption.
Qed.

Lemma handler_address_witness :
  inDebugMode hartSHVmem = false /\
  PC (riscvTakeException int40 0 hartSHVmem) = 2147488308.
Proof.
  assert (H1 : inDebugMode hartSHVmem = false) by reflexivity.
  assert (He : exception (riscvTakeException int40 0 hartSHVmem) = int40)
    by (vm_compute; reflexivity).
  assert (Hi : isInterrupt int40 = true) by reflexivity.
  assert (Hm : getIMode (XIModeOf (trapModeX int40 hartSHVmem) hartSHVmem)
                 (RD_CSR_FIELD hartSHVmem
                    (ttvec (regsOf (trapModeX int40 hartSHVmem))) F.MODE)
               = riscv_int_CLIC) by (vm_compute; reflexivity).
  assert (Hs : sel_shv (clic_sel hartSHVmem) = true) by reflexivity.
  split; [exact H1|].
  pose proof (proj2 (proj2 (proj2 (handler_address hartSHVmem int40 0 H1))) Hi Hm Hs) as H.
  cbv zeta in H. destruct H as (_ & _ & _ & H & _).
  destruct (H He) as (Hpc & _). rewrite Hpc. vm_compute. reflexivity.
Defined.

(** ** The retired-instruction counter *)

(** Modelled from the spec: the retired-instruction counter (minstret,
    read in riscvCSR.c, not part of the sources at hand) is the number of
    instructions that the simulator has executed, [icount], less
    [baseInstructions]; while mcountinhibit.IR is set the counter stands
    still and [baseInstructions] holds its value.  The simulator counts the
    trapping instruction as executed: a delivery that leaves
    [baseInstructions] alone lets it count as retired, one that adds one to
    [baseInstructions] does not. *)
Definition instretR (icount : Z) (r : riscv) : Z :=
  if riscvInhibitInstret r then baseInstructions r
  else wrap64 (icount - baseInstructions r).

Lemma retiredCode_interrupt r e : isInterrupt e = true -> retiredCode r e = false.
Proof.
  intros H. unfold retiredCode.
  destruct (Z.eqb_spec e riscv_E_Breakpoint) as [->|_]; [discriminate|].
  destruct (Z.eqb_spec e riscv_E_EnvironmentCallFromUMode) as [->|_]; [discriminate|].
  destruct (Z.eqb_spec e riscv_E_EnvironmentCallFromSMode) as [->|_]; [discriminate|].
  destruct (Z.eqb_spec e riscv_E_EnvironmentCallFromHMode) as [->|_]; [discriminate|].
  destruct (Z.eqb_spec e riscv_E_EnvironmentCallFromMMode) as [->|_]; [discriminate|].
  reflexivity.
Qed.

Lemma trapEntry_mcountinhibit e tval r :
  RD_CSR (fst (fst (trapEntry e tval r))) mcountinhibit = RD_CSR r mcountinhibit.
Proof.
  destruct (trapEntry_spec e tval r)
    as (_ & _ & _ & _ & _ & _ & _ & _ & _ & _ & _ & _ & _ & Hf).
  cbv zeta in Hf. apply Hf; try discriminate;
    destruct (regsOf_wf (trapModeX e r)) as [-> | [-> | ->]]; discriminate.
Qed.

(** The counter state after a delivery, superseded or not. *)
Lemma trap_counter_state e tval r :
  inDebugMode r = false ->
  let r' := riscvTakeException e tval r in
  riscvInhibitInstret r' = riscvInhibitInstret r /\
  ((exception r' = e /\
    baseInstructions r' =
      (if negb (retiredCode r e) && negb (riscvInhibitInstret r)
       then wrap64 (baseInstructions r + 1) else baseInstructions r)) \/
   (exception r' <> e /\ retiredCode r e = false /\
    baseInstructions r' =
      (if riscvInhibitInstret r then baseInstructions r
       else wrap64 (wrap64 (baseInstructions r + 1) + 1)))).
Proof.
  intros HDM. cbv zeta.
  pose proof (trapEntry_mcountinhibit e tval r) as Hmc.
  destruct (trapEntry_spec e tval r) as (_ & Hex3 & HDM3 & _ & Hcount & _).
  cbv zeta in Hex3, HDM3, Hcount.
  destruct (plainHandler e (sel_shv (clic_sel r)) (snd (fst (trapEntry e tval r)))
              (snd (trapEntry e tval r))) as [h|] eqn:E.
  - rewrite (riscvTakeException_plain e tval r h HDM E).
    destruct (enterHandler_spec (trapModeX e r) h (fst (fst (trapEntry e tval r))))
      as (_ & _ & H3 & _ & H5 & H6 & _).
    cbv zeta in H3, H5, H6.
    split; [unfold riscvInhibitInstret, RD_CSR_FIELD, RD_CSR in *; now rewrite H5, Hmc|].
    left. split; [now rewrite H3|]. now rewrite H6.
  - destruct (plainHandler_None _ _ _ _ E) as (Hint & _).
    pose proof (retiredCode_interrupt r e Hint) as Hret.
    destruct (shvBeforeRead_spec e tval r)
      as (_ & _ & S3 & _ & S5 & _ & _ & _ & S9).
    cbv zeta in S3, S5, S9.
    assert (Hmc5 : RD_CSR (shvBeforeRead e tval r) mcountinhibit = RD_CSR r mcountinhibit).
    { rewrite S9, Hmc; [reflexivity|].
      destruct (regsOf_wf (trapModeX e r)) as [-> | [-> | ->]]; discriminate. }
    destruct (shv_delivery e tval r HDM E)
      as [(Hq & Hexc & _) | (e' & x & He' & Hq & HDx & Hr' & Hexc & Hne & _)].
    + destruct (delivery_not_superseded e tval r HDM Hexc) as (_ & Hb & Hf & _).
      cbv zeta in Hb, Hf.
      split.
      { unfold riscvInhibitInstret, RD_CSR_FIELD. 
        change (csr ?y mcountinhibit) with (RD_CSR y mcountinhibit).
        rewrite Hf, Hmc; [reflexivity|discriminate|discriminate|].
        destruct (regsOf_wf (trapModeX e r)) as [-> | [-> | ->]]; discriminate. }
      left. split; [exact Hexc|]. now rewrite Hb, Hcount.
    + assert (Hs : isInterrupt e' = false) by (destruct He' as [-> | ->]; reflexivity).
      assert (Hr0 : forall y, retiredCode y e' = false)
        by (intros y; destruct He' as [-> | ->]; reflexivity).
      destruct Hq as (Hq1 & Hq2).
      assert (Hmcx : RD_CSR x mcountinhibit = RD_CSR r mcountinhibit)
        by (rewrite Hq2, Hmc5; [reflexivity|discriminate|discriminate]).
      assert (Hbx : baseInstructions x = baseInstructions (shvBeforeRead e tval r))
        by keep_read Hq1.
      assert (Hix : riscvInhibitInstret x = riscvInhibitInstret r).
      { unfold riscvInhibitInstret, RD_CSR_FIELD.
        change (csr ?y mcountinhibit) with (RD_CSR y mcountinhibit). now rewrite Hmcx. }
      assert (Hb0 : baseInstructions x =
                    if riscvInhibitInstret r then baseInstructions r
                    else wrap64 (baseInstructions r + 1)).
      { rewrite Hbx, S5, Hcount, Hret. cbn [negb andb].
        destruct (riscvInhibitInstret r); reflexivity. }
      clear Hq1 Hq2 Hbx.
      assert (Hx : exception (riscvTakeException e tval r) <> e) by congruence.
      assert (Hn : riscvTakeExceptionN 1 e' (shvAddress e tval r) x =
                   riscvTakeException e' (shvAddress e tval r) x)
        by (symmetry; apply (riscvTakeExceptionN_sync 1); exact Hs).
      rewrite Hn in Hr'. clear Hn Hexc.
      generalize dependent (riscvTakeException e tval r). intros r' Hr' Hx. subst r'.
      revert Hx. generalize (shvAddress e tval r). intros a Hx.
      pose proof (trapEntry_mcountinhibit e' a x) as Hmc'.
      destruct (trapEntry_spec e' a x) as (_ & _ & _ & _ & Hcount' & _).
      cbv zeta in Hcount'.
      rewrite (riscvTakeException_plain e' a x _ HDx (plainHandler_sync e' _ _ _ Hs))
        in Hx |- *.
      destruct (enterHandler_spec (trapModeX e' x)
                  (snd (fst (trapEntry e' a x))) (fst (fst (trapEntry e' a x))))
        as (_ & _ & _ & _ & H5 & H6 & _).
      cbv zeta in H5, H6.
      split.
      { unfold riscvInhibitInstret, RD_CSR_FIELD, RD_CSR in *.
        now rewrite H5, Hmc', Hmcx. }
      right. split; [exact Hx|]. split; [exact Hret|].
      rewrite H6, Hcount', Hr0, Hix, Hb0. cbn [negb andb].
      destruct (riscvInhibitInstret r); reflexivity.
Qed.

Lemma wrap64_mod x : wrap64 x = x mod 2 ^ 64.
Proof. unfold wrap64. now rewrite Z.land_ones by lia. Qed.

Ltac wrap64_arith :=
  rewrite ?wrap64_mod; change (2 ^ 64) with 18446744073709551616;
  Z.div_mod_to_equations; lia.

(** C3: outside Debug mode the delivery of a trap lets the retired-instruction
    counter advance by one, for the trapping instruction, exactly when
    mcountinhibit.IR is clear and the code is one that the privileged version
    classifies as retired, which are Breakpoint and the ECALLs before version
    1.12 and none from 1.12; otherwise the counter does not advance (it keeps
    its value, or falls by one where a trap of the CLIC vector read supersedes
    an interrupt).  For an ECALL the counter advances by one before version
    1.12 with IR clear and keeps its value from 1.12. *)
Theorem retired_count_on_trap (r : riscv) (e tval icount : Z) :
  inDebugMode r = false ->
  let r' := riscvTakeException e tval r in
  let before := instretR icount r in
  let after := instretR (icount + 1) r' in
  (after = wrap64 (before + 1) <->
   riscvInhibitInstret r = false /\ retiredCode r e = true) /\
  (retiredCode r e = true <->
   (e = riscv_E_Breakpoint \/ isECALL e = true) /\ RISCV_PRIV_VERSION r < RVPV_1_12) /\
  riscvInhibitInstret r = truthy (RD_CSR_FIELD r mcountinhibit F.IR) /\
  (riscvInhibitInstret r = true \/ retiredCode r e = false ->
   after = before \/
   (exception r' <> e /\ riscvInhibitInstret r = false /\ after = wrap64 (before - 1))) /\
  (exception r' = e -> riscvInhibitInstret r = true \/ retiredCode r e = false ->
   after = before) /\
  (isECALL e = true ->
   (RISCV_PRIV_VERSION r < RVPV_1_12 -> riscvInhibitInstret r = false ->
    after = wrap64 (before + 1)) /\
   (RVPV_1_12 <= RISCV_PRIV_VERSION r -> after = before)).
Proof.
  intros HDM r' before after.
  destruct (trap_counter_state e tval r HDM) as (Hinh & Hcases).
  fold r' in Hinh, Hcases.
  assert (Hafter : after = if riscvInhibitInstret r then baseInstructions r'
                           else wrap64 (icount + 1 - baseInstructions r'))
    by (unfold after, instretR; now rewrite Hinh).
  assert (Hsame : exception r' = e ->
                  riscvInhibitInstret r = true \/ retiredCode r e = false ->
                  after = before).
  { intros Hx Hc. destruct Hcases as [(_ & Hb) | (Hne & _)]; [|contradiction].
    rewrite Hafter, Hb. unfold before, instretR.
    destruct (riscvInhibitInstret r) eqn:Ei.
    - now rewrite andb_false_r.
    - destruct Hc as [Hc | Hc]; [discriminate|]. rewrite Hc. cbn [negb andb].
      wrap64_arith. }
  assert (Hup : riscvInhibitInstret r = false -> retiredCode r e = true ->
                after = wrap64 (before + 1)).
  { intros Ei Hr. destruct Hcases as [(_ & Hb) | (_ & Hr' & _)]; [|congruence].
    rewrite Hafter, Hb. unfold before, instretR. rewrite Ei, Hr. cbn [negb andb].
    wrap64_arith. }
  split; [|split; [apply retiredCode_iff|split; [reflexivity|split; [|split]]]].
  - split; [|intros [Ei Hr]; now apply Hup].
    intros Heq. rewrite Hafter in Heq. unfold before, instretR in Heq.
    destruct (riscvInhibitInstret r) eqn:Ei.
    + exfalso. destruct Hcases as [(_ & Hb) | (_ & _ & Hb)]; rewrite Hb in Heq.
      * rewrite andb_false_r in Heq. revert Heq. wrap64_arith.
      * revert Heq. wrap64_arith.
    + split; [reflexivity|]. destruct (retiredCode r e) eqn:Er; [reflexivity|].
      exfalso. destruct Hcases as [(_ & Hb) | (_ & _ & Hb)]; rewrite Hb in Heq;
        cbn [negb andb] in Heq; revert Heq; wrap64_arith.
  - intros Hc. destruct Hcases as [(Hx & Hb) | (Hne & Hr & Hb)].
    + left. now apply Hsame.
    + destruct (riscvInhibitInstret r) eqn:Ei.
      * left. rewrite Hafter, Hb. unfold before, instretR. now rewrite Ei.
      * right. split; [exact Hne|]. split; [reflexivity|].
        rewrite Hafter, Hb. unfold before, instretR. rewrite Ei. wrap64_arith.
  - exact Hsame.
  - intros Hec. split.
    + intros Hv Ei. apply Hup; [exact Ei|]. apply retiredCode_iff. auto.
    + intros Hv. apply Hsame.
      * apply sync_exception_recorded; [exact HDM|].
        unfold isECALL in Hec.
        repeat (apply orb_prop in Hec; destruct Hec as [Hec | Hec]);
          apply Z.eqb_eq in Hec; subst e; reflexivity.
      * right. destruct (retiredCode r e) eqn:Er; [|reflexivity].
        apply retiredCode_iff in Er. lia.
Qed.

Lemma retired_count_on_trap_witness :
  inDebugMode hartU = false /\
  instretR 7 hartU = 7 /\
  instretR 8 (riscvTakeException riscv_E_EnvironmentCallFromUMode 0 hartU) = 8 /\
  instretR 8 (riscvTakeException riscv_E_EnvironmentCallFromUMode 0 hartU12) = 7.
Proof.
  split; [reflexivity|]. split; [reflexivity|].
  pose proof (retired_count_on_trap hartU riscv_E_EnvironmentCallFromUMode 0 7
                (eq_refl : inDebugMode hartU = false)) as (_ & _ & _ & _ & _ & H).
  destruct (H eq_refl) as (H1 & _).
  split; [|vm_compute; reflexivity].
  change (7 + 1) with 8 in H1. rewrite H1; [vm_compute; reflexivity| |].
  - vm_compute; reflexivity.
  - vm_compute; reflexivity.
Defined.

(** ** Arrays *)

Lemma nth_updNat_same (A : Type) (l : list A) n v d :
  (n < length l)%nat -> nth n (updNat l n v) d = v.
Proof.
  revert n. induction l as [|a l IH]; intros [|n] H; simpl in *; try lia.
  - reflexivity.
  - apply IH. lia.
Qed.

Lemma nth_updNat_other (A : Type) (l : list A) n m v d :
  n <> m -> nth m (updNat l n v) d = nth m l d.
Proof.
  revert n m. induction l as [|a l IH]; intros [|n] [|m] H; simpl; try reflexivity.
  - contradiction.
  - apply IH. congruence.
Qed.

Lemma length_updNat (A : Type) (l : list A) n v : length (updNat l n v) = length l.
Proof.
  revert n. induction l as [|a l IH]; intros [|n]; simpl; try reflexivity.
  now rewrite IH.
Qed.

Lemma getAt_setAt_same (A : Type) (d : A) l i v :
  (Z.to_nat i < length l)%nat -> getAt d (setAt l i v) i = v.
Proof. intros H. unfold getAt, setAt. now apply nth_updNat_same. Qed.

Lemma getAt_setAt_other (A : Type) (d : A) l i j v :
  0 <= i -> 0 <= j -> i <> j -> getAt d (setAt l i v) j = getAt d l j.
Proof.
  intros Hi Hj H. unfold getAt, setAt. apply nth_updNat_other. lia.
Qed.

(** ** Writes of clicintattr *)

Lemma updateCLICInterruptField_stored i t v hart :
  (Z.to_nat i < length (clic_intState hart))%nat ->
  getCLICInterruptField (updateCLICInterruptField i t v hart) i t = v.
Proof.
  intros Hi. unfold updateCLICInterruptField.
  destruct (Z.eqb_spec (getCLICInterruptField hart i t) v) as [E|E]; cbn [negb].
  - exact E.
  - set (h1 := setCLICInterruptField i t v hart).
    assert (H1 : getCLICInterruptField h1 i t = v).
    { unfold h1, getCLICInterruptField, setCLICInterruptField. hart_simpl.
      rewrite getAt_setAt_same by assumption. now destruct t. }
    pose proof (eraseArb_testInterrupt h1) as H. clearbody h1.
    unfold getCLICInterruptField in *.
    replace (clic_intState (riscvTestInterrupt h1)) with (clic_intState h1)
      by (symmetry; keep_arb H).
    exact H1.
Qed.

(** Whether [writeCLICInterruptAttr] replaces the written mode by the mode
    of the page. *)
Definition attrModeRefused (hart : riscv) (intMode pageMode : Z) : bool :=
  (intMode >? pageMode) ||
  (CLICCFGMBITS (configInfo hart) =? 0) ||
  (intMode =? RISCV_MODE_HYPERVISOR) ||
  ((CLICCFGMBITS (configInfo hart) <? 2) && (intMode =? RISCV_MODE_SUPERVISOR)) ||
  ((intMode =? RISCV_MODE_USER) &&
   negb (truthy (Z.land (arch (configInfo hart)) ISA_N))).

Lemma legalCLICInterruptAttr_spec hart newValue P :
  P = RISCV_MODE_MACHINE \/ P = RISCV_MODE_SUPERVISOR \/ P = RISCV_MODE_USER ->
  let stored := legalCLICInterruptAttr hart newValue P in
  let m := rdField F.attr_mode (wrap8 newValue) in
  rdField F.attr_mode stored = (if attrModeRefused hart m P then P else m) /\
  rdField F.attr_shv stored =
    (if truthy (rdField F.nvbits (clic_cliccfg hart))
     then rdField F.attr_shv (wrap8 newValue) else 0) /\
  rdField F.attr_trig stored = rdField F.attr_trig (wrap8 newValue) /\
  rdField F.attr_u1 stored = 0.
Proof.
  intros HP stored m. unfold stored, legalCLICInterruptAttr. fold m.
  fold (attrModeRefused hart m P).
  assert (Hm : 0 <= m < 4) by (apply (getField_range 6 2); lia).
  assert (Hmode : Z.land (if attrModeRefused hart m P then P else m) (Z.ones 2)
                  = (if attrModeRefused hart m P then P else m)).
  { apply land_ones_small; [lia|]. change (2 ^ 2) with 4.
    destruct (attrModeRefused hart m P); [|exact Hm].
    unfold RISCV_MODE_MACHINE, RISCV_MODE_SUPERVISOR, RISCV_MODE_USER in HP. lia. }
  cbv zeta.
  split; [rewrite rd_wr_same by (simpl; lia); exact Hmode|].
  rewrite !(rd_wr_other F.attr_mode) by (simpl; lia).
  destruct (truthy (rdField F.nvbits (clic_cliccfg hart))); cbn [negb].
  - rewrite !(rd_wr_other F.attr_u1) by (simpl; lia).
    rewrite rd_wr_same by (simpl; lia). repeat split; reflexivity.
  - rewrite rd_wr_same by (simpl; lia).
    rewrite !(rd_wr_other F.attr_shv) by (simpl; lia).
    rewrite !(rd_wr_other F.attr_u1) by (simpl; lia).
    rewrite rd_wr_same by (simpl; lia). repeat split; reflexivity.
Qed.

Lemma getCLICPageMode_cases root offset P :
  getCLICPageMode root offset = Some P ->
  P = RISCV_MODE_MACHINE \/ P = RISCV_MODE_SUPERVISOR \/ P = RISCV_MODE_USER.
Proof.
  unfold getCLICPageMode.
  destruct (getCLICPageType root offset) as [[| | |]|]; intros [= <-]; auto.
Qed.

(** A CLIC interrupt 20 that targets user mode, on the reference hart with
    nmbits = 2; and the offset of its clicintattr byte in the supervisor
    page. *)
Definition hartAttr : riscv :=
  set_clic_cliccfg 65
    (set_clic_intState (setAt (clic_intState hart0) 20 (mkCLICIntState 0 0 0 0)) hart0).

Definition attr20_S : Z := 5 * 4096 + 20 * 4 + 2.

(** C4 fails as stated: writing mode M (byte 0xC0) through the supervisor
    page to an interrupt whose stored mode is U is no no-op for the stored
    mode, which becomes S, the mode of the page. *)
Lemma clic_attr_write_counterexample :
  getCLICPageMode hartAttr attr20_S = Some RISCV_MODE_SUPERVISOR /\
  getCLICIntIndex attr20_S = 20 /\
  getCLICIntFieldType attr20_S = CIT_clicintattr /\
  accessCLICInterrupt hartAttr attr20_S = true /\
  rdField F.attr_mode 192 = RISCV_MODE_MACHINE /\
  rdField F.attr_mode (getCLICInterruptAttr hartAttr 20) = RISCV_MODE_USER /\
  rdField F.attr_mode (getCLICInterruptAttr (writeCLICInt attr20_S 192 hartAttr) 20)
  = RISCV_MODE_SUPERVISOR.
Proof. repeat (split; [vm_compute; reflexivity|]). vm_compute; reflexivity. Qed.

Lemma accessCLICInterrupt_index root offset :
  accessCLICInterrupt root offset = true ->
  0 <= getCLICIntIndex offset < getIntNum root.
Proof.
  unfold accessCLICInterrupt. cbv zeta.
  destruct (_ && _); [discriminate|].
  destruct (Z.ltb_spec (getCLICIntIndex offset) (getIntNum root)); [|discriminate].
  intros _. split; [|assumption].
  unfold getCLICIntIndex. apply Z.mod_pos_bound. lia.
Qed.

Lemma writeCLICInt_attr root offset newValue P :
  truthy (getCLICPage offset) = true ->
  getCLICIntFieldType offset = CIT_clicintattr ->
  accessCLICInterrupt root offset = true ->
  getCLICPageMode root offset = Some P ->
  writeCLICInt offset newValue root =
  writeCLICInterruptAttr (getCLICIntIndex offset) newValue P root.
Proof.
  intros Hpage Hty Hacc HP. unfold writeCLICInt, writeCLICInterrupt.
  now rewrite Hpage, Hacc, Hty, HP.
Qed.

(** C4, amended: a write of the clicintattr byte of an interrupt through
    the page of mode P (the access being granted) stores the mode P when the
    written mode is higher than P: the mode is clamped to the mode of the
    page, it is not kept.  The stored mode never exceeds P and is never H;
    a written S with CLICCFGMBITS < 2 and a written U without the N
    extension are replaced by P as well; and shv is stored as 0 when
    cliccfg.nvbits = 0. *)
Theorem clic_attr_write (root : riscv) (offset newValue P : Z) :
  truthy (getCLICPage offset) = true ->
  getCLICIntFieldType offset = CIT_clicintattr ->
  accessCLICInterrupt root offset = true ->
  getCLICPageMode root offset = Some P ->
  getIntNum root <= Z.of_nat (length (clic_intState root)) ->
  let i := getCLICIntIndex offset in
  let stored := getCLICInterruptAttr (writeCLICInt offset newValue root) i in
  let m := rdField F.attr_mode (wrap8 newValue) in
  (m > P -> rdField F.attr_mode stored = P) /\
  rdField F.attr_mode stored = (if attrModeRefused root m P then P else m) /\
  rdField F.attr_mode stored <= P /\
  rdField F.attr_mode stored <> RISCV_MODE_HYPERVISOR /\
  (rdField F.nvbits (clic_cliccfg root) = 0 -> rdField F.attr_shv stored = 0) /\
  (CLICCFGMBITS (configInfo root) < 2 -> m = RISCV_MODE_SUPERVISOR ->
   rdField F.attr_mode stored = P) /\
  (truthy (Z.land (arch (configInfo root)) ISA_N) = false -> m = RISCV_MODE_USER ->
   rdField F.attr_mode stored = P).
Proof.
  intros Hpage Hty Hacc HP Hlen i stored m.
  pose proof (accessCLICInterrupt_index root offset Hacc) as Hi. fold i in Hi.
  pose proof (getCLICPageMode_cases root offset P HP) as HPc.
  assert (Hst : stored = legalCLICInterruptAttr root newValue P).
  { unfold stored. rewrite (writeCLICInt_attr root offset newValue P) by assumption.
    fold i. unfold writeCLICInterruptAttr, getCLICInterruptAttr.
    apply updateCLICInterruptField_stored. lia. }
  destruct (legalCLICInterruptAttr_spec root newValue P HPc) as (Hmode & Hshv & _ & _).
  fold m in Hmode. rewrite <- Hst in Hmode, Hshv. clearbody stored.
  assert (Hm : 0 <= m < 4) by (apply (getField_range 6 2); lia).
  unfold attrModeRefused in Hmode.
  unfold RISCV_MODE_MACHINE, RISCV_MODE_SUPERVISOR, RISCV_MODE_USER,
    RISCV_MODE_HYPERVISOR in *.
  split.
  { intros Hgt. rewrite Hmode.
    replace (m >? P) with true by (symmetry; apply Z.gtb_lt; lia). reflexivity. }
  split; [exact Hmode|].
  split.
  { rewrite Hmode. destruct (Z.gtb_spec m P); cbn [orb]; [lia|].
    destruct (_ || _ || _ || _); lia. }
  split.
  { rewrite Hmode. destruct (m >? P); cbn [orb]; [lia|].
    destruct (CLICCFGMBITS (configInfo root) =? 0); cbn [orb]; [lia|].
    destruct (Z.eqb_spec m 2); cbn [orb]; [lia|].
    destruct (_ || _); lia. }
  split.
  { intros Hnv. rewrite Hshv, Hnv. reflexivity. }
  split.
  { intros Hc Hs. rewrite Hmode.
    replace (CLICCFGMBITS (configInfo root) <? 2) with true
      by (symmetry; apply Z.ltb_lt; lia).
    replace (m =? 1) with true by (symmetry; apply Z.eqb_eq; lia).
    cbn [andb]. now rewrite !orb_true_r. }
  intros Hn Hu. rewrite Hmode, Hn.
  replace (m =? 0) with true by (symmetry; apply Z.eqb_eq; lia).
  cbn [andb negb]. now rewrite !orb_true_r.
Qed.

Lemma clic_attr_write_witness :
  truthy (getCLICPage attr20_S) = true /\
  getCLICIntFieldType attr20_S = CIT_clicintattr /\
  accessCLICInterrupt hartAttr attr20_S = true /\
  getCLICPageMode hartAttr attr20_S = Some RISCV_MODE_SUPERVISOR /\
  getIntNum hartAttr <= Z.of_nat (length (clic_intState hartAttr)) /\
  rdField F.attr_mode
    (getCLICInterruptAttr (writeCLICInt attr20_S 192 hartAttr) (getCLICIntIndex attr20_S))
  <= RISCV_MODE_SUPERVISOR.
Proof.
  assert (H1 : truthy (getCLICPage attr20_S) = true) by reflexivity.
  assert (H2 : getCLICIntFieldType attr20_S = CIT_clicintattr) by reflexivity.
  assert (H3 : accessCLICInterrupt hartAttr attr20_S = true) by (vm_compute; reflexivity).
  assert (H4 : getCLICPageMode hartAttr attr20_S = Some RISCV_MODE_SUPERVISOR)
    by reflexivity.
  assert (H5 : getIntNum hartAttr <= Z.of_nat (length (clic_intState hartAttr)))
    by (vm_compute; discriminate).
  repeat (split; [assumption|]).
  exact (proj1 (proj2 (proj2
    (clic_attr_write hartAttr attr20_S 192 RISCV_MODE_SUPERVISOR H1 H2 H3 H4 H5)))).
Defined.

(** ** CLIC arbitration *)

(** A loop over [0 .. n-1] that maintains an invariant. *)
Lemma fold_left_seq_inv (A : Type) (f : A -> nat -> A) (P : nat -> A -> Prop) n :
  forall s a,
    P s a ->
    (forall k b, (s <= k < s + n)%nat -> P k b -> P (S k) (f b k)) ->
    P (s + n)%nat (fold_left f (seq s n) a).
Proof.
  induction n as [|n IH]; intros s a H0 Hstep; simpl.
  - now rewrite Nat.add_0_r.
  - replace (s + S n)%nat with (S s + n)%nat by lia.
    apply IH.
    + apply Hstep; [lia|assumption].
    + intros k b Hk. apply Hstep. lia.
Qed.

Lemma truthy_land_1 pe : truthy (Z.land pe 1) = Z.testbit pe 0.
Proof.
  unfold truthy. change 1 with (Z.ones 1) at 1. rewrite Z.land_ones by lia.
  change (2 ^ 1) with 2. rewrite <- Z.bit0_mod.
  destruct (Z.testbit pe 0); reflexivity.
Qed.

Lemma truthy_false_iff x : truthy x = false <-> x = 0.
Proof. unfold truthy. destruct (Z.eqb_spec x 0); simpl; split; congruence. Qed.

(** Bit [i] of the pending-and-enabled mask. *)
Definition ipeBit (hart : riscv) (i : Z) : bool :=
  Z.testbit (getAt 0 (clic_ipe hart) (i / 64)) (i mod 64).

Definition CLICRank (hart : riscv) (i : Z) : Z :=
  Z.lor (Z.shiftl (getCLICInterruptMode hart i) 8)
        (getCLICInterruptField hart i CIT_clicintctl).

Lemma tryCLIC_eq hart w i best :
  tryCLIC hart w i best =
  if fst best <=? CLICRank hart (w * 64 + i)
  then (CLICRank hart (w * 64 + i), w * 64 + i) else best.
Proof. destruct best as [m id]. reflexivity. Qed.

(** The winner among the pending interrupts below [N]: the largest rank,
    and among equal ranks the largest index. *)
Definition CLICWinner (hart : riscv) (N : Z) (best : Z * Z) : Prop :=
  (best = (0, RV_NO_INT) /\ forall j, 0 <= j < N -> ipeBit hart j = false) \/
  (0 <= snd best < N /\ ipeBit hart (snd best) = true /\
   fst best = CLICRank hart (snd best) /\
   forall j, 0 <= j < N -> ipeBit hart j = true ->
     CLICRank hart j <= fst best /\ (CLICRank hart j = fst best -> j <= snd best)).

Lemma CLICWinner_step hart N best :
  0 <= N -> 0 <= CLICRank hart N ->
  CLICWinner hart N best ->
  CLICWinner hart (N + 1)
    (if ipeBit hart N
     then (if fst best <=? CLICRank hart N then (CLICRank hart N, N) else best)
     else best).
Proof.
  intros HN Hr [[-> Hnone] | (Hid & Hbit & Hrank & Hmax)].
  - destruct (ipeBit hart N) eqn:E.
    + cbn [fst]. replace (0 <=? CLICRank hart N) with true
        by (symmetry; apply Z.leb_le; lia).
      right. cbn [fst snd]. split; [lia|]. split; [assumption|]. split; [reflexivity|].
      intros j Hj Hb. assert (j = N) as ->.
      { destruct (Z.eq_dec j N); [assumption|].
        rewrite Hnone in Hb by lia. discriminate. }
      lia.
    + left. split; [reflexivity|]. intros j Hj.
      destruct (Z.eq_dec j N) as [->|]; [assumption|apply Hnone; lia].
  - destruct (ipeBit hart N) eqn:E.
    + destruct (Z.leb_spec (fst best) (CLICRank hart N)).
      * right. cbn [fst snd]. split; [lia|]. split; [assumption|].
        split; [reflexivity|]. intros j Hj Hb.
        destruct (Z.eq_dec j N) as [->|]; [lia|].
        destruct (Hmax j ltac:(lia) Hb). lia.
      * right. split; [lia|]. split; [assumption|]. split; [assumption|].
        intros j Hj Hb. destruct (Z.eq_dec j N) as [->|]; [lia|].
        apply Hmax; [lia|assumption].
    + right. split; [lia|]. split; [assumption|]. split; [assumption|].
      intros j Hj Hb. destruct (Z.eq_dec j N) as [->|]; [congruence|].
      apply Hmax; [lia|assumption].
Qed.

(** The scan of one word visits its 64 bits in increasing order; the
    loop leaves early once the remaining bits are zero, which changes
    nothing. *)
Lemma scanCLICWord_winner hart w word :
  0 <= w -> 0 <= word < 2 ^ 64 ->
  word = getAt 0 (clic_ipe hart) w ->
  (forall i, 0 <= CLICRank hart i) ->
  forall fuel i best,
    0 <= i -> i + Z.of_nat fuel = 64 ->
    CLICWinner hart (w * 64 + i) best ->
    CLICWinner hart (w * 64 + 64)
      (if truthy (Z.shiftr word i)
       then scanCLICWord fuel hart w (Z.shiftr word i) i best
       else best).
Proof.
  intros Hw Hword Heq Hrank.
  assert (Hbit : forall i, 0 <= i < 64 -> ipeBit hart (w * 64 + i) = Z.testbit word i).
  { intros i Hi. unfold ipeBit.
    replace ((w * 64 + i) / 64) with w by (apply Z.div_unique with i; lia).
    replace ((w * 64 + i) mod 64) with i by (apply Z.mod_unique with w; lia).
    now rewrite Heq. }
  assert (Hzero : forall i best, 0 <= i <= 64 -> Z.shiftr word i = 0 ->
            CLICWinner hart (w * 64 + i) best -> CLICWinner hart (w * 64 + 64) best).
  { intros i best Hi Hz Hwin.
    assert (Hno : forall j, w * 64 + i <= j < w * 64 + 64 -> ipeBit hart j = false).
    { intros j Hj. replace j with (w * 64 + (j - w * 64)) by lia.
      rewrite Hbit by lia.
      replace (j - w * 64) with ((j - w * 64 - i) + i) by lia.
      rewrite <- Z.shiftr_spec by lia. rewrite Hz. apply Z.bits_0. }
    destruct Hwin as [[-> Hnone] | (Hid & Hb & Hr & Hmax)].
    - left. split; [reflexivity|]. intros j Hj.
      destruct (Z.lt_ge_cases j (w * 64 + i)); [apply Hnone; lia|apply Hno; lia].
    - right. split; [lia|]. split; [assumption|]. split; [assumption|].
      intros j Hj Hb'. destruct (Z.lt_ge_cases j (w * 64 + i)).
      + apply Hmax; [lia|assumption].
      + rewrite Hno in Hb' by lia. discriminate. }
  induction fuel as [|fuel IH]; intros i best Hi Hsum Hwin.
  - assert (i = 64) as -> by lia.
    assert (Hz : Z.shiftr word 64 = 0).
    { destruct (Z.eq_dec word 0) as [->|]; [apply Z.shiftr_0_l|].
      apply Z.shiftr_eq_0; [lia|]. apply Z.log2_lt_pow2; lia. }
    rewrite Hz. exact Hwin.
  - destruct (truthy (Z.shiftr word i)) eqn:Et.
    + cbn [scanCLICWord]. rewrite truthy_land_1, Z.shiftr_spec by lia.
      rewrite Z.add_0_l. rewrite tryCLIC_eq.
      rewrite Z.shiftr_shiftr by lia.
      rewrite <- (Hbit i) by lia.
      pose proof (CLICWinner_step hart (w * 64 + i) best ltac:(lia) (Hrank _) Hwin)
        as Hstep.
      replace (w * 64 + i + 1) with (w * 64 + (i + 1)) in Hstep by lia.
      apply (IH (i + 1)); [lia|lia|exact Hstep].
    + apply truthy_false_iff in Et. apply (Hzero i); [lia|assumption|assumption].
Qed.

Lemma getCLICInterruptMode_nonneg hart i : 0 <= getCLICInterruptMode hart i.
Proof.
  unfold getCLICInterruptMode. cbv zeta.
  destruct (_ =? 0); [unfold RISCV_MODE_MACHINE; lia|].
  destruct (_ =? 1).
  - destruct (truthy _); unfold RISCV_MODE_MACHINE, RISCV_MODE_USER; lia.
  - apply Z.lor_nonneg. split.
    + apply (getField_range 6 2). lia.
    + destruct (_ =? 1); simpl; lia.
Qed.

Lemma CLICRank_nonneg hart i :
  0 <= getCLICInterruptField hart i CIT_clicintctl -> 0 <= CLICRank hart i.
Proof.
  intros H. unfold CLICRank. apply Z.lor_nonneg. split; [|assumption].
  apply Z.shiftl_nonneg. apply getCLICInterruptMode_nonneg.
Qed.

Lemma scanCLIC_winner hart :
  0 <= ipDWords hart ->
  (forall w, 0 <= getAt 0 (clic_ipe hart) w < 2 ^ 64) ->
  (forall i, 0 <= CLICRank hart i) ->
  CLICWinner hart (ipDWords hart * 64) (scanCLIC hart).
Proof.
  intros HD Hwords Hrank. unfold scanCLIC.
  replace (ipDWords hart * 64) with (Z.of_nat (0 + Z.to_nat (ipDWords hart)) * 64)
    by (rewrite Nat.add_0_l, Z2Nat.id by assumption; reflexivity).
  apply (fold_left_seq_inv _ _ (fun k best => CLICWinner hart (Z.of_nat k * 64) best)).
  - left. split; [reflexivity|]. intros j Hj. simpl in Hj. lia.
  - intros k best Hk Hwin. cbv zeta.
    pose proof (scanCLICWord_winner hart (Z.of_nat k) (getAt 0 (clic_ipe hart) (Z.of_nat k))
                  ltac:(lia) (Hwords _) eq_refl Hrank 64%nat 0 best
                  ltac:(lia) ltac:(reflexivity)) as H.
    rewrite Z.shiftr_0_r, Z.add_0_r in H. specialize (H Hwin).
    replace (Z.of_nat (S k) * 64) with (Z.of_nat k * 64 + 64) by lia.
    exact H.
Qed.

Lemma tryCLIC_ext h1 h2 w i best :
  clic_intState h1 = clic_intState h2 -> clic_cliccfg h1 = clic_cliccfg h2 ->
  configInfo h1 = configInfo h2 ->
  tryCLIC h1 w i best = tryCLIC h2 w i best.
Proof.
  intros H1 H2 H3. destruct best as [m id].
  unfold tryCLIC, getCLICInterruptMode, getCLICInterruptAttr, getCLICInterruptField.
  now rewrite H1, H2, H3.
Qed.

Lemma scanCLICWord_ext h1 h2 w :
  clic_intState h1 = clic_intState h2 -> clic_cliccfg h1 = clic_cliccfg h2 ->
  configInfo h1 = configInfo h2 ->
  forall fuel pe i best,
    scanCLICWord fuel h1 w pe i best = scanCLICWord fuel h2 w pe i best.
Proof.
  intros H1 H2 H3. induction fuel as [|fuel IH]; intros pe i best; [reflexivity|].
  cbn [scanCLICWord]. rewrite (tryCLIC_ext h1 h2) by assumption.
  destruct (truthy (Z.shiftr pe 1)); [apply IH|reflexivity].
Qed.

Lemma fold_left_ext_eq (A B : Type) (f g : A -> B -> A) l a :
  (forall x y, f x y = g x y) -> fold_left f l a = fold_left g l a.
Proof.
  intros H. revert a. induction l as [|b l IH]; intros a; simpl; [reflexivity|].
  now rewrite H, IH.
Qed.

Lemma scanCLIC_ext h1 h2 :
  clic_intState h1 = clic_intState h2 -> clic_cliccfg h1 = clic_cliccfg h2 ->
  configInfo h1 = configInfo h2 -> clic_ipe h1 = clic_ipe h2 ->
  ipDWords h1 = ipDWords h2 ->
  scanCLIC h1 = scanCLIC h2.
Proof.
  intros H1 H2 H3 H4 H5. unfold scanCLIC. rewrite H4, H5.
  apply fold_left_ext_eq. intros best w. cbv zeta.
  destruct (truthy _); [|reflexivity].
  now apply scanCLICWord_ext.
Qed.

Lemma clic_sel_refreshCLIC hart :
  clic_sel (refreshPendingAndEnabledCLIC hart) =
  let id := snd (scanCLIC hart) in
  if id =? RV_NO_INT then mkCLICSel RV_NO_INT 0 0 false
  else mkCLICSel id (getCLICInterruptMode hart id)
         (CLICLevel (rdField F.nlbits (clic_cliccfg hart))
            (getCLICInterruptField hart id CIT_clicintctl))
         (truthy (rdField F.attr_shv (getCLICInterruptAttr hart id))).
Proof.
  unfold refreshPendingAndEnabledCLIC.
  rewrite (scanCLIC_ext (set_clic_sel (mkCLICSel RV_NO_INT 0 0 false) hart) hart)
    by reflexivity.
  cbv zeta. generalize (snd (scanCLIC hart)). intros id.
  destruct (id =? RV_NO_INT); cbn [negb].
  - now destruct (debugExcept _); [destruct (negb _)|].
  - repeat match goal with
           | |- context [if ?b then _ else _] => destruct b
           | |- context [let '(_, _) := ?p in _] => destruct p
           end; reflexivity.
Qed.

Lemma CLICLevel_eq nlbits ctl :
  0 <= nlbits <= 8 -> 0 <= ctl < 256 ->
  CLICLevel nlbits ctl = Z.lor ctl (Z.ones (8 - nlbits)).
Proof.
  intros Hn Hc. unfold CLICLevel, wrap8. cbv zeta.
  replace (Z.shiftl 1 (8 - nlbits) - 1) with (Z.ones (8 - nlbits))
    by (unfold Z.ones; now rewrite Z.sub_1_r).
  assert (Hhigh : forall n, 8 <= n -> Z.testbit ctl n = false).
  { intros n Hn8. destruct (Z.eq_dec ctl 0) as [->|]; [apply Z.bits_0|].
    apply Z.bits_above_log2; [lia|].
    apply Z.lt_le_trans with 8; [|assumption].
    apply Z.log2_lt_pow2; lia. }
  apply Z.bits_inj'. intros n Hn0.
  rewrite !Z.land_spec, !Z.lor_spec, !Z.land_spec, !Z.lnot_spec by lia.
  rewrite !Z.land_spec, !Z.lnot_spec by lia.
  rewrite !testbit_ones_nonneg by lia.
  destruct (Z.ltb_spec n 8) as [H8|H8].
  - destruct (n <? 8 - nlbits), (Z.testbit ctl n); reflexivity.
  - rewrite (Hhigh n H8).
    replace (n <? 8 - nlbits) with false by (symmetry; apply Z.ltb_ge; lia).
    reflexivity.
Qed.

(** Well-formed CLIC arrays: the words of ipe[] are 64-bit values and the
    control fields are bytes. *)
Definition isByte (z : Z) : bool := (0 <=? z) && (z <? 256).

Definition ipe_wf (hart : riscv) : bool :=
  forallb (fun w => (0 <=? w) && (w <? 2 ^ 64)) (clic_ipe hart).

Definition intState_wf (hart : riscv) : bool :=
  forallb (fun s => isByte (clicintip s) && isByte (clicintie s) &&
                    isByte (clicintattr s) && isByte (clicintctl s))
    (clic_intState hart).

Lemma getAt_forallb (A : Type) (p : A -> bool) d l i :
  forallb p l = true -> p d = true -> p (getAt d l i) = true.
Proof.
  intros Hl Hd. unfold getAt. generalize (Z.to_nat i). intros n.
  revert n. induction l as [|a l IH]; intros [|n]; simpl in *; try assumption.
  - now apply andb_prop in Hl.
  - apply IH. now apply andb_prop in Hl.
Qed.

Lemma ipe_wf_word hart w :
  ipe_wf hart = true -> 0 <= getAt 0 (clic_ipe hart) w < 2 ^ 64.
Proof.
  intros H.
  pose proof (getAt_forallb _ (fun w => (0 <=? w) && (w <? 2 ^ 64)) 0 _ w H eq_refl) as Hw.
  apply andb_prop in Hw. destruct Hw as [H1 H2].
  apply Z.leb_le in H1. apply Z.ltb_lt in H2. lia.
Qed.

Lemma intState_wf_ctl hart i :
  intState_wf hart = true -> 0 <= getCLICInterruptField hart i CIT_clicintctl < 256.
Proof.
  intros H. unfold getCLICInterruptField. cbn [intStateField].
  pose proof (getAt_forallb _
    (fun s => isByte (clicintip s) && isByte (clicintie s) &&
              isByte (clicintattr s) && isByte (clicintctl s))
    noIntState _ i H eq_refl) as Hs.
  cbv beta in Hs. apply andb_prop in Hs. destruct Hs as [_ Hc].
  unfold isByte in Hc. apply andb_prop in Hc. destruct Hc as [H1 H2].
  apply Z.leb_le in H1. apply Z.ltb_lt in H2. lia.
Qed.

(** C6: CLIC arbitration scans the bits of ipe[]; each pending-and-
    enabled interrupt has the rank (target mode << 8) | clicintctl; the
    selected interrupt has the largest rank, and among interrupts of that
    rank the highest index.  clic.sel records its index, its target mode as
    priv, the shv bit of its attribute and as level its clicintctl with the
    bits below the nlbits most significant ones set; with no bit set in
    ipe[] no interrupt is selected. *)
Theorem clic_arbitration (hart : riscv) :
  0 <= ipDWords hart ->
  ipe_wf hart = true ->
  intState_wf hart = true ->
  rdField F.nlbits (clic_cliccfg hart) <= 8 ->
  let N := ipDWords hart * 64 in
  let sel := clic_sel (refreshPendingAndEnabledCLIC hart) in
  let id := sel_id sel in
  ((forall j, 0 <= j < N -> ipeBit hart j = false) -> id = RV_NO_INT) /\
  ((exists j, 0 <= j < N /\ ipeBit hart j = true) ->
   0 <= id < N /\ ipeBit hart id = true /\
   (forall j, 0 <= j < N -> ipeBit hart j = true ->
      CLICRank hart j <= CLICRank hart id /\
      (CLICRank hart j = CLICRank hart id -> j <= id)) /\
   sel_priv sel = getCLICInterruptMode hart id /\
   sel_shv sel = truthy (rdField F.attr_shv (getCLICInterruptAttr hart id)) /\
   sel_level sel =
     Z.lor (getCLICInterruptField hart id CIT_clicintctl)
           (Z.ones (8 - rdField F.nlbits (clic_cliccfg hart)))).
Proof.
  intros HD Hipe Hst Hnl N sel id.
  assert (Hwords : forall w, 0 <= getAt 0 (clic_ipe hart) w < 2 ^ 64)
    by (intros w; now apply ipe_wf_word).
  assert (Hctl : forall i, 0 <= getCLICInterruptField hart i CIT_clicintctl < 256)
    by (intros i; now apply intState_wf_ctl).
  assert (Hrank : forall i, 0 <= CLICRank hart i)
    by (intros i; apply CLICRank_nonneg, Hctl).
  pose proof (scanCLIC_winner hart HD Hwords Hrank) as Hwin. fold N in Hwin.
  unfold id, sel. rewrite clic_sel_refreshCLIC. cbv zeta.
  revert Hwin. generalize (scanCLIC hart). intros [m w] Hwin. cbn [snd].
  destruct Hwin as [[[= -> ->] Hnone] | (Hid & Hbit & Hr & Hmax)]; cbn [fst snd] in *.
  - change (RV_NO_INT =? RV_NO_INT) with true. cbv iota. cbn [sel_id].
    split; [reflexivity|]. intros (j & Hj & Hb). rewrite Hnone in Hb by assumption.
    discriminate.
  - replace (w =? RV_NO_INT) with false
      by (symmetry; apply Z.eqb_neq; unfold RV_NO_INT; lia).
    cbn [sel_id sel_priv sel_shv sel_level].
    split.
    { intros Hnone. rewrite Hnone in Hbit by assumption. discriminate. }
    intros _. split; [assumption|]. split; [assumption|]. split.
    { intros j Hj Hb. rewrite <- Hr. now apply Hmax. }
    split; [reflexivity|]. split; [reflexivity|].
    apply CLICLevel_eq; [|apply Hctl].
    split; [apply (getField_range 1 4); lia|assumption].
Qed.

(** Interrupts 20 (control byte 0x7F) and 40 (control byte 0x7F, so the
    same rank) pending and enabled, machine mode, nlbits = 4. *)
Definition hartArb : riscv :=
  set_clic_cliccfg (Z.lor (Z.shiftl 4 1) 1)
    (set_clic_ipe [Z.lor (Z.shiftl 1 20) (Z.shiftl 1 40)]
       (set_clic_intState
          (setAt (setAt (clic_intState hart0) 20 (mkCLICIntState 1 1 192 127))
             40 (mkCLICIntState 1 1 193 127)) hart0)).

Example clic_arbitration_tie :
  clic_sel (refreshPendingAndEnabledCLIC hartArb)
  = mkCLICSel 40 RISCV_MODE_MACHINE 127 true.
Proof. vm_compute. reflexivity. Qed.

Lemma clic_arbitration_witness :
  0 <= ipDWords hartArb /\ ipe_wf hartArb = true /\ intState_wf hartArb = true /\
  rdField F.nlbits (clic_cliccfg hartArb) <= 8 /\
  sel_priv (clic_sel (refreshPendingAndEnabledCLIC hartArb))
  = getCLICInterruptMode hartArb (sel_id (clic_sel (refreshPendingAndEnabledCLIC hartArb))).
Proof.
  assert (H1 : 0 <= ipDWords hartArb) by (vm_compute; discriminate).
  assert (H2 : ipe_wf hartArb = true) by (vm_compute; reflexivity).
  assert (H3 : intState_wf hartArb = true) by (vm_compute; reflexivity).
  assert (H4 : rdField F.nlbits (clic_cliccfg hartArb) <= 8) by (vm_compute; discriminate).
  assert (Hex : exists j, 0 <= j < ipDWords hartArb * 64 /\ ipeBit hartArb j = true).
  { exists 20. split; [|vm_compute; reflexivity].
    change (ipDWords hartArb) with 1. lia. }
  repeat (split; [assumption|]).
  exact (proj1 (proj2 (proj2 (proj2
    (proj2 (clic_arbitration hartArb H1 H2 H3 H4) Hex))))).
Defined.

(** ** Basic arbitration *)

(** The shape of the [do ... while] loops over the bits of a mask. *)
Fixpoint bitLoop {A : Type} (step : Z -> A -> A) (fuel : nat) (pe i : Z) (acc : A) : A :=
  match fuel with
  | O => acc
  | S fuel' =>
      let acc := if truthy (Z.land pe 1) then step i acc else acc in
      let pe := Z.shiftr pe 1 in
      if truthy pe then bitLoop step fuel' pe (i + 1) acc else acc
  end.

Lemma selectBasic_bitLoop r fuel pe i sel :
  selectBasic fuel r pe i sel = bitLoop (tryBasic r) fuel pe i sel.
Proof.
  revert pe i sel. induction fuel as [|fuel IH]; intros pe i sel; [reflexivity|].
  cbn [selectBasic bitLoop]. destruct (truthy (Z.shiftr pe 1)); [apply IH|reflexivity].
Qed.

(** The loop visits the bits of a 64-bit mask in increasing order and
    stops by its own test, not for lack of fuel. *)
Lemma bitLoop_inv (A : Type) (step : Z -> A -> A) (P : Z -> A -> Prop) word :
  0 <= word < 2 ^ 64 ->
  (forall i acc, 0 <= i < 64 -> P i acc ->
     P (i + 1) (if Z.testbit word i then step i acc else acc)) ->
  forall acc, P 0 acc ->
    P 64 (if truthy word then bitLoop step 64 word 0 acc else acc).
Proof.
  intros Hword Hstep.
  assert (Hzero : forall i acc, 0 <= i <= 64 -> Z.shiftr word i = 0 -> P i acc -> P 64 acc).
  { intros i acc Hi Hz. remember (Z.to_nat (64 - i)) as n eqn:En.
    revert i Hi Hz En. induction n as [|n IH]; intros i Hi Hz En Hp.
    - assert (i = 64) as -> by lia. exact Hp.
    - apply (IH (i + 1)); [lia| |lia|].
      + rewrite <- Z.shiftr_shiftr, Hz by lia. apply Z.shiftr_0_l.
      + specialize (Hstep i acc ltac:(lia) Hp).
        replace (Z.testbit word i) with false in Hstep; [exact Hstep|].
        rewrite <- (Z.add_0_l i), <- Z.shiftr_spec, Hz by lia.
        symmetry. apply Z.bits_0. }
  assert (Hgen : forall fuel i acc, 0 <= i -> i + Z.of_nat fuel = 64 -> P i acc ->
            P 64 (if truthy (Z.shiftr word i)
                  then bitLoop step fuel (Z.shiftr word i) i acc else acc)).
  { induction fuel as [|fuel IH]; intros i acc Hi Hsum Hp.
    - assert (i = 64) as -> by lia.
      assert (Hz : Z.shiftr word 64 = 0).
      { destruct (Z.eq_dec word 0) as [->|]; [apply Z.shiftr_0_l|].
        apply Z.shiftr_eq_0; [lia|]. apply Z.log2_lt_pow2; lia. }
      rewrite Hz. exact Hp.
    - destruct (truthy (Z.shiftr word i)) eqn:Et.
      + cbn [bitLoop]. rewrite truthy_land_1, Z.shiftr_spec by lia.
        rewrite Z.add_0_l, Z.shiftr_shiftr by lia.
        apply (IH (i + 1)); [lia|lia|]. apply Hstep; [lia|assumption].
      + apply truthy_false_iff in Et. apply (Hzero i); [lia|assumption|assumption]. }
  intros acc Hp. specialize (Hgen 64%nat 0 acc ltac:(lia) ltac:(reflexivity) Hp).
  now rewrite Z.shiftr_0_r in Hgen.
Qed.

(** Target mode of an interrupt as the delegation registers give it. *)
Definition delegMode (r : riscv) (i : Z) : Z :=
  if negb (Z.testbit (RD_CSR r mideleg) i) then RISCV_MODE_MACHINE
  else if negb (Z.testbit (RD_CSR r sideleg) i) then RISCV_MODE_SUPERVISOR
  else RISCV_MODE_USER.

(** Effective interrupt enable of a mode, as [refreshPendingAndEnabledBasic]
    computes it. *)
Definition effectiveIE (r : riscv) (X : Z) : bool :=
  if X =? RISCV_MODE_MACHINE then
    getIE r (truthy (RD_CSR_FIELD r mstatus F.MIE)) RISCV_MODE_MACHINE (useCLICM r)
  else if X =? RISCV_MODE_SUPERVISOR then
    getIE r (truthy (RD_CSR_FIELD r mstatus F.SIE)) RISCV_MODE_SUPERVISOR (useCLICS r)
  else
    getIE r (truthy (RD_CSR_FIELD r mstatus F.UIE)) RISCV_MODE_USER (useCLICU r).

(** The effective interrupt enable in the words of the specification:
    the raw enable, raised to 1 when the current mode is strictly below
    the mode and zeroed when strictly above. *)
Definition specEffectiveIE (r : riscv) (X : Z) : bool :=
  let raw :=
    if X =? RISCV_MODE_MACHINE then truthy (RD_CSR_FIELD r mstatus F.MIE)
    else if X =? RISCV_MODE_SUPERVISOR then truthy (RD_CSR_FIELD r mstatus F.SIE)
    else truthy (RD_CSR_FIELD r mstatus F.UIE) in
  if getCurrentMode r <? X then true
  else if getCurrentMode r >? X then false
  else raw.

(** Interrupt [i] is pending, enabled in mie, and its target mode is
    enabled. *)
Definition basicCandidate (r : riscv) (i : Z) : bool :=
  Z.testbit (getPendingBasic r) i && effectiveIE r (delegMode r i).

Lemma testbit_wrap64 x i : 0 <= i -> Z.testbit (wrap64 x) i = Z.testbit x i && (i <? 64).
Proof.
  intros Hi. unfold wrap64. now rewrite Z.land_spec, testbit_ones_nonneg by lia.
Qed.

Lemma testbit_wrap32 x i : 0 <= i -> Z.testbit (wrap32 x) i = Z.testbit x i && (i <? 32).
Proof.
  intros Hi. unfold wrap32. now rewrite Z.land_spec, testbit_ones_nonneg by lia.
Qed.

Lemma testbit_small x n i :
  0 <= x < 2 ^ n -> 0 <= n -> n <= i -> Z.testbit x i = false.
Proof.
  intros Hx Hn Hi. destruct (Z.eq_dec x 0) as [->|]; [apply Z.bits_0|].
  apply Z.bits_above_log2; [lia|].
  apply Z.lt_le_trans with n; [|assumption]. apply Z.log2_lt_pow2; lia.
Qed.

Lemma maskPendingBasic_bit r i :
  0 <= getPendingBasic r < 2 ^ 64 -> 0 <= i ->
  Z.testbit (maskPendingBasic r (getPendingBasic r)) i = basicCandidate r i.
Proof.
  intros Hpe Hi. unfold basicCandidate, maskPendingBasic.
  destruct (truthy (getPendingBasic r)) eqn:Et.
  - cbv zeta.
    assert (Hhigh : (i <? 64) = false -> Z.testbit (getPendingBasic r) i = false).
    { intros H. apply Z.ltb_ge in H. apply (testbit_small _ 64); lia. }
    unfold effectiveIE, delegMode.
    generalize (getIE r (truthy (RD_CSR_FIELD r mstatus F.MIE)) RISCV_MODE_MACHINE
                  (useCLICM r)).
    generalize (getIE r (truthy (RD_CSR_FIELD r mstatus F.SIE)) RISCV_MODE_SUPERVISOR
                  (useCLICS r)).
    generalize (getIE r (truthy (RD_CSR_FIELD r mstatus F.UIE)) RISCV_MODE_USER
                  (useCLICU r)).
    revert Hhigh. generalize (getPendingBasic r). intros pe Hhigh UIE SIE MIE.
    destruct MIE, SIE, UIE; cbn [negb];
      rewrite ?Z.land_spec, ?testbit_wrap64, ?Z.lnot_spec, ?Z.land_spec,
        ?testbit_wrap64, ?Z.lnot_spec, ?Z.land_spec by lia;
      destruct (Z.testbit (RD_CSR r mideleg) i), (Z.testbit (RD_CSR r sideleg) i);
      cbn [negb andb orb];
      destruct (i <? 64);
      try (rewrite (Hhigh eq_refl));
      destruct (Z.testbit pe i); reflexivity.
  - apply truthy_false_iff in Et. rewrite Et. now rewrite Z.bits_0.
Qed.

(** [k] is at least as urgent as [j]: a higher target mode, or the same
    mode and a higher table priority, or both the same and a number that
    is not lower. *)
Definition basicLe (r : riscv) (j k : Z) : Prop :=
  getInterruptModeX r j < getInterruptModeX r k \/
  (getInterruptModeX r j = getInterruptModeX r k /\
   (getIntPri j < getIntPri k \/ (getIntPri j = getIntPri k /\ j <= k))).

(** State of the selection after the bits below [i] of [word]. *)
Definition BasicWinner (r : riscv) (word : Z) (sel0 : riscvPendEnab) (i : Z)
    (sel : riscvPendEnab) : Prop :=
  (sel = sel0 /\ forall j, 0 <= j < i -> Z.testbit word j = false) \/
  (0 <= pe_id sel < i /\ Z.testbit word (pe_id sel) = true /\
   sel = mkPendEnab (pe_id sel) (getInterruptModeX r (pe_id sel)) 0 false /\
   forall j, 0 <= j < i -> Z.testbit word j = true -> basicLe r j (pe_id sel)).

Lemma BasicWinner_step r word sel0 i sel :
  pe_id sel0 = RV_NO_INT -> 0 <= i ->
  BasicWinner r word sel0 i sel ->
  BasicWinner r word sel0 (i + 1)
    (if Z.testbit word i then tryBasic r i sel else sel).
Proof.
  intros H0 Hi Hw. destruct (Z.testbit word i) eqn:Eb.
  - assert (Hnew : BasicWinner r word sel0 (i + 1)
                     (mkPendEnab i (getInterruptModeX r i) 0 false) <->
                   (forall j, 0 <= j < i -> Z.testbit word j = true -> basicLe r j i)).
    { split.
      - intros [[Heq _]|(_ & _ & _ & Hall)].
        + rewrite <- Heq in H0. cbn in H0. unfold RV_NO_INT in H0. lia.
        + cbn [pe_id] in Hall. intros j Hj. apply Hall. lia.
      - intros Hall. right. cbn [pe_id]. repeat split; try lia; try assumption.
        intros j Hj Hb. destruct (Z.eq_dec j i) as [->|Hne].
        + right. split; [reflexivity|]. right. split; [reflexivity|lia].
        + apply Hall; [lia|assumption]. }
    unfold tryBasic. cbv zeta. cbn [pe_id pe_priv].
    destruct Hw as [[-> Hnone]|(Hid & Hbit & Hsel & Hall)].
    + rewrite H0, Z.eqb_refl. apply Hnew. intros j Hj Hb.
      rewrite Hnone in Hb by assumption. discriminate.
    + destruct (Z.eqb_spec (pe_id sel) RV_NO_INT) as [He|_];
        [unfold RV_NO_INT in He; lia|].
      assert (Hp : pe_priv sel = getInterruptModeX r (pe_id sel))
        by (rewrite Hsel at 1; reflexivity).
      assert (Hold : BasicWinner r word sel0 (i + 1) sel <->
                     basicLe r i (pe_id sel)).
      { split.
        - intros [[Heq _]|(_ & _ & _ & Hall')].
          + rewrite Heq in Hid. unfold RV_NO_INT in H0. lia.
          + apply Hall'; [lia|assumption].
        - intros Hle. right. repeat split; try lia; try assumption.
          intros j Hj Hb. destruct (Z.eq_dec j i) as [->|Hne];
            [assumption|apply Hall; [lia|assumption]]. }
      assert (Htrans : basicLe r (pe_id sel) i ->
                forall j, 0 <= j < i -> Z.testbit word j = true -> basicLe r j i).
      { intros Hle j Hj Hb. specialize (Hall j Hj Hb). revert Hle Hall.
        unfold basicLe. lia. }
      rewrite Hp.
      destruct (Z.ltb_spec (getInterruptModeX r (pe_id sel)) (getInterruptModeX r i)).
      { apply Hnew, Htrans. left. assumption. }
      destruct (Z.gtb_spec (getInterruptModeX r (pe_id sel)) (getInterruptModeX r i)).
      { apply Hold. left. lia. }
      destruct (Z.leb_spec (getIntPri (pe_id sel)) (getIntPri i)).
      { apply Hnew, Htrans. unfold basicLe. lia. }
      apply Hold. unfold basicLe. lia.
  - destruct Hw as [[-> Hnone]|(Hid & Hbit & Hsel & Hall)].
    + left. split; [reflexivity|]. intros j Hj.
      destruct (Z.eq_dec j i) as [->|]; [assumption|apply Hnone; lia].
    + right. repeat split; try lia; try assumption.
      intros j Hj Hb. destruct (Z.eq_dec j i) as [->|]; [congruence|].
      apply Hall; [lia|assumption].
Qed.

Lemma tryBasic_ext r1 r2 i sel :
  csr r1 = csr r2 -> mode r1 = mode r2 -> tryBasic r1 i sel = tryBasic r2 i sel.
Proof.
  intros H1 H2.
  unfold tryBasic, getInterruptModeX, getModeX, getCurrentMode, RD_CSR.
  now rewrite H1, H2.
Qed.

Lemma selectBasic_ext r1 r2 :
  csr r1 = csr r2 -> mode r1 = mode r2 ->
  forall fuel pe i sel, selectBasic fuel r1 pe i sel = selectBasic fuel r2 pe i sel.
Proof.
  intros H1 H2. induction fuel as [|fuel IH]; intros pe i sel; [reflexivity|].
  cbn [selectBasic]. rewrite (tryBasic_ext r1 r2) by assumption.
  destruct (truthy (Z.shiftr pe 1)); [apply IH|reflexivity].
Qed.

Lemma pendEnab_refreshBasic r :
  pendEnab (refreshPendingAndEnabledBasic r) =
  let pe := maskPendingBasic r (getPendingBasic r) in
  if truthy pe then selectBasic 64 r pe 0 (pendEnab r) else pendEnab r.
Proof.
  unfold refreshPendingAndEnabledBasic. cbv zeta.
  generalize (maskPendingBasic r (getPendingBasic r)). intros pe.
  destruct (debugExcept (configInfo r)); [|now destruct (truthy pe)].
  destruct (negb _); [|now destruct (truthy pe)].
  destruct (truthy pe); [|reflexivity].
  match goal with
  | |- pendEnab (set_pendEnab (selectBasic _ ?r1 _ _ ?s) _) = _ =>
      rewrite (selectBasic_ext r1 r) by reflexivity
  end.
  reflexivity.
Qed.

Lemma maskPendingBasic_range r :
  0 <= getPendingBasic r < 2 ^ 64 ->
  0 <= maskPendingBasic r (getPendingBasic r) < 2 ^ 64.
Proof.
  intros Hpe.
  assert (Hsub : forall x, 0 <= x < 2 ^ 64 -> forall m, 0 <= Z.land x (wrap64 m) < 2 ^ 64).
  { intros x Hx m. split; [apply Z.land_nonneg; lia|].
    assert (Hm : 0 <= wrap64 m)
      by (unfold wrap64; apply Z.land_nonneg; right; vm_compute; discriminate).
    pose proof (proj2 (Z.land_nonneg x (wrap64 m)) (or_introl (proj1 Hx))) as Hl.
    destruct (Z.eq_dec (Z.land x (wrap64 m)) 0) as [->|Hne]; [lia|].
    apply Z.log2_lt_pow2; [lia|].
    pose proof (Z.log2_land x (wrap64 m) ltac:(lia) Hm) as Hlog.
    assert (Z.log2 x < 64); [|lia].
    destruct (Z.eq_dec x 0) as [->|]; [simpl; lia|apply Z.log2_lt_pow2; lia]. }
  unfold maskPendingBasic. destruct (truthy _); [|assumption]. cbv zeta.
  repeat match goal with
         | |- context [if ?b then _ else _] => destruct b
         end; auto.
Qed.

(** A candidate's target mode is not below the current mode, so the mode
    of the trap is the delegated mode. *)
Lemma truthy_land_bit x i : 0 <= i -> truthy (Z.land x (Z.shiftl 1 i)) = Z.testbit x i.
Proof.
  intros Hi.
  assert (H : Z.land x (Z.shiftl 1 i) = Z.shiftl (Z.b2z (Z.testbit x i)) i).
  { apply Z.bits_inj'. intros n Hn. rewrite Z.land_spec.
    destruct (Z.lt_ge_cases n i) as [Hlt|Hge].
    - rewrite !Z.shiftl_spec_low by assumption. apply andb_false_r.
    - rewrite !Z.shiftl_spec by assumption.
      destruct (Z.eq_dec n i) as [->|Hne].
      + rewrite Z.sub_diag, Z.b2z_bit0. now destruct (Z.testbit x i).
      + assert (Hz : forall b, Z.testbit (Z.b2z b) (n - i) = false).
        { intros [|]; [|apply Z.bits_0]. apply Z.bits_above_log2; simpl; lia. }
        rewrite (Hz true : Z.testbit 1 (n - i) = false), Hz. apply andb_false_r. }
  rewrite H, Z.shiftl_mul_pow2 by assumption.
  pose proof (Z.pow_pos_nonneg 2 i ltac:(lia) Hi) as Hpos.
  unfold truthy. destruct (Z.testbit x i); cbn [Z.b2z].
  - destruct (Z.eqb_spec (1 * 2 ^ i) 0); [lia|reflexivity].
  - reflexivity.
Qed.

Definition useCLICOf (r : riscv) (X : Z) : bool :=
  if X =? RISCV_MODE_MACHINE then useCLICM r
  else if X =? RISCV_MODE_SUPERVISOR then useCLICS r
  else useCLICU r.

Lemma delegMode_cases r i :
  delegMode r i = RISCV_MODE_MACHINE \/ delegMode r i = RISCV_MODE_SUPERVISOR \/
  delegMode r i = RISCV_MODE_USER.
Proof.
  unfold delegMode. destruct (negb _); [now left|].
  destruct (negb _); [now right; left|now right; right].
Qed.

(** The enable the arbiter applies is the enable of the specification,
    except that a mode whose interrupts are taken by the CLIC has none. *)
Lemma effectiveIE_spec r X :
  X = RISCV_MODE_MACHINE \/ X = RISCV_MODE_SUPERVISOR \/ X = RISCV_MODE_USER ->
  effectiveIE r X = if useCLICOf r X then false else specEffectiveIE r X.
Proof.
  intros [-> | [-> | ->]]; unfold effectiveIE, useCLICOf, specEffectiveIE, getIE;
    cbn [Z.eqb Pos.eqb RISCV_MODE_MACHINE RISCV_MODE_SUPERVISOR RISCV_MODE_USER];
    cbv zeta; reflexivity.
Qed.

Lemma effectiveIE_mode r X :
  X = RISCV_MODE_MACHINE \/ X = RISCV_MODE_SUPERVISOR \/ X = RISCV_MODE_USER ->
  effectiveIE r X = true -> getCurrentMode r <= X.
Proof.
  intros HX. rewrite (effectiveIE_spec r X HX). unfold specEffectiveIE. cbv zeta.
  destruct (useCLICOf r X); [discriminate|].
  destruct (Z.ltb_spec (getCurrentMode r) X); [lia|].
  destruct (Z.gtb_spec (getCurrentMode r) X); [discriminate|lia].
Qed.

Lemma getInterruptModeX_candidate r i :
  0 <= i < 32 -> effectiveIE r (delegMode r i) = true ->
  getInterruptModeX r i = delegMode r i.
Proof.
  intros Hi He. apply effectiveIE_mode in He; [|apply delegMode_cases].
  unfold getInterruptModeX, getModeX. cbv zeta.
  rewrite !truthy_land_bit, !testbit_wrap32 by lia.
  replace (i <? 32) with true by (symmetry; apply Z.ltb_lt; lia).
  rewrite !andb_true_r. fold (delegMode r i).
  destruct (Z.gtb_spec (delegMode r i) (getCurrentMode r)); lia.
Qed.

(** Table priorities in the order of the specification; an interrupt
    outside the standard nine has priority zero. *)
Lemma getIntPri_order :
  getIntPri 11 > getIntPri 3 /\ getIntPri 3 > getIntPri 7 /\
  getIntPri 7 > getIntPri 9 /\ getIntPri 9 > getIntPri 1 /\
  getIntPri 1 > getIntPri 5 /\ getIntPri 5 > getIntPri 8 /\
  getIntPri 8 > getIntPri 0 /\ getIntPri 0 > getIntPri 4 /\
  getIntPri 4 > 0 /\ forall i, 16 <= i -> getIntPri i = 0.
Proof.
  repeat (split; [reflexivity|]). intros i Hi. unfold getIntPri, INT_INDEX_Last.
  destruct (Z.geb_spec i 16); [reflexivity|lia].
Qed.

(** A hart in Machine mode with MIE set and the Machine external and timer
    and the (delegated) Supervisor external interrupts pending and
    enabled; and the same hart with mtvec selecting the CLIC. *)
Definition hartBasic : riscv :=
  let pending := Z.lor (Z.shiftl 1 11) (Z.lor (Z.shiftl 1 9) (Z.shiftl 1 7)) in
  WR_CSR mip pending
    (WR_CSR mie pending
       (WR_CSR mideleg (Z.shiftl 1 9) (WR_CSR mstatus (Z.shiftl 1 3) hart0))).

Definition hartBasicCLIC : riscv := WR_CSR mtvec riscv_int_CLIC hartBasic.

(** The specification's effective enable of Machine mode is 1 and the
    Machine external interrupt is pending and enabled in mie, yet the
    arbiter selects nothing: Machine mode takes its interrupts from the
    CLIC. *)
Lemma basic_arbitration_counterexample :
  getCurrentMode hartBasicCLIC = RISCV_MODE_MACHINE /\
  Z.testbit (getPendingBasic hartBasicCLIC) 11 = true /\
  delegMode hartBasicCLIC 11 = RISCV_MODE_MACHINE /\
  specEffectiveIE hartBasicCLIC RISCV_MODE_MACHINE = true /\
  pe_id (pendEnab hartBasicCLIC) = RV_NO_INT /\
  pe_id (pendEnab (refreshPendingAndEnabledBasic hartBasicCLIC)) = RV_NO_INT /\
  pe_id (pendEnab (refreshPendingAndEnabledBasic hartBasic)) = 11.
Proof. repeat (split; [vm_compute; reflexivity|]). vm_compute; reflexivity. Qed.

(** C5, amended: for pending basic interrupts [mip & mie] with numbers
    below 32 and a fresh selection, each interrupt is masked by the
    effective enable of its target mode - the mode given by mideleg and
    sideleg; the enable is zero when that mode takes its interrupts from
    the CLIC, and otherwise the raw mstatus bit raised to 1 when the
    current mode is strictly below the mode and zeroed when strictly
    above.  If an interrupt survives, the arbiter selects as [pendEnab] a
    surviving interrupt of the highest target mode, the highest table
    priority within that mode (MEI > MSI > MTI > SEI > SSI > STI > UEI >
    USI > UTI > every other interrupt) and the highest number within equal
    priority; if none survives, [pendEnab] is unchanged. *)
Theorem basic_arbitration r :
  0 <= getPendingBasic r < 2 ^ 32 ->
  pe_id (pendEnab r) = RV_NO_INT ->
  let sel := pendEnab (refreshPendingAndEnabledBasic r) in
  (forall j, effectiveIE r (delegMode r j) =
             if useCLICOf r (delegMode r j) then false
             else specEffectiveIE r (delegMode r j)) /\
  ((exists j, 0 <= j /\ basicCandidate r j = true) ->
   0 <= pe_id sel < 32 /\ basicCandidate r (pe_id sel) = true /\
   pe_priv sel = delegMode r (pe_id sel) /\ pe_isCLIC sel = false /\
   forall j, 0 <= j -> basicCandidate r j = true ->
     delegMode r j < delegMode r (pe_id sel) \/
     (delegMode r j = delegMode r (pe_id sel) /\
      (getIntPri j < getIntPri (pe_id sel) \/
       (getIntPri j = getIntPri (pe_id sel) /\ j <= pe_id sel)))) /\
  ((forall j, 0 <= j -> basicCandidate r j = false) -> sel = pendEnab r) /\
  (getIntPri 11 > getIntPri 3 /\ getIntPri 3 > getIntPri 7 /\
   getIntPri 7 > getIntPri 9 /\ getIntPri 9 > getIntPri 1 /\
   getIntPri 1 > getIntPri 5 /\ getIntPri 5 > getIntPri 8 /\
   getIntPri 8 > getIntPri 0 /\ getIntPri 0 > getIntPri 4 /\
   getIntPri 4 > 0 /\ forall i, 16 <= i -> getIntPri i = 0).
Proof.
  intros Hpe Hfresh. cbv zeta.
  assert (Hpe64 : 0 <= getPendingBasic r < 2 ^ 64) by lia.
  assert (Hlow : forall j, 0 <= j -> basicCandidate r j = true -> j < 32).
  { intros j Hj Hc. destruct (Z.lt_ge_cases j 32) as [|Hge]; [assumption|].
    unfold basicCandidate in Hc. rewrite (testbit_small _ 32) in Hc by lia.
    discriminate. }
  assert (Hpriv : forall j, 0 <= j -> basicCandidate r j = true ->
                    getInterruptModeX r j = delegMode r j).
  { intros j Hj Hc. apply getInterruptModeX_candidate.
    - split; [assumption|apply Hlow; assumption].
    - unfold basicCandidate in Hc. now apply andb_prop in Hc. }
  pose proof (maskPendingBasic_range r Hpe64) as Hw.
  pose proof (fun i => maskPendingBasic_bit r i Hpe64) as Hbit.
  rewrite pendEnab_refreshBasic. cbv zeta.
  revert Hw Hbit. generalize (maskPendingBasic r (getPendingBasic r)). intros w Hw Hbit.
  rewrite selectBasic_bitLoop.
  pose proof (bitLoop_inv _ (tryBasic r) (BasicWinner r w (pendEnab r)) w Hw
                (fun i acc Hi => BasicWinner_step r w (pendEnab r) i acc Hfresh (proj1 Hi))
                (pendEnab r)) as Hfin.
  specialize (Hfin ltac:(left; split; [reflexivity|intros j Hj; lia])).
  revert Hfin.
  generalize (if truthy w then bitLoop (tryBasic r) 64 w 0 (pendEnab r) else pendEnab r).
  intros sel Hfin.
  split; [intros j; apply effectiveIE_spec, delegMode_cases|].
  split; [|split; [|exact getIntPri_order]].
  - intros (j & Hj & Hc).
    destruct Hfin as [[_ Hnone]|(Hid & Hb & Hsel & Hall)].
    + specialize (Hlow j Hj Hc). rewrite <- Hbit, Hnone in Hc by lia. discriminate.
    + rewrite Hbit in Hb by lia.
      pose proof (Hlow _ (proj1 Hid) Hb) as Hid32.
      split; [lia|]. split; [assumption|].
      split; [rewrite Hsel at 1; cbn [pe_priv]; apply Hpriv; [lia|assumption]|].
      split; [rewrite Hsel; reflexivity|].
      intros k Hk Hck. pose proof (Hlow k Hk Hck) as Hk32.
      specialize (Hall k ltac:(lia)). rewrite Hbit in Hall by lia.
      specialize (Hall Hck). unfold basicLe in Hall.
      rewrite (Hpriv k Hk Hck), (Hpriv _ (proj1 Hid) Hb) in Hall. exact Hall.
  - intros Hnone. destruct Hfin as [[Heq _]|(Hid & Hb & _)]; [assumption|].
    rewrite Hbit, Hnone in Hb by lia. discriminate.
Qed.

Lemma basic_arbitration_witness :
  (exists j, 0 <= j /\ basicCandidate hartBasic j = true) /\
  pe_priv (pendEnab (refreshPendingAndEnabledBasic hartBasic))
  = delegMode hartBasic (pe_id (pendEnab (refreshPendingAndEnabledBasic hartBasic))).
Proof.
  assert (H1 : 0 <= getPendingBasic hartBasic < 2 ^ 32)
    by (vm_compute; split; [discriminate|reflexivity]).
  assert (H2 : pe_id (pendEnab hartBasic) = RV_NO_INT) by (vm_compute; reflexivity).
  assert (Hex : exists j, 0 <= j /\ basicCandidate hartBasic j = true)
    by (exists 7; split; [lia|vm_compute; reflexivity]).
  split; [exact Hex|].
  exact (proj1 (proj2 (proj2 (proj1 (proj2 (basic_arbitration hartBasic H1 H2)) Hex)))).
Defined.

(** ** Save and restore of the CLIC state *)

Lemma testbit_shiftl_1 m b : 0 <= m -> 0 <= b -> Z.testbit (Z.shiftl 1 m) b = (b =? m).
Proof.
  intros Hm Hb. rewrite Z.shiftl_spec by assumption.
  destruct (Z.eqb_spec b m) as [->|Hne].
  - now rewrite Z.sub_diag.
  - destruct (Z.lt_ge_cases b m).
    + apply Z.testbit_neg_r. lia.
    + apply Z.bits_above_log2; simpl; lia.
Qed.

Lemma getAt_overflow (A : Type) (d : A) l i :
  (length l <= Z.to_nat i)%nat -> getAt d l i = d.
Proof. intros H. unfold getAt. now apply nth_overflow. Qed.

Lemma length_setAt (A : Type) (l : list A) i v : length (setAt l i v) = length l.
Proof. apply length_updNat. Qed.

(** Setting one bit of one word of a mask. *)
Lemma orBit_spec l k0 m k b :
  0 <= k0 -> 0 <= m -> 0 <= k -> 0 <= b ->
  Z.testbit (getAt 0 (setAt l k0 (Z.lor (getAt 0 l k0) (Z.shiftl 1 m))) k) b
  = Z.testbit (getAt 0 l k) b ||
    ((Z.to_nat k <? length l)%nat && (k =? k0) && (b =? m)).
Proof.
  intros Hk0 Hm Hk Hb. destruct (Z.eqb_spec k k0) as [->|Hne].
  - destruct (Nat.ltb_spec (Z.to_nat k0) (length l)) as [Hlt|Hge].
    + rewrite getAt_setAt_same by assumption.
      now rewrite Z.lor_spec, testbit_shiftl_1 by assumption.
    + rewrite !getAt_overflow by (rewrite ?length_setAt; assumption).
      now rewrite Z.bits_0.
  - rewrite getAt_setAt_other by (try assumption; congruence).
    now rewrite andb_false_r, orb_false_r.
Qed.

Lemma list_getAt_ext l1 l2 :
  length l1 = length l2 ->
  (forall k, 0 <= k -> getAt 0 l1 k = getAt 0 l2 k) -> l1 = l2.
Proof.
  intros Hlen H. apply (nth_ext l1 l2 0 0 Hlen). intros n _.
  specialize (H (Z.of_nat n) ltac:(lia)). unfold getAt in H.
  now rewrite Nat2Z.id in H.
Qed.

(** [eraseIPE] forgets the pending-and-enabled mask. *)
Definition eraseIPE (r : riscv) : riscv := set_clic_ipe [] r.

Lemma eraseIPE_proj (A : Type) (p : riscv -> A) r r' :
  (forall x, p (eraseIPE x) = p x) -> eraseIPE r' = eraseIPE r -> p r' = p r.
Proof. intros Hp H. rewrite <- (Hp r'), <- (Hp r). now rewrite H. Qed.

Ltac keep_ipe H :=
  match goal with
  | |- ?p ?r' = ?p ?r => apply (eraseIPE_proj _ p r r' (fun _ => eq_refl) H)
  end.

Lemma clearIPE_spec hart :
  eraseIPE (clearIPE hart) = eraseIPE hart /\
  length (clic_ipe (clearIPE hart)) = length (clic_ipe hart) /\
  forall k, 0 <= k < ipDWords hart -> getAt 0 (clic_ipe (clearIPE hart)) k = 0.
Proof.
  unfold clearIPE.
  pose proof (fold_left_seq_inv riscv
    (fun h i => set_clic_ipe (setAt (clic_ipe h) (Z.of_nat i) 0) h)
    (fun n a => eraseIPE a = eraseIPE hart /\
                length (clic_ipe a) = length (clic_ipe hart) /\
                forall k, 0 <= k < Z.of_nat n -> getAt 0 (clic_ipe a) k = 0)
    (Z.to_nat (ipDWords hart)) 0%nat hart) as H.
  cbv beta in H. destruct H as (H1 & H2 & H3).
  - split; [reflexivity|]. split; [reflexivity|]. intros k Hk. lia.
  - intros n b _ (Hb1 & Hb2 & Hb3). split; [exact Hb1|].
    split; [cbn [clic_ipe set_clic_ipe]; now rewrite length_setAt|].
    intros k Hk. cbn [clic_ipe set_clic_ipe].
    destruct (Z.eq_dec k (Z.of_nat n)) as [->|Hne].
    + destruct (Nat.ltb_spec (Z.to_nat (Z.of_nat n)) (length (clic_ipe b))).
      * now apply getAt_setAt_same.
      * apply getAt_overflow. now rewrite length_setAt.
    + rewrite getAt_setAt_other by lia. apply Hb3. lia.
  - split; [exact H1|]. split; [exact H2|]. intros k Hk. apply H3. lia.
Qed.

(** Interrupt [i] is both pending and enabled in the per-interrupt state. *)
Definition pendingAndEnabledCLIC (hart : riscv) (i : Z) : bool :=
  getCLICInterruptPending hart i && getCLICInterruptEnable hart i.

Lemma pendingAndEnabledCLIC_ext h1 h2 i :
  clic_intState h1 = clic_intState h2 ->
  pendingAndEnabledCLIC h1 i = pendingAndEnabledCLIC h2 i.
Proof.
  intros H. unfold pendingAndEnabledCLIC, getCLICInterruptPending,
    getCLICInterruptEnable, getCLICInterruptField. now rewrite H.
Qed.

Lemma reinstateIPE_spec i hart :
  0 <= i ->
  eraseIPE (reinstateIPE i hart) = eraseIPE hart /\
  length (clic_ipe (reinstateIPE i hart)) = length (clic_ipe hart) /\
  forall k b, 0 <= k -> 0 <= b ->
    Z.testbit (getAt 0 (clic_ipe (reinstateIPE i hart)) k) b
    = Z.testbit (getAt 0 (clic_ipe hart) k) b ||
      ((Z.to_nat k <? length (clic_ipe hart))%nat && (k =? i / 64) &&
       (b =? i mod 64) && pendingAndEnabledCLIC hart i).
Proof.
  intros Hi. unfold reinstateIPE. fold (pendingAndEnabledCLIC hart i).
  destruct (pendingAndEnabledCLIC hart i); cbv zeta.
  - split; [reflexivity|]. cbn [clic_ipe set_clic_ipe].
    split; [apply length_setAt|]. intros k b Hk Hb.
    rewrite orBit_spec; try assumption.
    + now rewrite andb_true_r.
    + apply Z.div_pos; lia.
    + apply Z.mod_pos_bound. lia.
  - split; [reflexivity|]. split; [reflexivity|]. intros k b _ _.
    now rewrite andb_false_r, orb_false_r.
Qed.

(** The mask that [refreshCLICIPE] leaves: bit [b] of word [k] is set
    exactly when interrupt [64*k + b] exists and is pending and enabled. *)
Lemma refreshCLICIPE_spec hart :
  length (clic_ipe hart) = Z.to_nat (ipDWords hart) ->
  eraseIPE (refreshCLICIPE hart) = eraseIPE hart /\
  length (clic_ipe (refreshCLICIPE hart)) = length (clic_ipe hart) /\
  forall k b, 0 <= k -> 0 <= b ->
    Z.testbit (getAt 0 (clic_ipe (refreshCLICIPE hart)) k) b
    = (k <? ipDWords hart) && (b <? 64) && (64 * k + b <? getIntNum hart) &&
      pendingAndEnabledCLIC hart (64 * k + b).
Proof.
  intros Hlen. unfold refreshCLICIPE. cbv zeta.
  destruct (clearIPE_spec hart) as (Hc1 & Hc2 & Hc3).
  assert (Hzero : forall k, 0 <= k -> getAt 0 (clic_ipe (clearIPE hart)) k = 0).
  { intros k Hk. destruct (Z.lt_ge_cases k (ipDWords hart)); [apply Hc3; lia|].
    apply getAt_overflow. rewrite Hc2, Hlen. lia. }
  revert Hc1 Hc2 Hzero. generalize (clearIPE hart). intros h1 Hc1 Hc2 Hzero.
  pose proof (fold_left_seq_inv riscv
    (fun h i => reinstateIPE (Z.of_nat i) h)
    (fun n a => eraseIPE a = eraseIPE hart /\
                length (clic_ipe a) = length (clic_ipe hart) /\
                forall k b, 0 <= k -> 0 <= b ->
                  Z.testbit (getAt 0 (clic_ipe a) k) b
                  = (k <? ipDWords hart) && (b <? 64) && (64 * k + b <? Z.of_nat n) &&
                    pendingAndEnabledCLIC hart (64 * k + b))
    (Z.to_nat (getIntNum hart)) 0%nat h1) as H.
  cbv beta in H. destruct H as (H1 & H2 & H3).
  - split; [exact Hc1|]. split; [exact Hc2|]. intros k b Hk Hb.
    rewrite Hzero, Z.bits_0 by assumption.
    replace (64 * k + b <? Z.of_nat 0) with false
      by (symmetry; apply Z.ltb_ge; change (Z.of_nat 0) with 0; lia).
    now rewrite andb_false_r.
  - intros n a _ (Ha1 & Ha2 & Ha3).
    destruct (reinstateIPE_spec (Z.of_nat n) a ltac:(lia)) as (Hr1 & Hr2 & Hr3).
    split; [now rewrite Hr1|]. split; [now rewrite Hr2|].
    intros k b Hk Hb. rewrite Hr3, Ha3 by assumption.
    rewrite (pendingAndEnabledCLIC_ext a hart) by keep_ipe Ha1.
    rewrite Ha2, Hlen.
    pose proof (Z.div_mod (Z.of_nat n) 64 ltac:(lia)) as Hdm.
    pose proof (Z.mod_pos_bound (Z.of_nat n) 64 ltac:(lia)) as Hm.
    revert Hdm Hm. generalize (Z.of_nat n / 64) (Z.of_nat n mod 64). intros q m Hdm Hm.
    assert (Hnat : (Z.to_nat k <? Z.to_nat (ipDWords hart))%nat = (k <? ipDWords hart)).
    { destruct (Nat.ltb_spec (Z.to_nat k) (Z.to_nat (ipDWords hart)));
        destruct (Z.ltb_spec k (ipDWords hart)); try reflexivity; lia. }
    rewrite Hnat. generalize (k <? ipDWords hart). intros inD.
    destruct (Z.eq_dec (64 * k + b) (Z.of_nat n)) as [E|E].
    + rewrite E. generalize (pendingAndEnabledCLIC hart (Z.of_nat n)). intros c.
      destruct (Z.eqb_spec k q); destruct (Z.eqb_spec b m);
        destruct (Z.ltb_spec b 64);
        destruct (Z.ltb_spec (Z.of_nat n) (Z.of_nat n));
        destruct (Z.ltb_spec (Z.of_nat n) (Z.of_nat (S n)));
        try lia; destruct inD, c; reflexivity.
    + generalize (pendingAndEnabledCLIC hart (Z.of_nat n)).
      generalize (pendingAndEnabledCLIC hart (64 * k + b)). intros c1 c2.
      destruct (Z.eqb_spec k q); destruct (Z.eqb_spec b m);
        destruct (Z.ltb_spec b 64);
        destruct (Z.ltb_spec (64 * k + b) (Z.of_nat n));
        destruct (Z.ltb_spec (64 * k + b) (Z.of_nat (S n)));
        try lia; destruct inD, c1, c2; reflexivity.
  - split; [exact H1|]. split; [exact H2|]. intros k b Hk Hb.
    rewrite H3 by assumption. cbn [Nat.add].
    destruct (Z.lt_ge_cases (getIntNum hart) 0) as [Hneg|Hpos].
    + replace (Z.to_nat (getIntNum hart)) with 0%nat by lia.
      destruct (Z.ltb_spec (64 * k + b) (Z.of_nat 0));
        destruct (Z.ltb_spec (64 * k + b) (getIntNum hart)); try lia; reflexivity.
    + now rewrite Z2Nat.id by assumption.
Qed.

Lemma ipeBit_refreshCLICIPE hart i :
  length (clic_ipe hart) = Z.to_nat (ipDWords hart) -> 0 <= i ->
  ipeBit (refreshCLICIPE hart) i
  = (i <? 64 * ipDWords hart) && (i <? getIntNum hart) && pendingAndEnabledCLIC hart i.
Proof.
  intros Hlen Hi. destruct (refreshCLICIPE_spec hart Hlen) as (_ & _ & Hbits).
  unfold ipeBit.
  pose proof (Z.div_mod i 64 ltac:(lia)) as Hdm.
  pose proof (Z.mod_pos_bound i 64 ltac:(lia)) as Hm.
  assert (Hq : 0 <= i / 64) by (apply Z.div_pos; lia).
  rewrite Hbits by lia. rewrite <- Hdm.
  destruct (Z.ltb_spec (i / 64) (ipDWords hart));
    destruct (Z.ltb_spec (i mod 64) 64);
    destruct (Z.ltb_spec i (64 * ipDWords hart)); try lia; reflexivity.
Qed.

(** The mask is a function of the per-interrupt state alone. *)
Lemma refreshCLICIPE_same h1 h2 :
  length (clic_ipe h1) = Z.to_nat (ipDWords h1) ->
  length (clic_ipe h2) = Z.to_nat (ipDWords h2) ->
  ipDWords h1 = ipDWords h2 -> getIntNum h1 = getIntNum h2 ->
  clic_intState h1 = clic_intState h2 ->
  clic_ipe (refreshCLICIPE h1) = clic_ipe (refreshCLICIPE h2).
Proof.
  intros L1 L2 HD HN HS.
  destruct (refreshCLICIPE_spec h1 L1) as (_ & Hl1 & Hb1).
  destruct (refreshCLICIPE_spec h2 L2) as (_ & Hl2 & Hb2).
  apply list_getAt_ext; [rewrite Hl1, Hl2, L1, L2, HD; reflexivity|].
  intros k Hk. apply Z.bits_inj'. intros b Hb.
  rewrite Hb1, Hb2 by assumption.
  now rewrite HD, HN, (pendingAndEnabledCLIC_ext h1 h2) by assumption.
Qed.

(** The hart after the fields of the save context have been read back,
    before the mask is refreshed. *)
Definition restoredFields (cxt : savedNet) (r : riscv) : riscv :=
  let r := set_ip (restoreArray (ipDWords r) (sv_ip cxt) (ip r)) r in
  let r := set_netValue (sv_netValue cxt) r in
  let r :=
    if basicICPresent r then
      match sv_intState cxt with
      | Some s => set_intState s r
      | None => r
      end
    else r in
  if CLICPresent r then
    let r := match sv_cliccfg cxt with
             | Some c => set_clic_cliccfg c r
             | None => r
             end in
    match sv_clic_intState cxt with
    | Some l => set_clic_intState (restoreArray (getIntNum r) l (clic_intState r)) r
    | None => r
    end
  else r.

Lemma riscvNetRestore_eq cxt r :
  riscvNetRestore cxt SRT_END_CORE r =
  riscvTestInterrupt
    (if CLICPresent r then refreshCLICIPE (restoredFields cxt r)
     else restoredFields cxt r).
Proof.
  unfold riscvNetRestore, restoredFields. cbv zeta.
  destruct (basicICPresent _); [destruct (sv_intState cxt)|];
    (change (CLICPresent ?x) with (CLICPresent r);
     destruct (CLICPresent r); reflexivity).
Qed.

Lemma restoredFields_frame cxt r :
  clic_ipe (restoredFields cxt r) = clic_ipe r /\
  ipDWords (restoredFields cxt r) = ipDWords r /\
  configInfo (restoredFields cxt r) = configInfo r.
Proof.
  unfold restoredFields. cbv zeta.
  destruct (basicICPresent _); [destruct (sv_intState cxt)|];
    (destruct (CLICPresent _);
     [destruct (sv_cliccfg cxt); destruct (sv_clic_intState cxt)|]);
    (split; [reflexivity|split; reflexivity]).
Qed.

Lemma restoredFields_intState cxt r l :
  CLICPresent r = true -> sv_clic_intState cxt = Some l ->
  clic_intState (restoredFields cxt r)
  = restoreArray (getIntNum r) l (clic_intState r).
Proof.
  intros HC Hl. unfold restoredFields. cbv zeta. rewrite Hl.
  destruct (basicICPresent _); [destruct (sv_intState cxt)|];
    (change (CLICPresent ?x) with (CLICPresent r); rewrite HC;
     destruct (sv_cliccfg cxt); reflexivity).
Qed.

(** Reading back [n] saved elements restores the first [n] elements. *)
Lemma getAt_restoreArray (A : Type) (d : A) n (src cur : list A) i :
  0 <= i < n -> (Z.to_nat n <= length src)%nat ->
  getAt d (restoreArray n (firstn (Z.to_nat n) src) cur) i = getAt d src i.
Proof.
  intros Hi Hlen. unfold getAt, restoreArray.
  rewrite firstn_firstn, Nat.min_id.
  rewrite app_nth1 by (rewrite length_firstn; lia).
  rewrite <- (firstn_skipn (Z.to_nat n) src) at 2.
  rewrite app_nth1 by (rewrite length_firstn; lia). reflexivity.
Qed.

(** C8: a hart restored from the context that [riscvNetSave] wrote holds
    the saved per-interrupt state; its [ipe] mask has bit [i] set exactly
    when interrupt [i] is pending and enabled in that state, and is
    identical to the mask a fresh [refreshCLICIPE] computes; the restore
    ends with [riscvTestInterrupt], run on the refreshed hart. *)
Theorem save_restore_ipe r0 r cxt :
  riscvNetSave r0 SRT_END_CORE = Some cxt ->
  CLICPresent r0 = true -> CLICPresent r = true ->
  getIntNum r0 = getIntNum r ->
  (Z.to_nat (getIntNum r0) <= length (clic_intState r0))%nat ->
  getIntNum r <= 64 * ipDWords r ->
  length (clic_ipe r) = Z.to_nat (ipDWords r) ->
  let r' := riscvNetRestore cxt SRT_END_CORE r in
  r' = riscvTestInterrupt (refreshCLICIPE (restoredFields cxt r)) /\
  (forall i, 0 <= i < getIntNum r ->
     getAt noIntState (clic_intState r') i = getAt noIntState (clic_intState r0) i) /\
  (forall i, 0 <= i < getIntNum r -> ipeBit r' i = pendingAndEnabledCLIC r0 i) /\
  (forall i, 0 <= i ->
     ipeBit r' i = (i <? getIntNum r) && pendingAndEnabledCLIC r' i) /\
  clic_ipe (refreshCLICIPE r') = clic_ipe r'.
Proof.
  intros Hsave HC0 HC HN Hst Hwords Hlen. cbv zeta.
  rewrite riscvNetRestore_eq, HC.
  destruct (restoredFields_frame cxt r) as (Fipe & FD & Fcfg).
  assert (Fst : clic_intState (restoredFields cxt r)
                = restoreArray (getIntNum r)
                    (firstn (Z.to_nat (getIntNum r)) (clic_intState r0))
                    (clic_intState r)).
  { apply restoredFields_intState; [assumption|].
    unfold riscvNetSave in Hsave. injection Hsave as <-. cbn [sv_clic_intState].
    now rewrite HC0, HN. }
  assert (FN : getIntNum (restoredFields cxt r) = getIntNum r)
    by (unfold getIntNum; now rewrite Fcfg).
  revert Fipe FD FN Fst. generalize (restoredFields cxt r). clear Fcfg.
  intros rs Fipe FD FN Fst.
  assert (Ls : length (clic_ipe rs) = Z.to_nat (ipDWords rs)) by now rewrite Fipe, FD.
  destruct (refreshCLICIPE_spec rs Ls) as (Me & Ml & _).
  pose proof (ipeBit_refreshCLICIPE rs) as Mbit.
  pose proof (fun h2 => refreshCLICIPE_same h2 rs) as Msame.
  assert (MD : ipDWords (refreshCLICIPE rs) = ipDWords rs) by keep_ipe Me.
  assert (MN : getIntNum (refreshCLICIPE rs) = getIntNum rs) by keep_ipe Me.
  assert (MS : clic_intState (refreshCLICIPE rs) = clic_intState rs) by keep_ipe Me.
  revert Ml Mbit Msame MD MN MS. clear Me. generalize (refreshCLICIPE rs).
  intros rm Ml Mbit Msame MD MN MS.
  pose proof (eraseArb_testInterrupt rm) as Te.
  assert (Tipe : clic_ipe (riscvTestInterrupt rm) = clic_ipe rm) by keep_arb Te.
  assert (TD : ipDWords (riscvTestInterrupt rm) = ipDWords rm) by keep_arb Te.
  assert (TN : getIntNum (riscvTestInterrupt rm) = getIntNum rm) by keep_arb Te.
  assert (TS : clic_intState (riscvTestInterrupt rm) = clic_intState rm) by keep_arb Te.
  revert Tipe TD TN TS. clear Te. generalize (riscvTestInterrupt rm).
  intros r' Tipe TD TN TS.
  assert (Hstate : forall i, 0 <= i < getIntNum r ->
            getAt noIntState (clic_intState r') i
            = getAt noIntState (clic_intState r0) i).
  { intros i Hi. rewrite TS, MS, Fst. apply getAt_restoreArray; [assumption|].
    now rewrite <- HN. }
  assert (Hpe : forall i, pendingAndEnabledCLIC r' i = pendingAndEnabledCLIC rs i).
  { intros i. apply pendingAndEnabledCLIC_ext. now rewrite TS, MS. }
  assert (Hbit : forall i, 0 <= i ->
            ipeBit r' i = (i <? getIntNum r) && pendingAndEnabledCLIC r' i).
  { intros i Hi. unfold ipeBit. rewrite Tipe. fold (ipeBit rm i).
    rewrite Mbit, Hpe, FD, FN by assumption.
    destruct (Z.ltb_spec i (64 * ipDWords r)); destruct (Z.ltb_spec i (getIntNum r));
      try lia; reflexivity. }
  split; [reflexivity|]. split; [exact Hstate|]. split; [|split; [exact Hbit|]].
  - intros i Hi. rewrite Hbit by lia.
    replace (i <? getIntNum r) with true by (symmetry; apply Z.ltb_lt; lia).
    cbn [andb]. unfold pendingAndEnabledCLIC, getCLICInterruptPending,
      getCLICInterruptEnable, getCLICInterruptField.
    now rewrite Hstate by assumption.
  - rewrite Tipe. apply Msame.
    + now rewrite Tipe, Ml, TD, MD.
    + exact Ls.
    + now rewrite TD, MD.
    + now rewrite TN, MN.
    + now rewrite TS, MS.
Qed.

(** A context saved from a hart with interrupts 20 and 40 pending and
    enabled, restored into the reference hart. *)
Definition savedArb : savedNet :=
  mkSavedNet (firstn (Z.to_nat (ipDWords hartArb)) (ip hartArb)) (netValue hartArb)
    (if basicICPresent hartArb then Some (intState hartArb) else None)
    (Some (clic_cliccfg hartArb))
    (Some (firstn (Z.to_nat (getIntNum hartArb)) (clic_intState hartArb))).

Lemma save_restore_ipe_witness :
  riscvNetSave hartArb SRT_END_CORE = Some savedArb /\
  ipeBit (riscvNetRestore savedArb SRT_END_CORE hart0) 20
  = pendingAndEnabledCLIC hartArb 20.
Proof.
  assert (H1 : riscvNetSave hartArb SRT_END_CORE = Some savedArb)
    by (vm_compute; reflexivity).
  assert (H2 : CLICPresent hartArb = true) by reflexivity.
  assert (H3 : CLICPresent hart0 = true) by reflexivity.
  assert (H4 : getIntNum hartArb = getIntNum hart0) by reflexivity.
  assert (H5 : (Z.to_nat (getIntNum hartArb) <= length (clic_intState hartArb))%nat)
    by (vm_compute; lia).
  assert (H6 : getIntNum hart0 <= 64 * ipDWords hart0) by (vm_compute; discriminate).
  assert (H7 : length (clic_ipe hart0) = Z.to_nat (ipDWords hart0)) by reflexivity.
  assert (H8 : 0 <= 20 < getIntNum hart0)
    by (vm_compute; split; [discriminate|reflexivity]).
  split; [exact H1|].
  exact (proj1 (proj2 (proj2 (save_restore_ipe hartArb hart0 savedArb
                                H1 H2 H3 H4 H5 H6 H7))) 20 H8).
Defined.

Example save_restore_example :
  clic_ipe (riscvNetRestore savedArb SRT_END_CORE hart0) = clic_ipe hartArb /\
  ipeBit (riscvNetRestore savedArb SRT_END_CORE hart0) 20 = true.
Proof. split; vm_compute; reflexivity. Qed.

(* ------------------------------------------------------------------ *)
(** * Further properties of the exception unit *)

(** ** Return from a trap *)

Lemma eraseArb_notifyERET mode r : eraseArb (notifyERETDerived mode r) = eraseArb r.
Proof. unfold notifyERETDerived. apply eraseArb_fold_emit. Qed.

(** The address at which an xRET resumes: without the C extension the
    two low bits of the saved address are dropped. *)
Definition xRETAddress (r : riscv) (epc : Z) : Z :=
  if negb (truthy (Z.land (currentArch r) ISA_C)) then Z.land epc (-4) else epc.

Lemma doERETCommon_spec retMode newMode epc r :
  let r' := doERETCommon retMode newMode epc r in
  mode r' = newMode /\ PC r' = xRETAddress r epc /\ csr r' = csr r /\
  exclusiveTag r' = exclusiveTag r /\ DM r' = DM r /\
  configInfo r' = configInfo r /\ baseInstructions r' = baseInstructions r.
Proof.
  unfold doERETCommon. cbv zeta.
  pose proof (eraseArb_testInterrupt
                (notifyERETDerived retMode (setPCxRET epc (riscvSetMode newMode r)))) as H.
  rewrite eraseArb_notifyERET in H. revert H.
  generalize (riscvTestInterrupt
                (notifyERETDerived retMode (setPCxRET epc (riscvSetMode newMode r)))).
  intros y H.
  split; [transitivity (mode (setPCxRET epc (riscvSetMode newMode r)));
          [keep_arb H|reflexivity]|].
  split; [transitivity (PC (setPCxRET epc (riscvSetMode newMode r)));
          [keep_arb H|reflexivity]|].
  split; [transitivity (csr (setPCxRET epc (riscvSetMode newMode r)));
          [keep_arb H|reflexivity]|].
  split; [transitivity (exclusiveTag (setPCxRET epc (riscvSetMode newMode r)));
          [keep_arb H|reflexivity]|].
  split; [transitivity (DM (setPCxRET epc (riscvSetMode newMode r)));
          [keep_arb H|reflexivity]|].
  split; [transitivity (configInfo (setPCxRET epc (riscvSetMode newMode r)));
          [keep_arb H|reflexivity]|].
  transitivity (baseInstructions (setPCxRET epc (riscvSetMode newMode r)));
    [keep_arb H|reflexivity].
Qed.

(** The hart on which [riscvMRET] performs the common return actions. *)
Definition mretRegs (r : riscv) : riscv :=
  let MPP := RD_CSR_FIELD r mstatus F.MPP in
  let minMode := riscvGetMinMode r in
  let newMode := getERETMode r MPP minMode in
  let r := clearEAxRET r in
  let r := if useCLICM r
           then WR_CSR_FIELD mintstatus F.mil (RD_CSR_FIELD r mcause F.pil) r
           else r in
  let r := WR_CSR_FIELD mstatus F.MIE (RD_CSR_FIELD r mstatus F.MPIE) r in
  let r := WR_CSR_FIELD mstatus F.MPIE 1 r in
  let r := WR_CSR_FIELD mstatus F.MPP minMode r in
  clearMPRV newMode r.

Lemma riscvMRET_eq r :
  inDebugMode r = false ->
  riscvMRET r =
  doERETCommon RISCV_MODE_MACHINE
    (getERETMode r (RD_CSR_FIELD r mstatus F.MPP) (riscvGetMinMode r))
    (RD_CSR (mretRegs r) mepc) (mretRegs r).
Proof.
  intros HDM. unfold riscvMRET, mretRegs. rewrite HDM. cbn [negb]. cbv zeta.
  reflexivity.
Qed.

(** Forgets the register file and the reservation. *)
Definition eraseRet (r : riscv) : riscv := set_exclusiveTag 0 (eraseCSR r).

Lemma eraseRet_proj (A : Type) (p : riscv -> A) r r' :
  (forall x, p (eraseRet x) = p x) -> eraseRet r' = eraseRet r -> p r' = p r.
Proof. intros Hp H. rewrite <- (Hp r'), <- (Hp r). now rewrite H. Qed.

Ltac keep_ret H :=
  match goal with
  | |- ?p ?r' = ?p ?r => apply (eraseRet_proj _ p r r' (fun _ => eq_refl) H)
  end.

Definition xRETMstatus (IE PIE PP : field) (clear : bool) (minMode ms : Z) : Z :=
  let ms := wrField PP (wrField PIE (wrField IE ms (rdField PIE ms)) 1) minMode in
  if clear then wrField F.MPRV ms 0 else ms.

Definition clearsMPRV (r : riscv) (newMode : Z) : bool :=
  (RISCV_PRIV_VERSION r >? RVPV_20190405) && negb (newMode =? RISCV_MODE_MACHINE).

Lemma mretRegs_spec r :
  let x := mretRegs r in
  let newMode := getERETMode r (RD_CSR_FIELD r mstatus F.MPP) (riscvGetMinMode r) in
  eraseRet x = eraseRet r /\
  exclusiveTag x =
    (if xret_preserves_lr (configInfo r) then exclusiveTag r else RISCV_NO_TAG) /\
  RD_CSR x mstatus =
    xRETMstatus F.MIE F.MPIE F.MPP (clearsMPRV r newMode) (riscvGetMinMode r)
      (RD_CSR r mstatus) /\
  RD_CSR x mintstatus =
    (if useCLICM r
     then wrField F.mil (RD_CSR r mintstatus) (RD_CSR_FIELD r mcause F.pil)
     else RD_CSR r mintstatus) /\
  (forall c, c <> mstatus -> c <> mintstatus -> RD_CSR x c = RD_CSR r c).
Proof.
  unfold mretRegs, clearMPRV, clearEAxRET, xRETMstatus, clearsMPRV. cbv zeta.
  generalize (getERETMode r (RD_CSR_FIELD r mstatus F.MPP) (riscvGetMinMode r)).
  generalize (riscvGetMinMode r). intros minMode newMode.
  unfold RISCV_PRIV_VERSION.
  destruct (xret_preserves_lr (configInfo r)); cbn [negb];
    change (useCLICM (clearEA r)) with (useCLICM r);
    destruct (useCLICM r); hart_simpl;
    destruct ((priv_version (configInfo r) >? RVPV_20190405) &&
              negb (newMode =? RISCV_MODE_MACHINE));
    (split; [reflexivity|]); (split; [reflexivity|]);
    hart_simpl; csr_eqb_eval;
    (split; [reflexivity|]); (split; [reflexivity|]);
    intros c H1 H2; rewrite ?CSR_eqb_neq by congruence; reflexivity.
Qed.

Lemma riscvGetMinMode_cases r :
  riscvGetMinMode r = RISCV_MODE_USER \/ riscvGetMinMode r = RISCV_MODE_SUPERVISOR \/
  riscvGetMinMode r = RISCV_MODE_MACHINE.
Proof.
  unfold riscvGetMinMode. destruct (riscvHasMode r RISCV_MODE_USER); [auto|].
  destruct (riscvHasMode r RISCV_MODE_SUPERVISOR); auto.
Qed.

Lemma xRETMstatus_M clear minMode ms :
  let ms' := xRETMstatus F.MIE F.MPIE F.MPP clear minMode ms in
  rdField F.MIE ms' = rdField F.MPIE ms /\
  rdField F.MPIE ms' = 1 /\
  rdField F.MPP ms' = Z.land minMode 3 /\
  rdField F.MPRV ms' = (if clear then 0 else rdField F.MPRV ms) /\
  (forall n, 0 <= n -> n <> 3 -> n <> 7 -> n <> 11 -> n <> 12 -> n <> 17 ->
     Z.testbit ms' n = Z.testbit ms n).
Proof.
  unfold xRETMstatus. cbv zeta.
  assert (Hpie : Z.land (rdField F.MPIE ms) (Z.ones 1) = rdField F.MPIE ms)
    by (apply rdField_land; simpl; lia).
  split; [|split; [|split; [|split]]].
  - destruct clear; rewrite ?rd_wr_other, rd_wr_same by (simpl; lia); exact Hpie.
  - destruct clear; rewrite ?rd_wr_other, rd_wr_same by (simpl; lia); reflexivity.
  - destruct clear; rewrite ?rd_wr_other, rd_wr_same by (simpl; lia); reflexivity.
  - destruct clear.
    + now rewrite rd_wr_same by (simpl; lia).
    + now rewrite !rd_wr_other by (simpl; lia).
  - intros n Hn H3 H7 H11 H12 H17. unfold wrField.
    destruct clear; rewrite !testbit_setField by (simpl; lia);
      unfold inField; cbn [f_lo f_width F.MIE F.MPIE F.MPP F.MPRV];
      repeat match goal with
             | |- context [?a <=? ?b] => destruct (Z.leb_spec a b)
             | |- context [?a <? ?b] => destruct (Z.ltb_spec a b)
             end; cbn [andb]; try reflexivity; lia.
Qed.

(** Outside Debug mode [riscvMRET] resumes at mepc in the mode held in
    mstatus.MPP - the lowest implemented mode when that mode is not
    implemented - with MIE restored from MPIE, MPIE set, MPP reset to the
    lowest implemented mode and, from privileged version 1.12, MPRV cleared
    when the new mode is not Machine.  In CLIC mode mintstatus.mil is
    restored from mcause.mpil.  The reservation is dropped unless the hart
    is configured to preserve it.  No other register and no other bit of
    mstatus changes. *)
Theorem mret_restores_state (r : riscv) :
  inDebugMode r = false ->
  let r' := riscvMRET r in
  let newMode := getERETMode r (RD_CSR_FIELD r mstatus F.MPP) (riscvGetMinMode r) in
  mode r' = newMode /\
  (riscvHasMode r (RD_CSR_FIELD r mstatus F.MPP) = true ->
   mode r' = RD_CSR_FIELD r mstatus F.MPP) /\
  PC r' = xRETAddress r (RD_CSR r mepc) /\
  RD_CSR_FIELD r' mstatus F.MIE = RD_CSR_FIELD r mstatus F.MPIE /\
  RD_CSR_FIELD r' mstatus F.MPIE = 1 /\
  RD_CSR_FIELD r' mstatus F.MPP = riscvGetMinMode r /\
  RD_CSR_FIELD r' mstatus F.MPRV =
    (if clearsMPRV r newMode then 0 else RD_CSR_FIELD r mstatus F.MPRV) /\
  (forall n, 0 <= n -> n <> 3 -> n <> 7 -> n <> 11 -> n <> 12 -> n <> 17 ->
     Z.testbit (RD_CSR r' mstatus) n = Z.testbit (RD_CSR r mstatus) n) /\
  RD_CSR r' mintstatus =
    (if useCLICM r
     then wrField F.mil (RD_CSR r mintstatus) (RD_CSR_FIELD r mcause F.pil)
     else RD_CSR r mintstatus) /\
  (forall c, c <> mstatus -> c <> mintstatus -> RD_CSR r' c = RD_CSR r c) /\
  exclusiveTag r' =
    (if xret_preserves_lr (configInfo r) then exclusiveTag r else RISCV_NO_TAG) /\
  inDebugMode r' = false.
Proof.
  intros HDM r' newMode. unfold r'. rewrite (riscvMRET_eq r HDM). fold newMode.
  destruct (mretRegs_spec r) as (Me & Mtag & Mms & Mint & Mother). fold newMode in Mms.
  assert (March : currentArch (mretRegs r) = currentArch r) by keep_ret Me.
  assert (MDM : DM (mretRegs r) = DM r) by keep_ret Me.
  revert Me Mtag Mms Mint Mother March MDM. generalize (mretRegs r).
  intros x Me Mtag Mms Mint Mother March MDM.
  destruct (doERETCommon_spec RISCV_MODE_MACHINE newMode (RD_CSR x mepc) x)
    as (Dm & Dpc & Dcsr & Dtag & DDM & _).
  revert Dm Dpc Dcsr Dtag DDM.
  generalize (doERETCommon RISCV_MODE_MACHINE newMode (RD_CSR x mepc) x).
  intros y Dm Dpc Dcsr Dtag DDM.
  destruct (xRETMstatus_M (clearsMPRV r newMode) (riscvGetMinMode r) (RD_CSR r mstatus))
    as (F1 & F2 & F3 & F4 & F5).
  unfold RD_CSR_FIELD, RD_CSR in *. rewrite Dcsr.
  split; [exact Dm|].
  split; [intros Hhas; rewrite Dm; unfold newMode, getERETMode;
          unfold RD_CSR_FIELD, RD_CSR; now rewrite Hhas|].
  split; [rewrite Dpc; unfold xRETAddress; rewrite March, Mother by discriminate;
          reflexivity|].
  rewrite Mms. split; [exact F1|]. split; [exact F2|].
  split.
  { rewrite F3. destruct (riscvGetMinMode_cases r) as [-> | [-> | ->]]; reflexivity. }
  split; [exact F4|]. split; [exact F5|].
  split; [exact Mint|]. split; [exact Mother|].
  split; [now rewrite Dtag|].
  unfold inDebugMode in *. now rewrite DDM, MDM.
Qed.

Lemma mret_restores_state_witness :
  inDebugMode hartSHVmem = false /\
  RD_CSR_FIELD (riscvMRET hartSHVmem) mstatus F.MIE
  = RD_CSR_FIELD hartSHVmem mstatus F.MPIE.
Proof.
  split; [reflexivity|].
  exact (proj1 (proj2 (proj2 (proj2 (mret_restores_state hartSHVmem eq_refl))))).
Defined.

Definition sretRegs (r : riscv) : riscv :=
  let SPP := RD_CSR_FIELD r mstatus F.SPP in
  let minMode := riscvGetMinMode r in
  let newMode := getERETMode r SPP minMode in
  let r := clearEAxRET r in
  let r := if useCLICS r
           then WR_CSR_FIELD mintstatus F.sil (RD_CSR_FIELD r scause F.pil) r
           else r in
  let r := WR_CSR_FIELD mstatus F.SIE (RD_CSR_FIELD r mstatus F.SPIE) r in
  let r := WR_CSR_FIELD mstatus F.SPIE 1 r in
  let r := WR_CSR_FIELD mstatus F.SPP minMode r in
  clearMPRV newMode r.

Lemma riscvSRET_eq r :
  inDebugMode r = false ->
  riscvSRET r =
  doERETCommon RISCV_MODE_SUPERVISOR
    (getERETMode r (RD_CSR_FIELD r mstatus F.SPP) (riscvGetMinMode r))
    (RD_CSR (sretRegs r) sepc) (sretRegs r).
Proof.
  intros HDM. unfold riscvSRET, sretRegs. rewrite HDM. cbn [negb]. cbv zeta.
  reflexivity.
Qed.

Lemma sretRegs_spec r :
  let x := sretRegs r in
  let newMode := getERETMode r (RD_CSR_FIELD r mstatus F.SPP) (riscvGetMinMode r) in
  eraseRet x = eraseRet r /\
  exclusiveTag x =
    (if xret_preserves_lr (configInfo r) then exclusiveTag r else RISCV_NO_TAG) /\
  RD_CSR x mstatus =
    xRETMstatus F.SIE F.SPIE F.SPP (clearsMPRV r newMode) (riscvGetMinMode r)
      (RD_CSR r mstatus) /\
  RD_CSR x mintstatus =
    (if useCLICS r
     then wrField F.sil (RD_CSR r mintstatus) (RD_CSR_FIELD r scause F.pil)
     else RD_CSR r mintstatus) /\
  (forall c, c <> mstatus -> c <> mintstatus -> RD_CSR x c = RD_CSR r c).
Proof.
  unfold sretRegs, clearMPRV, clearEAxRET, xRETMstatus, clearsMPRV. cbv zeta.
  generalize (getERETMode r (RD_CSR_FIELD r mstatus F.SPP) (riscvGetMinMode r)).
  generalize (riscvGetMinMode r). intros minMode newMode.
  unfold RISCV_PRIV_VERSION.
  destruct (xret_preserves_lr (configInfo r)); cbn [negb];
    change (useCLICS (clearEA r)) with (useCLICS r);
    destruct (useCLICS r); hart_simpl;
    destruct ((priv_version (configInfo r) >? RVPV_20190405) &&
              negb (newMode =? RISCV_MODE_MACHINE));
    (split; [reflexivity|]); (split; [reflexivity|]);
    hart_simpl; csr_eqb_eval;
    (split; [reflexivity|]); (split; [reflexivity|]);
    intros c H1 H2; rewrite ?CSR_eqb_neq by congruence; reflexivity.
Qed.

Lemma xRETMstatus_S clear minMode ms :
  let ms' := xRETMstatus F.SIE F.SPIE F.SPP clear minMode ms in
  rdField F.SIE ms' = rdField F.SPIE ms /\
  rdField F.SPIE ms' = 1 /\
  rdField F.SPP ms' = Z.land minMode 1 /\
  rdField F.MPRV ms' = (if clear then 0 else rdField F.MPRV ms) /\
  (forall n, 0 <= n -> n <> 1 -> n <> 5 -> n <> 8 -> n <> 17 ->
     Z.testbit ms' n = Z.testbit ms n).
Proof.
  unfold xRETMstatus. cbv zeta.
  assert (Hpie : Z.land (rdField F.SPIE ms) (Z.ones 1) = rdField F.SPIE ms)
    by (apply rdField_land; simpl; lia).
  split; [|split; [|split; [|split]]].
  - destruct clear; rewrite ?rd_wr_other, rd_wr_same by (simpl; lia); exact Hpie.
  - destruct clear; rewrite ?rd_wr_other, rd_wr_same by (simpl; lia); reflexivity.
  - destruct clear; rewrite ?rd_wr_other, rd_wr_same by (simpl; lia); reflexivity.
  - destruct clear.
    + now rewrite rd_wr_same by (simpl; lia).
    + now rewrite !rd_wr_other by (simpl; lia).
  - intros n Hn H1 H5 H8 H17. unfold wrField.
    destruct clear; rewrite !testbit_setField by (simpl; lia);
      unfold inField; cbn [f_lo f_width F.SIE F.SPIE F.SPP F.MPRV];
      repeat match goal with
             | |- context [?a <=? ?b] => destruct (Z.leb_spec a b)
             | |- context [?a <? ?b] => destruct (Z.ltb_spec a b)
             end; cbn [andb]; try reflexivity; lia.
Qed.

(** Outside Debug mode [riscvSRET] resumes at sepc in the mode held in the
    one-bit mstatus.SPP (User or Supervisor) - the lowest implemented mode
    when that mode is not implemented - with SIE restored from SPIE, SPIE
    set, SPP holding the low bit of the lowest implemented mode and, from
    privileged version 1.12, MPRV cleared when the new mode is not Machine.
    The return never enters Machine mode on a hart that implements
    Supervisor or User mode, and it leaves the Machine fields MIE, MPIE
    and MPP alone. *)
Theorem sret_restores_state (r : riscv) :
  inDebugMode r = false ->
  let r' := riscvSRET r in
  let newMode := getERETMode r (RD_CSR_FIELD r mstatus F.SPP) (riscvGetMinMode r) in
  mode r' = newMode /\
  (riscvGetMinMode r <> RISCV_MODE_MACHINE -> mode r' <= RISCV_MODE_SUPERVISOR) /\
  PC r' = xRETAddress r (RD_CSR r sepc) /\
  RD_CSR_FIELD r' mstatus F.SIE = RD_CSR_FIELD r mstatus F.SPIE /\
  RD_CSR_FIELD r' mstatus F.SPIE = 1 /\
  RD_CSR_FIELD r' mstatus F.SPP = Z.land (riscvGetMinMode r) 1 /\
  RD_CSR_FIELD r' mstatus F.MPRV =
    (if clearsMPRV r newMode then 0 else RD_CSR_FIELD r mstatus F.MPRV) /\
  (forall n, 0 <= n -> n <> 1 -> n <> 5 -> n <> 8 -> n <> 17 ->
     Z.testbit (RD_CSR r' mstatus) n = Z.testbit (RD_CSR r mstatus) n) /\
  (forall c, c <> mstatus -> c <> mintstatus -> RD_CSR r' c = RD_CSR r c) /\
  exclusiveTag r' =
    (if xret_preserves_lr (configInfo r) then exclusiveTag r else RISCV_NO_TAG).
Proof.
  intros HDM r' newMode. unfold r'. rewrite (riscvSRET_eq r HDM). fold newMode.
  destruct (sretRegs_spec r) as (Me & Mtag & Mms & Mint & Mother). fold newMode in Mms.
  assert (March : currentArch (sretRegs r) = currentArch r) by keep_ret Me.
  revert Me Mtag Mms Mint Mother March. generalize (sretRegs r).
  intros x Me Mtag Mms Mint Mother March.
  destruct (doERETCommon_spec RISCV_MODE_SUPERVISOR newMode (RD_CSR x sepc) x)
    as (Dm & Dpc & Dcsr & Dtag & _).
  revert Dm Dpc Dcsr Dtag.
  generalize (doERETCommon RISCV_MODE_SUPERVISOR newMode (RD_CSR x sepc) x).
  intros y Dm Dpc Dcsr Dtag.
  destruct (xRETMstatus_S (clearsMPRV r newMode) (riscvGetMinMode r) (RD_CSR r mstatus))
    as (F1 & F2 & F3 & F4 & F5).
  assert (Hspp : 0 <= RD_CSR_FIELD r mstatus F.SPP < 2)
    by (unfold RD_CSR_FIELD, rdField; apply (getField_range 8 1); lia).
  unfold RD_CSR_FIELD, RD_CSR in *. rewrite Dcsr.
  split; [exact Dm|].
  split.
  { intros Hmin. rewrite Dm. unfold newMode, getERETMode.
    destruct (riscvHasMode r _).
    - unfold RISCV_MODE_SUPERVISOR. unfold rdField in *.
      cbn [f_lo f_width F.SPP] in *. lia.
    - destruct (riscvGetMinMode_cases r) as [H | [H | H]]; [| |contradiction];
        rewrite H; unfold RISCV_MODE_USER, RISCV_MODE_SUPERVISOR; lia. }
  split; [rewrite Dpc; unfold xRETAddress; rewrite March, Mother by discriminate;
          reflexivity|].
  rewrite Mms. split; [exact F1|]. split; [exact F2|]. split; [exact F3|].
  split; [exact F4|]. split; [exact F5|]. split; [exact Mother|].
  now rewrite Dtag.
Qed.

Lemma sret_restores_state_witness :
  inDebugMode hart0 = false /\ mode (riscvSRET hart0) = RISCV_MODE_USER.
Proof.
  split; [reflexivity|].
  exact (proj1 (sret_restores_state hart0 eq_refl)).
Defined.

(** ** A trap followed by its return *)









(** ** Privilege after a trap *)

Lemma getModeX_ge r mMask sMask ecode : getCurrentMode r <= getModeX r mMask sMask ecode.
Proof.
  unfold getModeX. cbv zeta.
  match goal with |- context [?a >? ?b] => destruct (Z.gtb_spec a b) end; lia.
Qed.

Lemma trapModeX_ge e r :
  isInterrupt e = false \/ pe_isCLIC (pendEnab r) = false ->
  getCurrentMode r <= trapModeX e r.
Proof.
  intros H. unfold trapModeX, getExceptionModeX, getInterruptModeX.
  destruct (isInterrupt e); cbn [negb]; [|apply getModeX_ge].
  destruct H as [H | ->]; [discriminate|apply getModeX_ge].
Qed.

Lemma nested_exception_mode e t x :
  inDebugMode x = false -> isInterrupt e = false ->
  mode (riscvTakeExceptionN 1 e t x) = trapModeX e x.
Proof.
  intros HDM He. cbn [riscvTakeExceptionN].
  rewrite riscvTakeExceptionWith_sync by assumption.
  destruct (trapEntry_spec e t x) as (H1 & _).
  revert H1. generalize (trapEntry e t x). intros [[y base] m]. cbn [fst snd]. intros H1.
  destruct (enterHandler_spec (trapModeX e x) base y) as (_ & Hm & _).
  now rewrite Hm.
Qed.

(** A trap never lowers the privilege: after a synchronous exception or
    an interrupt of the basic controller, taken outside Debug mode, the
    hart is in a mode at least as privileged as before - also when the
    fetch of a CLIC vector raises an exception of its own. *)
Theorem trap_never_lowers_privilege (e tval : Z) (r : riscv) :
  inDebugMode r = false ->
  isInterrupt e = false \/ pe_isCLIC (pendEnab r) = false ->
  mode r <= mode (riscvTakeException e tval r) /\
  (exception (riscvTakeException e tval r) = e ->
   mode (riscvTakeException e tval r) = trapModeX e r).
Proof.
  intros HDM Hkind.
  pose proof (trapModeX_ge e r Hkind) as Hge. unfold getCurrentMode in Hge.
  destruct (trapEntry_spec e tval r) as (Hm3 & _).
  destruct (plainHandler e (sel_shv (clic_sel r)) (snd (fst (trapEntry e tval r)))
              (snd (trapEntry e tval r))) as [h|] eqn:Hp.
  - rewrite (riscvTakeException_plain e tval r h HDM Hp).
    destruct (enterHandler_spec (trapModeX e r) h (fst (fst (trapEntry e tval r))))
      as (_ & Hm & _).
    rewrite Hm, Hm3. split; [exact Hge|reflexivity].
  - destruct (shvBeforeRead_spec e tval r) as (_ & _ & _ & Hm5 & _).
    rewrite Hm3 in Hm5.
    destruct (shv_delivery e tval r HDM Hp)
      as [(Hq & _ & Heq) | (e' & x & He' & Hq & HDMx & Heq & Hex & Hne & _)].
    + destruct Hq as [Hq _]. revert Hq Heq Hm5.
      generalize (shvBeforeRead e tval r) (shvRead e tval r)
        (riscvTakeException e tval r).
      intros r5 rd r' Hq Heq Hm5.
      assert (Hm : mode r' = trapModeX e r).
      { rewrite Heq.
        match goal with
        | |- mode (enterHandler ?a ?b ?c) = _ =>
            destruct (enterHandler_spec a b c) as (_ & Hm & _); rewrite Hm
        end.
        transitivity (mode (snd rd)); [reflexivity|].
        rewrite <- Hm5. keep_read Hq. }
      rewrite Hm. split; [exact Hge|reflexivity].
    + split; [|intros Habs; congruence].
      rewrite Heq, nested_exception_mode
        by (try assumption; now apply sync_memory_exception).
      pose proof (trapModeX_ge e' x (or_introl (sync_memory_exception e' He'))) as Hge'.
      unfold getCurrentMode in Hge'.
      assert (Hmx : mode x = trapModeX e r).
      { rewrite <- Hm5. destruct Hq as [Hq _]. keep_read Hq. }
      lia.
Qed.

Lemma trap_never_lowers_privilege_witness :
  inDebugMode hartU = false /\
  mode hartU <= mode (riscvTakeException riscv_E_IllegalInstruction 0 hartU).
Proof.
  split; [reflexivity|].
  exact (proj1 (trap_never_lowers_privilege riscv_E_IllegalInstruction 0 hartU
                  eq_refl (or_introl eq_refl))).
Defined.

(** ** Entering and leaving Debug mode *)

(** The registers [enterDM] writes when the hart was not in Debug mode. *)
Definition enterDMRegs (cause : dmCause) (r : riscv) : riscv :=
  let r := setDM true r in
  let r := WR_CSR_FIELD dcsr F.prv (getCurrentMode r) r in
  let r := WR_CSR_FIELD dcsr F.cause (dmCauseCode cause) r in
  let r := WR_CSR dpc (getEPC r) r in
  let r := riscvSetMode RISCV_MODE_MACHINE r in
  riscvPostInhibit r.

(** Forgets what the last step of [enterDM] and of [leaveDM] may write
    besides the state of the arbitration: the PC and the stall flag. *)
Definition eraseStall (r : riscv) : riscv := set_DMStall false (set_PC 0 (eraseArb r)).

Lemma eraseStall_proj (A : Type) (p : riscv -> A) r r' :
  (forall x, p (eraseStall x) = p x) -> eraseStall r' = eraseStall r -> p r' = p r.
Proof. intros Hp H. rewrite <- (Hp r'), <- (Hp r). now rewrite H. Qed.

Ltac keep_stall H :=
  match goal with
  | |- ?p ?r' = ?p ?r => apply (eraseStall_proj _ p r r' (fun _ => eq_refl) H)
  end.

Lemma eraseStall_eraseArb r r' : eraseArb r' = eraseArb r -> eraseStall r' = eraseStall r.
Proof. unfold eraseStall. now intros ->. Qed.

Lemma updateDMStall_frame b r :
  eraseStall (updateDMStall b r) = eraseStall r /\ PC (updateDMStall b r) = PC r.
Proof.
  unfold updateDMStall. destruct (debug_mode (configInfo r)); try (split; reflexivity).
  destruct b.
  - pose proof (eraseArb_haltProcessor RVD_DEBUG (set_DMStall true r)) as H.
    revert H. generalize (haltProcessor RVD_DEBUG (set_DMStall true r)). intros y H.
    split.
    + transitivity (eraseStall (set_DMStall true r));
        [now apply eraseStall_eraseArb|reflexivity].
    + transitivity (PC (set_DMStall true r)); [keep_arb H|reflexivity].
  - pose proof (eraseArb_restartProcessor RVD_DEBUG (set_DMStall false r)) as H.
    revert H. generalize (restartProcessor RVD_DEBUG (set_DMStall false r)). intros y H.
    split.
    + transitivity (eraseStall (set_DMStall false r));
        [now apply eraseStall_eraseArb|reflexivity].
    + transitivity (PC (set_DMStall false r)); [keep_arb H|reflexivity].
Qed.

Lemma enterDM_frame cause r :
  inDebugMode r = false ->
  eraseStall (enterDM cause r) = eraseStall (enterDMRegs cause r) /\
  PC (enterDM cause r) =
    match debug_mode (configInfo r) with
    | RVDM_VECTOR => debug_address (configInfo r)
    | _ => PC r
    end.
Proof.
  intros HDM. unfold enterDM. rewrite HDM. cbn [negb]. cbv zeta.
  fold (enterDMRegs cause r).
  assert (Hcfg : configInfo (enterDMRegs cause r) = configInfo r) by reflexivity.
  assert (Hpc : PC (enterDMRegs cause r) = PC r) by reflexivity.
  revert Hcfg Hpc. generalize (enterDMRegs cause r). intros x Hcfg Hpc.
  rewrite Hcfg.
  destruct (debug_mode (configInfo r)) eqn:E.
  - destruct (updateDMStall_frame true x) as (H1 & H2). now rewrite H2.
  - split; [reflexivity|exact Hpc].
  - split; reflexivity.
  - destruct (updateDMStall_frame true x) as (H1 & H2). now rewrite H2.
Qed.

Lemma enterDMRegs_spec cause r :
  let x := enterDMRegs cause r in
  DM x = true /\ mode x = RISCV_MODE_MACHINE /\ currentArch x = currentArch r /\
  configInfo x = configInfo r /\
  RD_CSR x dpc = getEPC r /\
  RD_CSR x dcsr =
    wrField F.cause (wrField F.prv (RD_CSR r dcsr) (getCurrentMode r))
      (dmCauseCode cause) /\
  (forall c, c <> dcsr -> c <> dpc -> RD_CSR x c = RD_CSR r c).
Proof.
  unfold enterDMRegs. cbv zeta. hart_simpl. csr_eqb_eval.
  repeat (split; [reflexivity|]).
  intros c H1 H2. now rewrite !CSR_eqb_neq by congruence.
Qed.



(** The hart on which [leaveDM] performs the common return actions. *)
Definition leaveDMRegs (r : riscv) : riscv :=
  let newMode := RD_CSR_FIELD r dcsr F.prv in
  let r := setDM false r in
  clearMPRV newMode r.

Lemma leaveDM_eq r :
  leaveDM r =
  updateDMStall false
    (riscvPostInhibit
       (doERETCommon RISCV_MODE_MACHINE (RD_CSR_FIELD r dcsr F.prv)
          (RD_CSR (leaveDMRegs r) dpc) (leaveDMRegs r))).
Proof. reflexivity. Qed.

Lemma leaveDMRegs_spec r :
  let x := leaveDMRegs r in
  DM x = false /\ currentArch x = currentArch r /\ configInfo x = configInfo r /\
  RD_CSR x mstatus =
    (if clearsMPRV r (RD_CSR_FIELD r dcsr F.prv)
     then wrField F.MPRV (RD_CSR r mstatus) 0 else RD_CSR r mstatus) /\
  (forall c, c <> mstatus -> RD_CSR x c = RD_CSR r c).
Proof.
  unfold leaveDMRegs, clearMPRV, clearsMPRV. cbv zeta.
  generalize (RD_CSR_FIELD r dcsr F.prv). intros newMode.
  unfold RISCV_PRIV_VERSION. hart_simpl.
  destruct ((priv_version (configInfo r) >? RVPV_20190405) &&
            negb (newMode =? RISCV_MODE_MACHINE));
    hart_simpl; csr_eqb_eval; repeat (split; [reflexivity|]);
    intros c H1; rewrite ?CSR_eqb_neq by congruence; reflexivity.
Qed.


Lemma enterDM_regs cause r :
  inDebugMode r = false ->
  csr (enterDM cause r) = csr (enterDMRegs cause r) /\
  currentArch (enterDM cause r) = currentArch r /\
  configInfo (enterDM cause r) = configInfo r.
Proof.
  intros HDM. destruct (enterDM_frame cause r HDM) as (He & _).
  destruct (enterDMRegs_spec cause r) as (_ & _ & Ha & Hc & _).
  split; [keep_stall He|].
  split; [rewrite <- Ha; keep_stall He|rewrite <- Hc; keep_stall He].
Qed.



(** ** Synchronous exceptions *)

Lemma isExternalInterrupt_sync e : isInterrupt e = false -> isExternalInterrupt e = false.
Proof.
  intros He. unfold isExternalInterrupt.
  destruct (Z.geb_spec e riscv_E_UExternalInterrupt) as [H1|]; [|reflexivity].
  destruct (Z.leb_spec e riscv_E_MExternalInterrupt) as [H2|]; [|reflexivity].
  exfalso. unfold riscv_E_UExternalInterrupt, riscv_E_MExternalInterrupt,
    riscv_E_ExternalInterrupt, riscv_E_External, riscv_E_Interrupt in H1, H2.
  assert (Hc : e = 4104 \/ e = 4105 \/ e = 4106 \/ e = 4107) by lia.
  destruct Hc as [-> | [-> | [-> | ->]]]; discriminate He.
Qed.

Lemma trapEcodeMod_sync e r :
  isInterrupt e = false -> trapEcodeMod e r = getExceptionCode e.
Proof.
  intros He. unfold trapEcodeMod. now rewrite (isExternalInterrupt_sync e He).
Qed.

(** What a synchronous exception leaves, outside Debug mode. *)
Lemma sync_exception_spec e tval r :
  inDebugMode r = false -> isInterrupt e = false ->
  let X := trapModeX e r in
  let t := regsOf X in
  let r' := riscvTakeException e tval r in
  exception r' = e /\ DM r' = false /\ mode r' = X /\
  PC r' = wrap64 (Z.shiftl (RD_CSR_FIELD r (ttvec t) (F.BASE (xlen (configInfo r)))) 2) /\
  RD_CSR_FIELD r' (tcause t) F.ExceptionCode
    = Z.land (getExceptionCode e) (Z.ones 12) /\
  RD_CSR_FIELD r' (tcause t) (F.Interrupt (xlen (configInfo r))) = 0 /\
  RD_CSR r' (tepc t) = Z.land (getEPC r) (RD_CSR_MASK_epc r (tepc t)) /\
  RD_CSR r' (ttval t) = trapTval tval r /\
  RD_CSR_FIELD r' mstatus (tIE t) = 0 /\
  RD_CSR_FIELD r' mstatus (tPIE t) = RD_CSR_FIELD r mstatus (tIE t) /\
  baseInstructions r' =
    (if negb (retiredCode r e) && negb (riscvInhibitInstret r)
     then wrap64 (baseInstructions r + 1) else baseInstructions r) /\
  (forall c, c <> mstatus -> c <> mintstatus -> c <> tcause t -> c <> tepc t ->
             c <> ttval t -> RD_CSR r' c = RD_CSR r c).
Proof.
  intros HDM He X t r'. unfold r', riscvTakeException.
  rewrite (riscvTakeExceptionN_sync 1 e tval r He). cbn [riscvTakeExceptionN].
  rewrite riscvTakeExceptionWith_sync by assumption. fold X.
  destruct (trapEntry_spec e tval r)
    as (H1 & H2 & H3 & _ & H5 & H6 & _ & H8 & H9 & H10 & H11 & H12 & H13 & H14).
  fold X in H1, H6, H8, H9, H10, H11, H12, H13, H14.
  fold t in H6, H8, H9, H10, H11, H12, H13, H14.
  rewrite (trapEcodeMod_sync e r He) in H10. rewrite He in H11.
  revert H1 H2 H3 H5 H6 H8 H9 H10 H11 H12 H13 H14.
  generalize (trapEntry e tval r). intros [[y base] m]. cbn [fst snd].
  intros H1 H2 H3 H5 H6 H8 H9 H10 H11 H12 H13 H14.
  destruct (enterHandler_spec X base y) as (Ea & Eb & Ec & Ed & Ee & Ef & _).
  revert Ea Eb Ec Ed Ee Ef. generalize (enterHandler X base y).
  intros z Ea Eb Ec Ed Ee Ef.
  unfold inDebugMode, RD_CSR_FIELD, RD_CSR in *. rewrite Ee.
  split; [congruence|]. split; [congruence|]. split; [congruence|].
  split; [congruence|]. split; [exact H10|]. split; [exact H11|].
  split; [exact H12|]. split; [exact H13|]. split; [exact H8|].
  split; [exact H9|]. split; [congruence|exact H14].
Qed.

(** ** EBREAK *)











(** ** Illegal instruction, DRET and misaligned instruction address *)


Section IllegalInstruction.

(** Whether the configuration reports the instruction pattern in xtval,
    and the decoder that fetches the pattern at an address. *)
Variable tval_ii_code : bool.
Variable riscvGetInstruction : riscv -> Z -> Z.





End IllegalInstruction.


Definition riscvWFI (r : riscv) : riscv :=
  if negb (inDebugMode r || getPending r) then haltProcessor RVD_WFI r else r.







Lemma enterDM_cause cause r :
  inDebugMode r = false ->
  inDebugMode (enterDM cause r) = true /\
  RD_CSR_FIELD (enterDM cause r) dcsr F.cause = dmCauseCode cause /\
  RD_CSR (enterDM cause r) dpc = getEPC r.
Proof.
  intros HDM. destruct (enterDM_frame cause r HDM) as (He & _).
  destruct (enterDMRegs_spec cause r) as (X1 & _ & _ & _ & X5 & X6 & _).
  assert (Ecsr : csr (enterDM cause r) = csr (enterDMRegs cause r)) by keep_stall He.
  assert (Ed : DM (enterDM cause r) = DM (enterDMRegs cause r)) by keep_stall He.
  unfold inDebugMode, RD_CSR_FIELD, RD_CSR in *. rewrite Ecsr, Ed, X6.
  split; [exact X1|]. split; [|exact X5].
  rewrite rd_wr_same by (simpl; lia). now destruct cause.
Qed.





(** ** Memory exceptions *)

Lemma riscvTakeMemoryException_eq e tval r :
  riscvTakeMemoryException e tval r =
  let v := Z.land (RD_CSR r vstart) (vstartMask (configInfo r)) in
  if vFirstFault r && truthy v
  then WR_CSR vl v (set_vFirstFault false (WR_CSR vstart v r))
  else riscvTakeException e tval
         (reportMemoryException (set_vFirstFault false (WR_CSR vstart v r))).
Proof.
  unfold riscvTakeMemoryException, riscvTakeMemoryExceptionWith, handleFF, riscvSetVL.
  cbv zeta.
  change (vFirstFault (WR_CSR vstart ?v r)) with (vFirstFault r).
  destruct (vFirstFault r) eqn:Hff; cbn [andb].
  - change (RD_CSR (set_vFirstFault false (WR_CSR vstart ?v r)) vstart) with v.
    destruct (truthy _); reflexivity.
  - cbn [negb].
    replace (set_vFirstFault false
               (WR_CSR vstart (Z.land (RD_CSR r vstart) (vstartMask (configInfo r))) r))
      with (WR_CSR vstart (Z.land (RD_CSR r vstart) (vstartMask (configInfo r))) r);
      [reflexivity|].
    destruct r; cbn in Hff |- *; now rewrite Hff.
Qed.

(** Forgets everything that the delivery of a synchronous exception may
    write. *)
Definition eraseTrap (r : riscv) : riscv :=
  set_PC 0 (set_mode 0 (set_exception 0 (eraseCSR (erasePrologue (eraseArb r))))).

Lemma eraseTrap_proj (A : Type) (p : riscv -> A) r r' :
  (forall x, p (eraseTrap x) = p x) -> eraseTrap r' = eraseTrap r -> p r' = p r.
Proof. intros Hp H. rewrite <- (Hp r'), <- (Hp r). now rewrite H. Qed.

Ltac keep_trap H :=
  match goal with
  | |- ?p ?r' = ?p ?r => apply (eraseTrap_proj _ p r r' (fun _ => eq_refl) H)
  end.

Lemma eraseTrap_of_arb x y : eraseArb x = eraseArb y -> eraseTrap x = eraseTrap y.
Proof. unfold eraseTrap. now intros ->. Qed.

Lemma eraseTrap_of_csr x y : eraseCSR x = eraseCSR y -> eraseTrap x = eraseTrap y.
Proof.
  intros H.
  change (eraseTrap x) with
    (set_PC 0 (set_mode 0 (set_exception 0 (erasePrologue (eraseArb (eraseCSR x)))))).
  change (eraseTrap y) with
    (set_PC 0 (set_mode 0 (set_exception 0 (erasePrologue (eraseArb (eraseCSR y)))))).
  now rewrite H.
Qed.

Lemma eraseTrap_of_prologue x y :
  erasePrologue x = erasePrologue y -> eraseTrap x = eraseTrap y.
Proof.
  intros H.
  change (eraseTrap x) with
    (set_PC 0 (set_mode 0 (set_exception 0 (eraseCSR (eraseArb (erasePrologue x)))))).
  change (eraseTrap y) with
    (set_PC 0 (set_mode 0 (set_exception 0 (eraseCSR (eraseArb (erasePrologue y)))))).
  now rewrite H.
Qed.

Lemma trapEntry_eraseTrap e tval r :
  eraseTrap (fst (fst (trapEntry e tval r))) = eraseTrap r /\
  AFErrorOut (fst (fst (trapEntry e tval r))) =
    (if accessFaultCode e then AFErrorIn r else riscv_AFault_None).
Proof.
  unfold trapEntry. cbv zeta. cbn [fst snd].
  pose proof (erasePrologue_trapPrologue e r) as Hp.
  assert (Haf : AFErrorOut (trapPrologue e r) =
                (if accessFaultCode e then AFErrorIn r else riscv_AFault_None)).
  { unfold trapPrologue. destruct (negb _ && negb _), (accessFaultCode e); reflexivity. }
  destruct (trapTarget_spec (trapModeX e r) (getCurrentMode r) (isInterrupt e)
              (trapEcodeMod e r) (getEPC r) (trapTval tval r)
              (trapLevel e (trapModeX e r) (getCurrentMode r) r) (trapPrologue e r))
    as (He & _).
  revert He.
  generalize (trapTarget (trapModeX e r) (getCurrentMode r) (isInterrupt e)
                (trapEcodeMod e r) (getEPC r) (trapTval tval r)
                (trapLevel e (trapModeX e r) (getCurrentMode r) r) (trapPrologue e r)).
  revert Hp Haf. generalize (trapPrologue e r). intros r1 Hp Haf [[r2 b] m].
  cbn [fst snd]. intros He.
  split.
  - transitivity (eraseTrap r2); [reflexivity|].
    transitivity (eraseTrap r1);
      [now apply eraseTrap_of_csr|now apply eraseTrap_of_prologue].
  - rewrite <- Haf. change (AFErrorOut r2 = AFErrorOut r1). keep_csr He.
Qed.

(** A synchronous exception writes the registers of its target mode, the
    mode, the PC, the recorded exception, the reservation, the instruction
    count, the detail of an access fault and the state of the arbitration,
    and nothing else. *)
Lemma sync_exception_frame e tval r :
  inDebugMode r = false -> isInterrupt e = false ->
  eraseTrap (riscvTakeException e tval r) = eraseTrap r /\
  AFErrorOut (riscvTakeException e tval r) =
    (if accessFaultCode e then AFErrorIn r else riscv_AFault_None).
Proof.
  intros HDM He. unfold riscvTakeException.
  rewrite (riscvTakeExceptionN_sync 1 e tval r He). cbn [riscvTakeExceptionN].
  rewrite riscvTakeExceptionWith_sync by assumption.
  destruct (trapEntry_eraseTrap e tval r) as (H1 & H2).
  revert H1 H2. generalize (trapEntry e tval r). intros [[y base] m]. cbn [fst snd].
  intros H1 H2. unfold enterHandler.
  pose proof (eraseArb_notifyTrap (trapModeX e r) (vmirtSetPCException base y)) as Ha.
  revert Ha. generalize (notifyTrap (trapModeX e r) (vmirtSetPCException base y)).
  intros z Ha. split.
  - rewrite (eraseTrap_of_arb _ _ Ha). rewrite <- H1. reflexivity.
  - rewrite <- H2. transitivity (AFErrorOut (vmirtSetPCException base y));
      [keep_arb Ha|reflexivity].
Qed.

Lemma trapModeX_sync_deleg e x r :
  isInterrupt e = false ->
  RD_CSR x medeleg = RD_CSR r medeleg -> RD_CSR x sedeleg = RD_CSR r sedeleg ->
  mode x = mode r -> trapModeX e x = trapModeX e r.
Proof.
  intros He H1 H2 Hm. unfold trapModeX. rewrite He. cbn [negb].
  unfold getExceptionModeX, getModeX, getCurrentMode. now rewrite H1, H2, Hm.
Qed.

(** The hart from which a memory exception that is not suppressed is
    taken: vstart is cut to its writable bits and fault-only-first mode is
    off. *)
Definition memoryFaultEntry (r : riscv) : riscv :=
  reportMemoryException
    (set_vFirstFault false
       (WR_CSR vstart (Z.land (RD_CSR r vstart) (vstartMask (configInfo r))) r)).

Lemma memoryFaultEntry_spec r :
  let x := memoryFaultEntry r in
  DM x = DM r /\ mode x = mode r /\ configInfo x = configInfo r /\
  getEPC x = getEPC r /\ AFErrorIn x = AFErrorIn r /\ vFirstFault x = false /\
  RD_CSR x vstart = Z.land (RD_CSR r vstart) (vstartMask (configInfo r)) /\
  (forall c, c <> vstart -> RD_CSR x c = RD_CSR r c).
Proof.
  unfold memoryFaultEntry, reportMemoryException. cbv zeta.
  change (verbose (configInfo (set_vFirstFault false (WR_CSR vstart ?v r))))
    with (verbose (configInfo r)).
  destruct (verbose (configInfo r)); hart_simpl; csr_eqb_eval;
    repeat (split; [reflexivity|]);
    intros c Hc; rewrite CSR_eqb_neq by congruence; reflexivity.
Qed.

(** A memory fault raised by a fault-only-first vector load past its
    first element takes no exception: vl is cut to the index of the
    faulting element, fault-only-first mode ends, and the mode, the PC, the
    recorded exception, the trace and every register but vl and vstart are
    as before.  In every other case the exception is taken, with
    fault-only-first mode off, vstart cut to its writable bits and the trap
    value holding the faulting address (zero when trap values are
    configured to be zero). *)
Theorem fault_only_first_suppresses_exception (e tval : Z) (r : riscv) :
  let v := Z.land (RD_CSR r vstart) (vstartMask (configInfo r)) in
  let r' := riscvTakeMemoryException e tval r in
  (vFirstFault r = true -> v <> 0 ->
   RD_CSR r' vl = v /\ RD_CSR r' vstart = v /\ vFirstFault r' = false /\
   mode r' = mode r /\ PC r' = PC r /\ exception r' = exception r /\
   events r' = events r /\
   (forall c, c <> vl -> c <> vstart -> RD_CSR r' c = RD_CSR r c)) /\
  (vFirstFault r = false \/ v = 0 ->
   inDebugMode r = false -> isInterrupt e = false ->
   let t := regsOf (trapModeX e r) in
   exception r' = e /\ vFirstFault r' = false /\
   RD_CSR r' (ttval t) = trapTval tval r /\
   RD_CSR r' (tepc t) = Z.land (getEPC r) (RD_CSR_MASK_epc r (tepc t)) /\
   RD_CSR r' vstart = v).
Proof.
  cbv zeta. rewrite riscvTakeMemoryException_eq. cbv zeta. split.
  - intros Hff Hv. rewrite Hff. unfold truthy.
    destruct (Z.eqb_spec (Z.land (RD_CSR r vstart) (vstartMask (configInfo r))) 0);
      [contradiction|].
    cbn [negb andb]. hart_simpl. csr_eqb_eval.
    repeat (split; [reflexivity|]).
    intros c H1 H2. now rewrite !CSR_eqb_neq by congruence.
  - intros Hcase HDM He.
    assert (Hno : vFirstFault r &&
                  truthy (Z.land (RD_CSR r vstart) (vstartMask (configInfo r))) = false).
    { destruct Hcase as [-> | ->]; [reflexivity|apply andb_false_r]. }
    rewrite Hno. fold (memoryFaultEntry r).
    destruct (memoryFaultEntry_spec r) as (M1 & M2 & M3 & M4 & _ & M6 & M7 & M8).
    assert (HDMx : inDebugMode (memoryFaultEntry r) = false)
      by (unfold inDebugMode in *; now rewrite M1).
    destruct (sync_exception_spec e tval (memoryFaultEntry r) HDMx He)
      as (S1 & _ & _ & _ & _ & _ & S7 & S8 & _ & _ & _ & S12).
    destruct (sync_exception_frame e tval (memoryFaultEntry r) HDMx He) as (Fe & _).
    rewrite (trapModeX_sync_deleg e _ r He (M8 medeleg ltac:(discriminate))
               (M8 sedeleg ltac:(discriminate)) M2) in S7, S8, S12.
    assert (Hff' : vFirstFault (riscvTakeException e tval (memoryFaultEntry r))
                   = vFirstFault (memoryFaultEntry r)) by keep_trap Fe.
    revert S1 S7 S8 S12 Hff' M3 M4 M6 M7 M8. clear Fe HDMx M1 M2.
    generalize (riscvTakeException e tval (memoryFaultEntry r)).
    generalize (memoryFaultEntry r). intros x y S1 S7 S8 S12 Hff' M3 M4 M6 M7 M8.
    split; [exact S1|]. split; [congruence|].
    split; [rewrite S8; unfold trapTval; now rewrite M3|].
    split; [rewrite S7, M4; unfold RD_CSR_MASK_epc; now rewrite M3|].
    rewrite <- M7.
    destruct (regsOf_wf (trapModeX e r)) as [E | [E | E]];
      rewrite E in S12; apply S12; discriminate.
Qed.

Lemma fault_only_first_suppresses_exception_witness :
  inDebugMode hart0 = false /\
  exception (riscvTakeMemoryException riscv_E_LoadAccessFault 64 hart0)
  = riscv_E_LoadAccessFault.
Proof.
  split; [reflexivity|].
  exact (proj1 (proj2 (fault_only_first_suppresses_exception
                         riscv_E_LoadAccessFault 64 hart0)
                  (or_introl eq_refl) eq_refl eq_refl)).
Defined.

(** The callbacks of the simulator for failing loads and stores. *)
Definition riscvRdAlignExcept (address : Z) (r : riscv) : riscv :=
  riscvTakeMemoryException riscv_E_LoadAddressMisaligned address r.

Definition riscvWrAlignExcept (address : Z) (r : riscv) : riscv :=
  riscvTakeMemoryException riscv_E_StoreAMOAddressMisaligned address r.

Definition riscvRdAbortExcept (address : Z) (r : riscv) : riscv :=
  if PTWActive r then set_PTWBadAddr true r
  else riscvTakeMemoryException riscv_E_LoadAccessFault address r.

Definition riscvWrAbortExcept (address : Z) (r : riscv) : riscv :=
  if PTWActive r then set_PTWBadAddr true r
  else riscvTakeMemoryException riscv_E_StoreAMOAccessFault address r.

Definition riscvRdDeviceExcept (address : Z) (r : riscv) : riscv :=
  let r := set_AFErrorIn riscv_AFault_Device r in
  riscvTakeMemoryException riscv_E_LoadAccessFault address r.

Definition riscvWrDeviceExcept (address : Z) (r : riscv) : riscv :=
  let r := set_AFErrorIn riscv_AFault_Device r in
  riscvTakeMemoryException riscv_E_StoreAMOAccessFault address r.

Lemma memory_exception_detail e tval r :
  inDebugMode r = false -> vFirstFault r = false -> isInterrupt e = false ->
  let r' := riscvTakeMemoryException e tval r in
  exception r' = e /\
  AFErrorOut r' = (if accessFaultCode e then AFErrorIn r else riscv_AFault_None) /\
  AFErrorIn r' = AFErrorIn r /\ PTWBadAddr r' = PTWBadAddr r.
Proof.
  intros HDM Hff He. cbv zeta. rewrite riscvTakeMemoryException_eq. cbv zeta.
  rewrite Hff. cbn [andb]. fold (memoryFaultEntry r).
  destruct (memoryFaultEntry_spec r) as (M1 & _ & _ & _ & M5 & _).
  assert (Mp : PTWBadAddr (memoryFaultEntry r) = PTWBadAddr r).
  { unfold memoryFaultEntry, reportMemoryException.
    change (verbose (configInfo (set_vFirstFault false (WR_CSR vstart ?v r))))
      with (verbose (configInfo r)).
    now destruct (verbose (configInfo r)). }
  assert (HDMx : inDebugMode (memoryFaultEntry r) = false)
    by (unfold inDebugMode in *; now rewrite M1).
  destruct (sync_exception_spec e tval (memoryFaultEntry r) HDMx He) as (S1 & _).
  destruct (sync_exception_frame e tval (memoryFaultEntry r) HDMx He) as (Fe & Fa).
  assert (Fi : AFErrorIn (riscvTakeException e tval (memoryFaultEntry r))
               = AFErrorIn (memoryFaultEntry r)) by keep_trap Fe.
  assert (Fp : PTWBadAddr (riscvTakeException e tval (memoryFaultEntry r))
               = PTWBadAddr (memoryFaultEntry r)) by keep_trap Fe.
  rewrite Fa, Fi, Fp, M5, Mp. auto.
Qed.

(** How bus errors reach the trap: a device error (read or write) raises
    the access fault of its kind and the fault detail published with the
    trap is "device"; a bus abort during a page-table walk only marks the
    walk as failed and raises nothing; a bus abort outside a walk raises the
    access fault and publishes whatever detail was last latched; a
    misaligned access raises the misaligned exception and publishes no
    detail.  (Outside Debug mode, with fault-only-first mode off.) *)
Theorem bus_error_handling (address : Z) (r : riscv) :
  inDebugMode r = false -> vFirstFault r = false ->
  (exception (riscvRdDeviceExcept address r) = riscv_E_LoadAccessFault /\
   AFErrorOut (riscvRdDeviceExcept address r) = riscv_AFault_Device) /\
  (exception (riscvWrDeviceExcept address r) = riscv_E_StoreAMOAccessFault /\
   AFErrorOut (riscvWrDeviceExcept address r) = riscv_AFault_Device) /\
  (PTWActive r = true ->
   riscvRdAbortExcept address r = set_PTWBadAddr true r /\
   riscvWrAbortExcept address r = set_PTWBadAddr true r) /\
  (PTWActive r = false ->
   exception (riscvRdAbortExcept address r) = riscv_E_LoadAccessFault /\
   AFErrorOut (riscvRdAbortExcept address r) = AFErrorIn r /\
   PTWBadAddr (riscvRdAbortExcept address r) = PTWBadAddr r /\
   exception (riscvWrAbortExcept address r) = riscv_E_StoreAMOAccessFault /\
   AFErrorOut (riscvWrAbortExcept address r) = AFErrorIn r /\
   PTWBadAddr (riscvWrAbortExcept address r) = PTWBadAddr r) /\
  (exception (riscvRdAlignExcept address r) = riscv_E_LoadAddressMisaligned /\
   AFErrorOut (riscvRdAlignExcept address r) = riscv_AFault_None /\
   exception (riscvWrAlignExcept address r) = riscv_E_StoreAMOAddressMisaligned /\
   AFErrorOut (riscvWrAlignExcept address r) = riscv_AFault_None).
Proof.
  intros HDM Hff.
  unfold riscvRdDeviceExcept, riscvWrDeviceExcept, riscvRdAbortExcept,
    riscvWrAbortExcept, riscvRdAlignExcept, riscvWrAlignExcept. cbv zeta.
  split; [|split; [|split; [|split; [|]]]].
  - destruct (memory_exception_detail riscv_E_LoadAccessFault address
                (set_AFErrorIn riscv_AFault_Device r) HDM Hff eq_refl)
      as (H1 & H2 & _). split; [exact H1|exact H2].
  - destruct (memory_exception_detail riscv_E_StoreAMOAccessFault address
                (set_AFErrorIn riscv_AFault_Device r) HDM Hff eq_refl)
      as (H1 & H2 & _). split; [exact H1|exact H2].
  - intros ->. split; reflexivity.
  - intros ->.
    destruct (memory_exception_detail riscv_E_LoadAccessFault address r HDM Hff eq_refl)
      as (H1 & H2 & _ & H4).
    destruct (memory_exception_detail riscv_E_StoreAMOAccessFault address r HDM Hff
                eq_refl) as (H5 & H6 & _ & H8).
    split; [exact H1|]. split; [exact H2|]. split; [exact H4|]. split; [exact H5|].
    split; [exact H6|exact H8].
  - destruct (memory_exception_detail riscv_E_LoadAddressMisaligned address r HDM Hff
                eq_refl) as (H1 & H2 & _).
    destruct (memory_exception_detail riscv_E_StoreAMOAddressMisaligned address r HDM
                Hff eq_refl) as (H5 & H6 & _).
    split; [exact H1|]. split; [exact H2|]. split; [exact H5|exact H6].
Qed.

Lemma bus_error_handling_witness :
  inDebugMode hart0 = false /\ vFirstFault hart0 = false /\
  AFErrorOut (riscvRdDeviceExcept 64 hart0) = riscv_AFault_Device.
Proof.
  split; [reflexivity|]. split; [reflexivity|].
  exact (proj2 (proj1 (bus_error_handling 64 hart0 eq_refl eq_refl))).
Defined.






(** ** Consistency of the CLIC pending-and-enabled mask *)

(** Clearing one bit of one word of a mask. *)
Lemma clrBit_spec l k0 m k b :
  0 <= k0 -> 0 <= m -> 0 <= k -> 0 <= b < 64 ->
  Z.testbit (getAt 0 (setAt l k0 (Z.land (getAt 0 l k0)
                                    (wrap64 (Z.lnot (Z.shiftl 1 m))))) k) b
  = Z.testbit (getAt 0 l k) b && negb ((k =? k0) && (b =? m)).
Proof.
  intros Hk0 Hm Hk Hb. destruct (Z.eqb_spec k k0) as [->|Hne].
  - destruct (Nat.ltb_spec (Z.to_nat k0) (length l)) as [Hlt|Hge].
    + rewrite getAt_setAt_same by assumption.
      rewrite Z.land_spec, testbit_wrap64, Z.lnot_spec, testbit_shiftl_1 by lia.
      replace (b <? 64) with true by (symmetry; apply Z.ltb_lt; lia).
      cbn [andb]. now rewrite andb_true_r.
    + rewrite !getAt_overflow by (rewrite ?length_setAt; assumption).
      now rewrite Z.bits_0.
  - rewrite getAt_setAt_other by (try assumption; congruence).
    cbn [andb negb]. now rewrite andb_true_r.
Qed.

Lemma bit_index_eq i j :
  0 <= i -> 0 <= j -> (j / 64 =? i / 64) && (j mod 64 =? i mod 64) = (j =? i).
Proof.
  intros Hi Hj.
  pose proof (Z.div_mod i 64 ltac:(lia)). pose proof (Z.div_mod j 64 ltac:(lia)).
  pose proof (Z.mod_pos_bound i 64 ltac:(lia)).
  pose proof (Z.mod_pos_bound j 64 ltac:(lia)).
  destruct (Z.eqb_spec (j / 64) (i / 64)), (Z.eqb_spec (j mod 64) (i mod 64)),
    (Z.eqb_spec j i); cbn [andb]; try reflexivity; try lia.
Qed.

Lemma riscvTestInterrupt_CLIC r :
  clic_ipe (riscvTestInterrupt r) = clic_ipe r /\
  clic_intState (riscvTestInterrupt r) = clic_intState r /\
  clic_cliccfg (riscvTestInterrupt r) = clic_cliccfg r /\
  configInfo (riscvTestInterrupt r) = configInfo r.
Proof.
  pose proof (eraseArb_testInterrupt r) as H.
  revert H. generalize (riscvTestInterrupt r). intros y H.
  split; [keep_arb H|]. split; [keep_arb H|]. split; keep_arb H.
Qed.

(** [updateCLICPendingEnable] writes bit [intIndex] of the mask and no
    other bit, and leaves the per-interrupt state alone. *)
Lemma updateCLICPendingEnable_spec i b hart :
  0 <= i ->
  let hart' := updateCLICPendingEnable i b hart in
  clic_intState hart' = clic_intState hart /\
  length (clic_ipe hart') = length (clic_ipe hart) /\
  (forall j, 0 <= j -> (Z.to_nat (j / 64) < length (clic_ipe hart))%nat ->
     ipeBit hart' j = if j =? i then b else ipeBit hart j).
Proof.
  intros Hi. unfold updateCLICPendingEnable. cbv zeta.
  match goal with
  | |- context [riscvTestInterrupt ?x] =>
      destruct (riscvTestInterrupt_CLIC x) as (T1 & T2 & _);
      revert T1 T2; generalize (riscvTestInterrupt x)
  end.
  intros y T1 T2. cbn [clic_ipe clic_intState set_clic_ipe] in T1, T2.
  unfold ipeBit. rewrite T1, T2.
  split; [reflexivity|]. split; [now rewrite length_setAt|].
  intros j Hj Hlen.
  pose proof (Z.mod_pos_bound i 64 ltac:(lia)) as Hmi.
  pose proof (Z.mod_pos_bound j 64 ltac:(lia)) as Hmj.
  assert (Hqi : 0 <= i / 64) by (apply Z.div_pos; lia).
  assert (Hqj : 0 <= j / 64) by (apply Z.div_pos; lia).
  rewrite <- (bit_index_eq i j Hi Hj).
  destruct b.
  - rewrite orBit_spec by lia.
    replace (Z.to_nat (j / 64) <? length (clic_ipe hart))%nat with true
      by (symmetry; now apply Nat.ltb_lt).
    cbn [andb].
    destruct ((j / 64 =? i / 64) && (j mod 64 =? i mod 64));
      [apply orb_true_r|apply orb_false_r].
  - rewrite clrBit_spec by lia.
    destruct ((j / 64 =? i / 64) && (j mod 64 =? i mod 64)); cbn [negb];
      [apply andb_false_r|apply andb_true_r].
Qed.

(** The mask agrees with the per-interrupt state: bit [i] of [ipe] is set
    exactly when interrupt [i] is pending and enabled (for the bits that
    the array holds). *)
Definition ipe_consistent (hart : riscv) : Prop :=
  forall i, 0 <= i -> (Z.to_nat (i / 64) < length (clic_ipe hart))%nat ->
    ipeBit hart i = pendingAndEnabledCLIC hart i.

Lemma ipe_consistent_ext h1 h2 :
  clic_ipe h1 = clic_ipe h2 -> clic_intState h1 = clic_intState h2 ->
  ipe_consistent h2 -> ipe_consistent h1.
Proof.
  intros Hi Hs H j Hj Hlen. unfold ipeBit. rewrite Hi.
  rewrite (pendingAndEnabledCLIC_ext h1 h2 j Hs). apply H; [assumption|].
  now rewrite <- Hi.
Qed.

(** The step shared by the writes of clicintip and clicintie: once the
    byte is stored, the mask is updated when the conjunction changed. *)
Lemma ipe_consistent_update i oldPE newPE hart hart1 :
  0 <= i ->
  clic_ipe hart1 = clic_ipe hart ->
  (forall j, 0 <= j -> j <> i ->
     pendingAndEnabledCLIC hart1 j = pendingAndEnabledCLIC hart j) ->
  pendingAndEnabledCLIC hart i = oldPE ->
  pendingAndEnabledCLIC hart1 i = newPE ->
  ipe_consistent hart ->
  ipe_consistent (if negb (Bool.eqb oldPE newPE)
                  then updateCLICPendingEnable i newPE hart1 else hart1).
Proof.
  intros Hi Hipe Hother Hold Hnew Hc.
  destruct (Bool.eqb oldPE newPE) eqn:E; cbn [negb].
  - apply Bool.eqb_prop in E. intros j Hj Hlen. unfold ipeBit. rewrite Hipe.
    rewrite Hipe in Hlen. fold (ipeBit hart j). rewrite (Hc j Hj Hlen).
    destruct (Z.eq_dec j i) as [->|Hne]; [congruence|symmetry; now apply Hother].
  - destruct (updateCLICPendingEnable_spec i newPE hart1 Hi) as (U1 & U2 & U3).
    revert U1 U2 U3. generalize (updateCLICPendingEnable i newPE hart1).
    intros y U1 U2 U3 j Hj Hlen. rewrite U2 in Hlen.
    rewrite (U3 j Hj Hlen), (pendingAndEnabledCLIC_ext y hart1 j U1).
    destruct (Z.eqb_spec j i) as [->|Hne]; [now rewrite Hnew|].
    rewrite Hother by assumption. unfold ipeBit. rewrite Hipe.
    apply Hc; [assumption|now rewrite <- Hipe].
Qed.

Lemma getCLICInterruptField_set i t v hart j t' :
  0 <= i -> 0 <= j ->
  getCLICInterruptField (setCLICInterruptField i t v hart) j t' =
  if j =? i then
    (if (Z.to_nat i <? length (clic_intState hart))%nat
     then intStateField
            (setIntStateField (getAt noIntState (clic_intState hart) i) t v) t'
     else intStateField noIntState t')
  else getCLICInterruptField hart j t'.
Proof.
  intros Hi Hj. unfold getCLICInterruptField, setCLICInterruptField.
  cbn [clic_intState set_clic_intState].
  destruct (Z.eqb_spec j i) as [->|Hne].
  - destruct (Nat.ltb_spec (Z.to_nat i) (length (clic_intState hart))) as [Hlt|Hge].
    + now rewrite getAt_setAt_same.
    + now rewrite getAt_overflow by (rewrite length_setAt; assumption).
  - now rewrite getAt_setAt_other by (try assumption; congruence).
Qed.

Lemma setCLICInterruptField_ipe i t v hart :
  clic_ipe (setCLICInterruptField i t v hart) = clic_ipe hart.
Proof. reflexivity. Qed.

Lemma writeCLICInterruptPending_consistent i v hart :
  0 <= i -> ipe_consistent hart ->
  ipe_consistent (writeCLICInterruptPending i v hart).
Proof.
  intros Hi Hc. unfold writeCLICInterruptPending. cbv zeta.
  set (newIP := truthy (Z.land v 1)).
  set (hart1 := setCLICInterruptField i CIT_clicintip (b2z newIP) hart).
  pose proof (fun j t' => getCLICInterruptField_set i CIT_clicintip (b2z newIP) hart j t' Hi)
    as Hf. fold hart1 in Hf.
  assert (Hipe : clic_ipe hart1 = clic_ipe hart) by reflexivity.
  clearbody hart1.
  apply (ipe_consistent_update i _ _ hart hart1); try assumption.
  - intros j Hj Hne. unfold pendingAndEnabledCLIC, getCLICInterruptPending,
      getCLICInterruptEnable.
    rewrite !Hf by assumption.
    destruct (Z.eqb_spec j i); [contradiction|reflexivity].
  - unfold pendingAndEnabledCLIC. apply andb_comm.
  - unfold pendingAndEnabledCLIC, getCLICInterruptPending, getCLICInterruptEnable.
    rewrite !Hf by assumption. rewrite Z.eqb_refl.
    unfold getCLICInterruptField.
    destruct (Nat.ltb_spec (Z.to_nat i) (length (clic_intState hart))) as [Hlt|Hge].
    + destruct (getAt noIntState (clic_intState hart) i) as [ip ie attr ctl].
      cbn [setIntStateField intStateField clicintip clicintie].
      destruct newIP, (truthy ie); reflexivity.
    + rewrite getAt_overflow by assumption. reflexivity.
Qed.

Lemma writeCLICInterruptEnable_consistent i v hart :
  0 <= i -> ipe_consistent hart ->
  ipe_consistent (writeCLICInterruptEnable i v hart).
Proof.
  intros Hi Hc. unfold writeCLICInterruptEnable. cbv zeta.
  set (newIE := truthy (Z.land v 1)).
  set (hart1 := setCLICInterruptField i CIT_clicintie (b2z newIE) hart).
  pose proof (fun j t' => getCLICInterruptField_set i CIT_clicintie (b2z newIE) hart j t' Hi)
    as Hf. fold hart1 in Hf.
  assert (Hipe : clic_ipe hart1 = clic_ipe hart) by reflexivity.
  clearbody hart1.
  apply (ipe_consistent_update i _ _ hart hart1); try assumption.
  - intros j Hj Hne. unfold pendingAndEnabledCLIC, getCLICInterruptPending,
      getCLICInterruptEnable.
    rewrite !Hf by assumption.
    destruct (Z.eqb_spec j i); [contradiction|reflexivity].
  - reflexivity.
  - unfold pendingAndEnabledCLIC, getCLICInterruptPending, getCLICInterruptEnable.
    rewrite !Hf by assumption. rewrite Z.eqb_refl.
    unfold getCLICInterruptField.
    destruct (Nat.ltb_spec (Z.to_nat i) (length (clic_intState hart))) as [Hlt|Hge].
    + destruct (getAt noIntState (clic_intState hart) i) as [ip ie attr ctl].
      cbn [setIntStateField intStateField clicintip clicintie].
      destruct newIE, (truthy ip); reflexivity.
    + rewrite getAt_overflow by assumption. reflexivity.
Qed.

Lemma riscvTestInterrupt_consistent r :
  ipe_consistent r -> ipe_consistent (riscvTestInterrupt r).
Proof.
  destruct (riscvTestInterrupt_CLIC r) as (T1 & T2 & _).
  now apply ipe_consistent_ext.
Qed.

Lemma updateCLICInterruptField_consistent i t v hart :
  0 <= i -> t = CIT_clicintattr \/ t = CIT_clicintctl ->
  ipe_consistent hart -> ipe_consistent (updateCLICInterruptField i t v hart).
Proof.
  intros Hi Ht Hc. unfold updateCLICInterruptField.
  destruct (negb _); [|assumption].
  apply riscvTestInterrupt_consistent.
  pose proof (fun j t' => getCLICInterruptField_set i t v hart j t' Hi) as Hf.
  assert (Hipe : clic_ipe (setCLICInterruptField i t v hart) = clic_ipe hart)
    by reflexivity.
  revert Hf Hipe. generalize (setCLICInterruptField i t v hart). intros hart1 Hf Hipe.
  intros j Hj Hlen. unfold ipeBit. rewrite Hipe. rewrite Hipe in Hlen.
  fold (ipeBit hart j). rewrite (Hc j Hj Hlen).
  unfold pendingAndEnabledCLIC, getCLICInterruptPending, getCLICInterruptEnable.
  rewrite !Hf by assumption.
  destruct (Z.eqb_spec j i) as [->|]; [|reflexivity].
  unfold getCLICInterruptField.
  destruct (Nat.ltb_spec (Z.to_nat i) (length (clic_intState hart))) as [Hlt|Hge].
  - destruct (getAt noIntState (clic_intState hart) i) as [ip ie attr ctl].
    destruct Ht as [-> | ->]; reflexivity.
  - now rewrite getAt_overflow by assumption.
Qed.

Lemma getCLICIntIndex_nonneg offset : 0 <= getCLICIntIndex offset.
Proof. unfold getCLICIntIndex. apply Z.mod_pos_bound. lia. Qed.

Lemma refreshPendingAndEnabled_consistent r :
  ipe_consistent r -> ipe_consistent (refreshPendingAndEnabled r).
Proof.
  pose proof (eraseArb_refresh r) as H. revert H.
  generalize (refreshPendingAndEnabled r). intros y H.
  apply ipe_consistent_ext; keep_arb H.
Qed.

(** Every operation that changes the per-interrupt state of the CLIC
    keeps the pending-and-enabled mask consistent with it: a write through
    the memory-mapped window (any offset, any value), a change of an
    interrupt input, the acknowledge of an interrupt when its handler is
    entered, and a change of an input port of the hart. *)
Theorem clic_operations_keep_ipe_consistent (hart : riscv) :
  ipe_consistent hart ->
  (forall offset v, ipe_consistent (writeCLICInt offset v hart)) /\
  (forall i v, 0 <= i -> ipe_consistent (updateCLICInput i v hart)) /\
  (forall i, 0 <= i -> ipe_consistent (riscvAcknowledgeCLICInt i hart)) /\
  (forall i v, 0 <= i -> ipe_consistent (interruptPortCB i v hart)).
Proof.
  intros Hc.
  assert (Hin : forall i v h, 0 <= i -> ipe_consistent h ->
                  ipe_consistent (updateCLICInput i v h)).
  { intros i v h Hi Hh. unfold updateCLICInput. cbv zeta.
    destruct (_ || _); [|assumption].
    now apply writeCLICInterruptPending_consistent. }
  split; [|split; [|split]].
  - intros offset v. unfold writeCLICInt.
    destruct (truthy (getCLICPage offset)).
    + unfold writeCLICInterrupt. destruct (accessCLICInterrupt hart offset); [|assumption].
      pose proof (getCLICIntIndex_nonneg offset) as Hi.
      destruct (getCLICIntFieldType offset).
      * now apply writeCLICInterruptPending_consistent.
      * now apply writeCLICInterruptEnable_consistent.
      * destruct (getCLICPageMode hart offset).
        -- unfold writeCLICInterruptAttr.
           apply updateCLICInterruptField_consistent; auto.
        -- apply (ipe_consistent_ext _ hart); [reflexivity|reflexivity|assumption].
      * unfold writeCLICInterruptCtl. cbv zeta.
        apply updateCLICInterruptField_consistent; auto.
    + destruct (offset =? 0); [|assumption].
      unfold cliccfgW. cbv zeta. destruct (negb _); [|assumption].
      apply riscvTestInterrupt_consistent.
      apply (ipe_consistent_ext _ hart); [reflexivity|reflexivity|assumption].
  - intros i v Hi. now apply Hin.
  - intros i Hi. unfold riscvAcknowledgeCLICInt. cbv zeta.
    destruct (truthy _).
    + now apply writeCLICInterruptPending_consistent.
    + now apply refreshPendingAndEnabled_consistent.
  - intros i v Hi. unfold interruptPortCB. cbv zeta.
    destruct (negb (i <? getIntNum hart)).
    + apply (ipe_consistent_ext _ hart); [reflexivity|reflexivity|assumption].
    + match goal with
      | |- context [set_ip ?l hart] =>
          assert (H1 : ipe_consistent (set_ip l hart))
            by (apply (ipe_consistent_ext _ hart);
                [reflexivity|reflexivity|assumption]);
          revert H1; generalize (set_ip l hart)
      end.
      intros h1 H1.
      assert (H2 : ipe_consistent (if CLICPresent h1 then updateCLICInput i v h1 else h1))
        by (destruct (CLICPresent h1); [now apply Hin|assumption]).
      revert H2. generalize (if CLICPresent h1 then updateCLICInput i v h1 else h1).
      intros h2 H2. destruct (basicICPresent h2); [|assumption].
      unfold riscvUpdatePending. cbv zeta. destruct (negb _); [|assumption].
      apply riscvTestInterrupt_consistent.
      apply (ipe_consistent_ext _ h2); [reflexivity|reflexivity|assumption].
Qed.

Lemma hart0_ipe_consistent : ipe_consistent hart0.
Proof.
  intros i Hi Hlen. unfold ipeBit, pendingAndEnabledCLIC, getCLICInterruptPending,
    getCLICInterruptField.
  assert (Hq : i / 64 = 0).
  { change (length (clic_ipe hart0)) with 1%nat in Hlen.
    pose proof (Z.div_pos i 64 Hi ltac:(lia)). lia. }
  rewrite Hq. change (getAt 0 (clic_ipe hart0) 0) with 0. rewrite Z.bits_0.
  assert (Hip : clicintip (getAt noIntState (clic_intState hart0) i) = 0).
  { unfold getAt.
    assert (Hl : clic_intState hart0 = repeat (mkCLICIntState 0 0 192 0) 64)
      by reflexivity.
    revert Hl. generalize (clic_intState hart0). intros l Hl.
    destruct (nth_in_or_default (Z.to_nat i) l noIntState) as [Hin | Hd].
    - subst l. apply repeat_spec in Hin. now rewrite Hin.
    - now rewrite Hd. }
  cbn [intStateField]. now rewrite Hip.
Qed.

Lemma clic_operations_keep_ipe_consistent_witness :
  ipe_consistent hart0 /\ ipe_consistent (writeCLICInt 4177 1 hart0).
Proof.
  split; [exact hart0_ipe_consistent|].
  exact (proj1 (clic_operations_keep_ipe_consistent hart0 hart0_ipe_consistent) 4177 1).
Defined.

(** ** The cliccfg register *)

(** The byte that [cliccfgW] stores for a written value. *)
Definition legalCliccfg (root : riscv) (newValue : Z) : Z :=
  let cliccfg := wrap8 newValue in
  let cliccfg := wrField F.cfg_u1 cliccfg 0 in
  let cliccfg :=
    if rdField F.nmbits cliccfg >? CLICCFGMBITS (configInfo root)
    then wrField F.nmbits cliccfg (CLICCFGMBITS (configInfo root)) else cliccfg in
  let cliccfg :=
    if rdField F.nlbits cliccfg >? 8 then wrField F.nlbits cliccfg 8 else cliccfg in
  wrField F.nvbits cliccfg (b2z (CLICSELHVEC (configInfo root))).

Lemma cliccfgW_stored v root :
  clic_cliccfg (cliccfgW v root) = legalCliccfg root v.
Proof.
  unfold cliccfgW. cbv zeta. fold (legalCliccfg root v).
  destruct (Z.eqb_spec (clic_cliccfg root) (legalCliccfg root v)) as [E|E]; cbn [negb].
  - exact E.
  - destruct (riscvTestInterrupt_CLIC (set_clic_cliccfg (legalCliccfg root v) root))
      as (_ & _ & T3 & _).
    rewrite T3. reflexivity.
Qed.

Lemma wrap8_range v : 0 <= wrap8 v < 256.
Proof.
  unfold wrap8. rewrite Z.land_ones by lia. apply Z.mod_pos_bound. reflexivity.
Qed.

Lemma wrField_byte f r v :
  0 <= f_lo f -> 0 <= f_width f -> f_lo f + f_width f <= 8 -> 0 <= r < 256 ->
  0 <= wrField f r v < 256.
Proof.
  intros Hlo Hw Hsum Hr.
  assert (Hnn : 0 <= wrField f r v).
  { unfold wrField, setField. apply Z.lor_nonneg. split.
    - apply Z.land_nonneg. left. lia.
    - apply Z.shiftl_nonneg, Z.land_nonneg. right.
      rewrite Z.ones_equiv. pose proof (Z.pow_pos_nonneg 2 (f_width f)). lia. }
  split; [exact Hnn|].
  assert (Heq : wrField f r v = Z.land (wrField f r v) (Z.ones 8)).
  { apply Z.bits_inj'. intros n Hn. rewrite Z.land_spec, testbit_ones_nonneg by lia.
    destruct (Z.ltb_spec n 8); [now rewrite andb_true_r|].
    rewrite andb_false_r. unfold wrField. rewrite testbit_setField by lia.
    unfold inField.
    replace (n <? f_lo f + f_width f) with false by (symmetry; apply Z.ltb_ge; lia).
    rewrite andb_false_r. apply (testbit_small r 8); lia. }
  rewrite Heq, Z.land_ones by lia. apply Z.mod_pos_bound. reflexivity.
Qed.

(** Whatever byte is written to cliccfg, the register then holds legal
    values: nmbits is at most CLICCFGMBITS, nlbits at most 8, the reserved
    bit is zero and nvbits shows whether selective hardware vectoring is
    configured.  Values of nmbits and nlbits within these bounds are stored
    as written. *)
Theorem cliccfg_write_is_clamped (v : Z) (root : riscv) :
  0 <= CLICCFGMBITS (configInfo root) ->
  let c := clic_cliccfg (cliccfgW v root) in
  let w := wrap8 v in
  rdField F.nmbits c <= CLICCFGMBITS (configInfo root) /\
  rdField F.nlbits c <= 8 /\
  rdField F.cfg_u1 c = 0 /\
  rdField F.nvbits c = b2z (CLICSELHVEC (configInfo root)) /\
  (rdField F.nmbits w <= CLICCFGMBITS (configInfo root) ->
   rdField F.nmbits c = rdField F.nmbits w) /\
  (rdField F.nlbits w <= 8 -> rdField F.nlbits c = rdField F.nlbits w) /\
  0 <= c < 256.
Proof.
  intros HM. cbv zeta. rewrite cliccfgW_stored. unfold legalCliccfg. cbv zeta.
  generalize (wrap8 v) (wrap8_range v). intros w Hw.
  set (c1 := wrField F.cfg_u1 w 0).
  assert (Hm1 : rdField F.nmbits c1 = rdField F.nmbits w)
    by (unfold c1; apply rd_wr_other; simpl; lia).
  assert (Hl1 : rdField F.nlbits c1 = rdField F.nlbits w)
    by (unfold c1; apply rd_wr_other; simpl; lia).
  assert (Hu1 : rdField F.cfg_u1 c1 = 0)
    by (unfold c1; rewrite rd_wr_same by (simpl; lia); reflexivity).
  assert (Hc1 : 0 <= c1 < 256) by (apply wrField_byte; [simpl; lia..|exact Hw]).
  pose proof (getField_range 5 2 w ltac:(lia)) as Hmr.
  pose proof (getField_range 1 4 w ltac:(lia)) as Hlr.
  change (getField 5 2 w) with (rdField F.nmbits w) in Hmr.
  change (getField 1 4 w) with (rdField F.nlbits w) in Hlr.
  set (c2 := if rdField F.nmbits c1 >? CLICCFGMBITS (configInfo root)
             then wrField F.nmbits c1 (CLICCFGMBITS (configInfo root)) else c1).
  assert (Hm2 : rdField F.nmbits c2 =
                if rdField F.nmbits w >? CLICCFGMBITS (configInfo root)
                then CLICCFGMBITS (configInfo root) else rdField F.nmbits w).
  { unfold c2. rewrite Hm1.
    destruct (Z.gtb_spec (rdField F.nmbits w) (CLICCFGMBITS (configInfo root)));
      [|exact Hm1].
    rewrite rd_wr_same by (simpl; lia). apply land_ones_small; simpl in *; lia. }
  assert (Hl2 : rdField F.nlbits c2 = rdField F.nlbits w).
  { unfold c2. destruct (rdField F.nmbits c1 >? CLICCFGMBITS (configInfo root));
      [|exact Hl1].
    rewrite rd_wr_other by (simpl; lia). exact Hl1. }
  assert (Hu2 : rdField F.cfg_u1 c2 = 0).
  { unfold c2. destruct (rdField F.nmbits c1 >? CLICCFGMBITS (configInfo root));
      [|exact Hu1].
    rewrite rd_wr_other by (simpl; lia). exact Hu1. }
  assert (Hc2 : 0 <= c2 < 256).
  { unfold c2. destruct (rdField F.nmbits c1 >? CLICCFGMBITS (configInfo root));
      [|exact Hc1].
    apply wrField_byte; [simpl; lia..|exact Hc1]. }
  clearbody c2. clear Hm1 Hl1 Hu1. clearbody c1.
  set (c3 := if rdField F.nlbits c2 >? 8 then wrField F.nlbits c2 8 else c2).
  assert (Hl3 : rdField F.nlbits c3 =
                if rdField F.nlbits w >? 8 then 8 else rdField F.nlbits w).
  { unfold c3. rewrite Hl2. destruct (rdField F.nlbits w >? 8); [|exact Hl2].
    rewrite rd_wr_same by (simpl; lia). reflexivity. }
  assert (Hm3 : rdField F.nmbits c3 = rdField F.nmbits c2).
  { unfold c3. destruct (rdField F.nlbits c2 >? 8); [|reflexivity].
    apply rd_wr_other; simpl; lia. }
  assert (Hu3 : rdField F.cfg_u1 c3 = 0).
  { unfold c3. destruct (rdField F.nlbits c2 >? 8); [|exact Hu2].
    rewrite rd_wr_other by (simpl; lia). exact Hu2. }
  assert (Hc3 : 0 <= c3 < 256).
  { unfold c3. destruct (rdField F.nlbits c2 >? 8); [|exact Hc2].
    apply wrField_byte; [simpl; lia..|exact Hc2]. }
  clearbody c3.
  rewrite !rd_wr_other, rd_wr_same by (simpl; lia).
  rewrite Hm3, Hm2, Hl3, Hu3.
  split; [destruct (Z.gtb_spec (rdField F.nmbits w) (CLICCFGMBITS (configInfo root))); lia|].
  split; [destruct (Z.gtb_spec (rdField F.nlbits w) 8); lia|].
  split; [reflexivity|]. split; [now destruct (CLICSELHVEC _)|].
  split; [intros H; destruct (Z.gtb_spec (rdField F.nmbits w)
                                 (CLICCFGMBITS (configInfo root))); [lia|reflexivity]|].
  split; [intros H; destruct (Z.gtb_spec (rdField F.nlbits w) 8); [lia|reflexivity]|].
  apply wrField_byte; [simpl; lia..|exact Hc3].
Qed.

Lemma cliccfg_write_is_clamped_witness :
  0 <= CLICCFGMBITS (configInfo hart0) /\
  rdField F.nlbits (clic_cliccfg (cliccfgW 255 hart0)) <= 8.
Proof.
  assert (H : 0 <= CLICCFGMBITS (configInfo hart0)) by (vm_compute; discriminate).
  split; [exact H|].
  exact (proj1 (proj2 (cliccfg_write_is_clamped 255 hart0 H))).
Defined.

(** ** The memory-mapped window of the CLIC *)

Lemma eraseCLIC_writeEnable i v r :
  eraseCLIC (writeCLICInterruptEnable i v r) = eraseCLIC r.
Proof.
  unfold writeCLICInterruptEnable.
  destruct (negb _); [rewrite eraseCLIC_updatePendingEnable|]; reflexivity.
Qed.

Lemma eraseCLIC_updateField i t v r :
  eraseCLIC (updateCLICInterruptField i t v r) = eraseCLIC r.
Proof.
  unfold updateCLICInterruptField.
  destruct (negb _); [rewrite eraseCLIC_testInterrupt|]; reflexivity.
Qed.

Lemma eraseCLIC_writeCLICInterrupt offset v r :
  eraseCLIC (writeCLICInterrupt offset v r) = eraseCLIC r.
Proof.
  unfold writeCLICInterrupt. destruct (accessCLICInterrupt r offset); [|reflexivity].
  destruct (getCLICIntFieldType offset).
  - apply eraseCLIC_writePending.
  - apply eraseCLIC_writeEnable.
  - destruct (getCLICPageMode r offset); [apply eraseCLIC_updateField|reflexivity].
  - apply eraseCLIC_updateField.
Qed.

(** The value that a write through the window stores in the byte it
    addresses. *)
Definition storedCLICByte (root : riscv) (offset v : Z) : Z :=
  match getCLICIntFieldType offset with
  | CIT_clicintip | CIT_clicintie => b2z (truthy (Z.land v 1))
  | CIT_clicintattr =>
      match getCLICPageMode root offset with
      | Some P => legalCLICInterruptAttr root v P
      | None => getCLICInterruptField root (getCLICIntIndex offset) CIT_clicintattr
      end
  | CIT_clicintctl => wrap8 (Z.lor v (getCLICIntCtl1Bits root))
  end.

Lemma setIntStateField_same s t : setIntStateField s t (intStateField s t) = s.
Proof. destruct s, t; reflexivity. Qed.

Lemma updateCLICInterruptField_state i t v hart :
  (Z.to_nat i < length (clic_intState hart))%nat ->
  clic_intState (updateCLICInterruptField i t v hart)
  = setAt (clic_intState hart) i
      (setIntStateField (getAt noIntState (clic_intState hart) i) t v).
Proof.
  intros Hi. unfold updateCLICInterruptField.
  destruct (Z.eqb_spec (getCLICInterruptField hart i t) v) as [E|E]; cbn [negb].
  - unfold getCLICInterruptField in E. rewrite <- E, setIntStateField_same.
    unfold setAt, getAt. generalize (Z.to_nat i) Hi. generalize (clic_intState hart).
    clear. induction l as [|a l IH]; intros [|n] Hn; simpl in *; try lia; try reflexivity.
    f_equal. apply IH. lia.
  - destruct (riscvTestInterrupt_CLIC (setCLICInterruptField i t v hart)) as (_ & T2 & _).
    rewrite T2. reflexivity.
Qed.

Lemma writeCLICInterruptPending_state i v hart :
  0 <= i ->
  clic_intState (writeCLICInterruptPending i v hart)
  = setAt (clic_intState hart) i
      (setIntStateField (getAt noIntState (clic_intState hart) i) CIT_clicintip
         (b2z (truthy (Z.land v 1)))).
Proof.
  intros Hi. unfold writeCLICInterruptPending. cbv zeta.
  destruct (negb _); [|reflexivity].
  match goal with
  | |- context [updateCLICPendingEnable i ?b ?h] =>
      destruct (updateCLICPendingEnable_spec i b h Hi) as (U1 & _); rewrite U1
  end.
  reflexivity.
Qed.

Lemma writeCLICInterruptEnable_state i v hart :
  0 <= i ->
  clic_intState (writeCLICInterruptEnable i v hart)
  = setAt (clic_intState hart) i
      (setIntStateField (getAt noIntState (clic_intState hart) i) CIT_clicintie
         (b2z (truthy (Z.land v 1)))).
Proof.
  intros Hi. unfold writeCLICInterruptEnable. cbv zeta.
  destruct (negb _); [|reflexivity].
  match goal with
  | |- context [updateCLICPendingEnable i ?b ?h] =>
      destruct (updateCLICPendingEnable_spec i b h Hi) as (U1 & _); rewrite U1
  end.
  reflexivity.
Qed.

(** A granted write changes the addressed byte of the addressed interrupt
    and no other byte of the per-interrupt state. *)
Lemma writeCLICInterrupt_state offset v root :
  accessCLICInterrupt root offset = true ->
  (Z.to_nat (getCLICIntIndex offset) < length (clic_intState root))%nat ->
  clic_intState (writeCLICInterrupt offset v root)
  = setAt (clic_intState root) (getCLICIntIndex offset)
      (setIntStateField
         (getAt noIntState (clic_intState root) (getCLICIntIndex offset))
         (getCLICIntFieldType offset) (storedCLICByte root offset v)).
Proof.
  intros Hacc Hlen. unfold writeCLICInterrupt, storedCLICByte. rewrite Hacc.
  pose proof (getCLICIntIndex_nonneg offset) as Hi.
  destruct (getCLICIntFieldType offset).
  - now apply writeCLICInterruptPending_state.
  - now apply writeCLICInterruptEnable_state.
  - destruct (getCLICPageMode root offset).
    + unfold writeCLICInterruptAttr. now apply updateCLICInterruptField_state.
    + cbn [clic_intState emit set_events]. unfold getCLICInterruptField.
      rewrite setIntStateField_same.
      unfold setAt, getAt. generalize (Z.to_nat (getCLICIntIndex offset)) Hlen.
      generalize (clic_intState root).
      clear. induction l as [|a l IH]; intros [|n] Hn; simpl in *; try lia;
        try reflexivity.
      f_equal. apply IH. lia.
  - unfold writeCLICInterruptCtl. cbv zeta. now apply updateCLICInterruptField_state.
Qed.

Definition intStateBytes (s : riscvCLICIntState) : bool :=
  isByte (clicintip s) && isByte (clicintie s) &&
  isByte (clicintattr s) && isByte (clicintctl s).

Lemma isByte_range z : isByte z = true -> 0 <= z < 2 ^ 8.
Proof.
  unfold isByte. intros H. apply andb_prop in H. destruct H as [H1 H2].
  apply Z.leb_le in H1. apply Z.ltb_lt in H2. change (2 ^ 8) with 256. lia.
Qed.

Lemma testbit_wrap8 x i : 0 <= i -> Z.testbit (wrap8 x) i = Z.testbit x i && (i <? 8).
Proof.
  intros Hi. unfold wrap8. now rewrite Z.land_spec, testbit_ones_nonneg by lia.
Qed.

(** The byte of the 32-bit view of an interrupt that an offset addresses
    is the field that the offset names. *)
Lemma intState_byte s offset :
  intStateBytes s = true ->
  wrap8 (Z.shiftr (Z.lor (Z.lor (clicintip s) (Z.shiftl (clicintie s) 8))
                         (Z.lor (Z.shiftl (clicintattr s) 16)
                                (Z.shiftl (clicintctl s) 24)))
                  (getCLICWordByte offset * 8))
  = intStateField s (getCLICIntFieldType offset).
Proof.
  intros Hs. unfold intStateBytes in Hs.
  apply andb_prop in Hs. destruct Hs as [Hs H4].
  apply andb_prop in Hs. destruct Hs as [Hs H3].
  apply andb_prop in Hs. destruct Hs as [H1 H2].
  apply isByte_range in H1, H2, H3, H4.
  destruct s as [ip ie attr ctl]. cbn [clicintip clicintie clicintattr clicintctl] in *.
  unfold getCLICIntFieldType. cbv zeta.
  pose proof (Z.mod_pos_bound offset 4 ltac:(lia)) as Hb.
  fold (getCLICWordByte offset) in Hb. revert Hb.
  generalize (getCLICWordByte offset). intros b Hb.
  assert (Hcase : b = 0 \/ b = 1 \/ b = 2 \/ b = 3) by lia.
  destruct Hcase as [-> | [-> | [-> | ->]]]; cbn [Z.eqb Pos.eqb intStateField];
    apply Z.bits_inj'; intros n Hn;
    rewrite testbit_wrap8, Z.shiftr_spec, !Z.lor_spec, !Z.shiftl_spec by lia;
    (destruct (Z.ltb_spec n 8);
     [ rewrite andb_true_r
     | rewrite andb_false_r; symmetry;
       first [apply (testbit_small ip 8) | apply (testbit_small ie 8)
             | apply (testbit_small attr 8) | apply (testbit_small ctl 8)];
       lia ]);
    repeat match goal with
           | |- context [Z.testbit ?f (?n + ?a - ?c)] =>
               first
                 [ replace (n + a - c) with n by lia
                 | rewrite (Z.testbit_neg_r f (n + a - c)) by lia
                 | rewrite (testbit_small f 8 (n + a - c)) by lia ]
           | |- context [Z.testbit ?f (?n + ?a)] =>
               first
                 [ replace (n + a) with n by lia
                 | rewrite (testbit_small f 8 (n + a)) by lia ]
           end;
    rewrite ?orb_false_r, ?orb_false_l; reflexivity.
Qed.

(** The mode of an interrupt as a function of its attribute byte. *)
Definition modeOfAttr (hart : riscv) (attr : Z) : Z :=
  let attr_mode := rdField F.attr_mode attr in
  let nmbits := rdField F.nmbits (clic_cliccfg hart) in
  if nmbits =? 0 then RISCV_MODE_MACHINE
  else if CLICCFGMBITS (configInfo hart) =? 1 then
    if truthy (Z.land attr_mode 2) then RISCV_MODE_MACHINE else RISCV_MODE_USER
  else Z.lor attr_mode (b2z (nmbits =? 1)).

Lemma getCLICInterruptMode_attr hart i :
  getCLICInterruptMode hart i = modeOfAttr hart (getCLICInterruptAttr hart i).
Proof. reflexivity. Qed.

Lemma modeOfAttr_ext h1 h2 attr :
  configInfo h1 = configInfo h2 -> clic_cliccfg h1 = clic_cliccfg h2 ->
  modeOfAttr h1 attr = modeOfAttr h2 attr.
Proof. intros H1 H2. unfold modeOfAttr. now rewrite H1, H2. Qed.

Lemma hasException_ext r1 r2 code :
  configInfo r1 = configInfo r2 -> hasException r1 code = hasException r2 code.
Proof.
  intros H. unfold hasException, exceptionMask, interruptMask, riscvSetExceptionMask,
    CLICPresent, riscvGetLocalIntMask, getLocalIntNum.
  now rewrite H.
Qed.

Lemma accessCLICInterrupt_ext r1 r2 offset :
  configInfo r1 = configInfo r2 ->
  getCLICInterruptMode r1 (getCLICIntIndex offset)
  = getCLICInterruptMode r2 (getCLICIntIndex offset) ->
  accessCLICInterrupt r1 offset = accessCLICInterrupt r2 offset.
Proof.
  intros Hc Hm. unfold accessCLICInterrupt. cbv zeta.
  rewrite (hasException_ext r1 r2 _ Hc), Hm.
  unfold getIntNum. rewrite Hc. reflexivity.
Qed.

(** The mode that a legalised attribute byte gives an interrupt does not
    exceed the mode of the page through which it was written, on a page
    that could see the interrupt before. *)
Lemma legal_attr_mode_le hart v P old :
  P = RISCV_MODE_MACHINE \/ P = RISCV_MODE_SUPERVISOR \/ P = RISCV_MODE_USER ->
  modeOfAttr hart old <= P ->
  modeOfAttr hart (legalCLICInterruptAttr hart v P) <= P.
Proof.
  intros HP Hold.
  destruct (legalCLICInterruptAttr_spec hart v P HP) as (Hm & _).
  cbv zeta in Hm. revert Hm.
  generalize (rdField F.attr_mode (wrap8 v))
    (getField_range 6 2 (wrap8 v) ltac:(lia) : 0 <= rdField F.attr_mode (wrap8 v) < 2 ^ 2).
  intros m Hmr Hm.
  unfold modeOfAttr in *. cbv zeta in *. rewrite Hm. clear Hm.
  pose proof (getField_range 6 2 old ltac:(lia)) as Hor.
  change (getField 6 2 old) with (rdField F.attr_mode old) in Hor.
  revert Hold Hor. generalize (rdField F.attr_mode old). intros o Hold Hor.
  unfold attrModeRefused.
  unfold RISCV_MODE_MACHINE, RISCV_MODE_SUPERVISOR, RISCV_MODE_USER,
    RISCV_MODE_HYPERVISOR in *.
  change (2 ^ 2) with 4 in *.
  destruct (rdField F.nmbits (clic_cliccfg hart) =? 0); [exact Hold|].
  assert (Hm4 : m = 0 \/ m = 1 \/ m = 2 \/ m = 3) by lia.
  assert (Ho4 : o = 0 \/ o = 1 \/ o = 2 \/ o = 3) by lia.
  destruct (CLICCFGMBITS (configInfo hart) =? 1) eqn:E1.
  - apply Z.eqb_eq in E1. rewrite E1. cbn [Z.eqb Z.ltb Z.compare Pos.compare
      Pos.compare_cont andb orb].
    destruct (truthy (Z.land (arch (configInfo hart)) ISA_N));
      destruct HP as [-> | [-> | ->]];
      destruct Hm4 as [-> | [-> | [-> | ->]]]; cbn; lia.
  - destruct (rdField F.nmbits (clic_cliccfg hart) =? 1); cbn [b2z];
      destruct (CLICCFGMBITS (configInfo hart) =? 0);
      destruct (CLICCFGMBITS (configInfo hart) <? 2);
      destruct (truthy (Z.land (arch (configInfo hart)) ISA_N));
      destruct HP as [-> | [-> | ->]];
      destruct Hm4 as [-> | [-> | [-> | ->]]];
      destruct Ho4 as [-> | [-> | [-> | ->]]];
      cbn in Hold |- *; lia.
Qed.

Lemma intStateField_set s t v t' :
  intStateField (setIntStateField s t v) t' =
  match t, t' with
  | CIT_clicintip, CIT_clicintip | CIT_clicintie, CIT_clicintie
  | CIT_clicintattr, CIT_clicintattr | CIT_clicintctl, CIT_clicintctl => v
  | _, _ => intStateField s t'
  end.
Proof. destruct s, t, t'; reflexivity. Qed.

Lemma intStateBytes_set s t v :
  intStateBytes s = true -> 0 <= v < 256 ->
  intStateBytes (setIntStateField s t v) = true.
Proof.
  intros Hs Hv. assert (Hb : isByte v = true).
  { unfold isByte. apply andb_true_intro. split; [apply Z.leb_le|apply Z.ltb_lt]; lia. }
  unfold intStateBytes in *. destruct s as [ip ie attr ctl].
  cbn [clicintip clicintie clicintattr clicintctl] in Hs.
  apply andb_prop in Hs. destruct Hs as [Hs H4].
  apply andb_prop in Hs. destruct Hs as [Hs H3].
  apply andb_prop in Hs. destruct Hs as [H1 H2].
  destruct t; cbn [setIntStateField clicintip clicintie clicintattr clicintctl];
    rewrite ?H1, ?H2, ?H3, ?H4, ?Hb; reflexivity.
Qed.

Lemma legalCLICInterruptAttr_byte hart v P : 0 <= legalCLICInterruptAttr hart v P < 256.
Proof.
  unfold legalCLICInterruptAttr. cbv zeta.
  apply wrField_byte; [simpl; lia..|].
  destruct (negb _);
    repeat (apply wrField_byte; [simpl; lia..|]); apply wrap8_range.
Qed.

Lemma storedCLICByte_range root offset v :
  intState_wf root = true -> 0 <= storedCLICByte root offset v < 256.
Proof.
  intros Hwf. unfold storedCLICByte. destruct (getCLICIntFieldType offset).
  - destruct (truthy _); simpl; lia.
  - destruct (truthy _); simpl; lia.
  - destruct (getCLICPageMode root offset); [apply legalCLICInterruptAttr_byte|].
    unfold getCLICInterruptField. cbn [intStateField].
    pose proof (getAt_forallb _
      (fun s => isByte (clicintip s) && isByte (clicintie s) &&
                isByte (clicintattr s) && isByte (clicintctl s))
      noIntState _ (getCLICIntIndex offset) Hwf eq_refl) as Hs.
    cbv beta in Hs. apply andb_prop in Hs. destruct Hs as [Hs _].
    apply andb_prop in Hs. destruct Hs as [_ Hs]. now apply isByte_range in Hs.
  - apply wrap8_range.
Qed.

Lemma accessCLICInterrupt_granted root offset :
  accessCLICInterrupt root offset = true ->
  ((getCLICIntIndex offset <? riscv_E_Local) &&
   negb (hasException root (intToException (getCLICIntIndex offset)))) = false /\
  getCLICIntIndex offset < getIntNum root /\
  exists P, getCLICPageMode root offset = Some P /\
            getCLICInterruptMode root (getCLICIntIndex offset) <= P.
Proof.
  unfold accessCLICInterrupt. cbv zeta.
  destruct (_ && _); [discriminate|].
  destruct (Z.ltb_spec (getCLICIntIndex offset) (getIntNum root)); [|discriminate].
  destruct (getCLICPageMode root offset) as [P|]; [|discriminate].
  intros Hle. apply Z.leb_le in Hle. split; [reflexivity|]. split; [assumption|].
  exists P. auto.
Qed.

(** A byte written through a page that grants access to the interrupt
    reads back, through the same page, as the value the write stored: bit
    0 of the written value for clicintip and clicintie, the legalised
    attribute for clicintattr, the written value with the unimplemented low
    bits set for clicintctl.  The page still grants access afterwards, and
    no other byte of any interrupt changes. *)
Theorem clic_window_write_then_read (offset v : Z) (root : riscv) :
  truthy (getCLICPage offset) = true ->
  accessCLICInterrupt root offset = true ->
  intState_wf root = true ->
  getIntNum root <= Z.of_nat (length (clic_intState root)) ->
  let r' := writeCLICInt offset v root in
  readCLICInt r' offset = storedCLICByte root offset v /\
  accessCLICInterrupt r' offset = true /\
  (forall j t, 0 <= j ->
     j <> getCLICIntIndex offset \/ t <> getCLICIntFieldType offset ->
     getCLICInterruptField r' j t = getCLICInterruptField root j t).
Proof.
  intros Hpage Hacc Hwf Hlen. cbv zeta. unfold writeCLICInt, readCLICInt.
  rewrite Hpage. cbv zeta.
  pose proof (getCLICIntIndex_nonneg offset) as Hi.
  destruct (accessCLICInterrupt_granted root offset Hacc) as (Hpres & Hnum & P & HP & Hmode).
  assert (Hin : (Z.to_nat (getCLICIntIndex offset) < length (clic_intState root))%nat)
    by lia.
  pose proof (writeCLICInterrupt_state offset v root Hacc Hin) as Hst.
  pose proof (eraseCLIC_writeCLICInterrupt offset v root) as He.
  pose proof (storedCLICByte_range root offset v Hwf) as Hbyte.
  assert (Hstored : getCLICIntFieldType offset = CIT_clicintattr ->
                    storedCLICByte root offset v = legalCLICInterruptAttr root v P).
  { intros Ht. unfold storedCLICByte. now rewrite Ht, HP. }
  revert Hst He. generalize (writeCLICInterrupt offset v root). intros y Hst He.
  assert (Hcfg : configInfo y = configInfo root) by keep_by He.
  assert (Hcc : clic_cliccfg y = clic_cliccfg root) by keep_by He.
  set (old := getAt noIntState (clic_intState root) (getCLICIntIndex offset)) in *.
  assert (Hnew : getAt noIntState (clic_intState y) (getCLICIntIndex offset)
                 = setIntStateField old (getCLICIntFieldType offset)
                     (storedCLICByte root offset v))
    by (rewrite Hst; now apply getAt_setAt_same).
  assert (Hold : intStateBytes old = true)
    by (exact (getAt_forallb _ intStateBytes noIntState _ _ Hwf eq_refl)).
  assert (Haccy : accessCLICInterrupt y offset = true).
  { unfold accessCLICInterrupt. cbv zeta.
    rewrite (hasException_ext y root _ Hcfg), Hpres.
    unfold getIntNum in *. rewrite Hcfg.
    replace (getCLICIntIndex offset <? local_int_num (configInfo root) + riscv_E_Local)
      with true by (symmetry; apply Z.ltb_lt; lia).
    change (getCLICPageMode y offset) with (getCLICPageMode root offset). rewrite HP.
    apply Z.leb_le. rewrite getCLICInterruptMode_attr.
    rewrite (modeOfAttr_ext y root _ Hcfg Hcc).
    unfold getCLICInterruptAttr, getCLICInterruptField. rewrite Hnew.
    rewrite intStateField_set.
    rewrite getCLICInterruptMode_attr in Hmode.
    unfold getCLICInterruptAttr, getCLICInterruptField in Hmode. fold old in Hmode.
    destruct (getCLICIntFieldType offset) eqn:Et; try exact Hmode.
    rewrite (Hstored eq_refl).
    apply (legal_attr_mode_le root v P _ (getCLICPageMode_cases root offset P HP) Hmode). }
  split; [|split; [exact Haccy|]].
  - unfold readCLICInterrupt. rewrite Haccy. unfold getCLICInterruptValue. rewrite Hnew.
    rewrite intState_byte by (now apply intStateBytes_set).
    rewrite intStateField_set. now destruct (getCLICIntFieldType offset).
  - intros j t Hj Hne. unfold getCLICInterruptField. rewrite Hst.
    destruct (Z.eq_dec j (getCLICIntIndex offset)) as [->|Hji].
    + rewrite getAt_setAt_same by assumption. rewrite intStateField_set.
      fold old. destruct Hne as [Hne|Hne]; [contradiction|].
      destruct (getCLICIntFieldType offset), t; try reflexivity; contradiction.
    + now rewrite getAt_setAt_other by (try assumption; congruence).
Qed.

Lemma clic_window_write_then_read_witness :
  truthy (getCLICPage attr20_S) = true /\
  accessCLICInterrupt hartAttr attr20_S = true /\
  intState_wf hartAttr = true /\
  getIntNum hartAttr <= Z.of_nat (length (clic_intState hartAttr)) /\
  readCLICInt (writeCLICInt attr20_S 192 hartAttr) attr20_S
  = storedCLICByte hartAttr attr20_S 192.
Proof.
  assert (H1 : truthy (getCLICPage attr20_S) = true) by (vm_compute; reflexivity).
  assert (H2 : accessCLICInterrupt hartAttr attr20_S = true) by (vm_compute; reflexivity).
  assert (H3 : intState_wf hartAttr = true) by (vm_compute; reflexivity).
  assert (H4 : getIntNum hartAttr <= Z.of_nat (length (clic_intState hartAttr)))
    by (vm_compute; discriminate).
  split; [exact H1|]. split; [exact H2|]. split; [exact H3|]. split; [exact H4|].
  exact (proj1 (clic_window_write_then_read attr20_S 192 hartAttr H1 H2 H3 H4)).
Defined.

(** An interrupt whose mode is above the mode of a page is invisible
    through that page: each of its bytes reads as zero and a write of any
    value to any of them leaves the whole hart as it was. *)
Theorem clic_window_hides_higher_modes (offset v : Z) (root : riscv) :
  truthy (getCLICPage offset) = true ->
  (forall P, getCLICPageMode root offset = Some P ->
     P < getCLICInterruptMode root (getCLICIntIndex offset)) ->
  readCLICInt root offset = 0 /\ writeCLICInt offset v root = root /\
  accessCLICInterrupt root offset = false.
Proof.
  intros Hpage Hmode.
  assert (Hacc : accessCLICInterrupt root offset = false).
  { unfold accessCLICInterrupt. cbv zeta.
    destruct (_ && _); [reflexivity|].
    destruct (_ <? _); [|reflexivity].
    destruct (getCLICPageMode root offset) as [P|]; [|reflexivity].
    apply Z.leb_gt. now apply Hmode. }
  unfold readCLICInt, writeCLICInt, readCLICInterrupt, writeCLICInterrupt.
  rewrite Hpage, Hacc. cbv zeta. now rewrite Z.shiftr_0_l.
Qed.

Lemma clic_window_hides_higher_modes_witness :
  truthy (getCLICPage attr20_S) = true /\
  getCLICPageMode hart0 attr20_S = Some RISCV_MODE_SUPERVISOR /\
  getCLICInterruptMode hart0 (getCLICIntIndex attr20_S) = RISCV_MODE_MACHINE /\
  writeCLICInt attr20_S 0 hart0 = hart0.
Proof.
  assert (H1 : truthy (getCLICPage attr20_S) = true) by (vm_compute; reflexivity).
  assert (H2 : forall P, getCLICPageMode hart0 attr20_S = Some P ->
                 P < getCLICInterruptMode hart0 (getCLICIntIndex attr20_S)).
  { intros P H. vm_compute in H. injection H as <-. vm_compute. reflexivity. }
  split; [exact H1|]. split; [vm_compute; reflexivity|].
  split; [vm_compute; reflexivity|].
  exact (proj1 (proj2 (clic_window_hides_higher_modes attr20_S 0 hart0 H1 H2))).
Defined.

(** ** Edge- and level-triggered CLIC interrupts *)

Lemma writeCLICInterruptPending_fields i v hart :
  0 <= i -> (Z.to_nat i < length (clic_intState hart))%nat ->
  let h' := writeCLICInterruptPending i v hart in
  getCLICInterruptPending h' i = truthy (Z.land v 1) /\
  (forall j t, 0 <= j -> j <> i \/ t <> CIT_clicintip ->
     getCLICInterruptField h' j t = getCLICInterruptField hart j t).
Proof.
  intros Hi Hlen. cbv zeta.
  pose proof (writeCLICInterruptPending_state i v hart Hi) as Hst.
  revert Hst. generalize (writeCLICInterruptPending i v hart). intros y Hst.
  unfold getCLICInterruptPending, getCLICInterruptField. rewrite Hst. split.
  - rewrite getAt_setAt_same by assumption. rewrite intStateField_set.
    now destruct (truthy (Z.land v 1)).
  - intros j t Hj Hne. destruct (Z.eq_dec j i) as [->|Hji].
    + rewrite getAt_setAt_same by assumption. rewrite intStateField_set.
      destruct Hne as [Hne|Hne]; [contradiction|]. destruct t; try reflexivity.
      contradiction.
    + now rewrite getAt_setAt_other by (try assumption; congruence).
Qed.

(** How the pending bit of a CLIC interrupt follows its input.  For a
    level-triggered interrupt the bit is the level of the input (inverted
    when the input is active low), and the acknowledge that enters the
    handler leaves it alone.  For an edge-triggered interrupt an active
    input sets the bit, an inactive input leaves it as it is, and the
    acknowledge clears it.  Nothing else in the per-interrupt state
    changes. *)
Theorem clic_pending_follows_trigger (i : Z) (hart : riscv) :
  0 <= i -> (Z.to_nat i < length (clic_intState hart))%nat ->
  let trig := rdField F.attr_trig (getCLICInterruptAttr hart i) in
  let isEdge := truthy (Z.land trig 1) in
  let activeLow := truthy (Z.land trig 2) in
  (forall v,
     let h' := updateCLICInput i v hart in
     getCLICInterruptPending h' i =
       (if isEdge then getCLICInterruptPending hart i || xorb v activeLow
        else xorb v activeLow) /\
     (forall j t, 0 <= j -> j <> i \/ t <> CIT_clicintip ->
        getCLICInterruptField h' j t = getCLICInterruptField hart j t)) /\
  (let h' := riscvAcknowledgeCLICInt i hart in
   getCLICInterruptPending h' i =
     (if isEdge then false else getCLICInterruptPending hart i) /\
   (forall j t, 0 <= j -> j <> i \/ t <> CIT_clicintip ->
      getCLICInterruptField h' j t = getCLICInterruptField hart j t)).
Proof.
  intros Hi Hlen. cbv zeta. split.
  - intros v. unfold updateCLICInput. cbv zeta.
    generalize (truthy (Z.land (rdField F.attr_trig (getCLICInterruptAttr hart i)) 1)).
    generalize (truthy (Z.land (rdField F.attr_trig (getCLICInterruptAttr hart i)) 2)).
    intros activeLow isEdge.
    destruct (writeCLICInterruptPending_fields i (b2z (xorb v activeLow)) hart Hi Hlen)
      as (W1 & W2).
    assert (Hb : truthy (Z.land (b2z (xorb v activeLow)) 1) = xorb v activeLow)
      by (destruct (xorb v activeLow); reflexivity).
    rewrite Hb in W1.
    destruct isEdge, (xorb v activeLow); cbn [negb orb];
      try (split; [exact W1 || (rewrite W1; reflexivity) |exact W2]).
    + split; [rewrite W1; now rewrite orb_true_r|exact W2].
    + split; [now rewrite orb_false_r|reflexivity].
  - unfold riscvAcknowledgeCLICInt. cbv zeta.
    destruct (truthy (Z.land (rdField F.attr_trig (getCLICInterruptAttr hart i)) 1)).
    + destruct (writeCLICInterruptPending_fields i 0 hart Hi Hlen) as (W1 & W2).
      split; [exact W1|exact W2].
    + pose proof (eraseArb_refresh hart) as H.
      assert (Hs : clic_intState (refreshPendingAndEnabled hart) = clic_intState hart)
        by keep_arb H.
      unfold getCLICInterruptPending, getCLICInterruptField. rewrite Hs.
      split; reflexivity.
Qed.

Lemma clic_pending_follows_trigger_witness :
  (Z.to_nat 20 < length (clic_intState hart0))%nat /\
  getCLICInterruptPending (updateCLICInput 20 true hart0) 20 = true.
Proof.
  assert (H : (Z.to_nat 20 < length (clic_intState hart0))%nat) by (vm_compute; lia).
  split; [exact H|].
  exact (proj1 (proj1 (clic_pending_follows_trigger 20 hart0 ltac:(lia) H) true)).
Defined.

(** ** Interrupt input ports *)

(** Bit [j] of the latched interrupt inputs. *)
Definition ipBit (r : riscv) (j : Z) : bool :=
  Z.testbit (getAt 0 (ip r) (j / 64)) (j mod 64).

Lemma land_63 index : Z.land index 63 = index mod 64.
Proof. change 63 with (Z.ones 6). now rewrite Z.land_ones by lia. Qed.

Lemma xlenView_range r v : 0 <= xlenView r v < 2 ^ riscvGetXlenArch r.
Proof.
  unfold xlenView, riscvGetXlenArch.
  assert (H : 0 <= xlenBits (xlen (configInfo r))) by (destruct (xlen _); simpl; lia).
  rewrite Z.land_ones by assumption. apply Z.mod_pos_bound. apply Z.pow_pos_nonneg; lia.
Qed.

Lemma xlenView_small r v : 0 <= v < 2 ^ riscvGetXlenArch r -> xlenView r v = v.
Proof.
  intros H. unfold xlenView, riscvGetXlenArch in *.
  assert (Hx : 0 <= xlenBits (xlen (configInfo r))) by (destruct (xlen _); simpl; lia).
  rewrite Z.land_ones by assumption. now apply Z.mod_small.
Qed.

Lemma riscvUpdatePending_spec r :
  RD_CSR (riscvUpdatePending r) mip =
    (if RD_CSR r mip =? Z.lor (getAt 0 (ip r) 0) (swip r)
     then RD_CSR r mip else xlenView r (Z.lor (getAt 0 (ip r) 0) (swip r))) /\
  ip (riscvUpdatePending r) = ip r /\ swip (riscvUpdatePending r) = swip r /\
  (forall c, c <> mip -> RD_CSR (riscvUpdatePending r) c = RD_CSR r c).
Proof.
  unfold riscvUpdatePending. cbv zeta.
  generalize (xlenView r (Z.lor (getAt 0 (ip r) 0) (swip r))). intros w.
  destruct (Z.eqb_spec (RD_CSR r mip) (Z.lor (getAt 0 (ip r) 0) (swip r))) as [E|E];
    cbn [negb].
  - repeat split; auto.
  - pose proof (eraseArb_testInterrupt (WR_CSR mip w r)) as H.
    revert H. generalize (riscvTestInterrupt (WR_CSR mip w r)). intros y H.
    assert (Hcsr : csr y = csr (WR_CSR mip w r)) by keep_arb H.
    unfold RD_CSR. rewrite Hcsr.
    split; [apply RD_WR_CSR_same|].
    split; [transitivity (ip (WR_CSR mip w r)); [keep_arb H|reflexivity]|].
    split; [transitivity (swip (WR_CSR mip w r)); [keep_arb H|reflexivity]|].
    intros c Hc. now apply RD_WR_CSR_other.
Qed.

(** A change of interrupt input [index] writes bit [index] of the latched
    inputs and no other bit.  With the basic interrupt controller present,
    mip afterwards shows the low XLEN bits of word 0 of the latched inputs
    together with the software-pending bits: an input whose number is XLEN
    or more is latched but does not show in mip.  No register other than
    mip changes. *)
Theorem interrupt_port_latches_input (index : Z) (v : bool) (r : riscv) :
  0 <= index < getIntNum r ->
  let r' := interruptPortCB index v r in
  (forall j, 0 <= j -> (Z.to_nat (j / 64) < length (ip r))%nat ->
     ipBit r' j = if j =? index then v else ipBit r j) /\
  swip r' = swip r /\
  (basicICPresent r = true -> 0 <= RD_CSR r mip < 2 ^ riscvGetXlenArch r ->
   RD_CSR r' mip = xlenView r (Z.lor (getAt 0 (ip r') 0) (swip r')) /\
   0 <= RD_CSR r' mip < 2 ^ riscvGetXlenArch r /\
   (forall b, 0 <= b < riscvGetXlenArch r ->
      Z.testbit (RD_CSR r' mip) b =
      Z.testbit (getAt 0 (ip r') 0) b || Z.testbit (swip r) b) /\
   (forall b, riscvGetXlenArch r <= b -> Z.testbit (RD_CSR r' mip) b = false)) /\
  (forall c, c <> mip -> RD_CSR r' c = RD_CSR r c).
Proof.
  intros Hidx. cbv zeta. unfold interruptPortCB. cbv zeta.
  replace (index <? getIntNum r) with true by (symmetry; apply Z.ltb_lt; lia).
  cbn [negb]. rewrite land_63.
  set (word := if v then _ else _).
  set (h1 := set_ip (setAt (ip r) (index / 64) word) r).
  assert (Hbits : forall j, 0 <= j -> (Z.to_nat (j / 64) < length (ip r))%nat ->
            ipBit h1 j = if j =? index then v else ipBit r j).
  { intros j Hj Hlen. unfold ipBit, h1, word. cbn [ip set_ip].
    pose proof (Z.mod_pos_bound index 64 ltac:(lia)) as Hmi.
    pose proof (Z.mod_pos_bound j 64 ltac:(lia)) as Hmj.
    assert (Hqi : 0 <= index / 64) by (apply Z.div_pos; lia).
    assert (Hqj : 0 <= j / 64) by (apply Z.div_pos; lia).
    rewrite <- (bit_index_eq index j ltac:(lia) Hj).
    destruct v.
    - rewrite orBit_spec by lia.
      replace (Z.to_nat (j / 64) <? length (ip r))%nat with true
        by (symmetry; now apply Nat.ltb_lt).
      cbn [andb].
      destruct ((j / 64 =? index / 64) && (j mod 64 =? index mod 64));
        [apply orb_true_r|apply orb_false_r].
    - rewrite clrBit_spec by lia.
      destruct ((j / 64 =? index / 64) && (j mod 64 =? index mod 64)); cbn [negb];
        [apply andb_false_r|apply andb_true_r]. }
  assert (H1 : swip h1 = swip r /\ csr h1 = csr r /\
               basicICPresent h1 = basicICPresent r /\ configInfo h1 = configInfo r)
    by (repeat split; reflexivity).
  clearbody h1. clear word.
  set (h2 := if CLICPresent h1 then updateCLICInput index v h1 else h1).
  assert (H2 : ip h2 = ip h1 /\ swip h2 = swip h1 /\ csr h2 = csr h1 /\
               basicICPresent h2 = basicICPresent h1 /\ configInfo h2 = configInfo h1).
  { unfold h2. destruct (CLICPresent h1); [|repeat split; reflexivity].
    pose proof (eraseCLIC_updateInput index v h1) as H.
    revert H. generalize (updateCLICInput index v h1). intros y H.
    assert (Hc : configInfo y = configInfo h1) by keep_by H.
    split; [keep_by H|]. split; [keep_by H|]. split; [keep_by H|].
    split; [|exact Hc].
    unfold basicICPresent, CLICPresent. now rewrite Hc. }
  clearbody h2. destruct H1 as (A1 & A2 & A3 & A4).
  destruct H2 as (B1 & B2 & B3 & B4 & B5).
  assert (Hip2 : forall j, ipBit h2 j = ipBit h1 j)
    by (intros j; unfold ipBit; now rewrite B1).
  assert (Hview : forall x, xlenView h2 x = xlenView r x)
    by (intros x; unfold xlenView; now rewrite B5, A4).
  rewrite B4, A3.
  destruct (basicICPresent r) eqn:Eb.
  - destruct (riscvUpdatePending_spec h2) as (U1 & U2 & U3 & U4).
    revert U1 U2 U3 U4. generalize (riscvUpdatePending h2). intros y U1 U2 U3 U4.
    split.
    { intros j Hj Hlen. unfold ipBit. rewrite U2. fold (ipBit h2 j).
      rewrite Hip2. now apply Hbits. }
    split; [congruence|].
    split.
    { intros _ Hmip.
      assert (Hm : RD_CSR y mip = xlenView r (Z.lor (getAt 0 (ip y) 0) (swip y))).
      { rewrite U1, U2, U3, Hview.
        destruct (Z.eqb_spec (RD_CSR h2 mip) (Z.lor (getAt 0 (ip h2) 0) (swip h2)))
          as [E|E]; [|reflexivity].
        rewrite <- E. symmetry. apply xlenView_small.
        unfold RD_CSR in *. now rewrite B3, A2. }
      assert (Hx : 0 <= riscvGetXlenArch r)
        by (unfold riscvGetXlenArch; destruct (xlen _); simpl; lia).
      split; [exact Hm|]. split; [rewrite Hm; apply xlenView_range|].
      split.
      - intros b Hb. rewrite Hm. unfold xlenView.
        rewrite Z.land_spec, Z.lor_spec, testbit_ones_nonneg by (unfold riscvGetXlenArch in *; lia).
        replace (b <? xlenBits (xlen (configInfo r))) with true
          by (symmetry; apply Z.ltb_lt; unfold riscvGetXlenArch in *; lia).
        rewrite andb_true_r. f_equal. f_equal. congruence.
      - intros b Hb. rewrite Hm. unfold xlenView.
        rewrite Z.land_spec, testbit_ones_nonneg by (unfold riscvGetXlenArch in *; lia).
        replace (b <? xlenBits (xlen (configInfo r))) with false
          by (symmetry; apply Z.ltb_ge; unfold riscvGetXlenArch in *; lia).
        apply andb_false_r. }
    intros c Hc. rewrite U4 by assumption. unfold RD_CSR. now rewrite B3, A2.
  - split; [intros j Hj Hlen; rewrite Hip2; now apply Hbits|].
    split; [congruence|]. split; [discriminate|].
    intros c Hc. unfold RD_CSR. now rewrite B3, A2.
Qed.

(** Input 40 of the 32-bit reference hart: the input is latched, mip does
    not show it. *)
Lemma interrupt_port_latches_input_witness :
  0 <= 40 < getIntNum hart0 /\ basicICPresent hart0 = true /\
  0 <= RD_CSR hart0 mip < 2 ^ riscvGetXlenArch hart0 /\
  ipBit (interruptPortCB 40 true hart0) 40 = true /\
  Z.testbit (RD_CSR (interruptPortCB 40 true hart0) mip) 40 = false.
Proof.
  assert (H : 0 <= 40 < getIntNum hart0) by (vm_compute; split; [discriminate|reflexivity]).
  assert (Hb : basicICPresent hart0 = true) by reflexivity.
  assert (Hm : 0 <= RD_CSR hart0 mip < 2 ^ riscvGetXlenArch hart0)
    by (vm_compute; split; [discriminate|reflexivity]).
  split; [exact H|]. split; [exact Hb|]. split; [exact Hm|].
  split.
  - exact (proj1 (interrupt_port_latches_input 40 true hart0 H) 40 ltac:(lia)
             ltac:(vm_compute; lia)).
  - exact (proj2 (proj2 (proj2 (proj1 (proj2 (proj2
             (interrupt_port_latches_input 40 true hart0 H))) Hb Hm))) 40
             ltac:(vm_compute; discriminate)).
Defined.

Example interrupt_port_above_xlen :
  riscvGetXlenArch hart0 = 32 /\
  RD_CSR (interruptPortCB 40 true hart0) mip = 0 /\
  RD_CSR (interruptPortCB 40 true (set_swip 8 hart0)) mip = 8 /\
  getAt 0 (ip (interruptPortCB 40 true (set_swip 8 hart0))) 0 = 2 ^ 40 /\
  RD_CSR (interruptPortCB 11 true hart0) mip = 2048.
Proof. repeat (split; [vm_compute; reflexivity|]). vm_compute; reflexivity. Qed.

(** ** The fetch gate *)

Lemma riscvIFetchExcept_eq isExec vmMiss size address complete r :
  riscvIFetchExcept isExec vmMiss size address complete r =
  if nv_resethaltreqS (netValue r) then
    if complete then
      (VMI_FETCH_EXCEPTION_COMPLETE,
       enterDM DMC_RESETHALTREQ
         (set_netValue
            (mkNetValue (nv_reset (netValue r)) (nv_nmi (netValue r))
               (nv_haltreq (netValue r)) (nv_resethaltreq (netValue r)) false
               (nv_deferint (netValue r))) r))
    else (VMI_FETCH_EXCEPTION_PENDING, r)
  else if nv_haltreq (netValue r) && negb (inDebugMode r) then
    if complete then (VMI_FETCH_EXCEPTION_COMPLETE, enterDM DMC_HALTREQ r)
    else (VMI_FETCH_EXCEPTION_PENDING, r)
  else if getPendingAndEnabled r then
    if complete then (VMI_FETCH_EXCEPTION_COMPLETE, doInterrupt r)
    else (VMI_FETCH_EXCEPTION_PENDING, r)
  else
    let '(ok, r') := validateFetchAddress isExec vmMiss size address complete r in
    (if ok then VMI_FETCH_NONE
     else if complete then VMI_FETCH_EXCEPTION_COMPLETE
     else VMI_FETCH_EXCEPTION_PENDING, r').
Proof.
  unfold riscvIFetchExcept. cbv zeta.
  destruct (nv_resethaltreqS (netValue r)); [destruct complete; reflexivity|].
  destruct (nv_haltreq (netValue r) && negb (inDebugMode r));
    [destruct complete; reflexivity|].
  destruct (getPendingAndEnabled r); [destruct complete; reflexivity|].
  destruct (validateFetchAddress isExec vmMiss size address complete r) as [[|] r'];
    destruct complete; reflexivity.
Qed.

(** Entering Debug mode, from inside or outside it, touches neither the
    latched control inputs nor the recorded exception. *)
Lemma enterDM_inputs cause r :
  inDebugMode (enterDM cause r) = true /\
  netValue (enterDM cause r) = netValue r /\
  exception (enterDM cause r) = exception r.
Proof.
  destruct (inDebugMode r) eqn:HDM.
  - unfold enterDM. rewrite HDM. cbn [negb]. cbv zeta.
    destruct (debug_mode (configInfo r)).
    + destruct (updateDMStall_frame true r) as (H & _).
      revert H. generalize (updateDMStall true r). intros y H.
      split; [transitivity (inDebugMode r); [keep_stall H|exact HDM]|].
      split; [keep_stall H|keep_stall H].
    + split; [exact HDM|split; reflexivity].
    + split; [exact HDM|split; reflexivity].
    + destruct (updateDMStall_frame true r) as (H & _).
      revert H. generalize (updateDMStall true r). intros y H.
      split; [transitivity (inDebugMode r); [keep_stall H|exact HDM]|].
      split; [keep_stall H|keep_stall H].
  - destruct (enterDM_frame cause r HDM) as (H & _).
    revert H. generalize (enterDM cause r). intros y H.
    split; [transitivity (inDebugMode (enterDMRegs cause r)); [keep_stall H|reflexivity]|].
    split; [transitivity (netValue (enterDMRegs cause r)); [keep_stall H|reflexivity]|].
    transitivity (exception (enterDMRegs cause r)); [keep_stall H|reflexivity].
Qed.

(** The fetch gate serves its requests in a fixed order: a latched
    reset-halt request first, then a halt request raised outside Debug
    mode, then the pending-and-enabled interrupt, and only then the
    validation of the fetch address.  While one of the first three is
    pending a probing fetch reports a pending exception and leaves the hart
    as it is, and a completed fetch reports a completed exception.  The
    reset-halt request is consumed and enters Debug mode with cause 5; a
    halt request enters Debug mode with cause 3 and takes no interrupt,
    even one that is pending and enabled; otherwise the interrupt that won
    the arbitration is unregistered and taken with a zero trap value.
    With nothing to serve, a fetch of a two-byte instruction from an
    executable address goes ahead with the hart unchanged, and a fetch from
    an address that is not executable and that the memory unit does not
    handle takes the Instruction Access Fault with the address as trap
    value. *)
Theorem fetch_gate_priority isExec vmMiss size (address : Z) (r : riscv) :
  let gate := fun complete => riscvIFetchExcept isExec vmMiss size address complete r in
  let served :=
    nv_resethaltreqS (netValue r) ||
    (nv_haltreq (netValue r) && negb (inDebugMode r)) ||
    getPendingAndEnabled r in
  (served = true ->
   gate false = (VMI_FETCH_EXCEPTION_PENDING, r) /\
   fst (gate true) = VMI_FETCH_EXCEPTION_COMPLETE) /\
  (nv_resethaltreqS (netValue r) = true ->
   let r' := snd (gate true) in
   inDebugMode r' = true /\ nv_resethaltreqS (netValue r') = false /\
   exception r' = exception r /\
   (inDebugMode r = false ->
    RD_CSR_FIELD r' dcsr F.cause = 5 /\ RD_CSR r' dpc = getEPC r)) /\
  (nv_resethaltreqS (netValue r) = false -> nv_haltreq (netValue r) = true ->
   inDebugMode r = false ->
   let r' := snd (gate true) in
   inDebugMode r' = true /\ RD_CSR_FIELD r' dcsr F.cause = 3 /\
   RD_CSR r' dpc = getEPC r /\ exception r' = exception r /\
   (forall c, c <> dcsr -> c <> dpc -> RD_CSR r' c = RD_CSR r c)) /\
  (nv_resethaltreqS (netValue r) = false -> nv_haltreq (netValue r) = false ->
   getPendingAndEnabled r = true ->
   snd (gate true) =
   riscvTakeException (intToException (pe_id (pendEnab r))) 0
     (set_pendEnab
        (mkPendEnab RV_NO_INT (pe_priv (pendEnab r)) (pe_level (pendEnab r))
           (pe_isCLIC (pendEnab r))) r)) /\
  (served = false -> isExec r address = true -> size r address <= 2 ->
   forall complete, gate complete = (VMI_FETCH_NONE, r)) /\
  (served = false -> isExec r address = false ->
   forall r1, vmMiss address true r = (false, r1) -> isExec r1 address = false ->
   gate true =
   (VMI_FETCH_EXCEPTION_COMPLETE,
    riscvTakeException riscv_E_InstructionAccessFault address r1)).
Proof.
  cbv zeta.
  split; [|split; [|split; [|split; [|split]]]].
  - intros Hs. rewrite !riscvIFetchExcept_eq.
    destruct (nv_resethaltreqS (netValue r)); [split; reflexivity|].
    destruct (nv_haltreq (netValue r) && negb (inDebugMode r)); [split; reflexivity|].
    cbn [orb] in Hs. rewrite Hs. split; reflexivity.
  - intros Hr. rewrite riscvIFetchExcept_eq, Hr. cbn [snd].
    set (r1 := set_netValue _ r).
    destruct (enterDM_inputs DMC_RESETHALTREQ r1) as (H1 & H2 & H3).
    split; [exact H1|]. split; [now rewrite H2|]. split; [now rewrite H3|].
    intros HDM.
    destruct (enterDM_cause DMC_RESETHALTREQ r1 HDM) as (_ & C1 & C2).
    split; [exact C1|exact C2].
  - intros Hr Hh HDM. rewrite riscvIFetchExcept_eq, Hr, Hh, HDM. cbn [andb negb snd].
    destruct (enterDM_inputs DMC_HALTREQ r) as (H1 & _ & H3).
    destruct (enterDM_cause DMC_HALTREQ r HDM) as (_ & C1 & C2).
    destruct (enterDM_regs DMC_HALTREQ r HDM) as (R1 & _).
    destruct (enterDMRegs_spec DMC_HALTREQ r) as (_ & _ & _ & _ & _ & _ & Hc).
    split; [exact H1|]. split; [exact C1|]. split; [exact C2|]. split; [exact H3|].
    intros c Hc1 Hc2. unfold RD_CSR at 1. rewrite R1. now apply Hc.
  - intros Hr Hh Hpe. rewrite riscvIFetchExcept_eq, Hr, Hh, Hpe. cbn [andb snd].
    unfold doInterrupt. cbv zeta.
    unfold getPendingAndEnabled in Hpe.
    destruct (pe_id (pendEnab r) =? RV_NO_INT); [discriminate|reflexivity].
  - intros Hs He Hsz complete. rewrite riscvIFetchExcept_eq.
    destruct (nv_resethaltreqS (netValue r)); [discriminate|].
    destruct (nv_haltreq (netValue r) && negb (inDebugMode r)); [discriminate|].
    cbn [orb] in Hs. rewrite Hs.
    unfold validateFetchAddress, validateFetchAddressInt. rewrite He. cbn [negb].
    destruct (Z.leb_spec (size r address) 2); [reflexivity|lia].
  - intros Hs He r1 Hm He1. rewrite riscvIFetchExcept_eq.
    destruct (nv_resethaltreqS (netValue r)); [discriminate|].
    destruct (nv_haltreq (netValue r) && negb (inDebugMode r)); [discriminate|].
    cbn [orb] in Hs. rewrite Hs.
    unfold validateFetchAddress, validateFetchAddressInt. rewrite He, Hm, He1.
    reflexivity.
Qed.

(** The reference hart with the halt request raised. *)
Definition hartHaltreq : riscv :=
  set_netValue (mkNetValue false false true false false false) hart0.

Lemma fetch_gate_priority_witness :
  riscvIFetchExcept (fun _ _ => true) (fun _ _ x => (false, x)) (fun _ _ => 2)
    0 false hartHaltreq = (VMI_FETCH_EXCEPTION_PENDING, hartHaltreq) /\
  RD_CSR_FIELD
    (snd (riscvIFetchExcept (fun _ _ => true) (fun _ _ x => (false, x)) (fun _ _ => 2)
            0 true hartHaltreq)) dcsr F.cause = 3.
Proof.
  pose proof (fetch_gate_priority (fun _ _ => true) (fun _ _ x => (false, x))
                (fun _ _ => 2) 0 hartHaltreq) as H.
  cbv zeta in H. destruct H as (H1 & _ & H3 & _).
  split.
  - exact (proj1 (H1 ltac:(vm_compute; reflexivity))).
  - exact (proj1 (proj2 (H3 eq_refl eq_refl eq_refl))).
Defined.

(** ** Wait for interrupt *)

Lemma fold_emit_proj (A B : Type) (q : riscv -> B) (p : A -> bool)
    (ev : A -> hostEvent) l r :
  (forall e x, q (emit e x) = q x) ->
  q (fold_left (fun r cb => if p cb then emit (ev cb) r else r) l r) = q r.
Proof.
  intros Hq. revert r. induction l as [|a l IH]; intros r; simpl; [reflexivity|].
  rewrite IH. destruct (p a); [apply Hq|reflexivity].
Qed.

Lemma fold_emit_events (A : Type) (p : A -> bool) (ev : A -> hostEvent) l r e :
  In e (events r) ->
  In e (events (fold_left (fun r cb => if p cb then emit (ev cb) r else r) l r)).
Proof.
  revert r. induction l as [|a l IH]; intros r H; simpl; [exact H|].
  apply IH. destruct (p a); [right; exact H|exact H].
Qed.

Lemma haltProcessor_spec reason r :
  let r' := haltProcessor reason r in
  disable r' = Z.lor (disable r) reason /\
  eraseArb r' = eraseArb r /\
  (disable r = 0 -> In EvHalt (events r')) /\
  (disable r <> 0 -> events r' = events r).
Proof.
  cbv zeta. split; [|split; [apply eraseArb_haltProcessor|]].
  - unfold haltProcessor. cbv zeta. destruct (negb (truthy (disable r))); [|reflexivity].
    unfold notifyHaltRestart.
    now rewrite (fold_emit_proj _ _ disable) by reflexivity.
  - unfold haltProcessor, truthy. cbv zeta.
    destruct (Z.eqb_spec (disable r) 0) as [E|E]; cbn [negb].
    + split; [intros _|contradiction].
      unfold notifyHaltRestart. apply fold_emit_events. left. reflexivity.
    + split; [contradiction|reflexivity].
Qed.

Lemma restartProcessor_spec reason r :
  let r' := restartProcessor reason r in
  disable r' = Z.land (disable r) (Z.lnot reason) /\
  clic_sel r' = clic_sel r /\ csr r' = csr r /\
  (Z.land (disable r) (Z.lnot reason) = 0 -> In EvRestartNext (events r')) /\
  (Z.land (disable r) (Z.lnot reason) <> 0 -> events r' = events r).
Proof.
  cbv zeta. unfold restartProcessor, truthy. cbv zeta.
  change (disable (set_disable ?d r)) with d.
  destruct (Z.eqb_spec (Z.land (disable r) (Z.lnot reason)) 0) as [E|E]; cbn [negb].
  - unfold notifyHaltRestart.
    split; [now rewrite (fold_emit_proj _ _ disable) by reflexivity|].
    split; [now rewrite (fold_emit_proj _ _ clic_sel) by reflexivity|].
    split; [now rewrite (fold_emit_proj _ _ csr) by reflexivity|].
    split; [intros _|contradiction].
    apply fold_emit_events. left. reflexivity.
  - split; [reflexivity|]. split; [reflexivity|]. split; [reflexivity|].
    split; [contradiction|reflexivity].
Qed.

Lemma refreshBasic_disable r : disable (refreshPendingAndEnabledBasic r) = disable r.
Proof.
  unfold refreshPendingAndEnabledBasic.
  destruct (debugExcept _); [destruct (negb _)|]; destruct (truthy _); reflexivity.
Qed.

Lemma refreshCLIC_disable r : disable (refreshPendingAndEnabledCLIC r) = disable r.
Proof.
  unfold refreshPendingAndEnabledCLIC.
  repeat match goal with
         | |- context [if ?b then _ else _] => destruct b
         | |- context [let '(_, _) := ?p in _] => destruct p
         end; reflexivity.
Qed.

Lemma refresh_disable r : disable (refreshPendingAndEnabled r) = disable r.
Proof.
  unfold refreshPendingAndEnabled.
  destruct (CLICPresent _); [rewrite refreshCLIC_disable|];
    (destruct (basicICPresent _); [rewrite refreshBasic_disable|]); reflexivity.
Qed.

Lemma riscvTestInterrupt_disable r :
  let t := riscvTestInterrupt r in
  getPending t = getPending (refreshPendingAndEnabled r) /\
  csr t = csr r /\
  disable t =
    (if getPending (refreshPendingAndEnabled r)
     then Z.land (disable r) (Z.lnot RVD_RESTART_WFI) else disable r) /\
  (getPending (refreshPendingAndEnabled r) = true ->
   Z.land (disable r) (Z.lnot RVD_RESTART_WFI) = 0 -> In EvRestartNext (events t)).
Proof.
  cbv zeta. unfold riscvTestInterrupt. cbv zeta.
  pose proof (refresh_disable r) as Hd.
  pose proof (eraseArb_refresh r) as Ha.
  revert Hd Ha. generalize (refreshPendingAndEnabled r). intros x Hd Ha.
  assert (Hc : csr x = csr r) by (keep_arb Ha).
  assert (Hh : forall y, getPending (handlePendingAndEnabled y) = getPending y /\
                         csr (handlePendingAndEnabled y) = csr y /\
                         disable (handlePendingAndEnabled y) = disable y /\
                         (forall e, In e (events y) ->
                                    In e (events (handlePendingAndEnabled y)))).
  { intros y. unfold handlePendingAndEnabled.
    destruct (getPendingAndEnabled y).
    - split; [reflexivity|]. split; [reflexivity|]. split; [reflexivity|].
      intros e He. right. exact He.
    - split; [reflexivity|]. split; [reflexivity|]. split; [reflexivity|].
      intros e He. exact He. }
  destruct (getPending x) eqn:Hp.
  - destruct (restartProcessor_spec RVD_RESTART_WFI x) as (R1 & R2 & R3 & R4 & _).
    revert R1 R2 R3 R4. generalize (restartProcessor RVD_RESTART_WFI x).
    intros y R1 R2 R3 R4.
    destruct (Hh y) as (H1 & H2 & H3 & H4).
    split.
    { rewrite H1. unfold getPending, getPendingBasic, getPendingCLIC, RD_CSR in Hp |- *.
      now rewrite R2, R3. }
    split; [now rewrite H2, R3|].
    split; [now rewrite H3, R1, Hd|].
    intros _ Hz. apply H4, R4. now rewrite Hd.
  - destruct (Hh x) as (H1 & H2 & H3 & H4).
    split; [now rewrite H1|]. split; [now rewrite H2|]. split; [now rewrite H3|].
    discriminate.
Qed.

(** [riscvWFI] does nothing in Debug mode or while an interrupt is pending
    (enabled in mie, whatever mstatus holds).  Otherwise it adds the WFI
    reason to the reasons for which the hart is halted, halting the hart
    when it was running, and changes neither mode, PC nor any register.
    The next re-arbitration that finds an interrupt pending - even one that
    is masked by mstatus or delegated away - removes the WFI reason and
    restarts the hart when no other reason is left; a re-arbitration that
    finds nothing pending leaves the halt reasons alone. *)
Theorem wfi_halts_until_interrupt_pending (r : riscv) :
  (inDebugMode r = true \/ getPending r = true -> riscvWFI r = r) /\
  (inDebugMode r = false -> getPending r = false ->
   let h := riscvWFI r in
   disable h = Z.lor (disable r) RVD_WFI /\
   mode h = mode r /\ PC h = PC r /\ csr h = csr r /\
   (disable r = 0 -> In EvHalt (events h)) /\
   (forall v, Z.land (RD_CSR r mie) v <> 0 -> disable r = 0 ->
      let w := riscvTestInterrupt (WR_CSR mip v h) in
      disable w = 0 /\ In EvRestartNext (events w))) /\
  (let t := riscvTestInterrupt r in
   (getPendingBasic r <> 0 ->
    disable t = Z.land (disable r) (Z.lnot RVD_WFI) /\
    (disable r = RVD_WFI -> In EvRestartNext (events t))) /\
   (getPending t = false -> disable t = disable r)).
Proof.
  assert (Wake : forall x, getPendingBasic x <> 0 ->
                 getPending (refreshPendingAndEnabled x) = true).
  { intros x Hx. pose proof (eraseArb_refresh x) as Ha.
    revert Ha. generalize (refreshPendingAndEnabled x). intros y Ha.
    assert (Hc : csr y = csr x) by (keep_arb Ha).
    unfold getPending, getPendingBasic, RD_CSR in Hx |- *. rewrite Hc.
    unfold truthy. destruct (Z.eqb_spec (Z.land (csr x mie) (csr x mip)) 0);
      [contradiction|reflexivity]. }
  split; [|split].
  - intros H. unfold riscvWFI.
    destruct H as [-> | H]; [reflexivity|]. rewrite H, orb_true_r. reflexivity.
  - intros HDM Hp. cbv zeta. unfold riscvWFI. rewrite HDM, Hp. cbn [orb negb].
    destruct (haltProcessor_spec RVD_WFI r) as (H1 & H2 & H3 & _).
    revert H1 H2 H3. generalize (haltProcessor RVD_WFI r). intros h H1 H2 H3.
    assert (Hc : csr h = csr r) by (keep_arb H2).
    split; [exact H1|]. split; [keep_arb H2|]. split; [keep_arb H2|].
    split; [exact Hc|]. split; [exact H3|].
    intros v Hv Hz.
    assert (Hb : getPendingBasic (WR_CSR mip v h) <> 0).
    { unfold getPendingBasic. rewrite RD_WR_CSR_same.
      rewrite RD_WR_CSR_other by discriminate. unfold RD_CSR in Hv |- *.
      now rewrite Hc. }
    destruct (riscvTestInterrupt_disable (WR_CSR mip v h)) as (_ & _ & T3 & T4).
    rewrite (Wake _ Hb) in T3.
    assert (Hd : Z.land (disable (WR_CSR mip v h)) (Z.lnot RVD_RESTART_WFI) = 0).
    { change (disable (WR_CSR mip v h)) with (disable h). rewrite H1, Hz.
      apply Z.land_lnot_diag. }
    split; [now rewrite T3|]. exact (T4 (Wake _ Hb) Hd).
  - cbv zeta. destruct (riscvTestInterrupt_disable r) as (T1 & _ & T3 & T4).
    split.
    + intros Hb. rewrite (Wake _ Hb) in T3. split; [exact T3|].
      intros Hd. apply (T4 (Wake _ Hb)). rewrite Hd. apply Z.land_lnot_diag.
    + intros Hp. rewrite T1 in Hp. now rewrite Hp in T3.
Qed.

Lemma wfi_halts_until_interrupt_pending_witness :
  inDebugMode hart0 = false /\ getPending hart0 = false /\
  disable (riscvWFI hart0) = Z.lor (disable hart0) RVD_WFI /\
  disable (riscvTestInterrupt (WR_CSR mip 2048 (riscvWFI hartMEI))) = 0.
Proof.
  split; [reflexivity|]. split; [reflexivity|]. split.
  - exact (proj1 (proj1 (proj2 (wfi_halts_until_interrupt_pending hart0))
                    eq_refl eq_refl)).
  - exact (proj1 (proj2 (proj2 (proj2 (proj2 (proj2
             (proj1 (proj2 (wfi_halts_until_interrupt_pending hartMEI))
                eq_refl eq_refl)))))
             2048 ltac:(vm_compute; discriminate) eq_refl)).
Defined.

(** ** Which exceptions and interrupts exist *)

(** The test of [riscvSetExceptionMask] that the architecture has every
    feature that a descriptor requires. *)
Definition archHas (r : riscv) (feature : Z) : bool :=
  Z.land (arch (configInfo r)) feature =? feature.

Lemma fold_left_ext_in (A B : Type) (f g : A -> B -> A) l a :
  (forall x y, In y l -> f x y = g x y) -> fold_left f l a = fold_left g l a.
Proof.
  revert a. induction l as [|b l IH]; intros a H; simpl; [reflexivity|].
  rewrite (H a b) by (left; reflexivity).
  apply IH. intros x y Hy. apply H. right. exact Hy.
Qed.

Lemma riscvSetExceptionMask_eq r :
  riscvSetExceptionMask r =
  (Z.lor 47359
     (Z.lor (if archHas r ISA_U then 256 else 0) (if archHas r ISA_S then 512 else 0)),
   Z.land
     (Z.lor
        (Z.lor 2184
           (Z.lor (if archHas r ISA_S then 546 else 0)
                  (if archHas r ISA_N then 273 else 0)))
        (riscvGetLocalIntMask r))
     (wrap64 (Z.lnot (unimp_int_mask (configInfo r))))).
Proof.
  unfold riscvSetExceptionMask, archHas. cbv zeta.
  generalize (riscvGetLocalIntMask r) (unimp_int_mask (configInfo r)) (arch (configInfo r)).
  intros m u a.
  set (feat := fun d => if d =? 0 then true
                        else if d =? ISA_N then Z.land a ISA_N =? ISA_N
                        else if d =? ISA_S then Z.land a ISA_S =? ISA_S
                        else Z.land a ISA_U =? ISA_U).
  rewrite (fold_left_ext_in _ _ _
    (fun masks desc =>
       let '(exceptionMask, interruptMask) := masks in
       let '(code, darch) := desc in
       if code =? riscv_E_CSIP then masks
       else if negb (feat darch) then masks
       else if negb (isInterrupt code)
            then (Z.lor exceptionMask (Z.shiftl 1 code), interruptMask)
            else (exceptionMask, Z.lor interruptMask (Z.shiftl 1 (exceptionToInt code))))).
  - subst feat. cbv beta.
    destruct (Z.land a ISA_U =? ISA_U), (Z.land a ISA_S =? ISA_S),
             (Z.land a ISA_N =? ISA_N);
      match goal with |- (let '(_, _) := ?f in _) = _ =>
        let v := eval vm_compute in f in change f with v end; reflexivity.
  - intros [e i] [code darch] Hin.
    assert (Hd : darch = 0 \/ darch = ISA_N \/ darch = ISA_S \/ darch = ISA_U).
    { unfold exceptions in Hin. cbn [In] in Hin.
      repeat (destruct Hin as [Hin|Hin];
              [injection Hin as _ <-; auto|]). contradiction. }
    assert (Hf : (Z.land a darch =? darch) = feat darch).
    { destruct Hd as [-> | [-> | [-> | ->]]];
        [rewrite Z.land_0_r|..]; reflexivity. }
    now rewrite Hf.
Qed.

Lemma intToException_spec i :
  0 <= i < 4096 ->
  isInterrupt (intToException i) = true /\
  exceptionToInt (intToException i) = i /\
  (i <> 12 -> (intToException i =? riscv_E_CSIP) = false).
Proof.
  intros Hi.
  assert (Hb : Z.testbit i 12 = false) by (apply (testbit_small i 12); lia).
  assert (H2 : exceptionToInt (intToException i) = i).
  { unfold exceptionToInt, getExceptionCode, intToException, riscv_E_Interrupt.
    apply Z.bits_inj'. intros n Hn.
    rewrite Z.land_spec, Z.lor_spec, Z.lnot_spec by assumption.
    change 4096 with (Z.shiftl 1 12). rewrite testbit_shiftl_1 by lia.
    destruct (Z.eqb_spec n 12) as [->|]; [now rewrite Hb|].
    now rewrite orb_false_r, andb_true_r. }
  split; [|split; [exact H2|]].
  - unfold isInterrupt, intToException, riscv_E_Interrupt.
    change 4096 with (Z.shiftl 1 12). rewrite truthy_land_bit by lia.
    rewrite Z.lor_spec, testbit_shiftl_1 by lia. apply orb_true_r.
  - intros Hne. apply Z.eqb_neq. intros E. apply Hne.
    rewrite <- H2, E. reflexivity.
Qed.

Lemma riscvGetLocalIntMask_bit r i :
  0 <= local_int_num (configInfo r) -> 0 <= i < 64 ->
  Z.testbit (riscvGetLocalIntMask r) i =
  (16 <=? i) && (i <? 16 + Z.min (local_int_num (configInfo r)) 48).
Proof.
  intros Hl Hi. unfold riscvGetLocalIntMask, getLocalIntNum, riscv_E_Local. cbv zeta.
  set (n := local_int_num (configInfo r)) in *.
  assert (Hs : (if n <? 48 then n else 48) = Z.min n 48)
    by (destruct (Z.ltb_spec n 48); lia).
  rewrite Hs, testbit_wrap64 by lia.
  rewrite Z.shiftl_spec by lia.
  rewrite Z.sub_1_r. fold (Z.ones (Z.min n 48)).
  destruct (Z.leb_spec 16 i).
  - rewrite testbit_ones_nonneg by lia.
    destruct (Z.ltb_spec (i - 16) (Z.min n 48)), (Z.ltb_spec i (16 + Z.min n 48)),
             (Z.ltb_spec i 64); try lia; reflexivity.
  - rewrite Z.testbit_neg_r by lia. reflexivity.
Qed.

(** Which exceptions and interrupts a hart implements.  Of the
    synchronous exceptions, the environment calls from User and from
    Supervisor mode exist only with these modes, codes 10 and 14 never,
    every other code below 16 always.  An interrupt that the configuration
    marks as unimplemented never exists; otherwise the Machine interrupts
    3, 7 and 11 always exist, the Supervisor interrupts 1, 5 and 9 with
    Supervisor mode, the User interrupts 0, 4 and 8 with the N extension,
    and the local interrupts 16 up to 16 plus the configured number,
    capped at 48 local interrupts.  The CLIC software interrupt exists
    exactly when the CLIC is present. *)
Theorem implemented_exceptions (r : riscv) :
  0 <= local_int_num (configInfo r) ->
  (forall e, 0 <= e < 16 ->
     hasException r e =
       if e =? 8 then archHas r ISA_U
       else if e =? 9 then archHas r ISA_S
       else negb ((e =? 10) || (e =? 14))) /\
  (forall i, 0 <= i < 64 -> i <> 12 ->
     hasException r (intToException i) =
       negb (Z.testbit (unimp_int_mask (configInfo r)) i) &&
       (if i <? 16 then
          (i =? 3) || (i =? 7) || (i =? 11) ||
          archHas r ISA_S && ((i =? 1) || (i =? 5) || (i =? 9)) ||
          archHas r ISA_N && ((i =? 0) || (i =? 4) || (i =? 8))
        else i <? 16 + Z.min (local_int_num (configInfo r)) 48)) /\
  hasException r riscv_E_CSIP = CLICPresent r.
Proof.
  intros Hl. split; [|split].
  - intros e He.
    assert (Hc : (e =? riscv_E_CSIP) = false)
      by (apply Z.eqb_neq; unfold riscv_E_CSIP, riscv_E_Interrupt; lia).
    assert (Hi : isInterrupt e = false).
    { unfold isInterrupt, riscv_E_Interrupt. change 4096 with (Z.shiftl 1 12).
      rewrite truthy_land_bit by lia. apply (testbit_small e 4); lia. }
    unfold hasException. rewrite Hc, Hi. cbn [negb].
    rewrite truthy_land_bit by lia.
    unfold exceptionMask. rewrite riscvSetExceptionMask_eq. cbn [fst].
    assert (Hcases : e = 0 \/ e = 1 \/ e = 2 \/ e = 3 \/ e = 4 \/ e = 5 \/ e = 6 \/
                     e = 7 \/ e = 8 \/ e = 9 \/ e = 10 \/ e = 11 \/ e = 12 \/
                     e = 13 \/ e = 14 \/ e = 15) by lia.
    destruct (archHas r ISA_U), (archHas r ISA_S);
      repeat (destruct Hcases as [-> | Hcases]; [reflexivity|]);
      subst e; reflexivity.
  - intros i Hi Hne.
    destruct (intToException_spec i ltac:(lia)) as (H1 & H2 & H3).
    unfold hasException. rewrite (H3 Hne), H1, H2. cbn [negb].
    rewrite truthy_land_bit by lia.
    unfold interruptMask. rewrite riscvSetExceptionMask_eq. cbn [snd].
    rewrite Z.land_spec, testbit_wrap64, Z.lnot_spec by lia.
    rewrite Z.lor_spec, riscvGetLocalIntMask_bit by assumption.
    assert (H64 : (i <? 64) = true) by (apply Z.ltb_lt; lia). rewrite H64, andb_true_r.
    rewrite andb_comm. f_equal.
    destruct (Z.ltb_spec i 16) as [Hlt|Hge].
    + assert (H16 : (16 <=? i) = false) by (apply Z.leb_gt; lia).
      rewrite H16. cbn [andb]. rewrite orb_false_r.
      assert (Hcases : i = 0 \/ i = 1 \/ i = 2 \/ i = 3 \/ i = 4 \/ i = 5 \/ i = 6 \/
                       i = 7 \/ i = 8 \/ i = 9 \/ i = 10 \/ i = 11 \/ i = 12 \/
                       i = 13 \/ i = 14 \/ i = 15) by lia.
      destruct (archHas r ISA_S), (archHas r ISA_N);
        repeat (destruct Hcases as [-> | Hcases]; [reflexivity|]);
        subst i; reflexivity.
    + assert (H16 : (16 <=? i) = true) by (apply Z.leb_le; lia).
      rewrite H16. cbn [andb].
      match goal with |- Z.testbit ?C i || _ = _ =>
        assert (Hz : Z.testbit C i = false)
      end.
      { destruct (archHas r ISA_S), (archHas r ISA_N);
          apply (fun C H => testbit_small C 16 i H ltac:(lia) Hge);
          (split; [discriminate|reflexivity]). }
      now rewrite Hz.
  - reflexivity.
Qed.

Lemma implemented_exceptions_witness :
  0 <= local_int_num (configInfo hart0) /\
  hasException hart0 riscv_E_EnvironmentCallFromSMode = archHas hart0 ISA_S.
Proof.
  assert (H : 0 <= local_int_num (configInfo hart0)) by (vm_compute; discriminate).
  split; [exact H|].
  exact (proj1 (implemented_exceptions hart0 H) 9 ltac:(lia)).
Defined.

(** ** Return from a User-mode trap *)

(** The hart on which [riscvURET] performs the common return actions. *)
Definition uretRegs (r : riscv) : riscv :=
  let r := clearEAxRET r in
  let r := if useCLICU r
           then WR_CSR_FIELD mintstatus F.uil (RD_CSR_FIELD r ucause F.pil) r
           else r in
  let r := WR_CSR_FIELD mstatus F.UIE (RD_CSR_FIELD r mstatus F.UPIE) r in
  WR_CSR_FIELD mstatus F.UPIE 1 r.

Lemma riscvURET_eq r :
  inDebugMode r = false ->
  riscvURET r =
  doERETCommon RISCV_MODE_USER RISCV_MODE_USER (RD_CSR (uretRegs r) uepc) (uretRegs r).
Proof.
  intros HDM. unfold riscvURET, uretRegs. rewrite HDM. cbn [negb]. cbv zeta.
  reflexivity.
Qed.

Lemma uretRegs_spec r :
  let x := uretRegs r in
  eraseRet x = eraseRet r /\
  exclusiveTag x =
    (if xret_preserves_lr (configInfo r) then exclusiveTag r else RISCV_NO_TAG) /\
  RD_CSR x mstatus =
    wrField F.UPIE
      (wrField F.UIE (RD_CSR r mstatus) (rdField F.UPIE (RD_CSR r mstatus))) 1 /\
  RD_CSR x mintstatus =
    (if useCLICU r
     then wrField F.uil (RD_CSR r mintstatus) (RD_CSR_FIELD r ucause F.pil)
     else RD_CSR r mintstatus) /\
  (forall c, c <> mstatus -> c <> mintstatus -> RD_CSR x c = RD_CSR r c).
Proof.
  unfold uretRegs, clearEAxRET. cbv zeta.
  destruct (xret_preserves_lr (configInfo r)); cbn [negb];
    change (useCLICU (clearEA r)) with (useCLICU r);
    destruct (useCLICU r); hart_simpl;
    (split; [reflexivity|]); (split; [reflexivity|]);
    hart_simpl; csr_eqb_eval;
    (split; [reflexivity|]); (split; [reflexivity|]);
    intros c H1 H2; rewrite ?CSR_eqb_neq by congruence; reflexivity.
Qed.

Lemma uret_mstatus ms :
  let ms' := wrField F.UPIE (wrField F.UIE ms (rdField F.UPIE ms)) 1 in
  rdField F.UIE ms' = rdField F.UPIE ms /\
  rdField F.UPIE ms' = 1 /\
  (forall n, 0 <= n -> n <> 0 -> n <> 4 -> Z.testbit ms' n = Z.testbit ms n).
Proof.
  cbv zeta.
  assert (Hpie : Z.land (rdField F.UPIE ms) (Z.ones 1) = rdField F.UPIE ms)
    by (apply rdField_land; simpl; lia).
  split; [|split].
  - rewrite rd_wr_other, rd_wr_same by (simpl; lia). exact Hpie.
  - rewrite rd_wr_same by (simpl; lia). reflexivity.
  - intros n Hn H0 H4. unfold wrField.
    rewrite !testbit_setField by (simpl; lia).
    unfold inField. cbn [f_lo f_width F.UIE F.UPIE].
    repeat match goal with
           | |- context [?a <=? ?b] => destruct (Z.leb_spec a b)
           | |- context [?a <? ?b] => destruct (Z.ltb_spec a b)
           end; cbn [andb]; try reflexivity; lia.
Qed.

(** Outside Debug mode [riscvURET] resumes at uepc in User mode - always,
    without consulting a previous-privilege field - with UIE restored from
    UPIE and UPIE set.  Only bits 0 and 4 of mstatus can change: unlike
    mret and sret, uret never clears MPRV.  In CLIC mode mintstatus.uil is
    restored from ucause.pil.  The reservation is dropped unless the hart
    is configured to preserve it, and no other register changes. *)
Theorem uret_restores_state (r : riscv) :
  inDebugMode r = false ->
  let r' := riscvURET r in
  mode r' = RISCV_MODE_USER /\
  PC r' = xRETAddress r (RD_CSR r uepc) /\
  RD_CSR_FIELD r' mstatus F.UIE = RD_CSR_FIELD r mstatus F.UPIE /\
  RD_CSR_FIELD r' mstatus F.UPIE = 1 /\
  (forall n, 0 <= n -> n <> 0 -> n <> 4 ->
     Z.testbit (RD_CSR r' mstatus) n = Z.testbit (RD_CSR r mstatus) n) /\
  RD_CSR r' mintstatus =
    (if useCLICU r
     then wrField F.uil (RD_CSR r mintstatus) (RD_CSR_FIELD r ucause F.pil)
     else RD_CSR r mintstatus) /\
  (forall c, c <> mstatus -> c <> mintstatus -> RD_CSR r' c = RD_CSR r c) /\
  exclusiveTag r' =
    (if xret_preserves_lr (configInfo r) then exclusiveTag r else RISCV_NO_TAG) /\
  inDebugMode r' = false.
Proof.
  intros HDM r'. unfold r'. rewrite (riscvURET_eq r HDM).
  destruct (uretRegs_spec r) as (Me & Mtag & Mms & Mint & Mother).
  assert (March : currentArch (uretRegs r) = currentArch r) by keep_ret Me.
  assert (Mdm : DM (uretRegs r) = DM r) by keep_ret Me.
  revert Me Mtag Mms Mint Mother March Mdm. generalize (uretRegs r).
  intros x Me Mtag Mms Mint Mother March Mdm.
  destruct (doERETCommon_spec RISCV_MODE_USER RISCV_MODE_USER (RD_CSR x uepc) x)
    as (Dm & Dpc & Dcsr & Dtag & Ddm & _).
  revert Dm Dpc Dcsr Dtag Ddm.
  generalize (doERETCommon RISCV_MODE_USER RISCV_MODE_USER (RD_CSR x uepc) x).
  intros y Dm Dpc Dcsr Dtag Ddm.
  destruct (uret_mstatus (RD_CSR r mstatus)) as (F1 & F2 & F3).
  unfold inDebugMode in *.
  unfold RD_CSR_FIELD, RD_CSR in *. rewrite Dcsr.
  split; [exact Dm|].
  split; [rewrite Dpc; unfold xRETAddress; rewrite March, Mother by discriminate;
          reflexivity|].
  rewrite Mms. split; [exact F1|]. split; [exact F2|]. split; [exact F3|].
  split; [exact Mint|]. split; [exact Mother|].
  split; [now rewrite Dtag|]. now rewrite Ddm, Mdm.
Qed.

Lemma uret_restores_state_witness :
  inDebugMode hart0 = false /\ mode (riscvURET hart0) = RISCV_MODE_USER.
Proof.
  split; [reflexivity|].
  exact (proj1 (uret_restores_state hart0 eq_refl)).
Defined.

(** ** Halt request and deferral of interrupts *)




(** While the deferral input is high no interrupt is delivered: the
    pending-and-enabled test fails whatever the arbitration selected, and
    the fetch gate goes on to validate the fetch address.  The port only
    latches the level and never re-arbitrates; when it releases the
    deferral (a falling edge) and the interrupt selected earlier is still
    deliverable, it asks the simulator for a synchronous interrupt. *)
Theorem deferint_holds_off_interrupts isExec vmMiss size (address : Z) (v : bool)
    (r : riscv) :
  let r1 := deferintPortCB v r in
  nv_deferint (netValue r1) = v /\ pendEnab r1 = pendEnab r /\
  csr r1 = csr r /\ mode r1 = mode r /\ inDebugMode r1 = inDebugMode r /\
  getPendingAndEnabled r1 =
    negb (pe_id (pendEnab r) =? RV_NO_INT) && negb (inDebugMode r) && negb v /\
  syncRequests r1 =
    (if nv_deferint (netValue r) && getPendingAndEnabled r1
     then S (syncRequests r) else syncRequests r) /\
  (v = true -> nv_resethaltreqS (netValue r) = false ->
   nv_haltreq (netValue r) = false \/ inDebugMode r = true ->
   forall complete,
     riscvIFetchExcept isExec vmMiss size address complete r1 =
     let '(ok, r') := validateFetchAddress isExec vmMiss size address complete r1 in
     (if ok then VMI_FETCH_NONE
      else if complete then VMI_FETCH_EXCEPTION_COMPLETE
      else VMI_FETCH_EXCEPTION_PENDING, r')).
Proof.
  cbv zeta.
  assert (H : let r1 := deferintPortCB v r in
              netValue r1 =
                mkNetValue (nv_reset (netValue r)) (nv_nmi (netValue r))
                  (nv_haltreq (netValue r)) (nv_resethaltreq (netValue r))
                  (nv_resethaltreqS (netValue r)) v /\
              pendEnab r1 = pendEnab r /\ csr r1 = csr r /\ mode r1 = mode r /\
              inDebugMode r1 = inDebugMode r /\
              events r1 =
                (if negedge (nv_deferint (netValue r)) v &&
                    (negb (pe_id (pendEnab r) =? RV_NO_INT) &&
                     negb (inDebugMode r) && negb v)
                 then EvDoSynchronousInterrupt :: events r else events r)).
  { cbv zeta. unfold deferintPortCB, handlePendingAndEnabled, getPendingAndEnabled.
    cbv zeta. hart_simpl. cbn [nv_deferint].
    destruct (negedge (nv_deferint (netValue r)) v); cbn [andb].
    - unfold inDebugMode. hart_simpl.
      destruct (negb (pe_id (pendEnab r) =? RV_NO_INT) && negb (DM r) && negb v);
        repeat (split; [reflexivity|]); reflexivity.
    - repeat (split; [reflexivity|]); reflexivity. }
  cbv zeta in H. destruct H as (Hnv & Hpe & Hcsr & Hmode & Hdm & Hev).
  revert Hnv Hpe Hcsr Hmode Hdm Hev. generalize (deferintPortCB v r).
  intros r1 Hnv Hpe Hcsr Hmode Hdm Hev.
  assert (Hg : getPendingAndEnabled r1 =
               negb (pe_id (pendEnab r) =? RV_NO_INT) && negb (inDebugMode r) && negb v).
  { unfold getPendingAndEnabled. now rewrite Hpe, Hdm, Hnv. }
  split; [now rewrite Hnv|]. split; [exact Hpe|]. split; [exact Hcsr|].
  split; [exact Hmode|]. split; [exact Hdm|]. split; [exact Hg|].
  split.
  { unfold syncRequests. rewrite Hev, Hg. unfold negedge.
    destruct (nv_deferint (netValue r)), v,
      (negb (pe_id (pendEnab r) =? RV_NO_INT) && negb (inDebugMode r));
      reflexivity. }
  intros Hv Hr Hh complete. rewrite riscvIFetchExcept_eq.
  rewrite Hg, Hv, andb_false_r, Hnv, Hdm. cbn [nv_resethaltreqS nv_haltreq].
  rewrite Hr.
  destruct Hh as [-> | ->]; [|rewrite andb_false_r]; reflexivity.
Qed.

Lemma deferint_holds_off_interrupts_witness :
  getPendingAndEnabled (interruptPortCB 11 true hartMEI) = true /\
  getPendingAndEnabled (deferintPortCB true (interruptPortCB 11 true hartMEI)) = false.
Proof.
  split; [vm_compute; reflexivity|].
  pose proof (deferint_holds_off_interrupts (fun _ _ => true) (fun _ _ x => (false, x))
                (fun _ _ => 2) 0 true (interruptPortCB 11 true hartMEI)) as H.
  cbv zeta in H. destruct H as (_ & _ & _ & _ & _ & H & _).
  rewrite H. apply andb_false_r.
Defined.

(** ** Save and restore of the latched inputs *)

Lemma restoredFields_inputs cxt r :
  let x := restoredFields cxt r in
  ip x = restoreArray (ipDWords r) (sv_ip cxt) (ip r) /\
  netValue x = sv_netValue cxt /\
  clic_cliccfg x =
    (if CLICPresent r
     then match sv_cliccfg cxt with Some c => c | None => clic_cliccfg r end
     else clic_cliccfg r) /\
  csr x = csr r /\ mode x = mode r /\ PC x = PC r /\ swip x = swip r /\ DM x = DM r.
Proof.
  unfold restoredFields. cbv zeta.
  destruct (basicICPresent _); [destruct (sv_intState cxt)|];
    (change (CLICPresent ?y) with (CLICPresent r);
     destruct (CLICPresent r);
     [destruct (sv_cliccfg cxt); destruct (sv_clic_intState cxt)|]);
    repeat (split; [reflexivity|]); reflexivity.
Qed.

(** What [riscvNetSave] writes, [riscvNetRestore] reads back: on a hart of
    the same configuration the restored hart holds the saved latched
    interrupt inputs, the saved control inputs and - with a CLIC - the
    saved cliccfg.  The restore writes no control and status register
    (mip is not recomputed from the restored inputs) and changes neither
    mode, PC nor the Debug mode flag.  In every phase but the end of the
    core phase nothing is saved and the restore changes nothing. *)
Theorem save_restore_inputs r0 r cxt :
  riscvNetSave r0 SRT_END_CORE = Some cxt ->
  ipDWords r0 = ipDWords r ->
  (Z.to_nat (ipDWords r0) <= length (ip r0))%nat ->
  CLICPresent r0 = CLICPresent r ->
  length (clic_ipe r) = Z.to_nat (ipDWords r) ->
  let r' := riscvNetRestore cxt SRT_END_CORE r in
  (forall k, 0 <= k < ipDWords r -> getAt 0 (ip r') k = getAt 0 (ip r0) k) /\
  netValue r' = netValue r0 /\
  (CLICPresent r = true -> clic_cliccfg r' = clic_cliccfg r0) /\
  csr r' = csr r /\ mode r' = mode r /\ PC r' = PC r /\ swip r' = swip r /\
  inDebugMode r' = inDebugMode r /\
  (forall phase, phase <> SRT_END_CORE ->
     riscvNetSave r0 phase = None /\ riscvNetRestore cxt phase r = r).
Proof.
  intros Hsave HD Hlen0 HC Hlen. cbv zeta.
  rewrite riscvNetRestore_eq.
  destruct (restoredFields_inputs cxt r) as (Iip & Inv & Icfg & Icsr & Im & Ipc & Isw & Idm).
  destruct (restoredFields_frame cxt r) as (Fipe & FD & _).
  unfold riscvNetSave in Hsave. injection Hsave as <-.
  cbn [sv_ip sv_netValue sv_cliccfg] in Iip, Inv, Icfg.
  revert Iip Inv Icfg Icsr Im Ipc Isw Idm Fipe FD.
  generalize (restoredFields
                {| sv_ip := firstn (Z.to_nat (ipDWords r0)) (ip r0);
                   sv_netValue := netValue r0;
                   sv_intState := if basicICPresent r0 then Some (intState r0) else None;
                   sv_cliccfg := if CLICPresent r0 then Some (clic_cliccfg r0) else None;
                   sv_clic_intState :=
                     if CLICPresent r0
                     then Some (firstn (Z.to_nat (getIntNum r0)) (clic_intState r0))
                     else None |} r).
  intros x Iip Inv Icfg Icsr Im Ipc Isw Idm Fipe FD.
  assert (Hy : eraseIPE (if CLICPresent r then refreshCLICIPE x else x) = eraseIPE x).
  { destruct (CLICPresent r); [|reflexivity].
    apply refreshCLICIPE_spec. now rewrite Fipe, FD. }
  revert Hy. generalize (if CLICPresent r then refreshCLICIPE x else x). intros y Hy.
  pose proof (eraseCLIC_testInterrupt y) as Ht.
  revert Ht. generalize (riscvTestInterrupt y). intros z Ht.
  split.
  { intros k Hk.
    transitivity (getAt 0 (ip x) k).
    - f_equal. transitivity (ip y); [keep_by Ht|keep_ipe Hy].
    - rewrite Iip, <- HD. apply getAt_restoreArray; [lia|exact Hlen0]. }
  split; [transitivity (netValue y); [keep_by Ht|];
          transitivity (netValue x); [keep_ipe Hy|exact Inv]|].
  split.
  { intros HCr. transitivity (clic_cliccfg y); [keep_by Ht|].
    transitivity (clic_cliccfg x); [keep_ipe Hy|].
    rewrite Icfg, HCr. rewrite HCr in HC. now rewrite HC. }
  split; [transitivity (csr y); [keep_by Ht|];
          transitivity (csr x); [keep_ipe Hy|exact Icsr]|].
  split; [transitivity (mode y); [keep_by Ht|];
          transitivity (mode x); [keep_ipe Hy|exact Im]|].
  split; [transitivity (PC y); [keep_by Ht|];
          transitivity (PC x); [keep_ipe Hy|exact Ipc]|].
  split; [transitivity (swip y); [keep_by Ht|];
          transitivity (swip x); [keep_ipe Hy|exact Isw]|].
  split; [unfold inDebugMode; transitivity (DM y); [keep_by Ht|];
          transitivity (DM x); [keep_ipe Hy|exact Idm]|].
  intros phase Hp. destruct phase; try contradiction; split; reflexivity.
Qed.

Lemma save_restore_inputs_witness :
  riscvNetSave hartArb SRT_END_CORE = Some savedArb /\
  netValue (riscvNetRestore savedArb SRT_END_CORE hart0) = netValue hartArb.
Proof.
  assert (H1 : riscvNetSave hartArb SRT_END_CORE = Some savedArb)
    by (vm_compute; reflexivity).
  assert (H2 : ipDWords hartArb = ipDWords hart0) by reflexivity.
  assert (H3 : (Z.to_nat (ipDWords hartArb) <= length (ip hartArb))%nat)
    by (vm_compute; lia).
  assert (H4 : CLICPresent hartArb = CLICPresent hart0) by reflexivity.
  assert (H5 : length (clic_ipe hart0) = Z.to_nat (ipDWords hart0)) by reflexivity.
  split; [exact H1|].
  exact (proj1 (proj2 (save_restore_inputs hartArb hart0 savedArb H1 H2 H3 H4 H5))).
Defined.

(** ** Presentation of the selected CLIC interrupt *)

Definition threshOf (X : Z) : CSR :=
  if X =? RISCV_MODE_USER then uintthresh
  else if X =? RISCV_MODE_SUPERVISOR then sintthresh
  else mintthresh.

(** Whether the interrupt selected by the CLIC is presented to the hart:
    the conditions under which [refreshPendingAndEnabledCLIC] replaces
    the candidate of the basic controller. *)
Definition CLICPresented (hart : riscv) (sel : riscvCLICSel) : bool :=
  let X := sel_priv sel in
  negb (sel_id sel =? RV_NO_INT) &&
  (pe_priv (pendEnab hart) <=? X) && (mode hart <=? X) &&
  ((X =? RISCV_MODE_MACHINE) || (X =? RISCV_MODE_SUPERVISOR) || (X =? RISCV_MODE_USER)) &&
  useCLICOf hart X &&
  truthy (RD_CSR_FIELD hart mstatus (tIE (regsOf X))) &&
  ((mode hart <? X) ||
   ((sel_level sel >? RD_CSR_FIELD hart mintstatus (til (regsOf X))) &&
    (sel_level sel >? RD_CSR_FIELD hart (threshOf X) F.th))).

Lemma pendEnab_refreshCLIC hart :
  let h' := refreshPendingAndEnabledCLIC hart in
  let sel := clic_sel h' in
  pendEnab h' =
    (if CLICPresented hart sel
     then mkPendEnab (sel_id sel) (sel_priv sel) (sel_level sel) true
     else pendEnab hart).
Proof.
  cbv zeta. rewrite clic_sel_refreshCLIC.
  unfold refreshPendingAndEnabledCLIC.
  rewrite (scanCLIC_ext (set_clic_sel (mkCLICSel RV_NO_INT 0 0 false) hart) hart)
    by reflexivity.
  cbv zeta. generalize (snd (scanCLIC hart)). intros id.
  destruct (id =? RV_NO_INT) eqn:Eid; cbn [negb].
  - unfold CLICPresented. cbn [sel_id]. change (RV_NO_INT =? RV_NO_INT) with true.
    cbn [negb andb].
    now destruct (debugExcept _); [destruct (negb _)|].
  - change (getCLICInterruptMode (set_clic_sel ?s hart) id)
      with (getCLICInterruptMode hart id).
    change (getCLICInterruptField (set_clic_sel ?s hart) id ?t)
      with (getCLICInterruptField hart id t).
    change (getCLICInterruptAttr (set_clic_sel ?s hart) id)
      with (getCLICInterruptAttr hart id).
    unfold CLICPresented. cbn [sel_id sel_priv sel_level]. rewrite Eid. cbn [negb andb].
    hart_simpl.
    generalize (CLICLevel (rdField F.nlbits (clic_cliccfg hart))
                  (getCLICInterruptField hart id CIT_clicintctl)).
    generalize (truthy (rdField F.attr_shv (getCLICInterruptAttr hart id))).
    generalize (getCLICInterruptMode hart id). intros priv shv level.
    unfold getCurrentMode, PRESENT_INT_CLIC, useCLICM, useCLICS, useCLICU,
      RD_CSR_FIELD, RD_CSR.
    hart_simpl.
    assert (G : forall a b, (a >? b) = negb (a <=? b)).
    { intros a b. rewrite Z.gtb_ltb.
      destruct (Z.ltb_spec b a), (Z.leb_spec a b); try reflexivity; lia. }
    rewrite (G (pe_priv (pendEnab hart)) priv), (G (mode hart) priv). clear G.
    destruct (pe_priv (pendEnab hart) <=? priv); cbn [negb andb];
      [|now destruct (debugExcept _); [destruct (negb _)|]].
    destruct (mode hart <=? priv); cbn [negb andb];
      [|now destruct (debugExcept _); [destruct (negb _)|]].
    destruct (Z.eqb_spec priv RISCV_MODE_MACHINE) as [->|HM].
    { change (useCLICOf hart RISCV_MODE_MACHINE) with (useCLICM hart).
      change (regsOf RISCV_MODE_MACHINE) with regsM.
      change (threshOf RISCV_MODE_MACHINE) with mintthresh.
      cbn [tIE til regsM orb andb]. unfold useCLICM, RD_CSR_FIELD, RD_CSR.
      cbv beta iota.
      match goal with
      | |- _ = if ?b then _ else _ => destruct b
      end; now destruct (debugExcept _); [destruct (negb _)|]. }
    destruct (Z.eqb_spec priv RISCV_MODE_SUPERVISOR) as [->|HS].
    { change (useCLICOf hart RISCV_MODE_SUPERVISOR) with (useCLICS hart).
      change (regsOf RISCV_MODE_SUPERVISOR) with regsS.
      change (threshOf RISCV_MODE_SUPERVISOR) with sintthresh.
      cbn [tIE til regsS orb andb]. unfold useCLICS, RD_CSR_FIELD, RD_CSR.
      cbv beta iota.
      match goal with
      | |- _ = if ?b then _ else _ => destruct b
      end; now destruct (debugExcept _); [destruct (negb _)|]. }
    destruct (Z.eqb_spec priv RISCV_MODE_USER) as [->|HU].
    { change (useCLICOf hart RISCV_MODE_USER) with (useCLICU hart).
      change (regsOf RISCV_MODE_USER) with regsU.
      change (threshOf RISCV_MODE_USER) with uintthresh.
      cbn [tIE til regsU orb andb]. unfold useCLICU, RD_CSR_FIELD, RD_CSR.
      cbv beta iota.
      match goal with
      | |- _ = if ?b then _ else _ => destruct b
      end; now destruct (debugExcept _); [destruct (negb _)|]. }
    cbn [orb andb].
    now destruct (debugExcept _); [destruct (negb _)|].
Qed.

Lemma selectBasic_isCLIC fuel r pe id sel :
  pe_isCLIC sel = false -> pe_isCLIC (selectBasic fuel r pe id sel) = false.
Proof.
  revert pe id sel. induction fuel as [|fuel IH]; intros pe id sel H; simpl; [exact H|].
  assert (Ht : pe_isCLIC (if truthy (Z.land pe 1) then tryBasic r id sel else sel) = false).
  { destruct (truthy (Z.land pe 1)); [|exact H]. unfold tryBasic. cbv zeta.
    repeat match goal with
           | |- context [if ?b then _ else _] => destruct b
           end; try reflexivity; exact H. }
  destruct (truthy (Z.shiftr pe 1)); [apply IH|]; exact Ht.
Qed.

(** What [CLICPresented] demands. *)
Lemma CLICPresented_true hart sel :
  CLICPresented hart sel = true ->
  let X := sel_priv sel in
  sel_id sel <> RV_NO_INT /\
  pe_priv (pendEnab hart) <= X /\ mode hart <= X /\
  (X = RISCV_MODE_MACHINE \/ X = RISCV_MODE_SUPERVISOR \/ X = RISCV_MODE_USER) /\
  useCLICOf hart X = true /\
  RD_CSR_FIELD hart mstatus (tIE (regsOf X)) <> 0 /\
  (mode hart = X ->
   RD_CSR_FIELD hart mintstatus (til (regsOf X)) < sel_level sel /\
   RD_CSR_FIELD hart (threshOf X) F.th < sel_level sel).
Proof.
  unfold CLICPresented. cbv zeta. intros H.
  repeat match type of H with
         | _ && _ = true => apply andb_prop in H; destruct H as [H ?]
         end.
  repeat match goal with
         | H : negb _ = true |- _ => apply negb_true_iff in H
         | H : (_ =? _) = false |- _ => apply Z.eqb_neq in H
         | H : (_ <=? _) = true |- _ => apply Z.leb_le in H
         end.
  split; [assumption|]. split; [assumption|]. split; [assumption|].
  split.
  { match goal with H : _ || _ || _ = true |- _ =>
      apply orb_prop in H; destruct H as [H|H]; [apply orb_prop in H; destruct H as [H|H]|];
      apply Z.eqb_eq in H; auto
    end. }
  split; [assumption|].
  split.
  { match goal with H : truthy _ = true |- _ =>
      unfold truthy in H; apply negb_true_iff, Z.eqb_neq in H; exact H
    end. }
  intros Hm.
  match goal with H : (_ <? _) || _ = true |- _ =>
    apply orb_prop in H; destruct H as [H|H]; [apply Z.ltb_lt in H; lia|];
    apply andb_prop in H; destruct H as [Ha Hb];
    rewrite Z.gtb_ltb in Ha, Hb; apply Z.ltb_lt in Ha, Hb; split; assumption
  end.
Qed.

Lemma CLICPresented_ext h1 h2 sel :
  pendEnab h1 = pendEnab h2 -> mode h1 = mode h2 -> csr h1 = csr h2 ->
  CLICPresented h1 sel = CLICPresented h2 sel.
Proof.
  intros Hp Hm Hc.
  unfold CLICPresented, useCLICOf, useCLICM, useCLICS, useCLICU, RD_CSR_FIELD, RD_CSR.
  now rewrite Hp, Hm, Hc.
Qed.

Lemma refreshPendingAndEnabled_stages r :
  refreshPendingAndEnabled r =
  let x := set_pendEnab (mkPendEnab RV_NO_INT 0 0 false) r in
  let b := if basicICPresent r then refreshPendingAndEnabledBasic x else x in
  if CLICPresent r then refreshPendingAndEnabledCLIC b else b.
Proof.
  unfold refreshPendingAndEnabled. cbv zeta.
  change (basicICPresent (set_pendEnab ?p r)) with (basicICPresent r).
  assert (H : forall y, eraseArb y = eraseArb r -> CLICPresent y = CLICPresent r).
  { intros y Hy. unfold CLICPresent. f_equal. f_equal. keep_arb Hy. }
  destruct (basicICPresent r).
  - rewrite H; [reflexivity|]. now rewrite eraseArb_refreshBasic.
  - reflexivity.
Qed.

(** When the interrupt that the CLIC selected is presented to the hart.
    [refreshPendingAndEnabledCLIC] replaces the candidate of the basic
    controller exactly when an interrupt is selected, its mode is not below
    the mode of that candidate nor below the current mode, that mode
    operates in CLIC mode with its interrupt enable set in mstatus, and -
    unless the hart runs in a lower mode - the level of the interrupt is
    above both the current interrupt level and the threshold of that mode.
    It writes no register.  So an interrupt of the CLIC that is pending and
    enabled after a re-arbitration never targets a mode below the current
    one and, within the current mode, always has a level above
    xintstatus.xil and xintthresh.th. *)
Theorem clic_presentation (hart : riscv) :
  (let h' := refreshPendingAndEnabledCLIC hart in
   let sel := clic_sel h' in
   pendEnab h' =
     (if CLICPresented hart sel
      then mkPendEnab (sel_id sel) (sel_priv sel) (sel_level sel) true
      else pendEnab hart) /\
   csr h' = csr hart /\ mode h' = mode hart) /\
  (CLICPresent hart = true ->
   let h' := refreshPendingAndEnabled hart in
   let p := pendEnab h' in
   let X := pe_priv p in
   pe_isCLIC p = true ->
   pe_id p = sel_id (clic_sel h') /\ pe_id p <> RV_NO_INT /\
   X = sel_priv (clic_sel h') /\ pe_level p = sel_level (clic_sel h') /\
   mode hart <= X /\
   (X = RISCV_MODE_MACHINE \/ X = RISCV_MODE_SUPERVISOR \/ X = RISCV_MODE_USER) /\
   useCLICOf hart X = true /\
   RD_CSR_FIELD hart mstatus (tIE (regsOf X)) <> 0 /\
   (mode hart = X ->
    RD_CSR_FIELD hart mintstatus (til (regsOf X)) < pe_level p /\
    RD_CSR_FIELD hart (threshOf X) F.th < pe_level p)).
Proof.
  split.
  - cbv zeta. split; [apply pendEnab_refreshCLIC|].
    pose proof (eraseArb_refreshCLIC hart) as H.
    revert H. generalize (refreshPendingAndEnabledCLIC hart). intros y H.
    split; keep_arb H.
  - intros HC. cbv zeta. rewrite refreshPendingAndEnabled_stages. cbv zeta. rewrite HC.
    set (x := set_pendEnab (mkPendEnab RV_NO_INT 0 0 false) hart).
    assert (Hb : let b := if basicICPresent hart
                          then refreshPendingAndEnabledBasic x else x in
                 pe_isCLIC (pendEnab b) = false /\ mode b = mode hart /\
                 csr b = csr hart).
    { cbv zeta. destruct (basicICPresent hart).
      - split.
        + rewrite pendEnab_refreshBasic. cbv zeta.
          destruct (truthy _); [apply selectBasic_isCLIC|]; reflexivity.
        + pose proof (eraseArb_refreshBasic x) as H.
          revert H. generalize (refreshPendingAndEnabledBasic x). intros y H.
          split; [transitivity (mode x); [keep_arb H|reflexivity]
                 |transitivity (csr x); [keep_arb H|reflexivity]].
      - split; [reflexivity|split; reflexivity]. }
    cbv zeta in Hb. destruct Hb as (Hcl & Hm & Hc). revert Hcl Hm Hc.
    generalize (if basicICPresent hart then refreshPendingAndEnabledBasic x else x).
    clear x. intros b Hcl Hm Hc.
    rewrite (pendEnab_refreshCLIC b).
    generalize (clic_sel (refreshPendingAndEnabledCLIC b)). intros sel.
    destruct (CLICPresented b sel) eqn:E; [|intros Hp; rewrite Hcl in Hp; discriminate].
    intros _. cbn [pe_id pe_priv pe_level].
    destruct (CLICPresented_true b sel E) as (P1 & _ & P3 & P4 & P5 & P6 & P7).
    split; [reflexivity|]. split; [exact P1|]. split; [reflexivity|].
    split; [reflexivity|]. rewrite <- Hm. split; [exact P3|]. split; [exact P4|].
    unfold useCLICOf, useCLICM, useCLICS, useCLICU, RD_CSR_FIELD, RD_CSR in *.
    rewrite <- Hc. split; [exact P5|]. split; [exact P6|exact P7].
Qed.

Lemma clic_presentation_witness :
  CLICPresent hartSHV = true /\
  pe_isCLIC (pendEnab (refreshPendingAndEnabled hartSHV)) = true /\
  mode hartSHV <= pe_priv (pendEnab (refreshPendingAndEnabled hartSHV)).
Proof.
  assert (H1 : CLICPresent hartSHV = true) by reflexivity.
  assert (H2 : pe_isCLIC (pendEnab (refreshPendingAndEnabled hartSHV)) = true)
    by (vm_compute; reflexivity).
  split; [exact H1|]. split; [exact H2|].
  exact (proj1 (proj2 (proj2 (proj2 (proj2
           (proj2 (clic_presentation hartSHV) H1 H2)))))).
Defined.

(** ** Acknowledgement of interrupts by the trap *)

Lemma riscvAcknowledgeCLICInt_fields i hart :
  0 <= i -> (Z.to_nat i < length (clic_intState hart))%nat ->
  let h' := riscvAcknowledgeCLICInt i hart in
  getCLICInterruptPending h' i =
    (if truthy (Z.land (rdField F.attr_trig (getCLICInterruptAttr hart i)) 1)
     then false else getCLICInterruptPending hart i) /\
  (forall j t, 0 <= j -> j <> i \/ t <> CIT_clicintip ->
     getCLICInterruptField h' j t = getCLICInterruptField hart j t).
Proof.
  intros Hi Hlen. unfold riscvAcknowledgeCLICInt. cbv zeta.
  destruct (truthy (Z.land (rdField F.attr_trig (getCLICInterruptAttr hart i)) 1)).
  - destruct (writeCLICInterruptPending_fields i 0 hart Hi Hlen) as (W1 & W2).
    split; [exact W1|exact W2].
  - pose proof (eraseArb_refresh hart) as H.
    assert (Hs : clic_intState (refreshPendingAndEnabled hart) = clic_intState hart)
      by keep_arb H.
    unfold getCLICInterruptPending, getCLICInterruptField. rewrite Hs.
    split; reflexivity.
Qed.

(** A trap whose handler is not fetched from the CLIC vector table leaves
    the per-interrupt state of the CLIC alone. *)
Lemma plain_trap_intState e tval r h :
  inDebugMode r = false ->
  plainHandler e (sel_shv (clic_sel r)) (snd (fst (trapEntry e tval r)))
    (snd (trapEntry e tval r)) = Some h ->
  clic_intState (riscvTakeException e tval r) = clic_intState r.
Proof.
  intros HDM Hp. rewrite (riscvTakeException_plain e tval r h HDM Hp).
  destruct (trapEntry_frame e tval r) as (_ & Hst & _).
  revert Hst. generalize (fst (fst (trapEntry e tval r))). intros r3 Hst.
  unfold enterHandler.
  pose proof (eraseArb_notifyTrap (trapModeX e r) (vmirtSetPCException h r3)) as H.
  revert H. generalize (notifyTrap (trapModeX e r) (vmirtSetPCException h r3)).
  intros y H. rewrite <- Hst.
  transitivity (clic_intState (vmirtSetPCException h r3)); [keep_arb H|reflexivity].
Qed.

(** The interrupt mode in which a trap to the mode that [trapModeX]
    selects is taken. *)
Definition trapIMode (e : Z) (r : riscv) : Z :=
  let X := trapModeX e r in
  getIMode (XIModeOf X r) (RD_CSR_FIELD r (ttvec (regsOf X)) F.MODE).

(** Whether the trap fetches its handler from the CLIC vector table. *)
Definition trapIsSHV (e : Z) (r : riscv) : bool :=
  isInterrupt e && (trapIMode e r =? riscv_int_CLIC) && sel_shv (clic_sel r).

Lemma plainHandler_trapIsSHV e tval r :
  match plainHandler e (sel_shv (clic_sel r)) (snd (fst (trapEntry e tval r)))
          (snd (trapEntry e tval r)) with
  | Some _ => trapIsSHV e r = false
  | None => trapIsSHV e r = true
  end.
Proof.
  destruct (trapEntry_spec e tval r) as (_ & _ & _ & _ & _ & _ & Hm & _).
  cbv zeta in Hm. unfold trapIsSHV, trapIMode. cbv zeta. rewrite <- Hm.
  generalize (snd (trapEntry e tval r)) (snd (fst (trapEntry e tval r))).
  intros m b. unfold plainHandler.
  destruct (isInterrupt e); cbn [negb orb andb].
  - destruct (Z.eqb_spec m riscv_int_Direct) as [->|Hd]; [reflexivity|].
    destruct (m =? riscv_int_CLIC); cbn [negb andb]; [|reflexivity].
    destruct (sel_shv (clic_sel r)); reflexivity.
  - rewrite orb_true_r. reflexivity.
Qed.

(** A trap that fetches its handler from the vector table leaves the
    per-interrupt state as the acknowledge of the interrupt left it, also
    when the fetch of the vector raises an exception of its own. *)
Lemma shv_trap_intState e tval r :
  inDebugMode r = false ->
  plainHandler e (sel_shv (clic_sel r)) (snd (fst (trapEntry e tval r)))
    (snd (trapEntry e tval r)) = None ->
  clic_intState (riscvTakeException e tval r) =
  clic_intState (riscvAcknowledgeCLICInt (getExceptionCode e)
                   (fst (fst (trapEntry e tval r)))).
Proof.
  intros HDM Hp.
  assert (H5 : clic_intState (shvBeforeRead e tval r) =
               clic_intState (riscvAcknowledgeCLICInt (getExceptionCode e)
                                (fst (fst (trapEntry e tval r))))) by reflexivity.
  rewrite <- H5. clear H5.
  destruct (shv_delivery e tval r HDM Hp) as [(Hq & _ & ->) | (e' & x & He' & Hq & HDx & -> & _)].
  - destruct Hq as (Hq & _).
    revert Hq. generalize (snd (shvRead e tval r)) (shvBeforeRead e tval r).
    intros y r5 Hq. unfold enterHandler.
    pose proof (eraseArb_notifyTrap (trapModeX e r)
                  (vmirtSetPCException (Z.land (fst (shvRead e tval r)) (-2))
                     (WR_CSR_FIELD (tcause (regsOf (trapModeX e r))) F.inhv 0 y))) as H.
    revert H.
    generalize (notifyTrap (trapModeX e r)
                  (vmirtSetPCException (Z.land (fst (shvRead e tval r)) (-2))
                     (WR_CSR_FIELD (tcause (regsOf (trapModeX e r))) F.inhv 0 y))).
    intros z H.
    transitivity (clic_intState y); [|keep_read Hq].
    transitivity (clic_intState
                    (vmirtSetPCException (Z.land (fst (shvRead e tval r)) (-2))
                       (WR_CSR_FIELD (tcause (regsOf (trapModeX e r))) F.inhv 0 y)));
      [keep_arb H|reflexivity].
  - destruct Hq as (Hq & _).
    assert (Hs : isInterrupt e' = false) by (destruct He' as [-> | ->]; reflexivity).
    rewrite <- (riscvTakeExceptionN_sync 1 e' (shvAddress e tval r) x Hs).
    change (riscvTakeExceptionN 2 e' (shvAddress e tval r) x)
      with (riscvTakeException e' (shvAddress e tval r) x).
    revert Hq HDx. generalize (shvBeforeRead e tval r) (shvAddress e tval r).
    intros r5 a Hq HDx.
    rewrite (plain_trap_intState e' a x _ HDx (plainHandler_sync e' _ _ _ Hs)).
    keep_read Hq.
Qed.

(** Which traps acknowledge their interrupt.  Only a trap that fetches its
    handler from the CLIC vector table - an interrupt taken in CLIC mode
    with selective hardware vectoring - touches the per-interrupt state of
    the CLIC: it clears the pending bit of its interrupt when that is edge
    triggered and changes nothing else, also when the fetch of the vector
    faults.  Every other trap leaves the pending bits to the handler. *)
Theorem trap_acknowledges_shv_interrupt (e tval : Z) (r : riscv) :
  inDebugMode r = false ->
  let i := getExceptionCode e in
  let r' := riscvTakeException e tval r in
  (trapIsSHV e r = false -> clic_intState r' = clic_intState r) /\
  (trapIsSHV e r = true -> 0 <= i -> (Z.to_nat i < length (clic_intState r))%nat ->
   getCLICInterruptPending r' i =
     (if truthy (Z.land (rdField F.attr_trig (getCLICInterruptAttr r i)) 1)
      then false else getCLICInterruptPending r i) /\
   (forall j t, 0 <= j -> j <> i \/ t <> CIT_clicintip ->
      getCLICInterruptField r' j t = getCLICInterruptField r j t)).
Proof.
  intros HDM. cbv zeta.
  pose proof (plainHandler_trapIsSHV e tval r) as Hp.
  destruct (plainHandler e (sel_shv (clic_sel r)) (snd (fst (trapEntry e tval r)))
              (snd (trapEntry e tval r))) as [h|] eqn:E.
  - split; [intros _; exact (plain_trap_intState e tval r h HDM E)|].
    intros H. rewrite Hp in H. discriminate.
  - split; [intros H; rewrite Hp in H; discriminate|].
    intros _ Hi Hlen.
    pose proof (shv_trap_intState e tval r HDM E) as Hs.
    destruct (trapEntry_frame e tval r) as (_ & Hst & _).
    revert Hs Hst. generalize (fst (fst (trapEntry e tval r))). intros r3 Hs Hst.
    destruct (riscvAcknowledgeCLICInt_fields (getExceptionCode e) r3 Hi
                ltac:(now rewrite Hst)) as (A1 & A2).
    revert A1 A2 Hs.
    generalize (riscvAcknowledgeCLICInt (getExceptionCode e) r3).
    generalize (riscvTakeException e tval r). intros r' y A1 A2 Hs.
    unfold getCLICInterruptPending, getCLICInterruptAttr, getCLICInterruptField in *.
    rewrite Hs. rewrite Hst in A1, A2. split; [exact A1|exact A2].
Qed.

Lemma trap_acknowledges_shv_interrupt_witness :
  inDebugMode hartSHVmem = false /\
  trapIsSHV (intToException 40) hartSHVmem = true /\
  getCLICInterruptPending (riscvTakeException (intToException 40) 0 hartSHVmem) 40 =
  getCLICInterruptPending hartSHVmem 40.
Proof.
  assert (H1 : inDebugMode hartSHVmem = false) by reflexivity.
  assert (H2 : trapIsSHV (intToException 40) hartSHVmem = true)
    by (vm_compute; reflexivity).
  assert (H3 : (Z.to_nat (getExceptionCode (intToException 40))
                < length (clic_intState hartSHVmem))%nat) by (vm_compute; lia).
  split; [exact H1|]. split; [exact H2|].
  exact (proj1 (proj2 (trap_acknowledges_shv_interrupt (intToException 40) 0
                         hartSHVmem H1) H2 ltac:(vm_compute; discriminate) H3)).
Defined.

(** ** Stalling in Debug mode *)

Definition riscvSetDMStall (DMStall : bool) (r : riscv) : riscv :=
  updateDMStall DMStall r.

Lemma updateDMStall_spec b r :
  let r' := updateDMStall b r in
  (debug_mode (configInfo r) = RVDM_HALT ->
   DMStall r' = b /\ DM r' = DM r /\
   disable r' =
     (if b then Z.lor (disable r) RVD_DEBUG
      else Z.land (disable r) (Z.lnot RVD_DEBUG))) /\
  (debug_mode (configInfo r) <> RVDM_HALT -> r' = r).
Proof.
  cbv zeta. unfold updateDMStall.
  destruct (debug_mode (configInfo r)); try (split; [discriminate|reflexivity]).
  split; [intros _|contradiction].
  destruct b.
  - destruct (haltProcessor_spec RVD_DEBUG (set_DMStall true r)) as (H1 & H2 & _).
    revert H1 H2. generalize (haltProcessor RVD_DEBUG (set_DMStall true r)).
    intros y H1 H2.
    split; [transitivity (DMStall (set_DMStall true r)); [keep_arb H2|reflexivity]|].
    split; [transitivity (DM (set_DMStall true r)); [keep_arb H2|reflexivity]|].
    exact H1.
  - destruct (restartProcessor_spec RVD_DEBUG (set_DMStall false r)) as (H1 & _).
    pose proof (eraseArb_restartProcessor RVD_DEBUG (set_DMStall false r)) as H2.
    revert H1 H2. generalize (restartProcessor RVD_DEBUG (set_DMStall false r)).
    intros y H1 H2.
    split; [transitivity (DMStall (set_DMStall false r)); [keep_arb H2|reflexivity]|].
    split; [transitivity (DM (set_DMStall false r)); [keep_arb H2|reflexivity]|].
    exact H1.
Qed.

(** On a hart whose Debug mode halts it (debug_mode HALT) the hart is
    stalled exactly while it is in Debug mode: entry to Debug mode sets the
    stall flag and adds the debug reason to the reasons for which the hart
    is halted, leaving the PC where it was; leaving Debug mode clears the
    flag and removes the debug reason.  With any other debug_mode the stall
    indication is never written. *)
Theorem debug_halt_mode_stalls (r : riscv) :
  (debug_mode (configInfo r) = RVDM_HALT ->
   (forall cause,
      let r' := enterDM cause r in
      inDebugMode r' = true /\ DMStall r' = true /\
      disable r' = Z.lor (disable r) RVD_DEBUG /\ disable r' <> 0 /\ PC r' = PC r) /\
   (let r' := leaveDM r in
    inDebugMode r' = false /\ DMStall r' = false /\
    Z.land (disable r') RVD_DEBUG = 0) /\
   (forall s,
      let r' := riscvSetDMStall s r in
      DMStall r' = s /\
      disable r' =
        (if s then Z.lor (disable r) RVD_DEBUG
         else Z.land (disable r) (Z.lnot RVD_DEBUG)))) /\
  (debug_mode (configInfo r) <> RVDM_HALT ->
   (forall s, riscvSetDMStall s r = r) /\
   (forall cause, DMStall (enterDM cause r) = DMStall r /\
                  disable (enterDM cause r) = disable r)).
Proof.
  split.
  - intros Hh. split; [|split].
    + intros cause. cbv zeta.
      destruct (enterDM_inputs cause r) as (HDM & _).
      split; [exact HDM|]. clear HDM.
      unfold enterDM. cbv zeta.
      set (x := if negb (inDebugMode r) then _ else r).
      assert (Hx : configInfo x = configInfo r /\ disable x = disable r /\ PC x = PC r)
        by (subst x; destruct (negb (inDebugMode r));
            (split; [reflexivity|split; reflexivity])).
      destruct Hx as (Hc & Hd & Hpc). clearbody x. rewrite Hc, Hh.
      destruct (updateDMStall_spec true x) as (H & _). cbv zeta in H.
      rewrite Hc in H. destruct (H Hh) as (H1 & _ & H3).
      destruct (updateDMStall_frame true x) as (_ & H4).
      rewrite H1, H3, H4, Hd, Hpc.
      split; [reflexivity|]. split; [reflexivity|]. split; [|reflexivity].
      intros E. apply (f_equal (fun z => Z.testbit z 2)) in E.
      rewrite Z.lor_spec in E. rewrite orb_true_r in E. discriminate.
    + cbv zeta. rewrite leaveDM_eq.
      destruct (leaveDMRegs_spec r) as (L1 & _ & L3 & _).
      revert L1 L3. generalize (leaveDMRegs r). intros x L1 L3.
      destruct (doERETCommon_spec RISCV_MODE_MACHINE (RD_CSR_FIELD r dcsr F.prv)
                  (RD_CSR x dpc) x) as (_ & _ & _ & _ & DDM & Dcfg & _).
      revert DDM Dcfg.
      generalize (doERETCommon RISCV_MODE_MACHINE (RD_CSR_FIELD r dcsr F.prv)
                    (RD_CSR x dpc) x).
      intros y DDM Dcfg. unfold riscvPostInhibit.
      destruct (updateDMStall_spec false y) as (H & _). cbv zeta in H.
      rewrite Dcfg, L3 in H. destruct (H Hh) as (H1 & H2 & H3).
      unfold inDebugMode. rewrite H1, H2, H3, DDM, L1.
      split; [reflexivity|]. split; [reflexivity|].
      rewrite <- Z.land_assoc, (Z.land_comm (Z.lnot RVD_DEBUG)), Z.land_lnot_diag.
      apply Z.land_0_r.
    + intros s. cbv zeta. unfold riscvSetDMStall.
      destruct (updateDMStall_spec s r) as (H & _). cbv zeta in H.
      destruct (H Hh) as (H1 & _ & H3). split; assumption.
  - intros Hn. split.
    + intros s. unfold riscvSetDMStall.
      destruct (updateDMStall_spec s r) as (_ & H). exact (H Hn).
    + intros cause. unfold enterDM. cbv zeta.
      set (x := if negb (inDebugMode r) then _ else r).
      assert (Hx : configInfo x = configInfo r /\ disable x = disable r /\
                   DMStall x = DMStall r)
        by (subst x; destruct (negb (inDebugMode r));
            (split; [reflexivity|split; reflexivity])).
      destruct Hx as (Hc & Hd & Hs). clearbody x. rewrite Hc.
      destruct (debug_mode (configInfo r)) eqn:E; try contradiction.
      * destruct (updateDMStall_spec true x) as (_ & H). cbv zeta in H.
        rewrite H by (rewrite Hc, E; discriminate). split; assumption.
      * split; assumption.
      * split; assumption.
Qed.

(** The reference hart configured to halt in Debug mode. *)
Definition configHalt : riscvConfig :=
  mkConfig (arch config0) (xlen config0) (priv_version config0) (tval_zero config0)
    (xret_preserves_lr config0) (ecode_nmi config0) (reset_address config0)
    (nmi_address config0) (debug_address config0) (dexc_address config0)
    RVDM_HALT (local_int_num config0) (unimp_int_mask config0)
    (CLICLEVELS config0)
    (CLICANDBASIC config0) (CLICCFGMBITS config0) (CLICSELHVEC config0)
    (CLICINTCTLBITS config0) (mepcMask config0) (sepcMask config0)
    (uepcMask config0) (vstartMask config0) (debugExcept config0) (verbose config0).

Definition hartHalt : riscv :=
  mkRiscv configHalt (mode hart0) (DM hart0) (DMStall hart0)
    (disable hart0) (PC hart0) (dsOffset hart0) (jumpBase hart0)
    (currentArch hart0) (csr hart0) (exclusiveTag hart0)
    (baseInstructions hart0) (baseCycles hart0) (AFErrorIn hart0)
    (AFErrorOut hart0) (exception hart0) (vFirstFault hart0)
    (PTWActive hart0) (PTWBadAddr hart0) (pendEnab hart0) (clic_sel hart0)
    (clic_intState hart0) (clic_ipe hart0) (clic_cliccfg hart0)
    (clic_clicinfo hart0) (clicState hart0) (intState hart0)
    (ipDWords hart0) (ip hart0) (swip hart0) (extInt hart0)
    (netValue hart0) (MIMode hart0) (SIMode hart0) (UIMode hart0)
    (extCBs hart0) (dataDomain hart0) (events hart0).

Lemma debug_halt_mode_stalls_witness :
  debug_mode (configInfo hartHalt) = RVDM_HALT /\
  DMStall (enterDM DMC_HALTREQ hartHalt) = true /\
  debug_mode (configInfo hart0) <> RVDM_HALT /\
  riscvSetDMStall true hart0 = hart0.
Proof.
  split; [reflexivity|]. split.
  - exact (proj1 (proj2 (proj1 (proj1 (debug_halt_mode_stalls hartHalt) eq_refl)
                           DMC_HALTREQ))).
  - assert (H : debug_mode (configInfo hart0) <> RVDM_HALT) by discriminate.
    split; [exact H|].
    exact (proj1 (proj2 (debug_halt_mode_stalls hart0) H) true).
Defined.
